(* ===== verification/_CoqProject ===== *)
-Q . S2P
Prelude.v
Table.v
Snowflake.v
Schema.v
Effects.v
Users.v
Registration.v
RegistrationProofs.v
RegistrationRefill.v
RegistrationTheorems.v
RegistrationRace.v
Stores.v
Conversations.v
Samples.v
ConversationProofs.v
ConversationTheorems.v
StoreProofs.v
Friendship.v
Outbox.v
OutboxWorker.v
OutboxProofs.v
OutboxTheorems.v
OutboxLeases.v
MsgService.v
MsgTheorems.v
Replies.v
Friends.v
FriendProofs.v
FriendTheorems.v
PairLocks.v
Groups.v
GroupProofs.v
GroupSpec.v
GroupSamples.v
GroupTheorems.v
GroupPages.v
Visibility.v
GroupTypes.v
Auth.v
AuthTheorems.v
KafkaConsumer.v
Gateway.v
GatewayProofs.v
Push.v
OfflineSync.v
OfflineProofs.v
OfflineTheorems.v
PushTheorems.v
Delivery.v
DeliveryTheorems.v
Session.v
ServiceFrames.v
SessionProofs.v
GatewayTheorems.v
Discovery.v
DiscoveryTheorems.v
Lifecycle.v
LifecycleProofs.v
LifecycleTheorems.v
KafkaControl.v
Startup.v
StartupTheorems.v
Pools.v
RedisCommands.v
MongoIndex.v
TraceContext.v
Interceptor.v
KafkaProducer.v
Workers.v
ThreadPool.v
