(* ===== verification/Prelude.v ===== *)
(** * Ape-Server: a verification development

    Ape-Server is an instant-messaging server written in C++20.  A gateway keeps
    one WebSocket session per client and calls gRPC services; the services run
    their transactions on MySQL, keep message bodies in MongoDB, cache them in
    Redis and hand identifiers to Kafka.  The correctness of the program is the
    correctness of its transactions, of what it does when any one round trip
    fails, and of the order in which it tells a client something and makes it
    durable.  This library models that core as executable functions and proves
    what they promise.

    ** How the parts interact

    A client registers and logs in ([Auth], [Registration], [Users]).  A single
    chat message goes from the gateway to the message service ([MsgService]),
    which writes it to the outbox inside a transaction that also checks the
    friendship ([Friendship], [Outbox]).  A worker claims the task under a lease
    ([OutboxWorker]), saves the body in MongoDB ([Stores]), records the message in
    both users' conversation lists ([Conversations]), caches it in Redis and
    publishes its identifier to Kafka.  A consumer takes the identifiers from Kafka,
    partition by partition and in order ([KafkaConsumer]), and hands them to the push
    service ([Push]), which delivers to the sessions of the gateway ([Gateway]); a
    user who logs in is sent what was missed ([OfflineSync]), and everything a
    client asks for passes through its session ([Session]).  Friend commands ([Friends]) and group
    commands ([Groups]) are transactions of their own; deleting a friend queues a
    task that removes the history of the chat.

    ** The files

    Foundations.
    - [Prelude]: machine integers with their conversions, strings as the code reads
      them (characters, decimal numbers, substrings), lists and options.
    - [Table]: a SQL table as a finite map from its primary key; pages, counts,
      maxima and tests of existence in key order.
    - [Schema]: the protobuf messages and one record per row of each table
      (the DDL strings of [src/storage/mysqlhandler.cpp]).
    - [Effects]: the world (committed database, open transaction, MongoDB, Redis,
      Kafka, clocks, identifiers, a schedule of failures) and the monad [M] of the
      handlers, with the frame and invariant calculus every component uses.
    - [Replies]: the monad of handlers that fill in a reply while they run.
    - [Samples], [GroupSamples]: concrete instances of the parameters and small
      worlds, on which the theorems are evaluated.

    Components; a definition has the name of the function it models.
    - [Snowflake]: [src/util/snowflake.cpp].
    - [Users]: the users table, [src/storage/mysqlhandler.cpp] 41-305.
    - [Registration] with [RegistrationProofs], [RegistrationRefill],
      [RegistrationTheorems]: [namespace mysql_registration] of the same file and
      [src/util/account_pool.cpp]; [RegistrationRace]: registrations at once.
    - [Auth], [AuthTheorems]: [src/services/auth_service/server.cpp].
    - [Stores], [StoreProofs]: [src/storage/mongohandler.cpp],
      [src/storage/redishandler.cpp] and [deliverConfirmed] of
      [src/messagequeue/kafkaproducer.cpp].
    - [Conversations], [ConversationProofs], [ConversationTheorems]: the summary
      tables of [mysqlhandler.cpp] and [src/services/conversation_service/server.cpp].
    - [Friendship], [Friends], [FriendProofs], [FriendTheorems], [PairLocks]: pair locks, the
      admission of messages, [ExecuteFriendCommand],
      [src/services/friend_service/server.cpp].
    - [Outbox], [OutboxWorker], [OutboxProofs], [OutboxTheorems]: the outbox of
      [mysqlhandler.cpp] and [src/services/msg_service/outbox_worker.cpp];
      [OutboxLeases]: the claims of several workers, statement by statement.
    - [MsgService], [MsgTheorems], [Visibility]:
      [src/services/msg_service/server.cpp].
    - [Groups], [GroupProofs], [GroupSpec], [GroupTheorems], [GroupPages],
      [GroupTypes]: [ExecuteGroupCommand] with its request cache, group numbers,
      delivery batches, [src/services/group_service/server.cpp].
    - [KafkaConsumer], [KafkaControl]: [src/messagequeue/kafkaconsumer.cpp]: the lanes
      and their workers; the settings, the consume loop and the destructor over them.
    - [Gateway], [GatewayProofs]: the session map, the write queue and the clean-up of
      a session, [src/gateway/ws_session_manager.cpp], [src/gateway/ws_session.cpp]
      and [src/services/gateway_push_service].
    - [Push], [PushTheorems]: [src/services/push_service].
    - [OfflineSync], [OfflineProofs], [OfflineTheorems]: the scan of offline messages
      and the acknowledgements, [src/gateway/ws_session.cpp] 784-904.
    - [Session], [ServiceFrames], [SessionProofs], [GatewayTheorems]: registration and
      log in over a WebSocket, the read loop with its requests and the service
      clients it calls, [src/gateway/ws_session.cpp] 46-712 and the [client.cpp] of
      each service.
    - [Delivery], [DeliveryTheorems]: the components of a chat message put together,
      from [SendMessages] to the receiver's session.
    - [Discovery], [DiscoveryTheorems]: [src/services/backbon_service] and
      [WebServer::discover_Service].
    - [Lifecycle], [LifecycleProofs], [LifecycleTheorems]:
      [include/services/base_service.h], the base class of every service, with its
      three threads and the answers from outside for which it waits without a
      deadline, and the waiting loops that [src/main.cpp] uses.
    - [Workers]: the owner's side of the outbox worker and of the group service's
      delivery: [Start], [Stop] and the coroutines' loops.
    - [ThreadPool]: [src/util/threadpool.cpp].
    - [Pools]: [include/util/ioc_pool.h] and the indices that the connectors draw.
    - [RedisCommands]: [src/storage/redisconnector.cpp], the commands behind the Redis
      operations of [Stores].
    - [MongoIndex]: the index of the message collection,
      [src/storage/mongoconnector.cpp].
    - [KafkaProducer]: [src/messagequeue/kafkaproducer.cpp], what the producer owns and
      the delivery that [Stores] uses as one step.
    - [TraceContext]: [src/om/otel_trace_propagation.cpp]; [Interceptor]: the span and
      the counters of a request, [src/om/otel_grpc_interceptor.cpp].
    - [Startup], [StartupTheorems]: [src/main.cpp] and [WebServer::init_and_listen].

    ** The model of failure

    Every round trip to a server (a statement, START TRANSACTION, COMMIT,
    ROLLBACK, taking a connection, a MongoDB, Redis or Kafka call) takes the next
    entry of the world's schedule [w_faults]: it succeeds, fails before its effect
    or fails after its effect took place.  A theorem over all worlds is a theorem
    over all schedules: lost replies, a COMMIT whose outcome is unknown, and
    services that are down are all instances.  A schedule that has run out means
    that nothing fails any more, which is the hypothesis of the progress theorems.
    An exception is a value of [exn]; [catch] is a try block.

    Statements act on the open transaction's copy of the database, which COMMIT
    publishes and ROLLBACK, or the end of the connection, forgets.  AUTO_INCREMENT
    counters are rolled back with the transaction (InnoDB leaves gaps; no proof
    uses that numbers have none).  The result of an UPDATE is the number of rows it
    changed.  Strings are compared bytewise.

    Handlers are run one at a time: the code takes row locks (the pair lock of two
    users, the row of a group, a request's key, rows of the outbox and of the pool FOR
    UPDATE) that make its transactions serial on the data they touch, and the model
    runs them serially.  That this is enough is proved where the locks are finer than
    one per transaction: for the claims of several outbox workers ([OutboxLeases]) and
    for registrations that run at once ([RegistrationRace]), statement by statement; what
    the lock of a pair protects, and for how long, is proved in [PairLocks].
    Interleaving is explicit where the code depends on it: the polling wait of [SendMessages] and the two phases of an outbox task
    run arbitrary other work between their steps, and a lease may be taken over in
    between.  The Kafka consumer (its consume loop, the rebalance callback, one
    worker per partition) and the coroutines of a session (scan, read loop, write
    loop, pushes, disconnection) are step relations: a step is what the code runs
    from one suspension point to the next, and the theorems are about every
    interleaving.  Two coarsenings: a turn of the scan that delivers a message is one
    step with its transaction, and a handler posted to a session's executor runs at
    once.

    The life cycle of a service is a step relation over the owner's thread, the server
    thread and the monitor thread; a step is the code between two accesses to what
    they share, and the calls to the backbone return, with success or without.  A
    confirmed delivery to Kafka is a step relation over its coroutine and the report
    that any polling thread may run.  [main] is a list of statements, each of which may
    throw, run with the life times of its locals; what a statement does inside is the
    model of its component.

    ** Bounds and fuel

    The busy wait of the identifier generator is bounded by [w_fuel]; [nextId_total]
    shows that as many readings as it takes the clock to move on are enough.  The
    polling loop of [SendMessages] is bounded by the number of its sleeps;
    [submit_terminates] shows that the eight seconds divided by the sleep are
    enough.  Running out of fuel is the outcome [OutOfFuel], which no try block
    catches, so it cannot be mistaken for a result.  The wait for a registration and the wait for a delivery report take as
    fuel one more than the number of their sleeps ([wait_registration_ends],
    [confirm_loop_ends]).  The three attempts of a
    registration and of a refill are the code's own bounds.  Everything else is
    structural recursion.

    ** What the theorems show

    - Registration: one committed registration per request and account, whatever
      fails, and however the statements of several registrations interleave; replaying a request returns the first result; a request identifier
      used again with other data is refused; without failures a registration
      succeeds; a refill adds free accounts and nothing else.
    - Identifiers: strictly increasing, and their bits decode to time, datacenter,
      worker and sequence.
    - Conversations: the unread counter counts the unread rows, under every operation
      and schedule; recording a message twice records it once; positions only move
      forward; the paged list is the specified slice.
    - Stores: a body is stored once and never overwritten, and is read back as it
      was saved; offline recovery returns the published, undelivered messages in
      order of sequence number.
    - Outbox: a message is dispatched only after its body and both conversation rows
      are committed; claims that interleave are atomic, and their leases do not
      overlap; a worker whose lease was taken over changes nothing; rows only
      move forward; a message sent twice is one task; a reply that reports success
      is about the sender's own task, past its first phase.
    - Friends: while a message is handled under the lock of its pair the two stay friends,
      whoever else runs; both directions of a friendship are stored or none, an application is
      handled once, deleting a friend clears the chat for both.
    - Groups: the tables keep their invariant under any history of commands; every
      command is a step of an abstract room (a refinement); a mutation is executed
      once however often it is retried; a page of the log has no gaps.
    - Authentication: the token of a successful login validates to the user who
      logged in.
    - Gateway: a session registered for an account is open and its first frame carried
      the account's credentials; a queue never exceeds its 256 frames; the end of a
      session removes only its own registration.
    - Delivery: a committed Kafka offset covers handled messages only; a consumer is
      done with an identifier only when nothing is left to dispatch; a push reaches
      only the receiver, and only a message that may be delivered; the end of the
      offline synchronisation is reported only when every message offered is
      acknowledged; an accepted acknowledgement is committed.
    - End to end: when nothing fails any more, a message sent between two friends is
      stored, recorded in both conversation lists, published, pushed to the receiver's
      session and confirmed ([send_delivers]).
    - Discovery: a registered service is found at its address until its lease ends; a
      look-up never invents an address; a user is reported online only with the
      online flag in Redis.
    - Life cycle: the state of a service tells the truth between two calls; [Stop]
      returns on every schedule on which the backbone answers and the requests in
      progress end, for nothing bounds its waits for them, and then leaves nothing
      running; a service that is started
      once and stopped after it registered never kills the process, and the runs that
      do otherwise are exhibited; stopping the background workers returns, and leaves
      no coroutine in its loop.
    - Threads: the thread pool runs every task once and in order, and [stop] drains it and
      returns once the tasks end, for one owner at a time, unless a task is put
      meanwhile or a thread could not be made, when it hangs.
    - Infrastructure: the indices that a connector draws exist for 2^31 draws, and not
      on the next;
      a task goes to a least-loaded worker; the message collection has its unique
      index before it is used; the state of a delivery report is freed once, and when nobody uses it;
      a trace context survives its text; a request has one span, ended with its status.
    - The process: whichever statement of [main] throws, nothing is destroyed under its
      users, but for the gateway's pool; the gateway serves last, and dials the ports on
      which its services listen; the Kafka consumer's destructor returns, whatever its
      threads are doing, and leaves none of them.

    The counter of Kafka assignments is a 64-bit integer that wraps in the model; the
    theorem on offsets is about runs of fewer than 2^64 steps.

    ** Parameters

    Code outside [src/] is a parameter: JSON and protobuf encoders ([Json],
    [Protobuf], [GroupProto], with the laws they are documented to have), SHA-256
    and the shuffle of the pool ([Digest], [Shuffle]), the digest of a password, the
    answer of Redis to TTL, the text of an exception.  [Samples] instantiates them.

    etcd is a map whose keys hang on leases, with the lease identifiers never reused
    and the leases that nobody renews expiring at any time ([Discovery]); Redis as the
    connector sees it is [Redis], with the documentation of the commands in use
    ([RedisOk]); MongoDB's createIndexes is a parameter of [MongoIndex]; librdkafka
    reports once on every message it takes ([KafkaProducer]); OpenTelemetry is
    [OpenTelemetry] in [TraceContext], its thread-local contexts are [RuntimeContext] in
    [Interceptor].

    ** Not modelled

    Times to live of Redis keys (a key that expires is a key that another step
    deletes), the columns [created_at] and [updated_at] where no code reads them,
    fields of [MsgData] that are only copied, logging, the exporters of traces and
    metrics (the rest of [src/om], which configures OpenTelemetry), the drivers and
    their connection pools, the threads and event loops of Boost.Asio, [RpcServer] of
    [start_server.h], which nothing uses, and code generated from the [.proto] files.
    Frames are messages, not bytes: TLS, the WebSocket protocol and its handshakes
    are not modelled, and the parsers of the protobuf payloads are parameters
    ([WsProto]). *)
From stdpp Require Export prelude gmap strings sorting.
From Stdlib Require Export Ascii ZArith Lia.

#[global] Open Scope Z_scope.
#[global] Set Default Proof Using "Type".

(** * Machine integers *)

(** [uint64_t] and [int64_t] values are kept as [Z]; the ranges and the
    conversions (static_cast) are written out. *)
Definition uint64_max : Z := 18446744073709551615.
Definition int64_max : Z := 9223372036854775807.
Definition int64_min : Z := -9223372036854775808.

Definition to_uint64 (z : Z) : Z := z mod 2 ^ 64.
Definition to_int64 (z : Z) : Z := (z + 2 ^ 63) mod 2 ^ 64 - 2 ^ 63.
Definition to_int32 (z : Z) : Z := (z + 2 ^ 31) mod 2 ^ 32 - 2 ^ 31.

Definition is_uint64 (z : Z) : Prop := 0 <= z <= uint64_max.
Definition is_int64 (z : Z) : Prop := int64_min <= z <= int64_max.
Definition is_int32 (z : Z) : Prop := -2147483648 <= z <= 2147483647.

Lemma to_uint64_id z : is_uint64 z → to_uint64 z = z.
Proof. unfold is_uint64, uint64_max, to_uint64. intros. apply Z.mod_small. lia. Qed.

Lemma to_int64_id z : is_int64 z → to_int64 z = z.
Proof.
  unfold is_int64, int64_min, int64_max, to_int64. intros.
  rewrite Z.mod_small; lia.
Qed.

Lemma to_int32_id z : is_int32 z → to_int32 z = z.
Proof. unfold is_int32, to_int32. intros. rewrite Z.mod_small; lia. Qed.

(** A [uint64_t] survives the cast to [int64_t] and back. *)
Lemma to_uint64_to_int64 z : is_uint64 z → to_uint64 (to_int64 z) = z.
Proof.
  unfold is_uint64, uint64_max, to_uint64, to_int64. intros.
  destruct (Z.lt_ge_cases z (2 ^ 63)).
  - rewrite (Z.mod_small (z + 2 ^ 63)) by lia. rewrite Z.mod_small; lia.
  - replace (z + 2 ^ 63) with (z - 2 ^ 63 + 1 * 2 ^ 64) by lia.
    rewrite Z.mod_add, (Z.mod_small (z - 2 ^ 63)) by lia.
    replace (z - 2 ^ 63 - 2 ^ 63) with (z + (-1) * 2 ^ 64) by lia.
    rewrite Z.mod_add, Z.mod_small; lia.
Qed.

Lemma to_uint64_range z : is_uint64 (to_uint64 z).
Proof.
  unfold is_uint64, to_uint64, uint64_max.
  pose proof (Z.mod_pos_bound z (2 ^ 64) ltac:(lia)). lia.
Qed.

Lemma to_int64_range z : is_int64 (to_int64 z).
Proof.
  unfold is_int64, to_int64, int64_min, int64_max.
  pose proof (Z.mod_pos_bound (z + 2 ^ 63) (2 ^ 64) ltac:(lia)). lia.
Qed.

(** * Tactics *)

(** Case analysis on the scrutinee of some match of the goal or of a
    hypothesis, keeping the equation. *)
Ltac destruct_match :=
  match goal with
  | |- context [match ?x with _ => _ end] => destruct x eqn:?
  end.

Ltac destruct_match_in H :=
  match type of H with
  | context [match ?x with _ => _ end] => destruct x eqn:?
  end.

(** Boolean tests to propositions. *)
Ltac bool_to_prop :=
  repeat match goal with
  | H : _ && _ = true |- _ => apply andb_prop in H as [? ?]
  | H : _ || _ = false |- _ => apply orb_false_elim in H as [? ?]
  | H : negb _ = true |- _ => apply negb_true_iff in H
  | H : negb _ = false |- _ => apply negb_false_iff in H
  | H : (_ =? _)%Z = true |- _ => apply Z.eqb_eq in H
  | H : (_ =? _)%Z = false |- _ => apply Z.eqb_neq in H
  | H : (_ <? _)%Z = true |- _ => apply Z.ltb_lt in H
  | H : (_ <? _)%Z = false |- _ => apply Z.ltb_ge in H
  | H : (_ <=? _)%Z = true |- _ => apply Z.leb_le in H
  | H : (_ <=? _)%Z = false |- _ => apply Z.leb_gt in H
  | H : bool_decide _ = true |- _ => apply bool_decide_eq_true_1 in H
  | H : bool_decide _ = false |- _ => apply bool_decide_eq_false_1 in H
  | H : String.eqb _ _ = true |- _ => apply String.eqb_eq in H
  | H : String.eqb _ _ = false |- _ => apply String.eqb_neq in H
  end.

(** * Strings *)

#[global] Arguments String.append !_ _ / : simpl nomatch.

(** [std::string::size()] *)
Definition size_of (s : string) : Z := Z.of_nat (String.length s).

Definition str_empty (s : string) : bool :=
  match s with EmptyString => true | _ => false end.

(** [std::all_of] / [std::any_of] over the bytes of a string. *)
Fixpoint all_of (p : ascii → bool) (s : string) : bool :=
  match s with
  | EmptyString => true
  | String c s => p c && all_of p s
  end.

Definition any_of (p : ascii → bool) (s : string) : bool :=
  negb (all_of (λ c, negb (p c)) s).

(** The value of a byte, as [unsigned char]. *)
Definition byte_val (c : ascii) : Z := Z.of_nat (nat_of_ascii c).
Definition byte_chr (z : Z) : ascii := ascii_of_nat (Z.to_nat z).

Definition is_digit (c : ascii) : bool := (48 <=? byte_val c) && (byte_val c <=? 57).

(** [std::string::find(char)]: the index of the first occurrence. *)
Fixpoint find_char (c : ascii) (s : string) : option nat :=
  match s with
  | EmptyString => None
  | String d s => if decide (d = c) then Some 0%nat else S <$> find_char c s
  end.

(** [std::string::substr(pos)] for a position inside the string. *)
Fixpoint drop_str (n : nat) (s : string) : string :=
  match n, s with
  | O, _ => s
  | S n, String _ s => drop_str n s
  | S _, EmptyString => EmptyString
  end.

(** [std::string::substr(0, n)] *)
Fixpoint take_str (n : nat) (s : string) : string :=
  match n, s with
  | S n, String c s => String c (take_str n s)
  | _, _ => EmptyString
  end.

Lemma size_of_nonneg s : 0 <= size_of s.
Proof. unfold size_of. lia. Qed.

Lemma str_app_nil_r s : (s +:+ "")%string = s.
Proof. induction s as [|c s IH]; [done|]. simpl. by rewrite IH. Qed.

Lemma str_app_assoc s t u : ((s +:+ t) +:+ u = s +:+ (t +:+ u))%string.
Proof. induction s as [|c s IH]; [done|]. simpl. by rewrite IH. Qed.

Lemma str_length_app s t :
  String.length (s +:+ t) = (String.length s + String.length t)%nat.
Proof. induction s as [|c s IH]; [done|]. simpl. by rewrite IH. Qed.

Lemma all_of_app p s t : all_of p (s +:+ t) = all_of p s && all_of p t.
Proof. induction s as [|c s IH]; [done|]. simpl. rewrite IH. by rewrite andb_assoc. Qed.

Lemma all_of_impl (p q : ascii → bool) s :
  (∀ c, p c = true → q c = true) → all_of p s = true → all_of q s = true.
Proof.
  intros Hpq. induction s as [|c s IH]; [done|]. simpl. intros H; bool_to_prop.
  rewrite Hpq by done. by apply IH.
Qed.

(** Two strings split at their first separator are split at the same place. *)
Lemma sep_split_inj c s1 s2 t1 t2 :
  all_of (λ d, negb (bool_decide (d = c))) s1 = true →
  all_of (λ d, negb (bool_decide (d = c))) s2 = true →
  (s1 +:+ String c t1 = s2 +:+ String c t2)%string → s1 = s2 ∧ t1 = t2.
Proof.
  revert s2. induction s1 as [|d s1 IH]; intros [|d' s2]; simpl;
    intros H1 H2 Heq; bool_to_prop; simplify_eq; [done|].
  edestruct IH as [-> ->]; eauto.
Qed.

Lemma app_same_length_inj s1 s2 t1 t2 :
  String.length s1 = String.length s2 →
  (s1 +:+ t1 = s2 +:+ t2)%string → s1 = s2 ∧ t1 = t2.
Proof.
  revert s2. induction s1 as [|d s1 IH]; intros [|d' s2]; simpl;
    intros Hl Heq; try done.
  injection Hl as Hl. injection Heq as -> Heq.
  destruct (IH _ Hl Heq) as [-> ->]. done.
Qed.

Lemma find_char_app c s t :
  all_of (λ d, negb (bool_decide (d = c))) s = true →
  find_char c (s +:+ String c t) = Some (String.length s).
Proof.
  induction s as [|d s IH]; simpl; intros H.
  - by rewrite decide_True.
  - bool_to_prop. rewrite decide_False by done. by rewrite IH.
Qed.

Lemma find_char_none c s :
  all_of (λ d, negb (bool_decide (d = c))) s = true → find_char c s = None.
Proof.
  induction s as [|d s IH]; simpl; intros H; [done|].
  bool_to_prop. rewrite decide_False by done. by rewrite IH.
Qed.

Lemma take_str_app s t : take_str (String.length s) (s +:+ t) = s.
Proof. induction s as [|c s IH]; simpl; [by destruct t|]. by rewrite IH. Qed.

Lemma drop_str_app s t n :
  drop_str (String.length s + n) (s +:+ t) = drop_str n t.
Proof. induction s as [|c s IH]; simpl; [done|]. apply IH. Qed.

(** ** [std::to_string] and [std::stoull] on unsigned 64-bit values *)

Definition digit_char (d : Z) : ascii := byte_chr (48 + d).
Definition digit_val (c : ascii) : Z := byte_val c - 48.

Fixpoint dec_digits (fuel : nat) (n : Z) (acc : string) : string :=
  match fuel with
  | O => acc
  | S fuel =>
      let acc := String (digit_char (n mod 10)) acc in
      if n <? 10 then acc else dec_digits fuel (n / 10) acc
  end.

(** Twenty digits are enough for every [uint64_t]. *)
Definition to_string (n : Z) : string := dec_digits 20 n "".

(** [std::to_string] of a signed integer. *)
Definition show_int (n : Z) : string :=
  if n <? 0 then "-" +:+ to_string (- n) else to_string n.

Fixpoint dec_value (acc : Z) (s : string) : Z :=
  match s with
  | EmptyString => acc
  | String c s => dec_value (acc * 10 + digit_val c) s
  end.

Lemma byte_val_chr z : 0 <= z < 256 → byte_val (byte_chr z) = z.
Proof.
  intros. unfold byte_val, byte_chr. rewrite nat_ascii_embedding; lia.
Qed.

Lemma byte_val_range c : 0 <= byte_val c < 256.
Proof. unfold byte_val. pose proof (nat_ascii_bounded c). lia. Qed.

Lemma byte_chr_val c : byte_chr (byte_val c) = c.
Proof. unfold byte_val, byte_chr. by rewrite Nat2Z.id, ascii_nat_embedding. Qed.

Lemma digit_val_char d : 0 <= d < 10 → digit_val (digit_char d) = d.
Proof. intros. unfold digit_val, digit_char. rewrite byte_val_chr; lia. Qed.

Lemma is_digit_char d : 0 <= d < 10 → is_digit (digit_char d) = true.
Proof.
  intros. unfold is_digit, digit_char. rewrite byte_val_chr by lia.
  apply andb_true_intro. split; apply Z.leb_le; lia.
Qed.

Lemma dec_value_digits fuel n acc :
  0 <= n < 10 ^ Z.of_nat fuel → (0 < fuel)%nat →
  dec_value 0 (dec_digits fuel n acc) = dec_value n acc.
Proof.
  revert n acc. induction fuel as [|fuel IH]; intros n acc Hn Hf; [lia|].
  cbn [dec_digits]. pose proof (Z.mod_pos_bound n 10 ltac:(lia)) as Hm.
  destruct (n <? 10) eqn:E; bool_to_prop.
  - cbn [dec_value]. rewrite digit_val_char by lia. rewrite Z.mod_small by lia. done.
  - assert (Hpow : 10 ^ Z.of_nat (S fuel) = 10 * 10 ^ Z.of_nat fuel).
    { rewrite Nat2Z.inj_succ, Z.pow_succ_r by lia. lia. }
    destruct fuel as [|fuel]; [simpl in Hpow; lia|].
    rewrite IH; [|split; [apply Z.div_pos; lia|apply Z.div_lt_upper_bound; lia]|lia].
    cbn [dec_value]. rewrite digit_val_char by lia.
    pose proof (Z.div_mod n 10 ltac:(lia)). f_equal. lia.
Qed.

Lemma dec_digits_all fuel n acc :
  all_of is_digit acc = true → 0 <= n →
  all_of is_digit (dec_digits fuel n acc) = true.
Proof.
  revert n acc. induction fuel as [|fuel IH]; intros n acc Ha Hn; [done|].
  cbn [dec_digits]. pose proof (Z.mod_pos_bound n 10 ltac:(lia)) as Hm.
  assert (all_of is_digit (String (digit_char (n mod 10)) acc) = true).
  { simpl. rewrite is_digit_char by lia. done. }
  destruct (n <? 10); [done|]. apply IH; [done|]. apply Z.div_pos; lia.
Qed.

Lemma dec_digits_length fuel n acc :
  (String.length (dec_digits fuel n acc) <= fuel + String.length acc)%nat.
Proof.
  revert n acc. induction fuel as [|fuel IH]; intros n acc; simpl; [lia|].
  destruct (n <? 10); [simpl; lia|]. etrans; [apply IH|]. simpl. lia.
Qed.

Lemma dec_digits_nonempty fuel n acc :
  (0 < fuel)%nat → dec_digits fuel n acc ≠ "".
Proof.
  intros Hf Heq.
  assert (Hl : (0 < String.length (dec_digits fuel n acc))%nat); [|rewrite Heq in Hl; simpl in Hl; lia].
  clear Heq. destruct fuel as [|fuel]; [lia|]. clear Hf. cbn [dec_digits].
  destruct (n <? 10); [simpl; lia|].
  assert (Hgen : ∀ f m a, (0 < String.length a)%nat →
    (0 < String.length (dec_digits f m a))%nat).
  { induction f as [|f IHf]; intros m a Ha; [done|]. cbn [dec_digits].
    destruct (m <? 10); [simpl; lia|]. apply IHf. simpl. lia. }
  apply Hgen. simpl. lia.
Qed.

Lemma to_string_value n : is_uint64 n → dec_value 0 (to_string n) = n.
Proof.
  unfold is_uint64, uint64_max, to_string. intros.
  rewrite dec_value_digits; [done| |lia].
  split; [lia|]. change (10 ^ Z.of_nat 20) with 100000000000000000000. lia.
Qed.

Lemma to_string_inj n m :
  is_uint64 n → is_uint64 m → to_string n = to_string m → n = m.
Proof.
  intros Hn Hm Heq. rewrite <- (to_string_value n), <- (to_string_value m) by done.
  by rewrite Heq.
Qed.

Lemma to_string_digits n : 0 <= n → all_of is_digit (to_string n) = true.
Proof. intros. by apply dec_digits_all. Qed.

Lemma to_string_nonempty n : to_string n ≠ "".
Proof. apply dec_digits_nonempty. lia. Qed.

Lemma digits_avoid c s :
  is_digit c = false → all_of is_digit s = true →
  all_of (λ d, negb (bool_decide (d = c))) s = true.
Proof.
  intros Hc. apply all_of_impl. intros d Hd. apply negb_true_iff.
  apply bool_decide_eq_false_2. intros ->. congruence.
Qed.

(** [std::stoull(s)]: leading white space, an optional sign, at least one
    digit; parsing stops at the first other character.  [inl false] is
    std::invalid_argument and [inl true] std::out_of_range. *)
Definition is_space (c : ascii) : bool :=
  (byte_val c =? 32) || ((9 <=? byte_val c) && (byte_val c <=? 13)).

Fixpoint skip_space (s : string) : string :=
  match s with
  | String c t => if is_space c then skip_space t else s
  | EmptyString => EmptyString
  end.

Fixpoint digit_prefix (s : string) : string :=
  match s with
  | String c t => if is_digit c then String c (digit_prefix t) else EmptyString
  | EmptyString => EmptyString
  end.

Definition stoull (s : string) : bool + Z :=
  let s := skip_space s in
  let '(neg, s) := match s with
                   | String "-" t => (true, t)
                   | String "+" t => (false, t)
                   | _ => (false, s)
                   end in
  let d := digit_prefix s in
  if str_empty d then inl false
  else let v := dec_value 0 d in
       if uint64_max <? v then inl true
       else inr (if neg then to_uint64 (- v) else v).

(** [std::stoll(s)]. *)
Definition stoll (s : string) : bool + Z :=
  let s := skip_space s in
  let '(neg, s) := match s with
                   | String "-" t => (true, t)
                   | String "+" t => (false, t)
                   | _ => (false, s)
                   end in
  let d := digit_prefix s in
  if str_empty d then inl false
  else let v := if neg then - dec_value 0 d else dec_value 0 d in
       if (v <? int64_min) || (int64_max <? v) then inl true else inr v.

Lemma digit_prefix_all s : all_of is_digit s = true → digit_prefix s = s.
Proof.
  induction s as [|c s IH]; [done|]. simpl. intros H. bool_to_prop.
  rewrite H. by rewrite IH.
Qed.

(** The text of a number starts neither with white space nor with a sign. *)
Lemma to_string_unsigned n : 0 <= n →
  skip_space (to_string n) = to_string n ∧
  match to_string n with
  | String "-" t => (true, t)
  | String "+" t => (false, t)
  | _ => (false, to_string n)
  end = (false, to_string n) ∧
  digit_prefix (to_string n) = to_string n ∧ str_empty (to_string n) = false.
Proof.
  intros Hn. pose proof (to_string_digits n Hn) as Hd.
  pose proof (to_string_nonempty n) as Hne.
  destruct (to_string n) as [|c s] eqn:E; [done|].
  rewrite digit_prefix_all by done. cbn [all_of] in Hd. bool_to_prop.
  assert (Hc : is_space c = false ∧ c ≠ "-"%char ∧ c ≠ "+"%char).
  { unfold is_digit in H. bool_to_prop. unfold is_space. repeat split.
    - apply orb_false_intro; [apply Z.eqb_neq; lia|].
      apply andb_false_intro2. apply Z.leb_gt. lia.
    - intros ->. vm_compute in H. done.
    - intros ->. vm_compute in H. done. }
  destruct Hc as (Hs & Hm & Hp). cbn [skip_space]. rewrite Hs. split; [done|].
  split; [|done]. clear -Hm Hp. destruct c as [[] [] [] [] [] [] [] []]; done.
Qed.

Lemma stoull_to_string n : is_uint64 n → stoull (to_string n) = inr n.
Proof.
  intros Hn. destruct (to_string_unsigned n (proj1 Hn)) as (E1 & E2 & E3 & E4).
  unfold stoull. rewrite E1, E2, E3, E4, to_string_value by done.
  destruct (uint64_max <? n) eqn:E'; bool_to_prop; [destruct Hn; lia|done].
Qed.

Lemma stoll_to_string n : 0 <= n <= int64_max → stoll (to_string n) = inr n.
Proof.
  intros Hn. destruct (to_string_unsigned n (proj1 Hn)) as (E1 & E2 & E3 & E4).
  unfold stoll. rewrite E1, E2, E3, E4, to_string_value
    by (unfold is_uint64, uint64_max, int64_max in *; lia).
  destruct (_ || _) eqn:E'; [|done]. unfold int64_min, int64_max in *.
  apply orb_true_iff in E' as [?%Z.ltb_lt|?%Z.ltb_lt]; lia.
Qed.

(** * Sorted lists *)

Lemma StronglySorted_take {A} (R : relation A) l n : StronglySorted R l → StronglySorted R (take n l).
Proof.
  intros Hs. revert n. induction Hs as [|x l Hs IH Hx]; intros [|n]; cbn; try constructor; [done|].
  rewrite Forall_forall in Hx |- *. intros y Hy. apply Hx. by eapply subseteq_take.
Qed.

Lemma StronglySorted_lookup {A} (R : relation A) l i j x y :
  StronglySorted R l → l !! i = Some x → l !! j = Some y → (i < j)%nat → R x y.
Proof.
  intros Hs. revert i j. induction Hs as [|z l Hs IH Hz]; intros [|i] [|j] Hi Hj Hlt;
    cbn in *; try done; try lia.
  - injection Hi as ->. rewrite Forall_forall in Hz. by eapply Hz, list_elem_of_lookup_2.
  - eapply IH; [done..|lia].
Qed.

(** * What happens on every schedule *)

(** [P] is reached on every run of [step]: until it holds some move of [move] is
    possible, and no infinite run avoids it. *)
Inductive inevitably {A} (move step : relation A) (P : A → Prop) : A → Prop :=
| inevitably_now x : P x → inevitably move step P x
| inevitably_later x :
    (∃ y, move x y) → (∀ y, step x y → inevitably move step P y) → inevitably move step P x.

(** It is enough that while [I] holds a move is possible, and that every step reaches
    [P] or keeps [I] and brings a rank down. *)
Lemma inevitably_by_rank {A} (move step : relation A) (P I : A → Prop) (rank : A → nat) :
  (∀ x, I x → ∃ y, move x y) →
  (∀ x y, I x → step x y → P y ∨ (I y ∧ (rank y < rank x)%nat)) →
  ∀ x, I x → inevitably move step P x.
Proof.
  intros Hmove Hstep x. induction x as [x IH] using (induction_ltof1 _ rank). unfold ltof in IH.
  intros Hx. apply inevitably_later; [by apply Hmove|]. intros y Hy.
  destruct (Hstep x y Hx Hy) as [?|[? ?]]; [by apply inevitably_now|by apply IH].
Qed.

#[global] Arguments to_string : simpl never.
#[global] Arguments stoull : simpl never.
#[global] Arguments stoll : simpl never.

Create HintDb ape.
#[export] Hint Resolve size_of_nonneg to_uint64_range to_int64_range : ape.
#[export] Hint Resolve to_string_digits to_string_nonempty : ape.
