(* ===== verification/Table.v ===== *)
(** Generic lemmas on SQL tables as finite maps from the primary key: the rows
    in ascending key order, [ORDER BY id LIMIT n] pages, row counts, [MAX] and
    tests of existence.  All of it is executable. *)
From S2P Require Import Prelude.

(** * Rows in key order *)

Section rows.
Context {A : Type}.
Implicit Types (m : gmap Z A) (P : Z → A → bool) (l : list (Z * A)).

Definition key_le (p q : Z * A) : Prop := p.1 <= q.1.

#[global] Instance key_le_dec : RelDecision key_le.
Proof. intros p q. unfold key_le. apply _. Defined.
#[global] Instance key_le_trans : Transitive key_le.
Proof. intros p q r. unfold key_le. lia. Qed.
#[global] Instance key_le_total : Total key_le.
Proof. intros p q. unfold key_le. lia. Qed.

(** All rows, ascending by primary key. *)
Definition rows m : list (Z * A) := merge_sort key_le (map_to_list m).

(** [SELECT ... WHERE P ORDER BY id] *)
Definition select P m : list (Z * A) := filter (λ p, P p.1 p.2 = true) (rows m).

(** [SELECT ... WHERE P ORDER BY id LIMIT 1] *)
Definition select_one P m : option (Z * A) := head (select P m).

(** [SELECT COUNT(...) FROM ... WHERE P] *)
Definition count P m : Z := Z.of_nat (length (select P m)).

(** [UPDATE ... SET row = f row WHERE P]; the second component is the
    number of rows that match. *)
Definition update_where P (f : A → A) m : gmap Z A :=
  map_imap (λ k r, Some (if P k r then f r else r)) m.

(** [COALESCE(MAX(id),0) ... WHERE P] *)
Definition max_key P m : Z := default 0 (fst <$> last (select P m)).

Lemma elem_of_rows m k r : (k, r) ∈ rows m ↔ m !! k = Some r.
Proof. unfold rows. rewrite merge_sort_Permutation. apply elem_of_map_to_list. Qed.

Lemma rows_sorted m : StronglySorted (λ p q : Z * A, p.1 < q.1) (rows m).
Proof.
  assert (Hs : StronglySorted key_le (rows m)) by (apply StronglySorted_merge_sort; apply _).
  assert (Hnd : NoDup (rows m).*1).
  { unfold rows. rewrite merge_sort_Permutation. apply NoDup_fst_map_to_list. }
  induction Hs as [|p l Hl IH Hp]; constructor.
  - apply IH. by inversion Hnd.
  - rewrite Forall_forall in Hp |- *. intros q Hq. specialize (Hp q Hq).
    unfold key_le in Hp. apply NoDup_cons in Hnd as [Hnin _].
    destruct (Z.eq_dec p.1 q.1) as [E|]; [|lia].
    destruct Hnin. fold (p.1). rewrite E. apply list_elem_of_fmap. by exists q.
Qed.

Lemma sorted_filter (R : relation (Z * A)) (Q : Z * A → Prop) `{∀ p, Decision (Q p)} l :
  StronglySorted R l → StronglySorted R (filter Q l).
Proof.
  induction 1 as [|p l Hl IH Hp]; [constructor|].
  rewrite filter_cons. case_decide; [|done]. constructor; [done|].
  rewrite Forall_forall in Hp |- *. intros q [_ Hq]%list_elem_of_filter. by apply Hp.
Qed.

Lemma elem_of_select P m k r :
  (k, r) ∈ select P m ↔ m !! k = Some r ∧ P k r = true.
Proof. unfold select. rewrite list_elem_of_filter, elem_of_rows. intuition. Qed.

Lemma select_sorted P m : StronglySorted (λ p q : Z * A, p.1 < q.1) (select P m).
Proof. apply sorted_filter, rows_sorted. Qed.

Lemma select_one_Some P m k r :
  select_one P m = Some (k, r) →
  m !! k = Some r ∧ P k r = true ∧
  ∀ k' r', m !! k' = Some r' → P k' r' = true → k <= k'.
Proof.
  unfold select_one. intros Hh. destruct (select P m) as [|p l] eqn:E; [done|].
  injection Hh as ->. pose proof (select_sorted P m) as Hs. rewrite E in Hs.
  assert (Hin : (k, r) ∈ select P m) by (rewrite E; constructor).
  apply elem_of_select in Hin as [? ?]. split; [done|]. split; [done|].
  intros k' r' Hk' HP'. assert (Hin' : (k', r') ∈ select P m) by by apply elem_of_select.
  rewrite E in Hin'. apply elem_of_cons in Hin' as [[= -> ->]|Hin']; [lia|].
  apply StronglySorted_inv in Hs as [_ Hall]. rewrite Forall_forall in Hall.
  specialize (Hall _ Hin'). cbn in Hall. lia.
Qed.

Lemma select_nil P m : select P m = [] ↔ ∀ k r, m !! k = Some r → P k r = false.
Proof.
  split.
  - intros E k r Hk. destruct (P k r) eqn:HP; [|done].
    assert (Hin : (k, r) ∈ select P m) by by apply elem_of_select.
    rewrite E in Hin. by apply elem_of_nil in Hin.
  - intros Hall. destruct (select P m) as [|[k r] l] eqn:E; [done|].
    assert (Hin : (k, r) ∈ select P m) by (rewrite E; constructor).
    apply elem_of_select in Hin as [Hk HP]. by rewrite (Hall k r) in HP.
Qed.

Lemma select_one_None P m :
  select_one P m = None ↔ ∀ k r, m !! k = Some r → P k r = false.
Proof.
  rewrite <- select_nil. unfold select_one. by destruct (select P m).
Qed.

Lemma select_one_is_Some P m k r :
  m !! k = Some r → P k r = true → is_Some (select_one P m).
Proof.
  intros Hk HP. destruct (select_one P m) eqn:E; [by eexists|].
  rewrite select_one_None in E. by rewrite (E k r) in HP.
Qed.

Lemma lookup_update_where P f m k :
  update_where P f m !! k = (λ r, if P k r then f r else r) <$> m !! k.
Proof. unfold update_where. rewrite map_lookup_imap. by destruct (m !! k). Qed.

Lemma update_where_id P f m :
  (∀ k r, m !! k = Some r → P k r = true → f r = r) → update_where P f m = m.
Proof.
  intros Hid. apply map_eq. intros k. rewrite lookup_update_where.
  destruct (m !! k) as [r|] eqn:E; [|done]. cbn.
  destruct (P k r) eqn:HP; [|done]. by rewrite (Hid k r).
Qed.

Lemma count_nonneg P m : 0 <= count P m.
Proof. unfold count. lia. Qed.

Lemma count_zero P m : count P m = 0 ↔ ∀ k r, m !! k = Some r → P k r = false.
Proof.
  rewrite <- select_nil. unfold count. destruct (select P m); cbn; split; (done || lia).
Qed.

Lemma sorted_last (R : relation (Z * A)) l p q :
  StronglySorted R l → p ∈ l → last l = Some q → p = q ∨ R p q.
Proof.
  induction 1 as [|x l Hl IH Hall]; [by intros ?%elem_of_nil|].
  destruct l as [|y l].
  - cbn. intros Hin%list_elem_of_singleton [= <-]. by left.
  - rewrite last_cons_cons. intros Hin Hlast. apply elem_of_cons in Hin as [->|Hin]; [|auto].
    right. rewrite Forall_forall in Hall. apply Hall.
    apply last_Some_elem_of. done.
Qed.

Lemma max_key_upper P m k r :
  m !! k = Some r → P k r = true → k <= max_key P m.
Proof.
  intros Hk HP. assert (Hin : (k, r) ∈ select P m) by by apply elem_of_select.
  unfold max_key. destruct (last (select P m)) as [q|] eqn:E; cbn.
  - destruct (sorted_last _ _ _ _ (select_sorted P m) Hin E) as [<-|Hlt]; cbn in *; lia.
  - apply last_None in E. rewrite E in Hin. by apply elem_of_nil in Hin.
Qed.
End rows.

(** The keys a condition selects. *)
Definition keys {A} (P : Z → A → bool) (m : gmap Z A) : gset Z :=
  dom (filter (λ p : Z * A, P p.1 p.2 = true) m).

Lemma elem_of_keys {A} P (m : gmap Z A) k :
  k ∈ keys P m ↔ ∃ r, m !! k = Some r ∧ P k r = true.
Proof.
  unfold keys. rewrite elem_of_dom. unfold is_Some. split.
  - intros [r Hr]. apply map_lookup_filter_Some in Hr as [? ?]. eauto.
  - intros (r & Hr & Hp). exists r. by apply map_lookup_filter_Some.
Qed.

Lemma count_keys {A} P (m : gmap Z A) : count P m = Z.of_nat (size (keys P m)).
Proof.
  unfold count. rewrite <- (length_fmap fst). f_equal. unfold size, set_size. cbn.
  apply Permutation_length, NoDup_Permutation; [|apply NoDup_elements|].
  - assert (Hs := select_sorted P m). induction Hs as [|p l Hl IH Hp]; cbn; constructor; [|done].
    rewrite list_elem_of_fmap. intros (q & Heq & Hq). rewrite Forall_forall in Hp.
    specialize (Hp q Hq). cbn in *. lia.
  - intros k. rewrite elem_of_elements, elem_of_keys, list_elem_of_fmap. split.
    + intros ([k' r] & -> & Hin%elem_of_select). eauto.
    + intros (r & Hr). exists (k, r). split; [done|]. by apply elem_of_select.
Qed.
