(* ===== verification/Snowflake.v ===== *)
(** Snowflake identifiers ([src/util/snowflake.cpp], [include/util/snowflake.h]).

    The generator's state is a record; the system clock is a stream of
    millisecond readings, one per call of [currentMillis].  [nextId] consumes
    readings from a position of that stream and returns the new position.  The
    busy wait for the next millisecond is a loop on fuel; [nextId_total] says
    how much is enough. *)
From S2P Require Import Prelude.

(** * The bit layout *)

Definition EPOCH : Z := 1704067200000.
Definition WORKER_ID_BITS : Z := 5.
Definition DATACENTER_ID_BITS : Z := 5.
Definition SEQUENCE_BITS : Z := 12.
Definition MAX_SEQUENCE : Z := Z.shiftl 1 SEQUENCE_BITS - 1.
Definition MAX_WORKER_ID : Z := Z.shiftl 1 WORKER_ID_BITS - 1.
Definition MAX_DATACENTER_ID : Z := Z.shiftl 1 DATACENTER_ID_BITS - 1.
Definition WORKER_ID_SHIFT : Z := SEQUENCE_BITS.
Definition DATACENTER_ID_SHIFT : Z := WORKER_ID_SHIFT + WORKER_ID_BITS.
Definition TIMESTAMP_SHIFT : Z := DATACENTER_ID_SHIFT + DATACENTER_ID_BITS.

(** * State and construction *)

Record Snowflake := mkSnowflake {
  workerId_ : Z;
  datacenterId_ : Z;
  sequence_ : Z;
  lastTimestamp_ : Z;
}.

Definition new_Snowflake (workerId datacenterId : Z) : Snowflake :=
  mkSnowflake workerId datacenterId 0 (-1).

(** The singleton of [instance()] with the static flag of [init]. *)
Record singleton := mkSingleton { inst : Snowflake; initialized : bool }.

Definition instance0 : singleton := mkSingleton (new_Snowflake 1 1) false.

Definition init (workerId datacenterId : Z) (g : singleton) : singleton :=
  if initialized g then g
  else mkSingleton
         (mkSnowflake workerId datacenterId (sequence_ (inst g)) (lastTimestamp_ (inst g)))
         true.

(** * Generation *)

Inductive outcome :=
| Id (id : Z)
| ClockMovedBackwards (offset : Z)  (* the std::runtime_error *)
| Spinning.                         (* still in the wait loop, out of fuel *)

(** [while (timestamp <= lastTimestamp_) timestamp = currentMillis();] *)
Fixpoint wait_next (fuel : nat) (clock : nat → Z) (last timestamp : Z) (tick : nat)
    : option (Z * nat) :=
  if timestamp <=? last then
    match fuel with
    | O => None
    | S fuel => wait_next fuel clock last (clock tick) (S tick)
    end
  else Some (timestamp, tick).

(** The returned expression, in [int64_t] arithmetic. *)
Definition pack (s : Snowflake) : Z :=
  Z.lor (Z.lor (Z.lor
    (to_int64 (Z.shiftl (lastTimestamp_ s - EPOCH) TIMESTAMP_SHIFT))
    (to_int64 (Z.shiftl (datacenterId_ s) DATACENTER_ID_SHIFT)))
    (to_int64 (Z.shiftl (workerId_ s) WORKER_ID_SHIFT)))
    (sequence_ s).

(** The tail of [nextId]: record the reading and build the identifier. *)
Definition finish (s : Snowflake) (timestamp : Z) (tick : nat) (sequence : Z)
    : outcome * Snowflake * nat :=
  let s' := mkSnowflake (workerId_ s) (datacenterId_ s) sequence timestamp in
  (Id (pack s'), s', tick).

(** From the reading that survived the clock check to the return. *)
Definition advance (fuel : nat) (clock : nat → Z) (s : Snowflake) (timestamp : Z) (tick : nat)
    : outcome * Snowflake * nat :=
  if timestamp =? lastTimestamp_ s then
    let sequence := Z.land (sequence_ s + 1) MAX_SEQUENCE in
    if sequence =? 0 then
      match wait_next fuel clock (lastTimestamp_ s) timestamp tick with
      | Some (timestamp, tick) => finish s timestamp tick sequence
      | None =>
          (Spinning, mkSnowflake (workerId_ s) (datacenterId_ s) sequence (lastTimestamp_ s),
           tick)
      end
    else finish s timestamp tick sequence
  else finish s timestamp tick 0.

Definition nextId (fuel : nat) (clock : nat → Z) (tick : nat) (s : Snowflake)
    : outcome * Snowflake * nat :=
  let timestamp := clock tick in
  if timestamp <? lastTimestamp_ s then
    let offset := lastTimestamp_ s - timestamp in
    if offset <? 100 then advance fuel clock s (clock (S tick)) (S (S tick))
    else (ClockMovedBackwards offset, s, S tick)
  else advance fuel clock s timestamp (S tick).

(** [n] successive calls; stops at the first call that does not return. *)
Fixpoint nextIds (n fuel : nat) (clock : nat → Z) (tick : nat) (s : Snowflake) : list Z :=
  match n with
  | O => []
  | S n => match nextId fuel clock tick s with
           | (Id id, s', tick') => id :: nextIds n fuel clock tick' s'
           | _ => []
           end
  end.

(** * Invariant *)

Definition in_epoch (t : Z) : Prop := EPOCH <= t < EPOCH + 2 ^ 41.

Record wf (s : Snowflake) : Prop := mkWf {
  wf_worker : 0 <= workerId_ s <= MAX_WORKER_ID;
  wf_datacenter : 0 <= datacenterId_ s <= MAX_DATACENTER_ID;
  wf_sequence : 0 <= sequence_ s <= MAX_SEQUENCE;
  wf_last : lastTimestamp_ s < EPOCH + 2 ^ 41;
}.

(** The arithmetic meaning of [pack]. *)
Definition layout (s : Snowflake) : Z :=
  (lastTimestamp_ s - EPOCH) * 2 ^ 22 + datacenterId_ s * 2 ^ 17 +
  workerId_ s * 2 ^ 12 + sequence_ s.

Ltac layout_consts :=
  unfold in_epoch, MAX_WORKER_ID, MAX_DATACENTER_ID, MAX_SEQUENCE, TIMESTAMP_SHIFT,
    DATACENTER_ID_SHIFT, WORKER_ID_SHIFT, WORKER_ID_BITS, DATACENTER_ID_BITS,
    SEQUENCE_BITS, EPOCH in *.

Lemma lor_disjoint x y k : 0 <= k → 0 <= y < 2 ^ k → Z.lor (x * 2 ^ k) y = x * 2 ^ k + y.
Proof.
  intros Hk Hy. rewrite <- Z.add_lor_land.
  replace (Z.land (x * 2 ^ k) y) with 0; [lia|].
  symmetry. apply Z.bits_inj'. intros n Hn. rewrite Z.land_spec, Z.bits_0.
  destruct (Z.lt_ge_cases n k).
  - by rewrite Z.mul_pow2_bits_low by lia.
  - rewrite <- (Z.mod_small y (2 ^ k)) by done.
    rewrite Z.mod_pow2_bits_high by lia. apply andb_false_r.
Qed.

Lemma pack_layout s :
  wf s → in_epoch (lastTimestamp_ s) → pack s = layout s.
Proof.
  intros [Hw Hd Hs _] Ht. unfold pack, layout. layout_consts.
  rewrite !Z.shiftl_mul_pow2 in * by lia.
  change (12 + 5 + 5) with 22. change (12 + 5) with 17.
  change (1 * 2 ^ 5 - 1) with 31 in *. change (1 * 2 ^ 12 - 1) with 4095 in *.
  rewrite !to_int64_id by (unfold is_int64, int64_min, int64_max; lia).
  set (t := lastTimestamp_ s - 1704067200000) in *.
  rewrite (lor_disjoint t) by lia.
  replace (t * 2 ^ 22 + datacenterId_ s * 2 ^ 17)
    with ((t * 32 + datacenterId_ s) * 2 ^ 17) by lia.
  rewrite (lor_disjoint (t * 32 + datacenterId_ s)) by lia.
  replace ((t * 32 + datacenterId_ s) * 2 ^ 17 + workerId_ s * 2 ^ 12)
    with (((t * 32 + datacenterId_ s) * 32 + workerId_ s) * 2 ^ 12) by lia.
  rewrite (lor_disjoint ((t * 32 + datacenterId_ s) * 32 + workerId_ s)) by lia. lia.
Qed.

(** * One call *)

Lemma wait_next_spec fuel clock last timestamp tick timestamp' tick' :
  wait_next fuel clock last timestamp tick = Some (timestamp', tick') →
  last < timestamp' ∧ (tick <= tick')%nat ∧
  (timestamp' = timestamp ∨ ∃ i, (tick <= i)%nat ∧ timestamp' = clock i ∧ (i < tick')%nat).
Proof.
  revert timestamp tick. induction fuel as [|fuel IH]; intros timestamp tick; cbn [wait_next];
    destruct (timestamp <=? last) eqn:E; bool_to_prop; intros; simplify_eq.
  - split; [lia|]. split; [lia|]. by left.
  - destruct (IH _ _ H) as (? & ? & [->|(i & ? & -> & ?)]).
    + split; [done|]. split; [lia|]. right. exists tick. repeat split; lia.
    + split; [done|]. split; [lia|]. right. exists i. repeat split; lia.
  - split; [lia|]. split; [lia|]. by left.
Qed.

Lemma sequence_step_range q : 0 <= Z.land (q + 1) MAX_SEQUENCE <= MAX_SEQUENCE.
Proof.
  change MAX_SEQUENCE with (Z.ones 12). rewrite Z.land_ones by lia.
  change (Z.ones 12) with (2 ^ 12 - 1).
  pose proof (Z.mod_pos_bound (q + 1) (2 ^ 12) ltac:(lia)). lia.
Qed.

Lemma sequence_step_value q :
  0 <= q <= MAX_SEQUENCE → Z.land (q + 1) MAX_SEQUENCE ≠ 0 →
  Z.land (q + 1) MAX_SEQUENCE = q + 1.
Proof.
  change MAX_SEQUENCE with (Z.ones 12). rewrite Z.land_ones by lia.
  change (Z.ones 12) with (2 ^ 12 - 1). intros Hq Hne.
  destruct (Z.eq_dec q (2 ^ 12 - 1)) as [->|]; [done|].
  apply Z.mod_small. lia.
Qed.

(** The state and the identifier after a successful call. *)
Record issued (clock : nat → Z) (tick : nat) (s s' : Snowflake) (id : Z) (tick' : nat) : Prop :=
  mkIssued {
    iss_wf : wf s';
    iss_worker : workerId_ s' = workerId_ s;
    iss_datacenter : datacenterId_ s' = datacenterId_ s;
    iss_epoch : in_epoch (lastTimestamp_ s');
    iss_id : id = layout s';
    iss_tick : (tick < tick')%nat;
    iss_reading : ∃ i, (tick <= i < tick')%nat ∧ lastTimestamp_ s' = clock i;
    iss_later : lastTimestamp_ s <= lastTimestamp_ s' → layout s < layout s';
  }.

Lemma finish_issued clock tick s timestamp t sequence id s' tick' :
  wf s → (∀ i, in_epoch (clock i)) →
  0 <= sequence <= MAX_SEQUENCE →
  (tick < t)%nat → (∃ i, (tick <= i < t)%nat ∧ timestamp = clock i) →
  (timestamp = lastTimestamp_ s → sequence = sequence_ s + 1) →
  finish s timestamp t sequence = (Id id, s', tick') →
  issued clock tick s s' id tick'.
Proof.
  intros Hwf Hc Hq Ht (i & Hi & Hts) Hsame Hf. unfold finish in Hf.
  injection Hf as <- Hs' <-.
  pose proof Hwf as [Hw Hd Hs Hl]. pose proof (Hc i) as Hi'.
  assert (Hwf' : wf s').
  { rewrite <- Hs'. split; cbn; try done. unfold in_epoch in *. lia. }
  assert (Hep : in_epoch (lastTimestamp_ s')) by (rewrite <- Hs'; cbn; by rewrite Hts).
  split; try done; rewrite <- Hs' in *; try done; cbn.
  - by apply pack_layout.
  - by exists i.
  - unfold layout; cbn. intros Hle. layout_consts.
    rewrite !Z.shiftl_mul_pow2 in * by lia.
    change (1 * 2 ^ 5 - 1) with 31 in *. change (1 * 2 ^ 12 - 1) with 4095 in *.
    destruct (Z.eq_dec timestamp (lastTimestamp_ s)) as [Heq|Hne].
    + rewrite Hsame, Heq by done. lia.
    + assert ((lastTimestamp_ s - 1704067200000 + 1) * 2 ^ 22
              <= (timestamp - 1704067200000) * 2 ^ 22) by nia. lia.
Qed.

Lemma advance_issued fuel clock tick s timestamp t id s' tick' :
  wf s → (∀ i, in_epoch (clock i)) →
  (tick < t)%nat → (∃ i, (tick <= i < t)%nat ∧ timestamp = clock i) →
  advance fuel clock s timestamp t = (Id id, s', tick') →
  issued clock tick s s' id tick'.
Proof.
  intros Hwf Hc Ht Hr. pose proof (sequence_step_range (sequence_ s)) as Hq.
  unfold advance. destruct (timestamp =? lastTimestamp_ s) eqn:E1; bool_to_prop.
  - destruct (_ =? 0) eqn:E2; bool_to_prop.
    + destruct (wait_next _ _ _ _ _) as [[ts t']|] eqn:E3; [|done].
      apply wait_next_spec in E3 as (? & ? & Hr').
      apply finish_issued; try done; try lia.
      destruct Hr' as [->|(i & ? & ? & ?)].
      * destruct Hr as (i & ? & ?). exists i. split; [lia|done].
      * exists i. split; [lia|done].
    + apply finish_issued; try done. intros _. apply sequence_step_value; [|done].
      apply Hwf.
  - by apply finish_issued.
Qed.

Lemma nextId_issued fuel clock tick s id s' tick' :
  wf s → (∀ i, in_epoch (clock i)) →
  nextId fuel clock tick s = (Id id, s', tick') →
  issued clock tick s s' id tick'.
Proof.
  intros Hwf Hc. unfold nextId.
  destruct (clock tick <? lastTimestamp_ s) eqn:E; bool_to_prop.
  - destruct (_ <? 100); [|done]. apply advance_issued; try done; [lia|].
    exists (S tick). split; [lia|done].
  - apply advance_issued; try done; [lia|]. exists tick. split; [lia|done].
Qed.

(** * Sequences of calls *)

Definition monotone (clock : nat → Z) : Prop := ∀ i j, (i <= j)%nat → clock i <= clock j.

(** The last reading the generator kept is one of the past. *)
Definition last_past (clock : nat → Z) (tick : nat) (s : Snowflake) : Prop :=
  ∀ i, (tick <= i)%nat → lastTimestamp_ s <= clock i.

Lemma issued_last_past clock tick s s' id tick' :
  monotone clock → issued clock tick s s' id tick' → last_past clock tick' s'.
Proof.
  intros Hm Hi i Hle. destruct (iss_reading _ _ _ _ _ _ Hi) as (j & ? & ->).
  apply Hm. lia.
Qed.

Lemma nextIds_above n fuel clock tick s :
  wf s → (∀ i, in_epoch (clock i)) → monotone clock → last_past clock tick s →
  StronglySorted Z.lt (nextIds n fuel clock tick s) ∧
  Forall (λ id, layout s < id) (nextIds n fuel clock tick s).
Proof.
  revert tick s. induction n as [|n IH]; intros tick s Hwf Hc Hm Hp; [by repeat constructor|].
  cbn [nextIds]. destruct (nextId fuel clock tick s) as [[[id| |] s'] tick'] eqn:E;
    [|by repeat constructor..].
  pose proof (nextId_issued _ _ _ _ _ _ _ Hwf Hc E) as Hi.
  destruct (IH tick' s') as [Hsort Hall]; try done;
    [by apply Hi|by eapply issued_last_past|].
  assert (Hlt : layout s < id).
  { rewrite (iss_id _ _ _ _ _ _ Hi). apply (iss_later _ _ _ _ _ _ Hi).
    destruct (iss_reading _ _ _ _ _ _ Hi) as (j & Hj & ->). apply Hp. lia. }
  rewrite <- (iss_id _ _ _ _ _ _ Hi) in Hall.
  split; constructor; try done. eapply Forall_impl; [exact Hall|]. cbn. lia.
Qed.

(** C18: with a clock that never runs backwards and a valid worker and
    datacenter number, the identifiers of any number of successive [nextId]
    calls are strictly increasing, hence pairwise different; the first is above
    every identifier the generator's state remembers. *)
Theorem nextIds_increasing n fuel clock tick s
    (Hwf : wf s) (Hepoch : ∀ i, in_epoch (clock i)) (Hmono : monotone clock)
    (Hpast : last_past clock tick s) :
  StronglySorted Z.lt (nextIds n fuel clock tick s) ∧
  NoDup (nextIds n fuel clock tick s) ∧
  Forall (λ id, layout s < id) (nextIds n fuel clock tick s).
Proof.
  destruct (nextIds_above n fuel clock tick s) as [Hs Ha]; try done.
  split; [done|]. split; [|done]. clear Ha.
  induction Hs as [|x l Hl IH Hx]; constructor; [|done].
  intros Hin. rewrite Forall_forall in Hx. specialize (Hx x Hin). lia.
Qed.

(** C19: an issued identifier carries its four fields: the consumers that
    shift and mask it get back the millisecond, datacenter, worker and sequence
    number; it is positive and fits [int64_t]. *)
Theorem nextId_decode fuel clock tick s id s' tick'
    (Hwf : wf s) (Hepoch : ∀ i, in_epoch (clock i))
    (Hid : nextId fuel clock tick s = (Id id, s', tick')) :
  Z.shiftr id TIMESTAMP_SHIFT + EPOCH = lastTimestamp_ s' ∧
  Z.land (Z.shiftr id DATACENTER_ID_SHIFT) MAX_DATACENTER_ID = datacenterId_ s ∧
  Z.land (Z.shiftr id WORKER_ID_SHIFT) MAX_WORKER_ID = workerId_ s ∧
  Z.land id MAX_SEQUENCE = sequence_ s' ∧
  0 <= id <= int64_max.
Proof.
  pose proof (nextId_issued _ _ _ _ _ _ _ Hwf Hepoch Hid) as Hi.
  destruct (iss_wf _ _ _ _ _ _ Hi) as [Hw Hd Hq _].
  pose proof (iss_epoch _ _ _ _ _ _ Hi) as He.
  rewrite (iss_id _ _ _ _ _ _ Hi), <- (iss_worker _ _ _ _ _ _ Hi),
    <- (iss_datacenter _ _ _ _ _ _ Hi).
  change MAX_SEQUENCE with (Z.ones 12) in *. change MAX_WORKER_ID with (Z.ones 5) in *.
  change MAX_DATACENTER_ID with (Z.ones 5) in *.
  rewrite !Z.land_ones, !Z.shiftr_div_pow2 by (vm_compute; done).
  change (Z.ones 12) with 4095 in *. change (Z.ones 5) with 31 in *.
  unfold layout, in_epoch, TIMESTAMP_SHIFT, DATACENTER_ID_SHIFT, WORKER_ID_SHIFT,
    SEQUENCE_BITS, WORKER_ID_BITS, DATACENTER_ID_BITS, EPOCH, int64_max in *.
  change (12 + 5 + 5) with 22. change (12 + 5) with 17.
  set (t := lastTimestamp_ s') in *.
  change (2 ^ 22) with 4194304. change (2 ^ 17) with 131072. change (2 ^ 12) with 4096.
  change (2 ^ 5) with 32. change (2 ^ 41) with 2199023255552 in *.
  repeat split; try lia.
  all: Z.div_mod_to_equations; lia.
Qed.

(** * Termination and the clock check *)

Lemma wait_next_total fuel clock last timestamp tick i :
  (tick <= i < tick + fuel)%nat → last < clock i →
  ∃ timestamp' tick', wait_next fuel clock last timestamp tick = Some (timestamp', tick') ∧
    (tick' <= S i)%nat.
Proof.
  revert timestamp tick. induction fuel as [|fuel IH]; intros timestamp tick Hi Hl; [lia|].
  cbn [wait_next]. destruct (timestamp <=? last) eqn:E; [|exists timestamp, tick; split; [done|lia]].
  destruct (decide (tick = i)) as [->|].
  - destruct fuel as [|fuel]; cbn [wait_next];
      (destruct (clock i <=? last) eqn:E'; bool_to_prop; [lia|]; by eexists _, _).
  - destruct (IH (clock tick) (S tick)) as (t' & k' & ? & ?); [lia|done|]. eauto.
Qed.

(** [nextId] returns: when one of the next [fuel] readings is later than
    the last recorded millisecond, the call ends, with an identifier or, exactly
    when the first reading is 100 ms or more behind, with the clock error and an
    unchanged generator. *)
Theorem nextId_total fuel clock tick s i
    (Hi : (S tick < i < S tick + fuel)%nat) (Hlater : lastTimestamp_ s < clock i) :
  (lastTimestamp_ s - clock tick < 100 ∧
     ∃ id s' tick', nextId fuel clock tick s = (Id id, s', tick')) ∨
  (100 <= lastTimestamp_ s - clock tick ∧
     nextId fuel clock tick s =
       (ClockMovedBackwards (lastTimestamp_ s - clock tick), s, S tick)).
Proof.
  assert (Hadv : ∀ ts t, (t <= i < t + fuel)%nat →
    ∃ id s' tick', advance fuel clock s ts t = (Id id, s', tick')).
  { intros ts t Ht. unfold advance, finish.
    destruct (ts =? lastTimestamp_ s); [|by eexists _, _, _].
    destruct (_ =? 0); [|by eexists _, _, _].
    destruct (wait_next_total fuel clock (lastTimestamp_ s) ts t i) as (ts' & t' & -> & _);
      [lia|done|]. by eexists _, _, _. }
  unfold nextId. destruct (clock tick <? lastTimestamp_ s) eqn:E1; bool_to_prop.
  - destruct (lastTimestamp_ s - clock tick <? 100) eqn:E2; bool_to_prop.
    + left. split; [done|]. apply Hadv. lia.
    + right. done.
  - left. split; [lia|]. apply Hadv. lia.
Qed.

(** * Witnesses and the check that is not repeated *)

Definition test_clock (base : Z) (i : nat) : Z := base + Z.of_nat i / 3.
Definition test_base : Z := 1750000000000.

Lemma test_clock_monotone base : monotone (test_clock base).
Proof. intros i j Hij. unfold test_clock. Z.div_mod_to_equations. lia. Qed.

Lemma wf_new w d :
  0 <= w <= MAX_WORKER_ID → 0 <= d <= MAX_DATACENTER_ID → wf (new_Snowflake w d).
Proof. intros. split; try done; cbn; vm_compute; split; discriminate. Qed.

Lemma const_in_epoch t : in_epoch t → ∀ i : nat, in_epoch ((λ _, t) i).
Proof. done. Qed.

Lemma nextIds_increasing_witness :
  let s := new_Snowflake 1 1 in
  let ids := nextIds 3 10 (λ _, test_base) 0 s in
  ids = [192656126771335168; 192656126771335169; 192656126771335170] ∧
  StronglySorted Z.lt ids ∧ NoDup ids ∧ Forall (λ id, layout s < id) ids.
Proof.
  split; [vm_compute; reflexivity|].
  apply (nextIds_increasing 3 10 (λ _, test_base) 0 (new_Snowflake 1 1)).
  - apply wf_new; vm_compute; split; discriminate.
  - intros i. vm_compute. split; [discriminate|reflexivity].
  - intros i j _. vm_compute. discriminate.
  - intros i _. vm_compute. discriminate.
Defined.

Lemma nextId_decode_witness :
  ∃ id s' tick',
    nextId 10 (λ _, test_base) 0 (new_Snowflake 1 1) = (Id id, s', tick') ∧
    Z.shiftr id TIMESTAMP_SHIFT + EPOCH = lastTimestamp_ s' ∧
    Z.land (Z.shiftr id DATACENTER_ID_SHIFT) MAX_DATACENTER_ID = 1 ∧
    Z.land (Z.shiftr id WORKER_ID_SHIFT) MAX_WORKER_ID = 1 ∧
    Z.land id MAX_SEQUENCE = sequence_ s' ∧
    0 <= id <= int64_max.
Proof.
  eexists _, _, _. split; [vm_compute; reflexivity|].
  apply (nextId_decode 10 (λ _, test_base) 0 (new_Snowflake 1 1) _ _ 1%nat).
  - apply wf_new; vm_compute; split; discriminate.
  - intros i. vm_compute. split; [discriminate|reflexivity].
  - vm_compute. reflexivity.
Defined.

Lemma nextId_total_witness :
  let s := mkSnowflake 1 1 MAX_SEQUENCE test_base in
  let clock := test_clock test_base in
  (lastTimestamp_ s - clock 0%nat < 100 ∧
     ∃ id s' tick', nextId 3 clock 0 s = (Id id, s', tick')) ∨
  (100 <= lastTimestamp_ s - clock 0%nat ∧
     nextId 3 clock 0 s = (ClockMovedBackwards (lastTimestamp_ s - clock 0%nat), s, 1%nat)).
Proof.
  apply (nextId_total 3 (test_clock test_base) 0 (mkSnowflake 1 1 MAX_SEQUENCE test_base) 3).
  - lia.
  - vm_compute. reflexivity.
Defined.

(** After the sleep on a small clock step the reading is not compared with
    [lastTimestamp_] again: when the clock is still behind, [nextId] issues from
    the older millisecond with the sequence number reset, and repeats an
    identifier it has already given out. *)
Theorem nextId_repeats_after_second_step :
  ∃ clock : nat → Z, ∃ id1 id2 : Z,
    (∀ i, in_epoch (clock i)) ∧
    nextIds 3 10 clock 0 (new_Snowflake 1 1) = [id1; id2; id1].
Proof.
  exists (λ i, match i with O => test_base | 1%nat => test_base + 1 | _ => test_base end).
  eexists _, _. split; [|vm_compute; reflexivity].
  intros [|[|i]]; vm_compute; split; (discriminate || reflexivity).
Qed.

(** [init] is effective once: later calls leave the generator as it is. *)
Lemma init_once w d w' d' g : init w' d' (init w d g) = init w d g.
Proof. unfold init. destruct (initialized g) eqn:E; cbn; by rewrite ?E. Qed.
