(* ===== verification/Schema.v ===== *)
(** The data of the server: the protobuf messages the handlers exchange (the
    fields the code reads or writes) and the MySQL tables its SQL statements
    act on, one record per row and one finite map per table, keyed by the
    primary key.  An AUTO_INCREMENT counter is a field of its own ([.._next]). *)
From S2P Require Import Prelude.

(** * Users ([include/user/userinfo.h]) *)

(** A MySQL DATETIME, in the parts the code prints. *)
Record datetime := mkDatetime {
  dt_year : Z; dt_month : Z; dt_day : Z; dt_hour : Z; dt_minute : Z; dt_second : Z;
}.

Record userInfo := mkUserInfo {
  user_id : Z;
  account : Z;
  nickname : string;
  phone : string;
  password_hash : string;
  password_salt : string;
  created_at : string;
  updated_at : string;
  last_login_at : string;
}.

(** Row of [users]; the primary key [user_id] is the map key. *)
Record UserRow := mkUserRow {
  u_account : Z;
  u_nickname : string;
  u_phone : string;
  u_password_hash : string;
  u_password_salt : string;
  u_created_at : datetime;
  u_updated_at : datetime;
  u_last_login_at : option datetime;
}.

(** Row of [registration_requests], keyed by [request_id]. *)
Record RegistrationRow := mkRegistrationRow {
  rr_payload_salt : string;
  rr_payload_hash : string;
  rr_user_id : option Z;
  rr_account : option Z;
}.

(** Row of [account_pool], keyed by [id]; status 0 is free, 1 allocated. *)
Record PoolRow := mkPoolRow { p_account : Z; p_status : Z }.

(** * Messages ([sdkws::MsgData]) *)

(** [sendTime] is a protobuf double; every writer stores an integral number of
    milliseconds below 2^53 in it, which a double represents exactly. *)
Record MsgData := mkMsgData {
  sendID : Z;
  recvID : Z;
  convID : string;
  clientMsgID : string;
  serverMsgID : string;
  senderPlatformID : Z;
  senderNickname : string;
  senderFaceURL : string;
  sessionType : Z;
  msgFrom : Z;
  contentType : Z;
  content : string;
  seq : Z;
  sendTime : Z;
  status : Z;
  isRead : bool;
  isDeleted : bool;
  isRecalled : bool;
  isPinned : bool;
  isGroupMsg : bool;
  ext : string;
}.

Definition MsgData_default : MsgData :=
  mkMsgData 0 0 "" "" "" 0 "" "" 0 0 0 "" 0 0 0 false false false false false "".

#[global] Instance MsgData_eq_dec : EqDecision MsgData.
Proof. solve_decision. Defined.

(** * MongoDB documents and Redis *)

(** BSON values of the types the handlers write or test; a double is its
    integral value, [None] when it is not integral or not finite. *)
Inductive bson :=
| BString (s : string)
| BInt32 (z : Z)
| BInt64 (z : Z)
| BDouble (o : option Z)
| BBool (b : bool)
| BNull.

#[global] Instance bson_eq_dec : EqDecision bson.
Proof. solve_decision. Defined.

Definition document : Type := list (string * bson).

(** String keys and sorted sets (of members; the scores are not read). *)
Record RedisStore := mkRedisStore {
  r_strings : gmap string string;
  r_zsets : gmap string (gset string);
}.

(** * The gateway's memory *)

(** [sdkws::SdkWSResp]; frames are kept as messages, not as bytes. *)
Record SdkWSResp := mkSdkWSResp {
  ws_requestId : string; ws_token : string; ws_account : Z; ws_deviceID : string;
  ws_errorCode : string; ws_errorMsg : string; ws_data : string; ws_type : Z;
}.

#[global] Instance SdkWSResp_eq_dec : EqDecision SdkWSResp.
Proof. solve_decision. Defined.

(** A [WSSession].  [write_queue_] is the channel, [None] before [startWriteQueue];
    [pendingOfflineMsgs_] maps a message to its number and conversation; [s_socket]
    is whether the socket is open, [s_wire] what has been written to it. *)
Record WSSession := mkWSSession {
  account_ : Z; disconnected_ : bool; write_queue_ : option (list SdkWSResp);
  pendingOfflineMsgs_ : gmap string (Z * string);
  s_socket : bool; s_wire : list SdkWSResp;
}.

(** The sessions the gateway has accepted, by identity; [WSSessionManager]'s map
    from accounts to sessions; the counter of active connections. *)
Record Gateway := mkGateway {
  g_conns : gmap nat WSSession; sessions_ : gmap Z nat; WsConnectionsActive : Z;
}.

(** * Rows *)

(** [friend_applications]: status 0 pending, 1 accepted, 2 rejected. *)
Record FriendApplicationRow := mkFriendApplicationRow {
  fa_from : Z; fa_to : Z; fa_message : string; fa_status : Z;
  fa_created_time : Z; fa_handled_time : Z;
}.

(** [friends]: one row per direction. *)
Record FriendRow := mkFriendRow {
  f_owner : Z; f_friend : Z; f_remark : string; f_created_time : Z;
}.

(** [friend_chat_deletions], keyed by (owner, peer). *)
Record DeletionRow := mkDeletionRow { d_time : Z; d_seq : Z }.

(** [im_conversations], keyed by (owner, conversation id). *)
Record ConversationRow := mkConversationRow {
  c_peer : Z; c_is_pinned : Z; c_recv_msg_opt : Z; c_is_hidden : Z;
  c_min_seq : Z; c_max_seq : Z; c_read_seq : Z; c_unread_count : Z;
  c_latest_time : Z; c_latest_message : string;
}.

(** [im_outbox], keyed by [id]. *)
Record OutboxRow := mkOutboxRow {
  o_operation : Z; o_dedupe_key : string; o_actor : Z; o_peer : Z;
  o_conversation : string; o_server_msg_id : string; o_seq : Z; o_payload : string;
  o_state : Z; o_stage : Z; o_dispatch_done : Z; o_attempts : Z;
  o_available_at : Z; o_lease_until : Z; o_lease_token : string; o_last_error : string;
}.

(** [im_message_receipts], keyed by (owner, server message id). *)
Record ReceiptRow := mkReceiptRow {
  r_conversation : string; r_seq : Z; r_delivered_at : Z;
}.

(** [im_groups], keyed by [id]. *)
Record GroupRow := mkGroupRow {
  g_name : string; g_owner : Z; g_member_count : Z; g_dismissed : Z; g_last_seq : Z;
}.

(** [im_group_members], keyed by (group, account). *)
Record MemberRow := mkMemberRow {
  m_active : Z; m_epoch : Z; m_join_seq : Z; m_ack_seq : Z; m_read_seq : Z;
}.

(** [im_group_applications]: status 0 pending, 1 accepted, 2 rejected, 3 closed. *)
Record GroupApplicationRow := mkGroupApplicationRow {
  ga_group : Z; ga_account : Z; ga_reason : string; ga_status : Z; ga_created_time : Z;
}.

(** [im_group_messages], keyed by (group, seq). *)
Record GroupMessageRow := mkGroupMessageRow {
  gm_id : string; gm_client_id : string; gm_sender : Z; gm_nickname : string;
  gm_text : string; gm_created_time : Z;
}.

(** [im_group_requests], keyed by (actor, client id). *)
Record GroupRequestRow := mkGroupRequestRow { gr_payload : string; gr_reply : string }.

(** * The database *)


(** Tables of users, registration and the account pool. *)
Record AuthTables := mkAuthTables {
  users : gmap Z UserRow;
  users_next : Z;
  registration_requests : gmap string RegistrationRow;
  account_pool : gmap Z PoolRow;
  account_pool_next : Z;
  account_pool_cursor : option Z;
}.

(** Tables of friendship. *)
Record FriendTables := mkFriendTables {
  friend_pairs : gset (Z * Z);
  friend_applications : gmap Z FriendApplicationRow;
  friend_applications_next : Z;
  friends : gmap Z FriendRow;
  friends_next : Z;
  friend_chat_deletions : gmap (Z * Z) DeletionRow;
}.

(** Tables of conversation summaries. *)
Record ConversationTables := mkConversationTables {
  im_conversations : gmap (Z * string) ConversationRow;
  im_conversation_unread : gset (Z * string * Z);
}.

(** Tables of the outbox and the delivery receipts. *)
Record OutboxTables := mkOutboxTables {
  im_outbox : gmap Z OutboxRow;
  im_outbox_next : Z;
  im_message_receipts : gmap (Z * string) ReceiptRow;
}.

(** Tables of group chat. *)
Record GroupTables := mkGroupTables {
  im_groups : gmap Z GroupRow;
  im_group_members : gmap (Z * Z) MemberRow;
  im_group_applications : gmap Z GroupApplicationRow;
  im_group_applications_next : Z;
  im_group_messages : gmap (Z * Z) GroupMessageRow;
  im_group_requests : gmap (Z * string) GroupRequestRow;
  im_group_numbers : gmap Z Z;
  im_group_number_cursor : option Z;
}.

Record Database := mkDatabase {
  db_auth : AuthTables;
  db_friend : FriendTables;
  db_conv : ConversationTables;
  db_outbox : OutboxTables;
  db_group : GroupTables;
}.

(** One setter per table, on the whole database. *)

Definition on_auth (f : AuthTables → AuthTables) (d : Database) : Database :=
  mkDatabase (f (db_auth d)) (db_friend d) (db_conv d) (db_outbox d) (db_group d).

Definition set_users (f : gmap Z UserRow → gmap Z UserRow) : Database → Database :=
  on_auth (λ t, mkAuthTables (f (users t)) (users_next t) (registration_requests t) (account_pool t) (account_pool_next t) (account_pool_cursor t)).

Definition set_users_next (f : Z → Z) : Database → Database :=
  on_auth (λ t, mkAuthTables (users t) (f (users_next t)) (registration_requests t) (account_pool t) (account_pool_next t) (account_pool_cursor t)).

Definition set_registration_requests (f : gmap string RegistrationRow → gmap string RegistrationRow) : Database → Database :=
  on_auth (λ t, mkAuthTables (users t) (users_next t) (f (registration_requests t)) (account_pool t) (account_pool_next t) (account_pool_cursor t)).

Definition set_account_pool (f : gmap Z PoolRow → gmap Z PoolRow) : Database → Database :=
  on_auth (λ t, mkAuthTables (users t) (users_next t) (registration_requests t) (f (account_pool t)) (account_pool_next t) (account_pool_cursor t)).

Definition set_account_pool_next (f : Z → Z) : Database → Database :=
  on_auth (λ t, mkAuthTables (users t) (users_next t) (registration_requests t) (account_pool t) (f (account_pool_next t)) (account_pool_cursor t)).

Definition set_account_pool_cursor (f : option Z → option Z) : Database → Database :=
  on_auth (λ t, mkAuthTables (users t) (users_next t) (registration_requests t) (account_pool t) (account_pool_next t) (f (account_pool_cursor t))).

Definition on_friend (f : FriendTables → FriendTables) (d : Database) : Database :=
  mkDatabase (db_auth d) (f (db_friend d)) (db_conv d) (db_outbox d) (db_group d).

Definition set_friend_pairs (f : gset (Z * Z) → gset (Z * Z)) : Database → Database :=
  on_friend (λ t, mkFriendTables (f (friend_pairs t)) (friend_applications t) (friend_applications_next t) (friends t) (friends_next t) (friend_chat_deletions t)).

Definition set_friend_applications (f : gmap Z FriendApplicationRow → gmap Z FriendApplicationRow) : Database → Database :=
  on_friend (λ t, mkFriendTables (friend_pairs t) (f (friend_applications t)) (friend_applications_next t) (friends t) (friends_next t) (friend_chat_deletions t)).

Definition set_friend_applications_next (f : Z → Z) : Database → Database :=
  on_friend (λ t, mkFriendTables (friend_pairs t) (friend_applications t) (f (friend_applications_next t)) (friends t) (friends_next t) (friend_chat_deletions t)).

Definition set_friends (f : gmap Z FriendRow → gmap Z FriendRow) : Database → Database :=
  on_friend (λ t, mkFriendTables (friend_pairs t) (friend_applications t) (friend_applications_next t) (f (friends t)) (friends_next t) (friend_chat_deletions t)).

Definition set_friends_next (f : Z → Z) : Database → Database :=
  on_friend (λ t, mkFriendTables (friend_pairs t) (friend_applications t) (friend_applications_next t) (friends t) (f (friends_next t)) (friend_chat_deletions t)).

Definition set_friend_chat_deletions (f : gmap (Z * Z) DeletionRow → gmap (Z * Z) DeletionRow) : Database → Database :=
  on_friend (λ t, mkFriendTables (friend_pairs t) (friend_applications t) (friend_applications_next t) (friends t) (friends_next t) (f (friend_chat_deletions t))).

Definition on_conv (f : ConversationTables → ConversationTables) (d : Database) : Database :=
  mkDatabase (db_auth d) (db_friend d) (f (db_conv d)) (db_outbox d) (db_group d).

Definition set_im_conversations (f : gmap (Z * string) ConversationRow → gmap (Z * string) ConversationRow) : Database → Database :=
  on_conv (λ t, mkConversationTables (f (im_conversations t)) (im_conversation_unread t)).

Definition set_im_conversation_unread (f : gset (Z * string * Z) → gset (Z * string * Z)) : Database → Database :=
  on_conv (λ t, mkConversationTables (im_conversations t) (f (im_conversation_unread t))).

Definition on_outbox (f : OutboxTables → OutboxTables) (d : Database) : Database :=
  mkDatabase (db_auth d) (db_friend d) (db_conv d) (f (db_outbox d)) (db_group d).

Definition set_im_outbox (f : gmap Z OutboxRow → gmap Z OutboxRow) : Database → Database :=
  on_outbox (λ t, mkOutboxTables (f (im_outbox t)) (im_outbox_next t) (im_message_receipts t)).

Definition set_im_outbox_next (f : Z → Z) : Database → Database :=
  on_outbox (λ t, mkOutboxTables (im_outbox t) (f (im_outbox_next t)) (im_message_receipts t)).

Definition set_im_message_receipts (f : gmap (Z * string) ReceiptRow → gmap (Z * string) ReceiptRow) : Database → Database :=
  on_outbox (λ t, mkOutboxTables (im_outbox t) (im_outbox_next t) (f (im_message_receipts t))).

Definition on_group (f : GroupTables → GroupTables) (d : Database) : Database :=
  mkDatabase (db_auth d) (db_friend d) (db_conv d) (db_outbox d) (f (db_group d)).

Definition set_im_groups (f : gmap Z GroupRow → gmap Z GroupRow) : Database → Database :=
  on_group (λ t, mkGroupTables (f (im_groups t)) (im_group_members t) (im_group_applications t) (im_group_applications_next t) (im_group_messages t) (im_group_requests t) (im_group_numbers t) (im_group_number_cursor t)).

Definition set_im_group_members (f : gmap (Z * Z) MemberRow → gmap (Z * Z) MemberRow) : Database → Database :=
  on_group (λ t, mkGroupTables (im_groups t) (f (im_group_members t)) (im_group_applications t) (im_group_applications_next t) (im_group_messages t) (im_group_requests t) (im_group_numbers t) (im_group_number_cursor t)).

Definition set_im_group_applications (f : gmap Z GroupApplicationRow → gmap Z GroupApplicationRow) : Database → Database :=
  on_group (λ t, mkGroupTables (im_groups t) (im_group_members t) (f (im_group_applications t)) (im_group_applications_next t) (im_group_messages t) (im_group_requests t) (im_group_numbers t) (im_group_number_cursor t)).

Definition set_im_group_applications_next (f : Z → Z) : Database → Database :=
  on_group (λ t, mkGroupTables (im_groups t) (im_group_members t) (im_group_applications t) (f (im_group_applications_next t)) (im_group_messages t) (im_group_requests t) (im_group_numbers t) (im_group_number_cursor t)).

Definition set_im_group_messages (f : gmap (Z * Z) GroupMessageRow → gmap (Z * Z) GroupMessageRow) : Database → Database :=
  on_group (λ t, mkGroupTables (im_groups t) (im_group_members t) (im_group_applications t) (im_group_applications_next t) (f (im_group_messages t)) (im_group_requests t) (im_group_numbers t) (im_group_number_cursor t)).

Definition set_im_group_requests (f : gmap (Z * string) GroupRequestRow → gmap (Z * string) GroupRequestRow) : Database → Database :=
  on_group (λ t, mkGroupTables (im_groups t) (im_group_members t) (im_group_applications t) (im_group_applications_next t) (im_group_messages t) (f (im_group_requests t)) (im_group_numbers t) (im_group_number_cursor t)).

Definition set_im_group_numbers (f : gmap Z Z → gmap Z Z) : Database → Database :=
  on_group (λ t, mkGroupTables (im_groups t) (im_group_members t) (im_group_applications t) (im_group_applications_next t) (im_group_messages t) (im_group_requests t) (f (im_group_numbers t)) (im_group_number_cursor t)).

Definition set_im_group_number_cursor (f : option Z → option Z) : Database → Database :=
  on_group (λ t, mkGroupTables (im_groups t) (im_group_members t) (im_group_applications t) (im_group_applications_next t) (im_group_messages t) (im_group_requests t) (im_group_numbers t) (f (im_group_number_cursor t))).

(** Direct access to a table of the database. *)

Definition t_users (d : Database) : gmap Z UserRow := users (db_auth d).
Definition t_users_next (d : Database) : Z := users_next (db_auth d).
Definition t_registration_requests (d : Database) : gmap string RegistrationRow := registration_requests (db_auth d).
Definition t_account_pool (d : Database) : gmap Z PoolRow := account_pool (db_auth d).
Definition t_account_pool_next (d : Database) : Z := account_pool_next (db_auth d).
Definition t_account_pool_cursor (d : Database) : option Z := account_pool_cursor (db_auth d).
Definition t_friend_pairs (d : Database) : gset (Z * Z) := friend_pairs (db_friend d).
Definition t_friend_applications (d : Database) : gmap Z FriendApplicationRow := friend_applications (db_friend d).
Definition t_friend_applications_next (d : Database) : Z := friend_applications_next (db_friend d).
Definition t_friends (d : Database) : gmap Z FriendRow := friends (db_friend d).
Definition t_friends_next (d : Database) : Z := friends_next (db_friend d).
Definition t_friend_chat_deletions (d : Database) : gmap (Z * Z) DeletionRow := friend_chat_deletions (db_friend d).
Definition t_im_conversations (d : Database) : gmap (Z * string) ConversationRow := im_conversations (db_conv d).
Definition t_im_conversation_unread (d : Database) : gset (Z * string * Z) := im_conversation_unread (db_conv d).
Definition t_im_outbox (d : Database) : gmap Z OutboxRow := im_outbox (db_outbox d).
Definition t_im_outbox_next (d : Database) : Z := im_outbox_next (db_outbox d).
Definition t_im_message_receipts (d : Database) : gmap (Z * string) ReceiptRow := im_message_receipts (db_outbox d).
Definition t_im_groups (d : Database) : gmap Z GroupRow := im_groups (db_group d).
Definition t_im_group_members (d : Database) : gmap (Z * Z) MemberRow := im_group_members (db_group d).
Definition t_im_group_applications (d : Database) : gmap Z GroupApplicationRow := im_group_applications (db_group d).
Definition t_im_group_applications_next (d : Database) : Z := im_group_applications_next (db_group d).
Definition t_im_group_messages (d : Database) : gmap (Z * Z) GroupMessageRow := im_group_messages (db_group d).
Definition t_im_group_requests (d : Database) : gmap (Z * string) GroupRequestRow := im_group_requests (db_group d).
Definition t_im_group_numbers (d : Database) : gmap Z Z := im_group_numbers (db_group d).
Definition t_im_group_number_cursor (d : Database) : option Z := im_group_number_cursor (db_group d).

Definition empty_db : Database :=
  mkDatabase
    (mkAuthTables ∅ 1 ∅ ∅ 1 None)
    (mkFriendTables ∅ ∅ 1 ∅ 1 ∅)
    (mkConversationTables ∅ ∅)
    (mkOutboxTables ∅ 1 ∅)
    (mkGroupTables ∅ ∅ ∅ 1 ∅ ∅ ∅ None).

(** * Computing with setters *)

(** Unfolds setters and accessors, computes the projections, and folds the
    accessors back. *)
Ltac db_unfold :=
  lazy beta zeta delta [
    set_users set_users_next set_registration_requests set_account_pool
    set_account_pool_next set_account_pool_cursor set_friend_pairs
    set_friend_applications set_friend_applications_next set_friends set_friends_next
    set_friend_chat_deletions set_im_conversations set_im_conversation_unread
    set_im_outbox set_im_outbox_next set_im_message_receipts set_im_groups
    set_im_group_members set_im_group_applications set_im_group_applications_next
    set_im_group_messages set_im_group_requests set_im_group_numbers
    set_im_group_number_cursor on_auth on_friend on_conv on_outbox on_group t_users
    t_users_next t_registration_requests t_account_pool t_account_pool_next
    t_account_pool_cursor t_friend_pairs t_friend_applications
    t_friend_applications_next t_friends t_friends_next t_friend_chat_deletions
    t_im_conversations t_im_conversation_unread t_im_outbox t_im_outbox_next
    t_im_message_receipts t_im_groups t_im_group_members t_im_group_applications
    t_im_group_applications_next t_im_group_messages t_im_group_requests
    t_im_group_numbers t_im_group_number_cursor] in *;
  cbn [
    fst snd db_auth db_friend db_conv db_outbox db_group users users_next
    registration_requests account_pool account_pool_next account_pool_cursor friend_pairs
    friend_applications friend_applications_next friends friends_next
    friend_chat_deletions im_conversations im_conversation_unread im_outbox im_outbox_next
    im_message_receipts im_groups im_group_members im_group_applications
    im_group_applications_next im_group_messages im_group_requests im_group_numbers
    im_group_number_cursor] in *.

Ltac db_fold :=
  repeat match goal with
  | |- context [users (db_auth ?d)] => change (users (db_auth d)) with (t_users d)
  | H : context [users (db_auth ?d)] |- _ => change (users (db_auth d)) with (t_users d) in H
  end;
  repeat match goal with
  | |- context [users_next (db_auth ?d)] => change (users_next (db_auth d)) with (t_users_next d)
  | H : context [users_next (db_auth ?d)] |- _ => change (users_next (db_auth d)) with (t_users_next d) in H
  end;
  repeat match goal with
  | |- context [registration_requests (db_auth ?d)] => change (registration_requests (db_auth d)) with (t_registration_requests d)
  | H : context [registration_requests (db_auth ?d)] |- _ => change (registration_requests (db_auth d)) with (t_registration_requests d) in H
  end;
  repeat match goal with
  | |- context [account_pool (db_auth ?d)] => change (account_pool (db_auth d)) with (t_account_pool d)
  | H : context [account_pool (db_auth ?d)] |- _ => change (account_pool (db_auth d)) with (t_account_pool d) in H
  end;
  repeat match goal with
  | |- context [account_pool_next (db_auth ?d)] => change (account_pool_next (db_auth d)) with (t_account_pool_next d)
  | H : context [account_pool_next (db_auth ?d)] |- _ => change (account_pool_next (db_auth d)) with (t_account_pool_next d) in H
  end;
  repeat match goal with
  | |- context [account_pool_cursor (db_auth ?d)] => change (account_pool_cursor (db_auth d)) with (t_account_pool_cursor d)
  | H : context [account_pool_cursor (db_auth ?d)] |- _ => change (account_pool_cursor (db_auth d)) with (t_account_pool_cursor d) in H
  end;
  repeat match goal with
  | |- context [friend_pairs (db_friend ?d)] => change (friend_pairs (db_friend d)) with (t_friend_pairs d)
  | H : context [friend_pairs (db_friend ?d)] |- _ => change (friend_pairs (db_friend d)) with (t_friend_pairs d) in H
  end;
  repeat match goal with
  | |- context [friend_applications (db_friend ?d)] => change (friend_applications (db_friend d)) with (t_friend_applications d)
  | H : context [friend_applications (db_friend ?d)] |- _ => change (friend_applications (db_friend d)) with (t_friend_applications d) in H
  end;
  repeat match goal with
  | |- context [friend_applications_next (db_friend ?d)] => change (friend_applications_next (db_friend d)) with (t_friend_applications_next d)
  | H : context [friend_applications_next (db_friend ?d)] |- _ => change (friend_applications_next (db_friend d)) with (t_friend_applications_next d) in H
  end;
  repeat match goal with
  | |- context [friends (db_friend ?d)] => change (friends (db_friend d)) with (t_friends d)
  | H : context [friends (db_friend ?d)] |- _ => change (friends (db_friend d)) with (t_friends d) in H
  end;
  repeat match goal with
  | |- context [friends_next (db_friend ?d)] => change (friends_next (db_friend d)) with (t_friends_next d)
  | H : context [friends_next (db_friend ?d)] |- _ => change (friends_next (db_friend d)) with (t_friends_next d) in H
  end;
  repeat match goal with
  | |- context [friend_chat_deletions (db_friend ?d)] => change (friend_chat_deletions (db_friend d)) with (t_friend_chat_deletions d)
  | H : context [friend_chat_deletions (db_friend ?d)] |- _ => change (friend_chat_deletions (db_friend d)) with (t_friend_chat_deletions d) in H
  end;
  repeat match goal with
  | |- context [im_conversations (db_conv ?d)] => change (im_conversations (db_conv d)) with (t_im_conversations d)
  | H : context [im_conversations (db_conv ?d)] |- _ => change (im_conversations (db_conv d)) with (t_im_conversations d) in H
  end;
  repeat match goal with
  | |- context [im_conversation_unread (db_conv ?d)] => change (im_conversation_unread (db_conv d)) with (t_im_conversation_unread d)
  | H : context [im_conversation_unread (db_conv ?d)] |- _ => change (im_conversation_unread (db_conv d)) with (t_im_conversation_unread d) in H
  end;
  repeat match goal with
  | |- context [im_outbox (db_outbox ?d)] => change (im_outbox (db_outbox d)) with (t_im_outbox d)
  | H : context [im_outbox (db_outbox ?d)] |- _ => change (im_outbox (db_outbox d)) with (t_im_outbox d) in H
  end;
  repeat match goal with
  | |- context [im_outbox_next (db_outbox ?d)] => change (im_outbox_next (db_outbox d)) with (t_im_outbox_next d)
  | H : context [im_outbox_next (db_outbox ?d)] |- _ => change (im_outbox_next (db_outbox d)) with (t_im_outbox_next d) in H
  end;
  repeat match goal with
  | |- context [im_message_receipts (db_outbox ?d)] => change (im_message_receipts (db_outbox d)) with (t_im_message_receipts d)
  | H : context [im_message_receipts (db_outbox ?d)] |- _ => change (im_message_receipts (db_outbox d)) with (t_im_message_receipts d) in H
  end;
  repeat match goal with
  | |- context [im_groups (db_group ?d)] => change (im_groups (db_group d)) with (t_im_groups d)
  | H : context [im_groups (db_group ?d)] |- _ => change (im_groups (db_group d)) with (t_im_groups d) in H
  end;
  repeat match goal with
  | |- context [im_group_members (db_group ?d)] => change (im_group_members (db_group d)) with (t_im_group_members d)
  | H : context [im_group_members (db_group ?d)] |- _ => change (im_group_members (db_group d)) with (t_im_group_members d) in H
  end;
  repeat match goal with
  | |- context [im_group_applications (db_group ?d)] => change (im_group_applications (db_group d)) with (t_im_group_applications d)
  | H : context [im_group_applications (db_group ?d)] |- _ => change (im_group_applications (db_group d)) with (t_im_group_applications d) in H
  end;
  repeat match goal with
  | |- context [im_group_applications_next (db_group ?d)] => change (im_group_applications_next (db_group d)) with (t_im_group_applications_next d)
  | H : context [im_group_applications_next (db_group ?d)] |- _ => change (im_group_applications_next (db_group d)) with (t_im_group_applications_next d) in H
  end;
  repeat match goal with
  | |- context [im_group_messages (db_group ?d)] => change (im_group_messages (db_group d)) with (t_im_group_messages d)
  | H : context [im_group_messages (db_group ?d)] |- _ => change (im_group_messages (db_group d)) with (t_im_group_messages d) in H
  end;
  repeat match goal with
  | |- context [im_group_requests (db_group ?d)] => change (im_group_requests (db_group d)) with (t_im_group_requests d)
  | H : context [im_group_requests (db_group ?d)] |- _ => change (im_group_requests (db_group d)) with (t_im_group_requests d) in H
  end;
  repeat match goal with
  | |- context [im_group_numbers (db_group ?d)] => change (im_group_numbers (db_group d)) with (t_im_group_numbers d)
  | H : context [im_group_numbers (db_group ?d)] |- _ => change (im_group_numbers (db_group d)) with (t_im_group_numbers d) in H
  end;
  repeat match goal with
  | |- context [im_group_number_cursor (db_group ?d)] => change (im_group_number_cursor (db_group d)) with (t_im_group_number_cursor d)
  | H : context [im_group_number_cursor (db_group ?d)] |- _ => change (im_group_number_cursor (db_group d)) with (t_im_group_number_cursor d) in H
  end;
  idtac.

Ltac db_simpl := db_unfold; db_fold.
