(* ===== verification/Effects.v ===== *)
(** The effects of the handlers: MySQL transactions, the other stores, the
    clock, identifiers and exceptions, as one state-and-error monad.

    A [World] holds what survives a handler: the committed database, the message
    bodies in MongoDB, the Redis keys, the messages handed to Kafka.  A handler
    runs on connections; an open transaction is the world's [w_txn] (the view
    its statements act on), [None] is autocommit.  Every round trip to a server
    takes the next entry of [w_faults]: the call may fail before or after its
    effect took place, so a theorem over all worlds is a theorem over all
    failure schedules.  A list that has run out means no further failures. *)
From S2P Require Import Prelude Snowflake Schema.

(** * Exceptions *)

Inductive exn :=
| SqlError (code : Z)                       (* boost::mysql: server or network error *)
| CodedError (code message : string)        (* RegistrationError, FriendError, group Error *)
| InvalidArgument (message : string)        (* std::invalid_argument *)
| RuntimeError (message : string)           (* std::runtime_error *)
| StoreError (code : Z)                     (* an exception of the MongoDB or Redis client *)
| OutOfFuel.                                (* not an exception: a loop that has not ended *)

#[global] Instance exn_eq_dec : EqDecision exn.
Proof. solve_decision. Defined.

(** Code that can throw but has no other effect. *)
Definition E (A : Type) : Type := (exn + A)%type.

#[global] Instance E_ret : MRet E := λ A a, inr a.
#[global] Instance E_bind : MBind E := λ A B f m,
  match m with inl e => inl e | inr a => f a end.

Definition ethrow {A} (e : exn) : E A := inl e.

Inductive fault := NoFault | FailBefore (code : Z) | FailAfter (code : Z).

(** * The world *)

Record World := mkWorld {
  w_db : Database;                  (* committed *)
  w_txn : option Database;          (* the open transaction's view *)
  w_mongo : gmap string document;  (* IM-System.msg, by serverMsgID *)
  w_redis : RedisStore;
  w_kafka : list (string * string);  (* (key, payload), oldest first *)
  w_gateway : Gateway;              (* the memory of the gateway process *)
  w_clock : nat → Z;
  w_tick : nat;
  w_uuid : nat → string;
  w_uuids : nat;
  w_snow : Snowflake;
  w_fuel : nat;                     (* bound on the generator's busy wait *)
  w_mysql_now : datetime;           (* NOW() of the database server *)
  w_faults : list fault;
}.

Definition with_db d w := mkWorld d (w_txn w) (w_mongo w) (w_redis w) (w_kafka w) (w_gateway w)
  (w_clock w) (w_tick w) (w_uuid w) (w_uuids w) (w_snow w) (w_fuel w) (w_mysql_now w) (w_faults w).
Definition with_txn t w := mkWorld (w_db w) t (w_mongo w) (w_redis w) (w_kafka w) (w_gateway w)
  (w_clock w) (w_tick w) (w_uuid w) (w_uuids w) (w_snow w) (w_fuel w) (w_mysql_now w) (w_faults w).
Definition with_mongo m w := mkWorld (w_db w) (w_txn w) m (w_redis w) (w_kafka w) (w_gateway w)
  (w_clock w) (w_tick w) (w_uuid w) (w_uuids w) (w_snow w) (w_fuel w) (w_mysql_now w) (w_faults w).
Definition with_redis r w := mkWorld (w_db w) (w_txn w) (w_mongo w) r (w_kafka w) (w_gateway w)
  (w_clock w) (w_tick w) (w_uuid w) (w_uuids w) (w_snow w) (w_fuel w) (w_mysql_now w) (w_faults w).
Definition with_kafka k w := mkWorld (w_db w) (w_txn w) (w_mongo w) (w_redis w) k (w_gateway w)
  (w_clock w) (w_tick w) (w_uuid w) (w_uuids w) (w_snow w) (w_fuel w) (w_mysql_now w) (w_faults w).
Definition with_gateway g w := mkWorld (w_db w) (w_txn w) (w_mongo w) (w_redis w) (w_kafka w) g
  (w_clock w) (w_tick w) (w_uuid w) (w_uuids w) (w_snow w) (w_fuel w) (w_mysql_now w) (w_faults w).
Definition with_tick t w := mkWorld (w_db w) (w_txn w) (w_mongo w) (w_redis w) (w_kafka w)
  (w_gateway w) (w_clock w) t (w_uuid w) (w_uuids w) (w_snow w) (w_fuel w) (w_mysql_now w)
  (w_faults w).
Definition with_uuids n w := mkWorld (w_db w) (w_txn w) (w_mongo w) (w_redis w) (w_kafka w)
  (w_gateway w) (w_clock w) (w_tick w) (w_uuid w) n (w_snow w) (w_fuel w) (w_mysql_now w)
  (w_faults w).
Definition with_snow s w := mkWorld (w_db w) (w_txn w) (w_mongo w) (w_redis w) (w_kafka w)
  (w_gateway w) (w_clock w) (w_tick w) (w_uuid w) (w_uuids w) s (w_fuel w) (w_mysql_now w)
  (w_faults w).
Definition with_faults f w := mkWorld (w_db w) (w_txn w) (w_mongo w) (w_redis w) (w_kafka w)
  (w_gateway w) (w_clock w) (w_tick w) (w_uuid w) (w_uuids w) (w_snow w) (w_fuel w)
  (w_mysql_now w) f.

(** What the current connection sees. *)
Definition view (w : World) : Database := default (w_db w) (w_txn w).

(** A statement's new database: into the open transaction, or committed at once. *)
Definition put (d : Database) (w : World) : World :=
  match w_txn w with Some _ => with_txn (Some d) w | None => with_db d w end.

(** * The monad *)

Definition M (A : Type) : Type := World → (exn + A) * World.

#[global] Instance M_ret : MRet M := λ A a w, (inr a, w).
#[global] Instance M_bind : MBind M := λ A B f m w,
  match m w with
  | (inr a, w') => f a w'
  | (inl e, w') => (inl e, w')
  end.

Definition throw {A} (e : exn) : M A := λ w, (inl e, w).

Definition lift {A} (m : E A) : M A := λ w, (m, w).

(** [try { m } catch (...)]: the exception as a value.  A loop that has not
    ended is not caught. *)
Definition catch {A} (m : M A) : M (exn + A) := λ w,
  match m w with
  | (inl OutOfFuel, w') => (inl OutOfFuel, w')
  | (r, w') => (inr r, w')
  end.

Definition when (b : bool) (m : M unit) : M unit := if b then m else mret tt.

(** One round trip: consumes a fault, [mk] is the client's exception. *)
Definition remote {A} (mk : Z → exn) (op : World → exn + (A * World)) : M A := λ w,
  let '(f, fs) := match w_faults w with [] => (NoFault, []) | f :: fs => (f, fs) end in
  let w0 := with_faults fs w in
  match f with
  | FailBefore c => (inl (mk c), w0)
  | NoFault => match op w0 with inl e => (inl e, w0) | inr (a, w1) => (inr a, w1) end
  | FailAfter c => match op w0 with inl e => (inl e, w0) | inr (_, w1) => (inl (mk c), w1) end
  end.

(** ** SQL *)

(** [async_execute] of a statement that can change rows or break a constraint. *)
Definition execute {A} (op : Database → exn + (A * Database)) : M A :=
  remote SqlError (λ w,
    match op (view w) with inl e => inl e | inr (a, d) => inr (a, put d w) end).

Definition update {A} (u : Database → A * Database) : M A := execute (λ d, inr (u d)).

(** [async_execute] of a SELECT. *)
Definition query {A} (q : Database → A) : M A := remote SqlError (λ w, inr (q (view w), w)).

(** A statement without effect on the tables (SET SESSION ..., SET TRANSACTION ...). *)
Definition set_session : M unit := query (λ _, tt).

Definition start_transaction : M unit :=
  remote SqlError (λ w, inr (tt, with_txn (Some (view w)) w)).

Definition commit : M unit :=
  remote SqlError (λ w, inr (tt, with_txn None (with_db (view w) w))).

(** ROLLBACK with [redirect_error]: the boolean is [!ec]. *)
Definition rollback : M bool := λ w,
  match remote SqlError (λ w, inr (tt, with_txn None w)) w with
  | (inr _, w') => (inr true, w')
  | (inl _, w') => (inr false, w')
  end.

(** The life of one pooled connection: [async_get_connection] may fail; leaving
    the scope returns the connection, and the server forgets a transaction that
    was not committed.  An enclosing connection's transaction is not visible on
    the new one and is still open afterwards. *)
Definition async_get_connection : M unit := remote SqlError (λ w, inr (tt, w)).

Definition connected {A} (m : M A) : M A := async_get_connection;; m.

Definition with_connection {A} (m : M A) : M A := λ w,
  let '(r, w') := connected m (with_txn None w) in (r, with_txn (w_txn w) w').

(** ** Time and identifiers *)

(** [system_clock::now()] in milliseconds. *)
Definition now : M Z := λ w, (inr (w_clock w (w_tick w)), with_tick (S (w_tick w)) w).

Definition mysql_now : M datetime := λ w, (inr (w_mysql_now w), w).

(** [uuid::newone_str()] *)
Definition newone_str : M string := λ w,
  (inr (w_uuid w (w_uuids w)), with_uuids (S (w_uuids w)) w).

(** [Snowflake::instance().nextId()] *)
Definition snowflake_nextId : M Z := λ w,
  match nextId (w_fuel w) (w_clock w) (w_tick w) (w_snow w) with
  | (Id id, s, t) => (inr id, with_snow s (with_tick t w))
  | (ClockMovedBackwards o, s, t) =>
      (inl (RuntimeError ("Snowflake: clock moved backwards by " +:+ to_string o
              +:+ "ms, refusing to generate id")), with_snow s (with_tick t w))
  | (Spinning, s, t) => (inl OutOfFuel, with_snow s (with_tick t w))
  end.

(** * Transactions that roll back on any exception *)

(** The try block: the action, then COMMIT. *)
Definition committed {A} (action : M A) : M A := x ← action; commit;; mret x.

(** [conversationTransaction]: START TRANSACTION outside the try block, then the
    action and COMMIT; any exception rolls back and is rethrown. *)
Definition conversationTransaction {A} (action : M A) : M A :=
  start_transaction;;
  r ← catch (committed action);
  match r with
  | inr x => mret x
  | inl failure => rollback;; throw failure
  end.

(** * Laws of the monad *)

Lemma bind_ret_l {A B} (a : A) (f : A → M B) w : (mret a ≫= f) w = f a w.
Proof. done. Qed.

Lemma bind_ret_r {A} (m : M A) w : (m ≫= mret) w = m w.
Proof. unfold mbind, M_bind. by destruct (m w) as [[e|a] w']. Qed.

Lemma bind_assoc {A B C} (m : M A) (f : A → M B) (g : B → M C) w :
  ((m ≫= f) ≫= g) w = (m ≫= λ a, f a ≫= g) w.
Proof. unfold mbind, M_bind. by destruct (m w) as [[e|a] w']. Qed.

Lemma bind_ext {A B} (m : M A) (f g : A → M B) w :
  (∀ a w1, f a w1 = g a w1) → (m ≫= f) w = (m ≫= g) w.
Proof. intros Hfg. unfold mbind, M_bind. by destruct (m w) as [[e|a] w1]. Qed.

(** * Inversion of runs *)

Lemma bind_ok {A B} (m : M A) (f : A → M B) w b w' :
  (m ≫= f) w = (inr b, w') → ∃ a w1, m w = (inr a, w1) ∧ f a w1 = (inr b, w').
Proof. unfold mbind, M_bind. destruct (m w) as [[e|a] w1]; [done|eauto]. Qed.

Lemma bind_err {A B} (m : M A) (f : A → M B) w e w' :
  (m ≫= f) w = (inl e, w') →
  m w = (inl e, w') ∨ ∃ a w1, m w = (inr a, w1) ∧ f a w1 = (inl e, w').
Proof. unfold mbind, M_bind. destruct (m w) as [[e1|a] w1]; [|eauto]. intros [= -> ->]. by left. Qed.

(** Every outcome of a sequence. *)
Lemma bind_cases {A B} (m : M A) (f : A → M B) w r w' :
  (m ≫= f) w = (r, w') →
  (∃ e, m w = (inl e, w') ∧ r = inl e) ∨ ∃ a w1, m w = (inr a, w1) ∧ f a w1 = (r, w').
Proof. unfold mbind, M_bind. destruct (m w) as [[e|a] w1]; [|eauto]. intros [= <- <-]. eauto. Qed.

Lemma ret_ok {A} (a b : A) w w' : mret (M:=M) a w = (inr b, w') → a = b ∧ w = w'.
Proof. by intros [= -> ->]. Qed.

Lemma ret_cases {A} (a : A) w r w' : mret (M:=M) a w = (r, w') → r = inr a ∧ w' = w.
Proof. by intros [= <- <-]. Qed.

Lemma throw_ok {A} e w (a : A) w' : throw e w = (inr a, w') → False.
Proof. done. Qed.

Lemma lift_ok {A} (m : E A) w (a : A) w' : lift m w = (inr a, w') → m = inr a ∧ w' = w.
Proof. by intros [= -> ->]. Qed.

Lemma ebind_ok {A B} (m : E A) (f : A → E B) b :
  (m ≫= f) = inr b → ∃ a, m = inr a ∧ f a = inr b.
Proof. unfold mbind, E_bind. destruct m; [done|eauto]. Qed.

Lemma catch_ok {A} (m : M A) w r w' : catch m w = (inr r, w') → m w = (r, w').
Proof. unfold catch. destruct (m w) as [[[]|a] w1]; by intros [= <- <-]. Qed.

Lemma catch_err {A} (m : M A) w e w' :
  catch m w = (inl e, w') → m w = (inl OutOfFuel, w') ∧ e = OutOfFuel.
Proof. unfold catch. destruct (m w) as [[[]|a] w1]; by intros [= <- <-]. Qed.

Lemma catch_not_fuel {A} (m : M A) w e w' :
  catch m w = (inr (inl e), w') → e ≠ OutOfFuel.
Proof. unfold catch. destruct (m w) as [[[]|a] w1]; by intros [= <- <-]. Qed.

Lemma remote_ok {A} mk (op : World → exn + (A * World)) w a w' :
  remote mk op w = (inr a, w') → ∃ fs, op (with_faults fs w) = inr (a, w').
Proof.
  unfold remote. destruct (w_faults w) as [|[] fs].
  - destruct (op _) as [|[a1 w1]] eqn:E; [done|]. intros [= -> ->]. eauto.
  - destruct (op _) as [|[a1 w1]] eqn:E; [done|]. intros [= -> ->]. eauto.
  - done.
  - by destruct (op _) as [|[a1 w1]].
Qed.

Lemma remote_err {A} mk (op : World → exn + (A * World)) w e w' :
  remote mk op w = (inl e, w') →
  ∃ fs, (op (with_faults fs w) = inl e ∧ w' = with_faults fs w) ∨
        (∃ c, e = mk c ∧ (w' = with_faults fs w ∨ ∃ a, op (with_faults fs w) = inr (a, w'))).
Proof.
  unfold remote. destruct (w_faults w) as [|[|c|c] fs].
  - destruct (op _) as [e1|[a1 w1]] eqn:E; [|done]. intros [= -> <-]. eauto.
  - destruct (op _) as [e1|[a1 w1]] eqn:E; [|done]. intros [= -> <-]. eauto.
  - intros [= <- <-]. exists fs. right. eauto.
  - destruct (op _) as [e1|[a1 w1]] eqn:E; intros [= <- <-]; exists fs; eauto 10.
Qed.

Lemma query_ok {A} (q : Database → A) w a w' :
  query q w = (inr a, w') → a = q (view w) ∧ ∃ fs, w' = with_faults fs w.
Proof. intros (fs & [= <- <-])%remote_ok. eauto. Qed.

Lemma execute_ok {A} (op : Database → exn + (A * Database)) w a w' :
  execute op w = (inr a, w') →
  ∃ d fs, op (view w) = inr (a, d) ∧ w' = put d (with_faults fs w).
Proof.
  intros (fs & H)%remote_ok. change (view (with_faults fs w)) with (view w) in H.
  destruct (op (view w)) as [|[a1 d]]; [done|]. injection H as -> <-. eauto.
Qed.

Lemma update_ok {A} (u : Database → A * Database) w a w' :
  update u w = (inr a, w') →
  ∃ fs, a = (u (view w)).1 ∧ w' = put (u (view w)).2 (with_faults fs w).
Proof.
  intros (d & fs & [= Heq] & ->)%execute_ok. exists fs. by rewrite Heq.
Qed.

(** A failed statement either did nothing or took effect. *)
Lemma update_err {A} (u : Database → A * Database) w e w' :
  update u w = (inl e, w') →
  ∃ fs, w' = with_faults fs w ∨ w' = put (u (view w)).2 (with_faults fs w).
Proof.
  intros (fs & H)%remote_err. exists fs. cbv beta in H.
  change (view (with_faults fs w)) with (view w) in H. destruct (u (view w)) as [a d].
  destruct H as [[H _]|(c & _ & [->|(x & H)])]; [done|by left|]. injection H as _ <-. by right.
Qed.

Lemma put_faults d fs w : put d (with_faults fs w) = with_faults fs (put d w).
Proof. unfold put. cbn. by destruct (w_txn w). Qed.

Lemma view_put d w : view (put d w) = d.
Proof. unfold put, view. destruct (w_txn w) eqn:E; cbn; [done|]. by rewrite E. Qed.

Lemma view_txn d w : w_txn w = Some d → view w = d.
Proof. unfold view. by intros ->. Qed.

Lemma put_put d d' w : put d (put d' w) = put d w.
Proof. unfold put. destruct (w_txn w) eqn:E; cbn; [done|]. by rewrite E. Qed.

Lemma view_faults fs w : view (with_faults fs w) = view w.
Proof. done. Qed.
Lemma view_tick t w : view (with_tick t w) = view w.
Proof. done. Qed.
Lemma view_uuids t w : view (with_uuids t w) = view w.
Proof. done. Qed.
Lemma view_snow t w : view (with_snow t w) = view w.
Proof. done. Qed.
Lemma view_mongo t w : view (with_mongo t w) = view w.
Proof. done. Qed.
Lemma view_redis t w : view (with_redis t w) = view w.
Proof. done. Qed.
Lemma view_kafka t w : view (with_kafka t w) = view w.
Proof. done. Qed.

Lemma view_gateway t w : view (with_gateway t w) = view w.
Proof. done. Qed.

Lemma txn_put d w : w_txn (put d w) = (λ _, d) <$> w_txn w.
Proof. unfold put. by destruct (w_txn w) eqn:E; cbn; rewrite ?E. Qed.

Lemma db_put_txn d w d0 : w_txn w = Some d0 → w_db (put d w) = w_db w.
Proof. unfold put. by intros ->. Qed.

Lemma mongo_put d w : w_mongo (put d w) = w_mongo w.
Proof. unfold put. by destruct (w_txn w). Qed.
Lemma redis_put d w : w_redis (put d w) = w_redis w.
Proof. unfold put. by destruct (w_txn w). Qed.
Lemma kafka_put d w : w_kafka (put d w) = w_kafka w.
Proof. unfold put. by destruct (w_txn w). Qed.
Lemma gateway_put d w : w_gateway (put d w) = w_gateway w.
Proof. unfold put. by destruct (w_txn w). Qed.
Lemma clock_put d w : w_clock (put d w) = w_clock w.
Proof. unfold put. by destruct (w_txn w). Qed.
Lemma snow_put d w : w_snow (put d w) = w_snow w.
Proof. unfold put. by destruct (w_txn w). Qed.
Lemma tick_put d w : w_tick (put d w) = w_tick w.
Proof. unfold put. by destruct (w_txn w). Qed.
Lemma uuid_put d w : w_uuid (put d w) = w_uuid w.
Proof. unfold put. by destruct (w_txn w). Qed.
Lemma uuids_put d w : w_uuids (put d w) = w_uuids w.
Proof. unfold put. by destruct (w_txn w). Qed.

Lemma txn_faults fs w : w_txn (with_faults fs w) = w_txn w.
Proof. done. Qed.
Lemma txn_tick t w : w_txn (with_tick t w) = w_txn w.
Proof. done. Qed.
Lemma txn_uuids t w : w_txn (with_uuids t w) = w_txn w.
Proof. done. Qed.
Lemma txn_snow t w : w_txn (with_snow t w) = w_txn w.
Proof. done. Qed.
Lemma mysql_now_put d w : w_mysql_now (put d w) = w_mysql_now w.
Proof. unfold put. by destruct (w_txn w). Qed.

Create Rewrite HintDb world.
#[export] Hint Rewrite txn_faults txn_tick txn_uuids txn_snow mysql_now_put : world.
#[export] Hint Rewrite view_put put_put put_faults view_faults view_tick view_uuids view_snow
  view_mongo view_redis view_kafka view_gateway txn_put mongo_put redis_put kafka_put gateway_put clock_put snow_put
  tick_put uuid_put uuids_put : world.

Ltac world_cbn :=
  cbn [with_db with_txn with_mongo with_redis with_kafka with_gateway with_tick with_uuids with_snow
       with_faults w_db w_txn w_mongo w_redis w_kafka w_gateway w_clock w_tick w_uuid w_uuids w_snow w_fuel
       w_mysql_now w_faults] in *.

Ltac world_simpl := repeat (progress (autorewrite with world in *; world_cbn)).

(** Takes a successful run apart: binds, statements, guards. *)
Ltac run_ok H :=
  lazymatch type of H with
  | mbind _ _ _ = (inr _, _) =>
      let a := fresh "a" in let w := fresh "w" in
      let H1 := fresh "H" in
      apply bind_ok in H as (a & w & H1 & H); run_ok H1; run_ok H
  | mret _ _ = (inr _, _) => apply ret_ok in H as [? ?]; subst
  | lift _ _ = (inr _, _) => apply lift_ok in H as [H ?]; subst
  | throw _ _ = (inr _, _) => exfalso; exact (throw_ok _ _ _ _ H)
  | query _ _ = (inr _, _) =>
      let fs := fresh "fs" in apply query_ok in H as (? & fs & ?); subst
  | set_session _ = (inr _, _) =>
      let fs := fresh "fs" in unfold set_session in H; apply query_ok in H as (? & fs & ?); subst
  | execute _ _ = (inr _, _) =>
      let fs := fresh "fs" in let d := fresh "d" in
      apply execute_ok in H as (d & fs & H & ?); subst
  | update _ _ = (inr _, _) =>
      let fs := fresh "fs" in apply update_ok in H as (fs & ? & ?); subst
  | now _ = (inr _, _) => unfold now in H; injection H as <- <-
  | newone_str _ = (inr _, _) => unfold newone_str in H; injection H as <- <-
  | mysql_now _ = (inr _, _) => unfold mysql_now in H; injection H as <- <-
  | (match ?x with _ => _ end) _ = (inr _, _) =>
      destruct x eqn:?; run_ok H
  | when ?b _ _ = (inr _, _) => unfold when in H; run_ok H
  | _ => idtac
  end.

(** * Bodies of transactions *)

(** While a transaction is open, the computation leaves the committed database
    alone and keeps the transaction open, whatever its outcome. *)
Class InTx {A} (m : M A) : Prop :=
  in_tx : ∀ w d, w_txn w = Some d →
    w_db (m w).2 = w_db w ∧ ∃ d', w_txn (m w).2 = Some d'.

#[export] Instance InTx_ret {A} (a : A) : InTx (mret a).
Proof. intros w d H. cbn. eauto. Qed.

#[export] Instance InTx_throw {A} e : InTx (throw (A:=A) e).
Proof. intros w d H. cbn. eauto. Qed.

#[export] Instance InTx_lift {A} (m : E A) : InTx (lift m).
Proof. intros w d H. cbn. eauto. Qed.

#[export] Instance InTx_bind {A B} (m : M A) (f : A → M B) :
  InTx m → (∀ a, InTx (f a)) → InTx (m ≫= f).
Proof.
  intros Hm Hf w d H. destruct (Hm w d H) as (Hdb & d' & Ht).
  unfold mbind, M_bind. destruct (m w) as [[e|a] w1]; cbn in *; [eauto|].
  destruct (Hf a w1 d' Ht) as (Hdb' & d'' & Ht'). rewrite Hdb'. eauto.
Qed.

#[export] Instance InTx_catch {A} (m : M A) : InTx m → InTx (catch m).
Proof.
  intros Hm w d H. destruct (Hm w d H) as (Hdb & d' & Ht). unfold catch.
  destruct (m w) as [[[]|a] w1]; cbn in *; eauto.
Qed.

#[export] Instance InTx_when b m : InTx m → InTx (when b m).
Proof. intros Hm. unfold when. destruct b; [done|apply _]. Qed.

Lemma InTx_remote {A} mk (op : World → exn + (A * World)) :
  (∀ w d, w_txn w = Some d → match op w with
     | inl _ => True
     | inr (_, w') => w_db w' = w_db w ∧ ∃ d', w_txn w' = Some d'
     end) → InTx (remote mk op).
Proof.
  intros Hop w d H. unfold remote.
  destruct (w_faults w) as [|[] fs]; try (specialize (Hop (with_faults _ w) d H));
    try (destruct (op _) as [|[a w1]] eqn:E; cbn; eauto; fail); cbn; eauto.
  - specialize (Hop (with_faults [] w) d H). destruct (op _) as [|[a w1]]; cbn; eauto.
  - specialize (Hop (with_faults fs w) d H). destruct (op _) as [|[a w1]]; cbn; eauto.
  - specialize (Hop (with_faults fs w) d H). destruct (op _) as [|[a w1]]; cbn; eauto.
Qed.

#[export] Instance InTx_query {A} (q : Database → A) : InTx (query q).
Proof. apply InTx_remote. intros w d H. eauto. Qed.

#[export] Instance InTx_execute {A} (op : Database → exn + (A * Database)) : InTx (execute op).
Proof.
  apply InTx_remote. intros w d H. destruct (op (view w)) as [|[a d']]; [done|].
  rewrite (db_put_txn _ _ _ H), txn_put, H. cbn. eauto.
Qed.

#[export] Instance InTx_update {A} (u : Database → A * Database) : InTx (update u).
Proof. apply InTx_execute. Qed.

#[export] Instance InTx_now : InTx now.
Proof. intros w d H. cbn. eauto. Qed.

#[export] Instance InTx_mysql_now : InTx mysql_now.
Proof. intros w d H. cbn. eauto. Qed.

#[export] Instance InTx_newone_str : InTx newone_str.
Proof. intros w d H. cbn. eauto. Qed.

#[export] Instance InTx_snowflake : InTx snowflake_nextId.
Proof.
  intros w d H. unfold snowflake_nextId. destruct (nextId _ _ _ _) as [[[] ?] ?]; cbn; eauto.
Qed.

(** Matches in bodies are split by the resolution itself. *)
#[export] Hint Extern 2 (InTx (match ?x with _ => _ end)) => destruct x : typeclass_instances.

(** * Relations between the worlds before and after *)

(** Whatever the outcome and the failures, the computation relates the world
    before to the world after. *)
Class Step (R : relation World) {A} (m : M A) : Prop := step : ∀ w, R w (m w).2.

Section step.
#[local] Set Default Proof Using "All".
Context (R : relation World) `{!PreOrder R}.

#[global] Instance Step_ret {A} (a : A) : Step R (mret a).
Proof. intros w. cbn. reflexivity. Qed.
#[global] Instance Step_throw {A} e : Step R (throw (A:=A) e).
Proof. intros w. cbn. reflexivity. Qed.
#[global] Instance Step_lift {A} (m : E A) : Step R (lift m).
Proof. intros w. cbn. reflexivity. Qed.
#[global] Instance Step_bind {A B} (m : M A) (f : A → M B) :
  Step R m → (∀ a, Step R (f a)) → Step R (m ≫= f).
Proof.
  intros Hm Hf w. specialize (Hm w). unfold mbind, M_bind.
  destruct (m w) as [[e|a] w1]; [done|]. etrans; [exact Hm|apply Hf].
Qed.
#[global] Instance Step_catch {A} (m : M A) : Step R m → Step R (catch m).
Proof.
  intros Hm w. specialize (Hm w). unfold catch. by destruct (m w) as [[[]|a] w1].
Qed.
#[global] Instance Step_when b m : Step R m → Step R (when b m).
Proof. intros Hm. unfold when. destruct b; [done|apply _]. Qed.

Lemma Step_remote {A} mk (op : World → exn + (A * World)) :
  (∀ fs w, R w (with_faults fs w)) →
  (∀ w a w', op w = inr (a, w') → R w w') → Step R (remote mk op).
Proof.
  intros Hf Hop w. unfold remote.
  destruct (w_faults w) as [|[] fs]; try apply Hf;
    (destruct (op _) as [|[a w1]] eqn:E; [apply Hf|]; etrans; [apply Hf|by eapply Hop]).
Qed.
End step.

#[export] Hint Extern 2 (Step _ (match ?x with _ => _ end)) => destruct x : typeclass_instances.

(** * Transactions are atomic *)

Definition tx_start (fs : list fault) (w : World) : World :=
  with_faults fs (with_txn (Some (w_db w)) w).

Lemma start_transaction_ok w u w' :
  w_txn w = None → start_transaction w = (inr u, w') → ∃ fs, w' = tx_start fs w.
Proof.
  intros Hn (fs & H)%remote_ok. injection H as <- <-. exists fs.
  unfold tx_start, view. cbn. by rewrite Hn.
Qed.

Lemma start_transaction_err w e w' :
  start_transaction w = (inl e, w') → w_db w' = w_db w ∧ ∃ c, e = SqlError c.
Proof.
  intros (fs & [[? _]|(c & -> & [->|(a & H)])])%remote_err; [done|eauto|].
  injection H as _ <-. eauto.
Qed.

Lemma commit_ok w d u w' :
  w_txn w = Some d → commit w = (inr u, w') →
  ∃ fs, w' = with_faults fs (with_txn None (with_db d w)).
Proof.
  intros Ht (fs & H)%remote_ok. injection H as <- <-. exists fs.
  unfold view. cbn. by rewrite Ht.
Qed.

Lemma commit_err w d e w' :
  w_txn w = Some d → commit w = (inl e, w') →
  (∃ c, e = SqlError c) ∧ (w_db w' = w_db w ∨ (w_db w' = d ∧ w_txn w' = None)).
Proof.
  intros Ht (fs & [[? _]|(c & -> & [->|(a & H)])])%remote_err; [done|eauto|].
  injection H as _ <-. split; [eauto|]. right. unfold view. cbn. by rewrite Ht.
Qed.

Lemma rollback_db w : w_db (rollback w).2 = w_db w.
Proof.
  unfold rollback, remote. destruct (w_faults w) as [|[] fs]; done.
Qed.

Lemma in_tx_run {A} (m : M A) `{!InTx m} w d r w' :
  w_txn w = Some d → m w = (r, w') → w_db w' = w_db w ∧ ∃ d', w_txn w' = Some d'.
Proof. intros Ht Hr. pose proof (in_tx (m:=m) w d Ht) as H. by rewrite Hr in H. Qed.

Lemma committed_ok {A} (action : M A) `{!InTx action} w d0 x w' :
  w_txn w = Some d0 → committed action w = (inr x, w') →
  ∃ w1 d, action w = (inr x, w1) ∧ w_txn w1 = Some d ∧
    ∃ fs, w' = with_faults fs (with_txn None (with_db d w1)).
Proof.
  intros Hn (x' & w1 & Ha & H)%bind_ok.
  destruct (in_tx_run action _ _ _ _ Hn Ha) as (_ & d & Hd).
  apply bind_ok in H as (u & w3 & Hc & H). run_ok H.
  eapply commit_ok in Hc as [fs ->]; [|exact Hd]. eauto 10.
Qed.

(** The exceptional outcomes: nothing is committed, or the COMMIT itself failed
    after it took effect. *)
Lemma committed_err {A} (action : M A) `{!InTx action} w d0 e w' :
  w_txn w = Some d0 → committed action w = (inl e, w') →
  w_db w' = w_db w ∨
  ∃ c x w1 d, e = SqlError c ∧ action w = (inr x, w1) ∧
    w_txn w1 = Some d ∧ w_db w' = d.
Proof.
  intros Hn [Ha|(x & w1 & Ha & H)]%bind_err.
  { left. by destruct (in_tx_run action _ _ _ _ Hn Ha) as [-> _]. }
  destruct (in_tx_run action _ _ _ _ Hn Ha) as (Hdb & d & Hd).
  apply bind_err in H as [H|(u & w2 & _ & H)]; [|done].
  destruct (commit_err _ _ _ _ Hd H) as [[c ->] [->|[? _]]]; [by left|]. right. eauto 10.
Qed.

Lemma conversationTransaction_ok {A} (action : M A) `{!InTx action} w x w' :
  w_txn w = None → conversationTransaction action w = (inr x, w') →
  ∃ fs w1 d, action (tx_start fs w) = (inr x, w1) ∧ w_txn w1 = Some d ∧
    ∃ fs', w' = with_faults fs' (with_txn None (with_db d w1)).
Proof.
  intros Hn (u & w0 & [fs ->]%start_transaction_ok & H)%bind_ok; [|done].
  apply bind_ok in H as (r & w1 & Hc%catch_ok & H).
  destruct r as [e|x1]; [by run_ok H; exfalso|]. run_ok H.
  eapply committed_ok in Hc as (w2 & d & ? & ? & ?); [|done|done]. eauto 10.
Qed.

Lemma conversationTransaction_err {A} (action : M A) `{!InTx action} w e w' :
  w_txn w = None → conversationTransaction action w = (inl e, w') →
  w_db w' = w_db w ∨
  ∃ c fs x w1 d, e = SqlError c ∧ action (tx_start fs w) = (inr x, w1) ∧
    w_txn w1 = Some d ∧ w_db w' = d.
Proof.
  intros Hn [[? _]%start_transaction_err|(u & w0 & Hs & H)]%bind_err; [by left|].
  apply start_transaction_ok in Hs as [fs ->]; [|done].
  assert (Hcase : ∃ w1, committed action (tx_start fs w) = (inl e, w1) ∧ w_db w' = w_db w1).
  { apply bind_err in H as [H|(r & w1 & Hc & H)].
    - unfold catch in H. destruct (committed action _) as [[[]|a] w1]; try done.
      injection H as <- <-. eauto.
    - apply catch_ok in Hc. destruct r as [e1|x]; [|done].
      apply bind_err in H as [H|(b & w2 & H2 & H)].
      + pose proof (rollback_db w1) as Hr. exists w1. unfold rollback in *.
        by destruct (remote _ _ w1) as [[]].
      + injection H as -> ->. exists w1. split; [done|].
        pose proof (rollback_db w1) as Hr. by rewrite H2 in Hr. }
  destruct Hcase as (w1 & Hc & ->).
  eapply committed_err in Hc as [->|(c & x & w2 & d & ? & ? & ? & ?)];
    [by left| |done|done]. right. eauto 10.
Qed.

(** Whatever the outcome, the committed database is the old one or the final
    view of a completed action: an invariant that every completed action
    preserves on its view is preserved by the transaction. *)
Lemma conversationTransaction_inv {A} (action : M A) `{!InTx action} (I : Database → Prop) w :
  w_txn w = None → I (w_db w) →
  (∀ fs x w1 d, action (tx_start fs w) = (inr x, w1) → w_txn w1 = Some d → I d) →
  I (w_db (conversationTransaction action w).2).
Proof.
  intros Hn HI Ha. destruct (conversationTransaction action w) as [[e|x] w'] eqn:E; cbn.
  - apply conversationTransaction_err in E as [->|(c & fs & x & w1 & d & _ & ? & ? & ->)];
      eauto.
  - apply conversationTransaction_ok in E as (fs & w1 & d & ? & ? & fs' & ->); eauto.
Qed.

(** ** Scopes of connections *)

Lemma with_connection_run {A} (m : M A) w r w' :
  with_connection m w = (r, w') →
  ∃ w1, (async_get_connection;; m) (with_txn None w) = (r, w1) ∧ w' = with_txn (w_txn w) w1.
Proof.
  unfold with_connection, connected. destruct ((_;; m) _) as [r1 w1]. intros [= <- <-]. eauto.
Qed.

Lemma with_connection_ok {A} (m : M A) w x w' :
  with_connection m w = (inr x, w') →
  ∃ fs w1, m (with_faults fs (with_txn None w)) = (inr x, w1) ∧
    w' = with_txn (w_txn w) w1.
Proof.
  unfold with_connection. destruct (connected _ _) as [r w1] eqn:E. unfold connected in E. intros [= -> <-].
  apply bind_ok in E as (u & w2 & (fs & H)%remote_ok & E). injection H as _ <-. eauto.
Qed.

Lemma with_connection_err {A} (m : M A) w e w' :
  with_connection m w = (inl e, w') →
  ((∃ c, e = SqlError c) ∧ w_db w' = w_db w ∧ w_mongo w' = w_mongo w ∧
     w_redis w' = w_redis w ∧ w_kafka w' = w_kafka w) ∨
  ∃ fs w1, m (with_faults fs (with_txn None w)) = (inl e, w1) ∧
    w' = with_txn (w_txn w) w1.
Proof.
  unfold with_connection. destruct (connected _ _) as [r w1] eqn:E. unfold connected in E. intros [= -> <-].
  apply bind_err in E as [E|(u & w2 & (fs & H)%remote_ok & E)].
  - left. apply remote_err in E as (fs & [[? _]|(c & -> & [->|(a & [= _ <-])])]);
      [done|eauto 10..].
  - injection H as _ <-. right. eauto.
Qed.

Lemma with_connection_inv {A} (m : M A) (I : Database → Prop) w :
  I (w_db w) →
  (∀ fs, I (w_db (m (with_faults fs (with_txn None w))).2)) →
  I (w_db (with_connection m w).2).
Proof.
  intros HI Hm. destruct (with_connection m w) as [[e|x] w'] eqn:E; cbn.
  - apply with_connection_err in E as [(_ & -> & _)|(fs & w1 & E & ->)]; [done|].
    specialize (Hm fs). by rewrite E in Hm.
  - apply with_connection_ok in E as (fs & w1 & E & ->).
    specialize (Hm fs). by rewrite E in Hm.
Qed.

(** * Relations on databases, from statements to handlers *)

(** Three levels of code relate databases: statements relate the views and leave
    the committed database alone inside a transaction; code on one connection
    relates committed databases; handlers do so and leave no transaction open. *)
Definition stmt_step (R : relation Database) (w w' : World) : Prop :=
  R (view w) (view w') ∧
  match w_txn w with
  | Some _ => w_db w' = w_db w ∧ is_Some (w_txn w')
  | None => w_txn w' = None
  end.

Class Conn (R : relation Database) {A} (m : M A) : Prop :=
  conn : ∀ w, w_txn w = None →
    R (w_db w) (w_db (m w).2) ∧ ∀ a, (m w).1 = inr a → w_txn (m w).2 = None.

Definition db_step (R : relation Database) (w w' : World) : Prop :=
  w_txn w = None → R (w_db w) (w_db w') ∧ w_txn w' = None.

Section db_relations.
#[local] Set Default Proof Using "All".
Context (R : relation Database) `{!PreOrder R}.

#[global] Instance stmt_step_preorder : PreOrder (stmt_step R).
Proof.
  split.
  - intros w. split; [reflexivity|]. destruct (w_txn w) eqn:E; [split; [done|by eexists]|done].
  - intros w1 w2 w3 [H12 K12] [H23 K23]. split; [by etrans|].
    destruct (w_txn w1).
    + destruct K12 as [Hdb [d1 Hd]]. rewrite Hd in K23. destruct K23 as [-> ?]. done.
    + rewrite K12 in K23. done.
Qed.

#[global] Instance db_step_preorder : PreOrder (db_step R).
Proof.
  split.
  - intros w Hn. split; [reflexivity|done].
  - intros w1 w2 w3 H12 H23 Hn. destruct (H12 Hn) as [HR Hn2]. destruct (H23 Hn2) as [HR' Hn3].
    split; [by etrans|done].
Qed.

(** Statements. *)
Lemma stmt_step_same w w' : w_db w' = w_db w → w_txn w' = w_txn w → stmt_step R w w'.
Proof.
  intros Hdb Ht. unfold stmt_step, view. rewrite Hdb, Ht. split; [reflexivity|].
  destruct (w_txn w) eqn:E; [split; [done|by eexists]|done].
Qed.

Lemma stmt_step_put d w fs : R (view w) d → stmt_step R w (put d (with_faults fs w)).
Proof.
  intros Hd. split; [by rewrite view_put|]. unfold put. cbn.
  destruct (w_txn w) eqn:E; cbn; [split; [done|by eexists]|done].
Qed.

Lemma Step_execute {A} (op : Database → exn + (A * Database)) :
  (∀ d a d', op d = inr (a, d') → R d d') → Step (stmt_step R) (execute op).
Proof.
  intros Hop. apply Step_remote; [apply _|intros fs w; by apply stmt_step_same|].
  intros w a w'. destruct (op (view w)) as [|[a1 d]] eqn:E; [done|]. intros [= _ <-].
  replace w with (with_faults (w_faults w) w) at 2 by by destruct w.
  apply stmt_step_put. by eapply Hop.
Qed.

Lemma Step_update {A} (u : Database → A * Database) :
  (∀ d, R d (u d).2) → Step (stmt_step R) (update u).
Proof. intros Hu. apply Step_execute. intros d a d' [= Heq]. specialize (Hu d). by rewrite Heq in Hu. Qed.

#[global] Instance Step_query {A} (q : Database → A) : Step (stmt_step R) (query q).
Proof.
  apply Step_remote; [apply _|intros fs w; by apply stmt_step_same|].
  intros w a w' [= _ <-]. by apply stmt_step_same.
Qed.

#[global] Instance Step_now : Step (stmt_step R) now.
Proof. intros w. by apply stmt_step_same. Qed.
#[global] Instance Step_newone_str : Step (stmt_step R) newone_str.
Proof. intros w. by apply stmt_step_same. Qed.
#[global] Instance Step_snowflake : Step (stmt_step R) snowflake_nextId.
Proof.
  intros w. unfold snowflake_nextId. destruct (nextId _ _ _ _) as [[[] ?] ?]; by apply stmt_step_same.
Qed.

Lemma Step_InTx {A} (m : M A) : Step (stmt_step R) m → InTx m.
Proof.
  intros Hm w d Hd. destruct (Hm w) as [_ H]. rewrite Hd in H. destruct H as [Hdb [d1 Ht]]. eauto.
Qed.

(** Code on one connection. *)
Lemma Conn_stmt {A} (m : M A) : Step (stmt_step R) m → Conn R m.
Proof.
  intros Hm w Hn. destruct (Hm w) as [HR Ht]. rewrite Hn in Ht. unfold view in HR.
  rewrite Hn, Ht in HR. done.
Qed.

Lemma Conn_ret {A} (a : A) : Conn R (mret a).
Proof. intros w Hn. cbn. split; [reflexivity|done]. Qed.
Lemma Conn_throw {A} e : Conn R (throw (A:=A) e).
Proof. intros w Hn. cbn. split; [reflexivity|done]. Qed.

Lemma Conn_bind {A B} (m : M A) (f : A → M B) : Conn R m → (∀ a, Conn R (f a)) → Conn R (m ≫= f).
Proof.
  intros Hm Hf w Hn. destruct (Hm w Hn) as [HR Ht]. unfold mbind, M_bind.
  destruct (m w) as [[e|a] w1]; [done|]. cbn in *. destruct (Hf a w1 (Ht a eq_refl)) as [HR' ?].
  split; [by etrans|done].
Qed.

Lemma Conn_tx {A} (action : M A) :
  (∀ w d0, w_txn w = Some d0 → R d0 (view (action w).2)) → InTx action →
  Conn R (conversationTransaction action).
Proof.
  intros Ha Hin w Hn. destruct (conversationTransaction action w) as [r w'] eqn:E. cbn.
  destruct r as [e|x].
  - split; [|done].
    apply conversationTransaction_err in E as [->|(c & fs & x & w1 & d & _ & Hrun & Ht & ->)];
      [reflexivity| |done|done].
    specialize (Ha (tx_start fs w) (w_db w) eq_refl). rewrite Hrun in Ha. cbn in Ha.
    by rewrite (view_txn d) in Ha.
  - apply conversationTransaction_ok in E as (fs & w1 & d & Hrun & Ht & fs' & ->); [|done|done].
    split; [|done]. specialize (Ha (tx_start fs w) (w_db w) eq_refl). rewrite Hrun in Ha. cbn in Ha.
    by rewrite (view_txn d) in Ha.
Qed.

Lemma Conn_tx_step {A} (action : M A) :
  Step (stmt_step R) action → Conn R (conversationTransaction action).
Proof.
  intros Ha. apply Conn_tx; [|by apply Step_InTx]. intros w d0 Ht.
  destruct (Ha w) as [HR _]. by rewrite (view_txn d0) in HR.
Qed.

(** Handlers. *)
Lemma Step_with_connection {A} (m : M A) : Conn R m → Step (db_step R) (with_connection m).
Proof.
  intros Hm w Hn. split.
  - destruct (with_connection m w) as [[e|x] w'] eqn:E; cbn.
    + apply with_connection_err in E as [(_ & -> & _)|(fs & w1 & E & ->)]; [reflexivity|].
      destruct (Hm (with_faults fs (with_txn None w)) eq_refl) as [HR _]. by rewrite E in HR.
    + apply with_connection_ok in E as (fs & w1 & E & ->).
      destruct (Hm (with_faults fs (with_txn None w)) eq_refl) as [HR _]. by rewrite E in HR.
  - unfold with_connection, connected.
    destruct ((async_get_connection;; m) (with_txn None w)) as [r w1]. cbn. done.
Qed.

Lemma Step_db_same {A} (m : M A) :
  (∀ w, w_db (m w).2 = w_db w) → (∀ w, w_txn (m w).2 = w_txn w) → Step (db_step R) m.
Proof. intros H1 H2 w Hn. rewrite H1, H2. split; [reflexivity|done]. Qed.
End db_relations.

(** Statements that change no table. *)
Abbreviation Quiet := (Step (stmt_step eq)).

Lemma quiet_run {A} (m : M A) `{!Quiet m} w r w' :
  m w = (r, w') → view w' = view w ∧ (w_txn w' = None ↔ w_txn w = None).
Proof.
  intros Hr. pose proof (step (R:=stmt_step eq) (m:=m) w) as [HR Ht]. rewrite Hr in *. cbn in *.
  split; [done|]. destruct (w_txn w); [|done]. destruct Ht as [_ [d1 ->]]. done.
Qed.

(** Two relations in a row: [R1] until the last part, [R2] for the whole. *)
Lemma Step_bind_het (R1 R2 : relation World) {A B} (m : M A) (f : A → M B) :
  Step R1 m → (∀ a, Step R2 (f a)) → (∀ x y, R1 x y → R2 x y) →
  (∀ x y z, R1 x y → R2 y z → R2 x z) → Step R2 (m ≫= f).
Proof.
  intros Hm Hf Hsub Hcomp w. specialize (Hm w). unfold mbind, M_bind.
  destruct (m w) as [[e|a] w1]; [by apply Hsub|]. eapply Hcomp; [exact Hm|apply Hf].
Qed.

(** * The other stores *)

(** MongoDB, Redis and Kafka are untouched. *)
Definition same_stores (w w' : World) : Prop :=
  w_mongo w' = w_mongo w ∧ w_redis w' = w_redis w ∧ w_kafka w' = w_kafka w.

#[export] Instance same_stores_preorder : PreOrder same_stores.
Proof.
  split; [done|]. intros w1 w2 w3 (A & B & C) (A' & B' & C'). unfold same_stores. by rewrite A', B', C'.
Qed.

Lemma put_stores d fs w : same_stores w (put d (with_faults fs w)).
Proof. unfold same_stores. by rewrite mongo_put, redis_put, kafka_put. Qed.

#[export] Instance stores_execute {A} (op : Database → exn + (A * Database)) :
  Step same_stores (execute op).
Proof.
  apply Step_remote; [apply _|done|]. intros w a w'.
  destruct (op (view w)) as [|[a1 d]]; [done|]. intros [= _ <-].
  exact (put_stores d (w_faults w) w).
Qed.
#[export] Instance stores_update {A} (u : Database → A * Database) : Step same_stores (update u).
Proof. apply stores_execute. Qed.
#[export] Instance stores_query {A} (q : Database → A) : Step same_stores (query q).
Proof. apply Step_remote; [apply _|done|]. by intros w a w' [= _ <-]. Qed.
#[export] Instance stores_start : Step same_stores start_transaction.
Proof. apply Step_remote; [apply _|done|]. by intros w a w' [= _ <-]. Qed.
#[export] Instance stores_commit : Step same_stores commit.
Proof. apply Step_remote; [apply _|done|]. by intros w a w' [= _ <-]. Qed.
#[export] Instance stores_rollback : Step same_stores rollback.
Proof.
  intros w. unfold rollback.
  assert (Hs : Step same_stores (remote SqlError (λ w, inr (tt, with_txn None w)))).
  { apply Step_remote; [apply _|done|]. by intros x a x' [= _ <-]. }
  specialize (Hs w). by destruct (remote _ _ w) as [[] ?].
Qed.

(** What an action does to the other stores is what its transaction does: the
    exceptional branches and COMMIT do not touch them. *)
Lemma conversationTransaction_stores {A} (action : M A) w r w' :
  conversationTransaction action w = (r, w') →
  same_stores w w' ∨
  ∃ fs x w1, action (with_faults fs (with_txn (Some (view w)) w)) = (x, w1) ∧ same_stores w1 w'.
Proof.
  intros Hrun. unfold conversationTransaction in Hrun.
  apply bind_cases in Hrun as [(e & He & ->)|(u & w0 & Hs & Hrun)].
  { left. pose proof (stores_start w) as H. by rewrite He in H. }
  apply remote_ok in Hs as (fs & [= _ <-]). right. exists fs.
  change (with_txn (Some (view (with_faults fs w))) (with_faults fs w))
    with (with_faults fs (with_txn (Some (view w)) w)) in Hrun.
  set (w0 := with_faults fs _) in *.
  destruct (action w0) as [x w1] eqn:Ea. exists x, w1. split; [done|].
  assert (Hc : ∀ y w2, committed action w0 = (y, w2) → same_stores w1 w2).
  { intros y w2 Hc. unfold committed in Hc.
    apply bind_cases in Hc as [(e & He & ->)|(a & w3 & H1 & Hc)]; [rewrite Ea in He; by injection He as _ <-|].
    rewrite Ea in H1. injection H1 as -> <-.
    apply bind_cases in Hc as [(e & He & ->)|(b & w3 & H2 & Hc)].
    - pose proof (stores_commit w1) as H. by rewrite He in H.
    - pose proof (stores_commit w1) as H. rewrite H2 in H. by apply ret_cases in Hc as [_ ->]. }
  apply bind_cases in Hrun as [(e & He & ->)|(y & w2 & Hcatch & Hrun)].
  { apply catch_err in He as [He _]. by eapply Hc. }
  apply catch_ok, Hc in Hcatch. etrans; [exact Hcatch|]. destruct y as [e|a].
  - apply bind_cases in Hrun as [(e' & He & ->)|(b & w3 & Hr & Hrun)].
    + pose proof (stores_rollback w2) as H. by rewrite He in H.
    + pose proof (stores_rollback w2) as H. rewrite Hr in H. injection Hrun as _ <-. exact H.
  - by apply ret_cases in Hrun as [_ ->].
Qed.

(** Likewise for the scope of a connection. *)
Lemma with_connection_stores {A} (m : M A) w r w' :
  with_connection m w = (r, w') →
  same_stores w w' ∨ ∃ fs w1, m (with_faults fs (with_txn None w)) = (r, w1) ∧ same_stores w1 w'.
Proof.
  destruct r as [e|x]; intros Hrun.
  - apply with_connection_err in Hrun as [(_ & _ & ? & ? & ?)|(fs & w1 & Hrun & ->)]; [by left|].
    right. by exists fs, w1.
  - apply with_connection_ok in Hrun as (fs & w1 & Hrun & ->). right. by exists fs, w1.
Qed.

(** Both outcomes at once: nothing ran, or the body did. *)
Lemma with_connection_cases {A} (m : M A) w r w' :
  with_connection m w = (r, w') →
  (w_db w' = w_db w ∧ same_stores w w') ∨
  ∃ fs w1, m (with_faults fs (with_txn None w)) = (r, w1) ∧ w_db w' = w_db w1 ∧ same_stores w1 w'.
Proof.
  destruct r as [e|x]; intros Hrun.
  - apply with_connection_err in Hrun as [(_ & ? & ? & ? & ?)|(fs & w1 & Hrun & ->)]; [by left|].
    right. by exists fs, w1.
  - apply with_connection_ok in Hrun as (fs & w1 & Hrun & ->). right. by exists fs, w1.
Qed.

#[export] Instance with_connection_same {A} (m : M A) :
  Step same_stores m → Step same_stores (with_connection m).
Proof.
  intros Hm w. destruct (with_connection m w) as [r w'] eqn:E. cbn.
  apply with_connection_stores in E as [?|(fs & w1 & E & Hs)]; [done|].
  pose proof (Hm (with_faults fs (with_txn None w))) as H1. rewrite E in H1. by etrans; [exact H1|].
Qed.

(** * Loops that end *)

(** The computation never reports [OutOfFuel]: the fuel of its loops is enough. *)
Class Ends {A} (m : M A) : Prop := ends : ∀ w, (m w).1 ≠ inl OutOfFuel.
Class EndsE {A} (m : E A) : Prop := ends_e : m ≠ inl OutOfFuel.

#[export] Instance EndsE_ret {A} (a : A) : EndsE (mret a).
Proof. done. Qed.
#[export] Instance EndsE_inr {A} (a : A) : EndsE (inr a : E A).
Proof. done. Qed.
#[export] Instance EndsE_coded {A} c m : EndsE (A:=A) (inl (CodedError c m)).
Proof. done. Qed.
#[export] Instance EndsE_runtime {A} m : EndsE (A:=A) (inl (RuntimeError m)).
Proof. done. Qed.
#[export] Instance EndsE_bind {A B} (m : E A) (f : A → E B) :
  EndsE m → (∀ a, EndsE (f a)) → EndsE (m ≫= f).
Proof.
  intros Hm Hf. unfold EndsE, mbind, E_bind in *. destruct m; [congruence|apply Hf].
Qed.

#[export] Instance Ends_ret {A} (a : A) : Ends (mret a).
Proof. intros w. done. Qed.
#[export] Instance Ends_throw_coded {A} c m : Ends (A:=A) (throw (CodedError c m)).
Proof. intros w. done. Qed.
#[export] Instance Ends_throw_runtime {A} m : Ends (A:=A) (throw (RuntimeError m)).
Proof. intros w. done. Qed.
#[export] Instance Ends_throw_invalid {A} m : Ends (A:=A) (throw (InvalidArgument m)).
Proof. intros w. done. Qed.
#[export] Instance Ends_lift {A} (m : E A) : EndsE m → Ends (lift m).
Proof. intros Hm w. apply Hm. Qed.
#[export] Instance Ends_bind {A B} (m : M A) (f : A → M B) :
  Ends m → (∀ a, Ends (f a)) → Ends (m ≫= f).
Proof.
  intros Hm Hf w. specialize (Hm w). unfold mbind, M_bind.
  destruct (m w) as [[e|a] w1]; cbn in *; [congruence|apply Hf].
Qed.

(** After a [catch] the caught exception is not [OutOfFuel]. *)
Lemma Ends_catch_bind {A B} (m : M A) (f : exn + A → M B) :
  Ends m → (∀ a, Ends (f (inr a))) → (∀ e, e ≠ OutOfFuel → Ends (f (inl e))) →
  Ends (catch m ≫= f).
Proof.
  intros Hm Hf Hg w. specialize (Hm w). unfold mbind, M_bind, catch.
  destruct (m w) as [[e|a] w1]; cbn in *; [|apply Hf].
  destruct e; try (apply Hg; done). done.
Qed.

Lemma Ends_throw {A} e : e ≠ OutOfFuel → Ends (A:=A) (throw e).
Proof. intros He w [= ->]. done. Qed.

Lemma Ends_remote {A} mk (op : World → exn + (A * World)) :
  (∀ c, mk c ≠ OutOfFuel) → (∀ w, op w ≠ inl OutOfFuel) → Ends (remote mk op).
Proof.
  intros Hmk Hop w. unfold remote. destruct (w_faults w) as [|[|c|c] fs];
    try (destruct (op _) as [e|[a w1]] eqn:E); cbn; try congruence; intros [= Heq];
    try (by rewrite Heq in E; apply Hop in E); by apply Hmk in Heq.
Qed.

#[export] Instance Ends_query {A} (q : Database → A) : Ends (query q).
Proof. by apply Ends_remote. Qed.
Lemma Ends_execute {A} (op : Database → exn + (A * Database)) :
  (∀ d, op d ≠ inl OutOfFuel) → Ends (execute op).
Proof.
  intros Hop. apply Ends_remote; [done|]. intros w. specialize (Hop (view w)).
  destruct (op (view w)) as [|[a d]]; congruence.
Qed.
#[export] Instance Ends_update {A} (u : Database → A * Database) : Ends (update u).
Proof. by apply Ends_execute. Qed.
#[export] Instance Ends_set_session : Ends set_session.
Proof. apply _. Qed.
#[export] Instance Ends_start : Ends start_transaction.
Proof. by apply Ends_remote. Qed.
#[export] Instance Ends_commit : Ends commit.
Proof. by apply Ends_remote. Qed.
#[export] Instance Ends_rollback : Ends rollback.
Proof. intros w. unfold rollback. by destruct (remote _ _ w) as [[] ?]. Qed.
#[export] Instance Ends_mysql_now : Ends mysql_now.
Proof. intros w. done. Qed.
#[export] Instance Ends_now : Ends now.
Proof. intros w. done. Qed.
#[export] Instance Ends_newone_str : Ends newone_str.
Proof. intros w. done. Qed.
#[export] Instance Ends_with_connection {A} (m : M A) : Ends m → Ends (with_connection m).
Proof.
  intros Hm w. unfold with_connection, connected.
  assert (Hc : Ends (async_get_connection;; m)).
  { apply Ends_bind; [by apply Ends_remote|done]. }
  specialize (Hc (with_txn None w)). by destruct ((async_get_connection;; m) (with_txn None w)) as [r w1].
Qed.
#[export] Instance Ends_catch {A} (m : M A) : Ends m → Ends (catch m).
Proof.
  intros Hm w. specialize (Hm w). unfold catch. by destruct (m w) as [[[]|a] w1].
Qed.

#[export] Hint Extern 2 (Ends (match ?x with _ => _ end)) => destruct x : typeclass_instances.
#[export] Hint Extern 2 (EndsE (match ?x with _ => _ end)) => destruct x : typeclass_instances.

(** * Runs without failures *)

Lemma remote_nofault {A} mk (op : World → exn + (A * World)) w :
  w_faults w = [] →
  remote mk op w = match op w with inl e => (inl e, w) | inr (a, w') => (inr a, w') end.
Proof.
  intros Hf. unfold remote. rewrite Hf.
  replace (with_faults [] w) with w; [done|]. destruct w; cbn in *; by subst.
Qed.

Lemma query_run {A} (q : Database → A) w :
  w_faults w = [] → query q w = (inr (q (view w)), w).
Proof. intros Hf. unfold query. by rewrite remote_nofault. Qed.

Lemma execute_run {A} (op : Database → exn + (A * Database)) w :
  w_faults w = [] →
  execute op w = match op (view w) with inl e => (inl e, w) | inr (a, d) => (inr a, put d w) end.
Proof.
  intros Hf. unfold execute. rewrite remote_nofault by done. by destruct (op (view w)) as [|[]].
Qed.

Lemma update_run {A} (u : Database → A * Database) w :
  w_faults w = [] → update u w = (inr (u (view w)).1, put (u (view w)).2 w).
Proof. intros Hf. unfold update. rewrite execute_run by done. by destruct (u (view w)). Qed.

Lemma commit_run w :
  w_faults w = [] → commit w = (inr tt, with_txn None (with_db (view w) w)).
Proof. intros Hf. unfold commit. by rewrite remote_nofault. Qed.

Lemma rollback_run w : w_faults w = [] → rollback w = (inr true, with_txn None w).
Proof. intros Hf. unfold rollback. by rewrite remote_nofault. Qed.

Lemma start_run w :
  w_faults w = [] → start_transaction w = (inr tt, with_txn (Some (view w)) w).
Proof. intros Hf. unfold start_transaction. by rewrite remote_nofault. Qed.

Lemma run_fst {A} (m : M A) w a : (m w).1 = inr a → ∃ w', m w = (inr a, w').
Proof. destruct (m w) as [r w']. cbn. intros ->. eauto. Qed.

Lemma bind_run {A B} (m : M A) (f : A → M B) w a w1 :
  m w = (inr a, w1) → (m ≫= f) w = f a w1.
Proof. unfold mbind, M_bind. by intros ->. Qed.

Lemma bind_run_err {A B} (m : M A) (f : A → M B) w e w1 :
  m w = (inl e, w1) → (m ≫= f) w = (inl e, w1).
Proof. unfold mbind, M_bind. by intros ->. Qed.

Lemma catch_run {A} (m : M A) w a w1 : m w = (inr a, w1) → catch m w = (inr (inr a), w1).
Proof. unfold catch. by intros ->. Qed.

Lemma catch_run_err {A} (m : M A) w e w1 :
  m w = (inl e, w1) → e ≠ OutOfFuel → catch m w = (inr (inl e), w1).
Proof. unfold catch. intros ->. by destruct e. Qed.

Lemma conversationTransaction_run {A} (action : M A) w x w1 :
  w_faults w = [] → w_txn w = None → action (with_txn (Some (w_db w)) w) = (inr x, w1) →
  w_faults w1 = [] →
  conversationTransaction action w = (inr x, with_txn None (with_db (view w1) w1)).
Proof.
  intros Hf Hn Ha Hf1. unfold conversationTransaction.
  rewrite (bind_run _ _ _ tt (with_txn (Some (w_db w)) w)).
  2: { rewrite start_run by done. unfold view. by rewrite Hn. }
  rewrite (bind_run _ _ _ (inr x) (with_txn None (with_db (view w1) w1))); [done|].
  apply catch_run. unfold committed. rewrite (bind_run _ _ _ x w1) by done.
  by rewrite (bind_run _ _ _ tt (with_txn None (with_db (view w1) w1))) by by rewrite commit_run.
Qed.

Lemma with_connection_nofault {A} (m : M A) w r w1 :
  w_faults w = [] → m (with_txn None w) = (r, w1) →
  with_connection m w = (r, with_txn (w_txn w) w1).
Proof.
  intros Hf Hm. unfold with_connection, connected. erewrite bind_run.
  - rewrite Hm. done.
  - unfold async_get_connection. by rewrite remote_nofault.
Qed.

Lemma faults_put d w : w_faults (put d w) = w_faults w.
Proof. unfold put. by destruct (w_txn w). Qed.

Lemma put_txn d d0 w : put d (with_txn (Some d0) w) = with_txn (Some d) w.
Proof. done. Qed.

#[export] Hint Rewrite faults_put put_txn : world.

(** * Concrete worlds *)

(** A world with database [d] and failure schedule [fs], for evaluation. *)
Definition sample_now : datetime := mkDatetime 2025 1 1 12 0 0.
Fixpoint sample_uuid (n : nat) : string :=
  match n with O => "uuid-" | S n => String "i" (sample_uuid n) end.
Fixpoint sample_clock (i : nat) : Z :=
  match i with O => 1750000000000 | S i => Z.succ (sample_clock i) end.
Definition sample_world (d : Database) (fs : list fault) : World :=
  mkWorld d None ∅ (mkRedisStore ∅ ∅) [] (mkGateway ∅ ∅ 0) sample_clock 0 sample_uuid 0 (new_Snowflake 1 1) 100 sample_now fs.
