(* ===== verification/Users.v ===== *)
(** The users table and the decoding of result rows
    ([src/storage/mysqlhandler.cpp], lines 41-305): typed field access, the
    row-to-[userInfo] parser, and the user operations. *)
From S2P Require Import Prelude Table Snowflake Schema Effects.

(** * Result fields ([boost::mysql::field_view]) *)

Inductive field_view :=
| FNull
| FInt64 (z : Z)
| FUint64 (z : Z)
| FString (s : string)
| FBlob (s : string)
| FFloat
| FDouble
| FDate
| FDatetime (d : datetime)
| FTime.

(** [static_cast<int>(value.kind())] *)
Definition kind (f : field_view) : Z :=
  match f with
  | FNull => 0 | FInt64 _ => 1 | FUint64 _ => 2 | FString _ => 3 | FBlob _ => 4
  | FFloat => 5 | FDouble => 6 | FDate => 7 | FDatetime _ => 8 | FTime => 9
  end.

Definition is_null (f : field_view) : bool := match f with FNull => true | _ => false end.

(** [row.at(i)] and [row[i]]. *)
Definition at_ (row : list field_view) (i : nat) : E field_view :=
  match row !! i with Some f => inr f | None => inl (RuntimeError "out of range") end.

Definition as_string (f : field_view) : E string :=
  match f with FString s => inr s | _ => inl (RuntimeError "bad field access") end.

Definition field_error (value : field_view) (column expected : string) : exn :=
  RuntimeError ("Invalid MySQL field " +:+ column +:+ ": expected " +:+ expected
    +:+ ", kind=" +:+ to_string (kind value)).

Definition unsigned_field (value : field_view) (column : string) : E Z :=
  match value with
  | FUint64 z => inr z
  | FInt64 z => if 0 <=? z then inr z
                else inl (field_error value column "a nonnegative integer")
  | _ => inl (field_error value column "a nonnegative integer")
  end.

Definition string_field (value : field_view) (column : string) : E string :=
  match value with
  | FString s => inr s
  | _ => inl (field_error value column "a string")
  end.

Definition datetime_field (value : field_view) (column : string) : E datetime :=
  match value with
  | FDatetime d => inr d
  | _ => inl (field_error value column "datetime")
  end.

(** [std::setw(2) << std::setfill('0')] *)
Definition pad2 (n : Z) : string := if n <? 10 then "0" +:+ to_string n else to_string n.

Definition show_datetime (d : datetime) : string :=
  to_string (dt_year d) +:+ "-" +:+ pad2 (dt_month d) +:+ "-" +:+ pad2 (dt_day d) +:+ " "
  +:+ pad2 (dt_hour d) +:+ ":" +:+ pad2 (dt_minute d) +:+ ":" +:+ pad2 (dt_second d).

(** A nullable timestamp column that may be missing from the row: empty unless
    the row is long enough and the field is not NULL. *)
Definition timestamp_column (row : list field_view) (i : nat) (column : string) : E string :=
  match row !! i with
  | None | Some FNull => inr ""
  | Some f => d ← datetime_field f column; mret (show_datetime d)
  end.

Definition parse_user_from_row (rows : list (list field_view)) : E userInfo :=
  row ← match rows with row :: _ => inr row | [] => inl (RuntimeError "out of range") end;
  f0 ← at_ row 0; uid ← unsigned_field f0 "users.user_id";
  f1 ← at_ row 1; acc ← unsigned_field f1 "users.account";
  f2 ← at_ row 2; nick ← string_field f2 "users.nickname";
  if decide (length row = 3%nat) then
    mret (mkUserInfo uid acc nick "" "" "" "" "" "")
  else
    f3 ← at_ row 3; ph ← string_field f3 "users.phone";
    f4 ← at_ row 4; hash ← string_field f4 "users.password_hash";
    f5 ← at_ row 5; salt ← string_field f5 "users.password_salt";
    created ← timestamp_column row 6 "users.created_at";
    updated ← timestamp_column row 7 "users.updated_at";
    login ← timestamp_column row 8 "users.last_login_at";
    mret (mkUserInfo uid acc nick ph hash salt created updated login).

(** * Queries on users *)

(** The rows of the four SELECT statements of [user_query]. *)
Definition user_columns (public_only : bool) (p : Z * UserRow) : list field_view :=
  let '(id, r) := p in
  if public_only then [FUint64 id; FUint64 (u_account r); FString (u_nickname r)]
  else [FUint64 id; FUint64 (u_account r); FString (u_nickname r); FString (u_phone r);
        FString (u_password_hash r); FString (u_password_salt r);
        FDatetime (u_created_at r); FDatetime (u_updated_at r);
        match u_last_login_at r with Some d => FDatetime d | None => FNull end].

Definition user_match (value : Z) (by_account : bool) (id : Z) (r : UserRow) : bool :=
  if by_account then u_account r =? value else id =? value.

Definition user_query (value : Z) (by_account public_only : bool) (d : Database)
    : list (list field_view) :=
  user_columns public_only <$> select (user_match value by_account) (t_users d).

Definition find_user (value : Z) (by_account public_only : bool) : M (option userInfo) :=
  rows ← query (user_query value by_account public_only);
  match rows with
  | [] => mret None
  | _ => u ← lift (parse_user_from_row rows); mret (Some u)
  end.

(** [find_user_by_account] and [find_user_by_id] on a connection of their own;
    every exception becomes "not found". *)
Definition find_user_caught (value : Z) (by_account : bool) : M (option userInfo) :=
  r ← catch (with_connection (find_user value by_account false));
  match r with inr u => mret u | inl _ => mret None end.

Definition find_user_by_account (account : Z) : M (option userInfo) :=
  find_user_caught account true.
Definition find_user_by_id (user_id : Z) : M (option userInfo) :=
  find_user_caught user_id false.

(** INSERT INTO users: both unique keys are checked; the result is
    [last_insert_id]. *)
Definition account_used (acc : Z) (d : Database) : bool :=
  bool_decide (select_one (λ _ r, u_account r =? acc) (t_users d) ≠ None).
Definition phone_used (ph : string) (d : Database) : bool :=
  bool_decide (select_one (λ _ r, bool_decide (u_phone r = ph)) (t_users d) ≠ None).

Definition insert_user_row (now : datetime) (user : userInfo) (acc : Z) (d : Database)
    : exn + (Z * Database) :=
  if account_used acc d || phone_used (phone user) d then inl (SqlError 1062)
  else
    let id := t_users_next d in
    let row := mkUserRow acc (nickname user) (phone user) (password_hash user)
                 (password_salt user) now now None in
    inr (id, set_users_next (λ n, n + 1) (set_users <[id := row]> d)).

Definition insert_user (user : userInfo) (acc : Z) : M Z :=
  t ← mysql_now; execute (insert_user_row t user acc).

(** The standalone overload: account 0, every exception becomes [nullopt]. *)
Definition insert_user_unallocated (user : userInfo) : M (option Z) :=
  r ← catch (with_connection (insert_user user 0));
  match r with inr id => mret (Some id) | inl _ => mret None end.

Definition set_user_account (acc : Z) (r : UserRow) : UserRow :=
  mkUserRow acc (u_nickname r) (u_phone r) (u_password_hash r) (u_password_salt r)
    (u_created_at r) (u_updated_at r) (u_last_login_at r).

Definition update_account_row (uid acc : Z) (d : Database) : exn + (unit * Database) :=
  match t_users d !! uid with
  | None => inr (tt, d)
  | Some r =>
      if account_used acc d && negb (u_account r =? acc) then inl (SqlError 1062)
      else inr (tt, set_users <[uid := set_user_account acc r]> d)
  end.

Definition update_account (uid acc : Z) : M bool :=
  r ← catch (with_connection (execute (update_account_row uid acc)));
  match r with inr _ => mret true | inl _ => mret false end.

Definition touch_last_login (now : datetime) (r : UserRow) : UserRow :=
  mkUserRow (u_account r) (u_nickname r) (u_phone r) (u_password_hash r) (u_password_salt r)
    (u_created_at r) now (Some now).

Definition update_last_login (uid : Z) : M bool :=
  r ← catch (with_connection (
        t ← mysql_now;
        update (λ d, (tt, set_users (update_where (λ k _, k =? uid) (touch_last_login t)) d))));
  match r with inr _ => mret true | inl _ => mret false end.

Definition account_exists (acc : Z) : M bool :=
  r ← catch (with_connection (query (λ d, count (λ _ r, u_account r =? acc) (t_users d))));
  match r with inr n => mret (0 <? n) | inl _ => mret false end.

(** * The parser reads what the queries select *)

(** The value the server-side row stands for. *)
Definition user_of (public_only : bool) (p : Z * UserRow) : userInfo :=
  let '(id, r) := p in
  if public_only then mkUserInfo id (u_account r) (u_nickname r) "" "" "" "" "" ""
  else mkUserInfo id (u_account r) (u_nickname r) (u_phone r) (u_password_hash r)
         (u_password_salt r) (show_datetime (u_created_at r)) (show_datetime (u_updated_at r))
         (match u_last_login_at r with Some d => show_datetime d | None => "" end).

Lemma parse_user_columns b p l :
  parse_user_from_row (user_columns b p :: l) = inr (user_of b p).
Proof.
  destruct p as [id r]. destruct b; cbn; [done|].
  by destruct (u_last_login_at r).
Qed.

Lemma find_user_ok value by_account public_only w u w' :
  find_user value by_account public_only w = (inr u, w') →
  u = user_of public_only <$> select_one (user_match value by_account) (t_users (view w)) ∧
  ∃ fs, w' = with_faults fs w.
Proof.
  intros H. unfold find_user in H.
  apply bind_ok in H as (rows & w1 & (-> & fs & ->)%query_ok & H).
  unfold user_query, select_one in *.
  destruct (select _ _) as [|p l]; cbn [fmap list_fmap head] in *.
  - apply ret_ok in H as [<- <-]. eauto.
  - apply bind_ok in H as (u' & w2 & [Hp ->]%lift_ok & [<- <-]%ret_ok).
    rewrite parse_user_columns in Hp. injection Hp as <-. eauto.
Qed.

#[export] Instance InTx_find_user v b p : InTx (find_user v b p).
Proof. unfold find_user. apply _. Qed.

#[export] Instance InTx_insert_user u a : InTx (insert_user u a).
Proof. unfold insert_user. apply _. Qed.

Lemma account_used_false acc d :
  account_used acc d = false ↔ ∀ k r, t_users d !! k = Some r → u_account r ≠ acc.
Proof.
  unfold account_used. rewrite bool_decide_eq_false.
  assert (Hd : ¬ select_one (λ _ r, u_account r =? acc) (t_users d) ≠ None ↔
    select_one (λ _ r, u_account r =? acc) (t_users d) = None)
    by (destruct (select_one _ _); naive_solver).
  rewrite Hd, select_one_None. split.
  - intros Hall k r Hk Heq. specialize (Hall k r Hk). bool_to_prop. done.
  - intros Hall k r Hk. apply Z.eqb_neq. eauto.
Qed.

Lemma phone_used_false ph d :
  phone_used ph d = false ↔ ∀ k r, t_users d !! k = Some r → u_phone r ≠ ph.
Proof.
  unfold phone_used. rewrite bool_decide_eq_false.
  assert (Hd : ¬ select_one (λ _ r, bool_decide (u_phone r = ph)) (t_users d) ≠ None ↔
    select_one (λ _ r, bool_decide (u_phone r = ph)) (t_users d) = None)
    by (destruct (select_one _ _); naive_solver).
  rewrite Hd, select_one_None. split.
  - intros Hall k r Hk Heq. specialize (Hall k r Hk). bool_to_prop. done.
  - intros Hall k r Hk. apply bool_decide_eq_false_2. eauto.
Qed.
