(* ===== verification/Registration.v ===== *)
(** Account registration ([namespace mysql_registration] of
    [src/storage/mysqlhandler.cpp], [src/util/account_pool.cpp]): the request
    payload, the idempotency check, the registration transaction with its retry
    and confirmation logic, and the refill of the account pool.

    SHA-256 and the shuffle of a batch are parameters ([Digest], [Shuffle]). *)
From S2P Require Import Prelude Table Snowflake Schema Effects Users.

(** * Parameters *)

(** [EVP_Digest(..., EVP_sha256())]: the digest bytes, [None] when the call
    fails. *)
Class Digest := evp_sha256 : string → option string.

(** [std::shuffle] with the thread's random engine. *)
Class Shuffle := std_shuffle : list Z → list Z.
Class ShuffleOk `{Shuffle} : Prop := shuffle_perm l : std_shuffle l ≡ₚ l.

(** * The account pool allocator ([util/account_pool]) *)

Definition kMinAccount : Z := 1000000000.
Definition kMaxAccount : Z := 9999999999.
Definition kLowWaterMark : Z := 1000.
Definition kRefillBatch : Z := 10000.

Definition generate_shuffled_batch `{Shuffle} (start end_ : Z) : list Z :=
  if end_ <=? start then [] else std_shuffle (seqZ start (end_ - start)).

(** * Requests *)

Record RegistrationInput := mkInput {
  request_id : string;
  in_user : userInfo;
  in_payload : string;
}.

Record RegistrationResult := mkResult { res_user_id : Z; res_account : Z }.

(** Three length-prefixed fields. *)
Definition payload (a b c : string) : string :=
  to_string (size_of a) +:+ ":" +:+ a +:+ to_string (size_of b) +:+ ":" +:+ b
  +:+ to_string (size_of c) +:+ ":" +:+ c.

Definition registration_payload (phone nickname password : string) : string :=
  payload phone nickname password.

Definition hex_digit (n : Z) : ascii := if n <? 10 then byte_chr (48 + n) else byte_chr (87 + n).

Fixpoint to_hex (s : string) : string :=
  match s with
  | EmptyString => ""
  | String c s =>
      String (hex_digit (Z.shiftr (byte_val c) 4)) (String (hex_digit (Z.land (byte_val c) 15))
        (to_hex s))
  end.

Definition reg_error (code message : string) : exn := CodedError code message.

Definition number (f : field_view) (where_ : string) : E Z :=
  let error := reg_error "SCHEMA_ERROR" ("Expected a nonnegative integer at " +:+ where_) in
  match f with
  | FUint64 z => inr z
  | FInt64 z => if 0 <=? z then inr z else inl error
  | _ => inl error
  end.

Definition digest `{Digest} (salt data : string) : E string :=
  match evp_sha256 (payload salt data "") with
  | Some out => inr (to_hex out)
  | None => inl (reg_error "INTERNAL_ERROR" "Unable to hash registration input")
  end.

(** [row[i]]: NULL when the column is missing. *)
Definition nth_field (row : list field_view) (i : nat) : field_view := default FNull (row !! i).

Definition verify `{Digest} (input : RegistrationInput) (row : list field_view) : E unit :=
  salt ← as_string (nth_field row 0);
  expected ← as_string (nth_field row 1);
  actual ← digest salt (in_payload input);
  if bool_decide (actual = expected) then mret tt
  else ethrow (reg_error "IDEMPOTENCY_CONFLICT" "Request ID was already used for different input").

(** * Transactions and retries *)

Definition begin_ : M unit := set_session;; set_session;; start_transaction.

Definition mysqlCode (e : exn) (code : Z) : bool :=
  match e with SqlError c => c =? code | _ => false end.

(** The delay before the next attempt: a base, capped at one second; the drawn
    delay lies between half the base and the base. *)
Definition backoff_base (attempt : Z) : Z := Z.min (Z.shiftl 25 (Z.min attempt 6)) 1000.
Definition backoff_range (attempt : Z) : Z * Z := (backoff_base attempt / 2, backoff_base attempt).
(** Waiting changes nothing. *)
Definition backoff (attempt : Z) : M unit := mret tt.

(** * SQL of registration *)

Definition opt_field (o : option Z) : field_view :=
  match o with Some z => FUint64 z | None => FNull end.

Definition request_columns (r : RegistrationRow) : list field_view :=
  [FString (rr_payload_salt r); FString (rr_payload_hash r);
   opt_field (rr_user_id r); opt_field (rr_account r)].

Definition select_request (id : string) (d : Database) : option (list field_view) :=
  request_columns <$> t_registration_requests d !! id.

(** INSERT ... ON DUPLICATE KEY UPDATE request_id=request_id *)
Definition insert_request (id salt hash : string) (d : Database) : unit * Database :=
  match t_registration_requests d !! id with
  | Some _ => (tt, d)
  | None => (tt, set_registration_requests <[id := mkRegistrationRow salt hash None None]> d)
  end.

Definition select_free (d : Database) : option (Z * PoolRow) :=
  select_one (λ _ r, p_status r =? 0) (t_account_pool d).

(** UPDATE account_pool SET status=1 WHERE id={} AND status=0; affected rows. *)
Definition take_pool_row (id : Z) (d : Database) : Z * Database :=
  match t_account_pool d !! id with
  | Some r => if p_status r =? 0
              then (1, set_account_pool <[id := mkPoolRow (p_account r) 1]> d) else (0, d)
  | None => (0, d)
  end.

(** UPDATE registration_requests SET user_id={},account={} WHERE request_id={};
    both columns are unique; the result is the number of changed rows. *)
Definition save_result (id : string) (uid acc : Z) (d : Database) : exn + (Z * Database) :=
  match t_registration_requests d !! id with
  | None => inr (0, d)
  | Some r =>
      if bool_decide (map_Exists (λ id' r', id' ≠ id ∧
           (rr_user_id r' = Some uid ∨ rr_account r' = Some acc)) (t_registration_requests d))
      then inl (SqlError 1062)
      else
        let r' := mkRegistrationRow (rr_payload_salt r) (rr_payload_hash r) (Some uid) (Some acc) in
        inr (if bool_decide (rr_user_id r = Some uid ∧ rr_account r = Some acc) then 0 else 1,
             set_registration_requests <[id := r']> d)
  end.

(** * Registration *)

Section registration.
Context `{Digest} `{Shuffle}.

Definition complete (row : list field_view) : bool :=
  negb (is_null (nth_field row 2)) && negb (is_null (nth_field row 3)).

(** The query of [lookup] and the checks on its row. *)
Definition lookup_row (input : RegistrationInput) : M (option RegistrationResult) :=
  r ← query (select_request (request_id input));
  match r with
  | None => mret None
  | Some row =>
      lift (verify input row);;
      if is_null (nth_field row 2) || is_null (nth_field row 3) then mret None
      else
        uid ← lift (number (nth_field row 2) "lookup.user_id");
        acc ← lift (number (nth_field row 3) "lookup.account");
        mret (Some (mkResult uid acc))
  end.

Definition lookup_ (input : RegistrationInput) : M (option RegistrationResult) :=
  with_connection (lookup_row input).

(** How the statements of [once] before COMMIT or ROLLBACK end. *)
Inductive plan :=
| Replay (r : RegistrationResult)
| PoolEmpty
| Registered (r : RegistrationResult).

(** The pool row is validated, the user inserted, the pool row taken and the
    result stored with the request. *)
Definition allocate (input : RegistrationInput) (free : Z * PoolRow) : M plan :=
  id ← lift (number (FUint64 free.1) "once.pool.id");
  acc ← lift (number (FUint64 (p_account free.2)) "once.pool.account");
  if (id =? 0) || (acc <? kMinAccount) || (kMaxAccount <? acc)
  then throw (reg_error "POOL_INCONSISTENT" "Invalid account pool record")
  else
    uid ← insert_user (in_user input) acc;
    if uid =? 0 then throw (reg_error "SCHEMA_ERROR" "Missing inserted user ID")
    else
      n ← update (take_pool_row id);
      if negb (n =? 1)
      then throw (reg_error "POOL_INCONSISTENT" "Account allocation did not update one row")
      else
        n ← execute (save_result (request_id input) uid acc);
        if negb (n =? 1)
        then throw (reg_error "SCHEMA_ERROR" "Registration result was not persisted")
        else mret (Registered (mkResult uid acc)).

Definition reserve (input : RegistrationInput) : M plan :=
  let salt := password_salt (in_user input) in
  hash ← lift (digest salt (in_payload input));
  update (insert_request (request_id input) salt hash);;
  r ← query (select_request (request_id input));
  match r with
  | None => throw (reg_error "SCHEMA_ERROR" "registration_requests row missing after insert")
  | Some row =>
      lift (verify input row);;
      if complete row then
        uid ← lift (number (nth_field row 2) "once.replay.user_id");
        acc ← lift (number (nth_field row 3) "once.replay.account");
        mret (Replay (mkResult uid acc))
      else
        taken ← query (phone_used (phone (in_user input)));
        if (taken : bool)
        then throw (reg_error "PHONE_EXISTS" "Phone number is already registered")
        else
          f ← query select_free;
          match f with
          | None => mret PoolEmpty
          | Some free => allocate input free
          end
  end.

(** The end of the try block: a value to return, or a result to COMMIT. *)
Inductive step := Return_ (v : option RegistrationResult) | Commit_ (r : RegistrationResult).

Definition settle (p : plan) : M step :=
  match p with
  | Replay r =>
      rb ← rollback;
      if (rb : bool) then mret (Return_ (Some r))
      else throw (reg_error "DB_ERROR" "Unable to release replay transaction")
  | PoolEmpty =>
      rb ← rollback;
      if (rb : bool) then mret (Return_ None)
      else throw (reg_error "DB_ERROR" "Unable to roll back empty-pool transaction")
  | Registered r => mret (Commit_ r)
  end.

(** One pass of the loop body up to the release of the connection: the value
    returned, or (failure, committing, rolledBack). *)
Inductive pass (V : Type) := Returned (v : V) | Failed (failure : exn) (committing rolledBack : bool).
#[global] Arguments Returned {V}.
#[global] Arguments Failed {V}.

(** The try block with its COMMIT, and the rollback after a failure. *)
Definition try_register (input : RegistrationInput) : M (pass (option RegistrationResult)) :=
  r ← catch (p ← reserve input; settle p);
  match r with
  | inr (Return_ v) => mret (Returned v)
  | inr (Commit_ res) =>
      c ← catch commit;
      match c with
      | inr _ => mret (Returned (Some res))
      | inl failure => rb ← rollback; mret (Failed failure true rb)
      end
  | inl failure => rb ← rollback; mret (Failed failure false rb)
  end.

Definition once_pass (input : RegistrationInput) : M (pass (option RegistrationResult)) :=
  with_connection (begin_;; try_register input).

Definition transient (failure : exn) : bool := mysqlCode failure 1205 || mysqlCode failure 1213.

(** The loop of [once]: [n] passes are left, [attempt] counts from 0. *)
Fixpoint once_from (n : nat) (attempt : Z) (input : RegistrationInput)
    : M (option RegistrationResult) :=
  match n with
  | O => throw (reg_error "INTERNAL_ERROR" "Registration attempts exhausted")
  | S n =>
      p ← once_pass input;
      match p with
      | Returned v => mret v
      | Failed failure committing rolledBack =>
          if committing then
            confirmed ← catch (lookup_ input);
            match confirmed with
            | inr (Some r) => mret (Some r)
            | _ => throw (reg_error "REGISTRATION_UNCERTAIN"
                            "Retry the same request ID to confirm registration")
            end
          else if transient failure && rolledBack then
            if attempt <? 2 then backoff attempt;; once_from n (attempt + 1) input
            else throw (reg_error "REGISTRATION_BUSY"
                          "Registration is busy; retry the same request ID")
          else if mysqlCode failure 1062 then
            with_connection (
              taken ← query (phone_used (phone (in_user input)));
              if (taken : bool)
              then throw (reg_error "PHONE_EXISTS" "Phone number is already registered")
              else throw (reg_error "POOL_INCONSISTENT"
                            "Account uniqueness conflict; inspect account pool"))
          else throw failure
      end
  end.

Definition once (input : RegistrationInput) : M (option RegistrationResult) :=
  once_from 3 0 input.

(** ** Refill *)

Definition max_of (l : list Z) : option Z :=
  foldr (λ x m, Some (match m with Some y => Z.max x y | None => x end)) None l.

(** SELECT MAX(account) over users and account_pool. *)
Definition greatest_account (d : Database) : field_view :=
  match max_of (((λ p, u_account p.2) <$> rows (t_users d))
                ++ ((λ p, p_account p.2) <$> rows (t_account_pool d))) with
  | Some m => FUint64 m
  | None => FNull
  end.

(** INSERT INTO account_pool(account,status) VALUES (a,0),...: one statement,
    account is unique. *)
Definition insert_pool_row (acc : Z) (d : Database) : exn + Database :=
  match select_one (λ _ r, p_account r =? acc) (t_account_pool d) with
  | Some _ => inl (SqlError 1062)
  | None =>
      inr (set_account_pool_next (λ n, n + 1)
             (set_account_pool <[t_account_pool_next d := mkPoolRow acc 0]> d))
  end.

Fixpoint insert_pool_rows (accounts : list Z) (d : Database) : exn + (unit * Database) :=
  match accounts with
  | [] => inr (tt, d)
  | a :: accounts =>
      match insert_pool_row a d with
      | inl e => inl e
      | inr d => insert_pool_rows accounts d
      end
  end.

(** The loop over chunks of 1000 accounts; [fuel] bounds the number of chunks. *)
Fixpoint insert_chunks (fuel : nat) (accounts : list Z) : M unit :=
  match accounts, fuel with
  | [], _ => mret tt
  | _, O => throw OutOfFuel
  | _, S fuel =>
      execute (insert_pool_rows (take 1000 accounts));;
      insert_chunks fuel (drop 1000 accounts)
  end.

(** The statements of [refill] before COMMIT or ROLLBACK; [false] when the
    pool is full enough and nothing is to be committed. *)
Definition refill_work (batchSize : Z) : M bool :=
  c ← query t_account_pool_cursor;
  match c with
  | None => throw (reg_error "POOL_INCONSISTENT" "Missing account pool cursor")
  | Some next =>
      start ← lift (number (FUint64 next) "refill.cursor.next_start");
      n ← query (λ d, count (λ _ r, p_status r =? 0) (t_account_pool d));
      freeCount ← lift (number (FInt64 n) "refill.count_free");
      if kLowWaterMark <=? freeCount then mret false
      else
        m ← query greatest_account;
        maximum ← lift (number m "refill.greatest_max");
        if (start <? kMinAccount) || (start <=? maximum)
        then throw (reg_error "POOL_INCONSISTENT"
                      "Cursor overlaps existing accounts; run migration preflight")
        else if kMaxAccount <? start
        then throw (reg_error "ACCOUNT_RANGE_EXHAUSTED" "Account number range exhausted")
        else
          let count := Z.min batchSize (kMaxAccount - start + 1) in
          let end_ := start + count in
          update (λ d, (tt, set_account_pool_cursor (λ _, Some end_) d));;
          let accounts := generate_shuffled_batch start end_ in
          insert_chunks (length accounts) accounts;;
          mret true
  end.

Definition refill_settle (extended : bool) : M bool :=
  if extended then mret true
  else
    rb ← rollback;
    if (rb : bool) then mret false
    else throw (reg_error "DB_ERROR" "Unable to release refill transaction").

Definition try_refill (batchSize : Z) : M (pass unit) :=
  r ← catch (b ← refill_work batchSize; refill_settle b);
  match r with
  | inr false => mret (Returned tt)
  | inr true =>
      c ← catch commit;
      match c with
      | inr _ => mret (Returned tt)
      | inl failure => rb ← rollback; mret (Failed failure true rb)
      end
  | inl failure => rb ← rollback; mret (Failed failure false rb)
  end.

Definition refill_pass (batchSize : Z) : M (pass unit) :=
  with_connection (begin_;; try_refill batchSize).

(** After three passes the C++ function falls off its loop and returns. *)
Fixpoint refill_from (n : nat) (attempt : Z) (batchSize : Z) : M unit :=
  match n with
  | O => mret tt
  | S n =>
      p ← refill_pass batchSize;
      match p with
      | Returned _ => mret tt
      | Failed failure committing rolledBack =>
          if committing then
            throw (reg_error "REFILL_UNCERTAIN"
              "Refill outcome unknown; retry registration with the same request ID")
          else if rolledBack && transient failure then
            if attempt <? 2 then backoff attempt;; refill_from n (attempt + 1) batchSize
            else throw (reg_error "REGISTRATION_BUSY" "Account refill is busy")
          else throw failure
      end
  end.

Definition refill (batchSize : Z) : M unit :=
  if (batchSize =? 0) || (kRefillBatch <? batchSize)
  then throw (reg_error "REFILL_INVALID_PARAM" "Invalid account refill batch size")
  else refill_from 3 0 batchSize.

Definition create (input : RegistrationInput) : M RegistrationResult :=
  r ← once input;
  r ← match r with
      | Some r => mret (Some r)
      | None => refill kRefillBatch;; once input
      end;
  match r with
  | Some r => mret r
  | None => throw (reg_error "ACCOUNT_POOL_UNAVAILABLE"
                     "No account available; retry the same request ID")
  end.

Definition register_user (input : RegistrationInput) : M RegistrationResult := create input.
Definition refill_accounts (batch_size : Z) : M unit := refill batch_size.
(** [AccountPoolTool] *)
Definition pool_refill (batch_size : Z) : M unit := refill_accounts batch_size.
Definition ensure_pool_not_low : M unit := pool_refill kRefillBatch.
End registration.

(** * Payloads are injective *)

Lemma to_string_no_colon n :
  0 <= n → all_of (λ d, negb (bool_decide (d = ":"%char))) (to_string n) = true.
Proof. intros. apply digits_avoid; [done|]. by apply to_string_digits. Qed.

Lemma field_inj a a' t t' :
  size_of a <= uint64_max → size_of a' <= uint64_max →
  (to_string (size_of a) +:+ ":" +:+ a +:+ t = to_string (size_of a') +:+ ":" +:+ a' +:+ t')%string →
  a = a' ∧ t = t'.
Proof.
  intros Ha Ha' Heq. cbn [String.append] in Heq.
  apply sep_split_inj in Heq as [Hn Heq];
    [|apply to_string_no_colon, size_of_nonneg..].
  apply to_string_inj in Hn;
    [|pose proof (size_of_nonneg a); done|pose proof (size_of_nonneg a'); done].
  apply app_same_length_inj in Heq; [done|]. unfold size_of in Hn. lia.
Qed.

(** The registration payload determines phone, nickname and password: two
    requests with the same payload carry the same three fields, so the
    idempotency check on the payload's digest compares all of them. *)
Theorem registration_payload_injective a b c a' b' c'
    (Hsize : Forall (λ s, size_of s <= uint64_max) [a; b; c; a'; b'; c'])
    (Heq : registration_payload a b c = registration_payload a' b' c') :
  a = a' ∧ b = b' ∧ c = c'.
Proof.
  rewrite !Forall_cons in Hsize. destruct Hsize as (Ha & Hb & Hc & Ha' & Hb' & Hc' & _).
  unfold registration_payload, payload in Heq.
  apply field_inj in Heq as [-> Heq]; [|done..].
  apply field_inj in Heq as [-> Heq]; [|done..].
  rewrite <- (str_app_nil_r c), <- (str_app_nil_r c') in Heq.
  rewrite (str_app_nil_r c), (str_app_nil_r c') in Heq at 1.
  apply field_inj in Heq as [-> _]; done.
Qed.

Lemma registration_payload_injective_witness :
  registration_payload "1" "23" "" ≠ registration_payload "12" "3" "" ∧
  ("a" = "a" ∧ "b" = "b" ∧ "" = "")%string.
Proof.
  split; [vm_compute; discriminate|].
  apply (registration_payload_injective "a" "b" "" "a" "b" "").
  - repeat constructor; vm_compute; discriminate.
  - reflexivity.
Defined.
