(* ===== verification/RegistrationProofs.v ===== *)
(** Correctness of registration: what one committed registration does to the
    tables, the invariant of the account tables under every failure schedule,
    idempotent replay, error atomicity, progress without failures, and the
    refill of the account pool. *)
From S2P Require Import Prelude Table Snowflake Schema Effects Users Registration.

(** * Specification of one registration *)

(** The request row a registration completes: the pending row, or a new one. *)
Definition request_base (input : RegistrationInput) (hash : string) (d : Database)
    : RegistrationRow :=
  default (mkRegistrationRow (password_salt (in_user input)) hash None None)
    (t_registration_requests d !! request_id input).

Definition new_user (t : datetime) (user : userInfo) (acc : Z) : UserRow :=
  mkUserRow acc (nickname user) (phone user) (password_hash user) (password_salt user) t t None.

(** The database after the registration of [input] with pool row [id]. *)
Definition registered_db (input : RegistrationInput) (t : datetime) (hash : string)
    (id acc : Z) (d : Database) : Database :=
  let base := request_base input hash d in
  let uid := t_users_next d in
  set_registration_requests
    <[request_id input := mkRegistrationRow (rr_payload_salt base) (rr_payload_hash base)
                            (Some uid) (Some acc)]>
    (set_account_pool <[id := mkPoolRow acc 1]>
      (set_users_next (λ n, n + 1)
        (set_users <[uid := new_user t (in_user input) acc]> d))).

(** The same with a user number drawn before: [AUTO_INCREMENT] does not wait for COMMIT. *)
Definition registered_at (input : RegistrationInput) (t : datetime) (hash : string)
    (id acc uid : Z) (d : Database) : Database :=
  let base := request_base input hash d in
  set_registration_requests
    <[request_id input := mkRegistrationRow (rr_payload_salt base) (rr_payload_hash base)
                            (Some uid) (Some acc)]>
    (set_account_pool <[id := mkPoolRow acc 1]>
      (set_users <[uid := new_user t (in_user input) acc]> d)).

Lemma registered_db_at input t hash id acc d :
  registered_db input t hash id acc d =
  registered_at input t hash id acc (t_users_next d) (set_users_next (λ n, n + 1) d).
Proof. done. Qed.

Section proofs.
Context `{Digest} `{Shuffle}.

(** When the statements of [reserve] register [input] with the free pool row
    [id], and with what result. *)
Record registers_with (input : RegistrationInput) (t : datetime) (d : Database)
    (r : RegistrationResult) (d' : Database) (id : Z) (hash : string) : Prop := mkRegisters {
  reg_digest : digest (password_salt (in_user input)) (in_payload input) = inr hash;
  reg_pending : let b := request_base input hash d in
    rr_user_id b = None ∨ rr_account b = None;
  reg_matches : let b := request_base input hash d in
    digest (rr_payload_salt b) (in_payload input) = inr (rr_payload_hash b);
  reg_phone : phone_used (phone (in_user input)) d = false;
  reg_account : account_used (res_account r) d = false;
  reg_free : select_free d = Some (id, mkPoolRow (res_account r) 0);
  reg_range : kMinAccount <= res_account r <= kMaxAccount;
  reg_uid : res_user_id r = t_users_next d;
  reg_db : d' = registered_db input t hash id (res_account r) d;
}.

Definition registers input d r d' : Prop := ∃ t id hash, registers_with input t d r d' id hash.

(** The stored row answers the request with [r]. *)
Definition answered (input : RegistrationInput) (d : Database) (r : RegistrationResult) : Prop :=
  ∃ row, t_registration_requests d !! request_id input = Some row ∧
    rr_user_id row = Some (res_user_id r) ∧ rr_account row = Some (res_account r) ∧
    digest (rr_payload_salt row) (in_payload input) = inr (rr_payload_hash row).

(** The request is unknown or its row carries no result yet. *)
Definition pending (input : RegistrationInput) (d : Database) : Prop :=
  ∀ row, t_registration_requests d !! request_id input = Some row →
    rr_user_id row = None ∨ rr_account row = None.

(** [reserve] found no free account. *)
Definition pool_empty (input : RegistrationInput) (d : Database) : Prop :=
  select_free d = None ∧ phone_used (phone (in_user input)) d = false ∧ pending input d.

Lemma base_pending input hash d :
  rr_user_id (request_base input hash d) = None ∨ rr_account (request_base input hash d) = None →
  pending input d.
Proof. unfold request_base. intros Hb row Hrow. by rewrite Hrow in Hb. Qed.

Lemma pending_not_answered input d r : pending input d → answered input d r → False.
Proof. intros Hp (row & Hrow & Hu & Ha & _). destruct (Hp row Hrow); congruence. Qed.

Lemma registers_pending input d r d' : registers input d r d' → pending input d.
Proof. intros (t & id & hash & Hr). eapply base_pending, (reg_pending _ _ _ _ _ _ _ Hr). Qed.

(** ** The statements of [reserve] *)

#[export] Instance InTx_allocate input free : InTx (allocate input free).
Proof. unfold allocate. apply _. Qed.
#[export] Instance InTx_reserve input : InTx (reserve input).
Proof. unfold reserve. apply _. Qed.

Lemma verify_ok input r :
  verify input (request_columns r) = inr tt ↔
  digest (rr_payload_salt r) (in_payload input) = inr (rr_payload_hash r).
Proof.
  unfold verify. cbn. destruct (digest _ _) as [e|h]; cbn; [done|].
  case_bool_decide; naive_solver.
Qed.

Lemma number_opt o s v : number (opt_field o) s = inr v → o = Some v.
Proof. destruct o; cbn; naive_solver. Qed.

Lemma insert_request_lookup id salt hash d :
  t_registration_requests (insert_request id salt hash d).2 !! id =
  Some (default (mkRegistrationRow salt hash None None) (t_registration_requests d !! id)).
Proof.
  unfold insert_request. destruct (t_registration_requests d !! id) eqn:E; cbn; [done|].
  by rewrite lookup_insert_eq.
Qed.

Lemma complete_columns r :
  complete (request_columns r) = true ↔
  is_Some (rr_user_id r) ∧ is_Some (rr_account r).
Proof.
  unfold complete. rewrite <- !not_eq_None_Some. cbn.
  destruct (rr_user_id r), (rr_account r); cbn; intuition congruence.
Qed.

Lemma allocate_ok input free p w w' d :
  w_txn w = Some d → allocate input free w = (inr p, w') →
  ∃ acc uid d', p = Registered (mkResult uid acc) ∧ acc = p_account free.2 ∧
    kMinAccount <= acc <= kMaxAccount ∧ uid = t_users_next d ∧
    account_used acc d = false ∧ phone_used (phone (in_user input)) d = false ∧
    save_result (request_id input) uid acc
      (take_pool_row free.1 (set_users_next (λ n, n + 1)
         (set_users <[uid := new_user (w_mysql_now w) (in_user input) acc]> d))).2 = inr (1, d') ∧
    w_txn w' = Some d'.
Proof.
  intros Ht Hr. unfold allocate, insert_user in Hr.
  run_ok Hr; simplify_eq/=. bool_to_prop. subst. world_simpl.
  rewrite (view_txn d) in * by done. rewrite Ht.
  unfold insert_user_row in *.
  destruct (account_used _ _ || phone_used _ _) eqn:Eused; [done|]. bool_to_prop.
  simplify_eq. eauto 20.
Qed.

Lemma take_pool_row_free id d row :
  t_account_pool d !! id = Some row → p_status row = 0 →
  take_pool_row id d = (1, set_account_pool <[id := mkPoolRow (p_account row) 1]> d).
Proof. intros Hr Hs. unfold take_pool_row. by rewrite Hr, Hs. Qed.

Lemma save_result_ok id uid acc d n d' :
  save_result id uid acc d = inr (n, d') → n = 1 →
  ∃ r, t_registration_requests d !! id = Some r ∧
    d' = set_registration_requests
           <[id := mkRegistrationRow (rr_payload_salt r) (rr_payload_hash r)
                     (Some uid) (Some acc)]> d.
Proof.
  unfold save_result. intros Hs ->. destruct (_ !! id) as [r|]; [|simplify_eq].
  case_bool_decide; [done|]. simplify_eq. eauto.
Qed.

(** INSERT of the request row, then everything [allocate] changes. *)
Lemma insert_request_base input hash d :
  t_registration_requests (insert_request (request_id input) (password_salt (in_user input))
    hash d).2 !! request_id input = Some (request_base input hash d).
Proof. apply insert_request_lookup. Qed.

Lemma insert_request_others id salt hash d :
  let d' := (insert_request id salt hash d).2 in
  t_users d' = t_users d ∧ t_users_next d' = t_users_next d ∧
  t_account_pool d' = t_account_pool d.
Proof. unfold insert_request. by destruct (_ !! id). Qed.

Lemma insert_request_absorbed id salt hash row f g h d :
  set_registration_requests <[id := row]> (set_account_pool f (set_users_next g
    (set_users h (insert_request id salt hash d).2))) =
  set_registration_requests <[id := row]> (set_account_pool f (set_users_next g
    (set_users h d))).
Proof.
  unfold insert_request. destruct (_ !! id) eqn:E; [done|].
  destruct d as [[] ? ? ? ?]. db_unfold. by rewrite insert_insert_eq.
Qed.

Lemma used_users d d' acc ph :
  t_users d' = t_users d →
  account_used acc d' = account_used acc d ∧ phone_used ph d' = phone_used ph d.
Proof. unfold account_used, phone_used. by intros ->. Qed.

Lemma select_free_pool d d' :
  t_account_pool d' = t_account_pool d → select_free d' = select_free d.
Proof. unfold select_free. by intros ->. Qed.

Lemma select_free_Some d id row :
  select_free d = Some (id, row) → t_account_pool d !! id = Some row ∧ p_status row = 0.
Proof. intros (? & Hs & _)%select_one_Some. bool_to_prop. done. Qed.

Lemma incomplete_columns r :
  complete (request_columns r) = false → rr_user_id r = None ∨ rr_account r = None.
Proof.
  intros Hc. destruct (rr_user_id _) eqn:E1; [|by left]. destruct (rr_account _) eqn:E2; [|by right].
  assert (complete (request_columns r) = true); [|congruence]. apply complete_columns. by rewrite E1, E2.
Qed.

(** What [reserve] decided, by outcome. *)
Lemma reserve_ok input w d p w' :
  w_txn w = Some d → reserve input w = (inr p, w') →
  match p with
  | Replay r => answered input d r
  | PoolEmpty => pool_empty input d
  | Registered r => ∃ d', w_txn w' = Some d' ∧ registers input d r d'
  end.
Proof.
  intros Ht Hr. unfold reserve in Hr.
  apply bind_ok in Hr as (hash & w1 & [Hdig ->]%lift_ok & Hr).
  apply bind_ok in Hr as (u & w1 & (fs & -> & ->)%update_ok & Hr).
  rewrite (view_txn d w Ht) in Hr.
  set (d1 := (insert_request _ _ _ d).2) in *.
  assert (Ht1 : w_txn (put d1 (with_faults fs w)) = Some d1) by (rewrite txn_put; cbn; by rewrite Ht).
  assert (Hn1 : w_mysql_now (put d1 (with_faults fs w)) = w_mysql_now w) by exact (mysql_now_put d1 (with_faults fs w)).
  destruct (insert_request_others (request_id input) (password_salt (in_user input)) hash d)
    as (Hu & Hnx & Hp). fold d1 in Hu, Hnx, Hp.
  pose proof (insert_request_base input hash d) as Hb. fold d1 in Hb.
  set (w2 := put d1 _) in *. clearbody w2.
  apply bind_ok in Hr as (q & w3 & (-> & fs3 & ->)%query_ok & Hr).
  rewrite (view_txn d1 w2 Ht1) in Hr. unfold select_request in Hr. rewrite Hb in Hr.
  cbn [fmap option_fmap option_map] in Hr.
  apply bind_ok in Hr as ([] & w4 & [Hver ->]%lift_ok & Hr). rewrite verify_ok in Hver.
  destruct (complete _) eqn:Hc.
  - apply complete_columns in Hc as [[uid Huid] [acc Hacc]].
    run_ok Hr. cbn [nth_field request_columns] in *.
    apply number_opt in H1, H2. cbn in H1, H2.
    unfold request_base in *. destruct (t_registration_requests d !! _) as [row|] eqn:Erow;
      [|done]. cbn in *. exists row. auto.
  - apply incomplete_columns in Hc as Hpend.
    apply bind_ok in Hr as (tk & w5 & (-> & fs5 & ->)%query_ok & Hr).
    rewrite (view_txn d1) in Hr by done.
    destruct (used_users d d1 0 (phone (in_user input)) Hu) as [_ Hph]. rewrite Hph in Hr.
    destruct (phone_used _ _) eqn:Eph; [by apply throw_ok in Hr|].
    apply bind_ok in Hr as (fr & w6 & (-> & fs6 & ->)%query_ok & Hr).
    rewrite (view_txn d1) in Hr by done. rewrite (select_free_pool d d1 Hp) in Hr.
    destruct (select_free d) as [[id row]|] eqn:Efree;
      [|run_ok Hr; subst; split; [done|]; split; [done|by eapply base_pending]].
    apply (allocate_ok _ _ _ _ _ d1) in Hr; [|done].
    destruct Hr as (acc & uid & d' & -> & -> & Hrange & -> & Hau & _ & Hsave & Htx).
    cbn [fst snd] in *. exists d'. split; [done|]. cbn in Hsave. rewrite Hn1 in Hsave.
    destruct (used_users d d1 (p_account row) "" Hu) as [Hau' _].
    apply select_free_Some in Efree as Hrow. destruct Hrow as [Hrow Hst].
    exists (w_mysql_now w), id, hash. destruct row as [acc st]. cbn in *. subst st.
    split; cbn; try done; [congruence|].
    rewrite (take_pool_row_free _ _ (mkPoolRow acc 0)) in Hsave;
      [|change (t_account_pool d1 !! id = Some (mkPoolRow acc 0)); by rewrite Hp|done].
    apply save_result_ok in Hsave as (r & Hr & ->); [|done].
    change (t_registration_requests d1 !! request_id input = Some r) in Hr.
    assert (r = request_base input hash d) as -> by congruence.
    unfold registered_db. rewrite Hnx. apply insert_request_absorbed.
Qed.

(** ** One pass of the transaction *)

Lemma begin_ok w u w' :
  w_txn w = None → begin_ w = (inr u, w') → ∃ fs, w' = tx_start fs w.
Proof.
  intros Hn Hb. unfold begin_ in Hb.
  apply bind_ok in Hb as (? & w1 & (_ & fs1 & ->)%query_ok & Hb).
  apply bind_ok in Hb as (? & w2 & (_ & fs2 & ->)%query_ok & Hb).
  apply start_transaction_ok in Hb as [fs ->]; [|done]. by exists fs.
Qed.

Lemma query_err {A} (q : Database → A) w e w' :
  query q w = (inl e, w') → (∃ c, e = SqlError c) ∧ ∃ fs, w' = with_faults fs w.
Proof.
  intros (fs & [[? _]|(c & -> & [->|(a & [= _ <-])])])%remote_err; [done|eauto..].
Qed.

Lemma begin_err w e w' :
  begin_ w = (inl e, w') → (∃ c, e = SqlError c) ∧ w_db w' = w_db w.
Proof.
  unfold begin_, set_session. intros Hb.
  apply bind_err in Hb as [[? [fs ->]]%query_err|(u1 & w1 & (_ & fs1 & ->)%query_ok & Hb)]; [done|].
  apply bind_err in Hb as [[? [fs ->]]%query_err|(u2 & w2 & (_ & fs2 & ->)%query_ok & Hb)]; [done|].
  apply start_transaction_err in Hb as [-> ?]. done.
Qed.

Lemma rollback_ok w b w' : rollback w = (inr b, w') → w_db w' = w_db w.
Proof. intros Hr. pose proof (rollback_db w) as Hd. by rewrite Hr in Hd. Qed.

Lemma rollback_err w e w' : rollback w = (inl e, w') → False.
Proof. unfold rollback. by destruct (remote _ _ w) as [[] ?]. Qed.

Lemma rollback_then_db {A} (f : bool → M A) w :
  (∀ b w', w_db (f b w').2 = w_db w') → w_db ((rollback ≫= f) w).2 = w_db w.
Proof.
  intros Hf. unfold mbind, M_bind. destruct (rollback w) as [[e|b] w1] eqn:E; cbn.
  - by apply rollback_err in E.
  - rewrite Hf. by apply rollback_ok in E.
Qed.

Lemma settle_db p w : w_db (settle p w).2 = w_db w.
Proof. destruct p; [apply rollback_then_db..|done]; by intros []. Qed.

Lemma settle_ok p w s w' :
  settle p w = (inr s, w') →
  match s with
  | Return_ (Some r) => p = Replay r
  | Return_ None => p = PoolEmpty
  | Commit_ r => p = Registered r ∧ w' = w
  end.
Proof.
  destruct p; cbn [settle]; intros Hs.
  - apply bind_ok in Hs as ([] & w1 & _ & Hs); run_ok Hs. done.
  - apply bind_ok in Hs as ([] & w1 & _ & Hs); run_ok Hs. done.
  - by run_ok Hs.
Qed.

(** The try block, as the transaction that runs it sees it. *)
Lemma attempt_spec input w d r w' :
  w_txn w = Some d → (p ← reserve input; settle p) w = (r, w') →
  w_db w' = w_db w ∧
  match r with
  | inl _ => True
  | inr (Return_ (Some r)) => answered input d r
  | inr (Return_ None) => pool_empty input d
  | inr (Commit_ r) => ∃ d', w_txn w' = Some d' ∧ registers input d r d'
  end.
Proof.
  intros Ht Hr. destruct r as [e|s].
  - apply bind_err in Hr as [Hr|(p & w1 & Hp & Hr)].
    + by destruct (in_tx_run _ _ _ _ _ Ht Hr) as [-> _].
    + destruct (in_tx_run _ _ _ _ _ Ht Hp) as [<- _].
      split; [|done]. pose proof (settle_db p w1) as Hd. by rewrite Hr in Hd.
  - apply bind_ok in Hr as (p & w1 & Hp & Hr).
    destruct (in_tx_run _ _ _ _ _ Ht Hp) as [<- _].
    apply (reserve_ok _ _ d) in Hp; [|done].
    pose proof (settle_db p w1) as Hd. rewrite Hr in Hd. split; [done|].
    apply settle_ok in Hr. destruct s as [[r|]|r]; [by subst..|].
    destruct Hr as [-> ->]. done.
Qed.

Lemma commit_cases w d c w' :
  w_txn w = Some d → catch commit w = (c, w') →
  match c with
  | inr (inr _) => w_db w' = d
  | inr (inl e) => (∃ c, e = SqlError c) ∧ (w_db w' = w_db w ∨ w_db w' = d)
  | inl _ => False
  end.
Proof.
  intros Ht Hc. destruct c as [e|[e|u]].
  - apply catch_err in Hc as [Hc _]. by destruct (commit_err _ _ _ _ Ht Hc) as [[? ?] _].
  - apply catch_ok in Hc. destruct (commit_err _ _ _ _ Ht Hc) as [? [?|[? _]]]; eauto.
  - apply catch_ok in Hc. by destruct (commit_ok _ _ _ _ Ht Hc) as [fs ->].
Qed.

Definition pass_post (input : RegistrationInput) (d d' : Database)
    (r : exn + pass (option RegistrationResult)) : Prop :=
  match r with
  | inl _ => d' = d
  | inr (Returned None) =>
      d' = d ∧ pool_empty input d
  | inr (Returned (Some r)) => d' = d ∧ answered input d r ∨ registers input d r d'
  | inr (Failed _ false _) => d' = d
  | inr (Failed e true _) =>
      (∃ c, e = SqlError c) ∧ (d' = d ∨ ∃ r, registers input d r d')
  end.

Lemma once_pass_spec input w r w' :
  once_pass input w = (r, w') → pass_post input (w_db w) (w_db w') r.
Proof.
  intros (w1 & E & ->)%with_connection_run. rename r into r1. change (w_db (with_txn (w_txn w) w1)) with (w_db w1).
  change (w_db w) with (w_db (with_txn None w)).
  assert (Hn : w_txn (with_txn None w) = None) by done.
  generalize dependent (with_txn None w). clear w. intros w E Hn.
  destruct r1 as [e|q].
  - apply bind_err in E as [E|(u & w2 & (fs & [= <- <-])%remote_ok & E)].
    { by apply remote_err in E as (fs & [[? _]|(c & -> & [->|(a & [= _ <-])])]). }
    apply bind_err in E as [[_ E]%begin_err|(u2 & w3 & [fs3 ->]%begin_ok & E)]; [done| |done].
    unfold try_register in E.
    apply bind_err in E as [[E _]%catch_err|(r & w4 & E1%catch_ok & E)].
    { by apply (attempt_spec _ _ (w_db w)) in E as [? _]. }
    apply (attempt_spec _ _ (w_db w)) in E1 as [Hd Hr]; [|done]. cbn in Hd.
    destruct r as [e1|[v|res]]; [|done|].
    + apply bind_err in E as [E|(b & w5 & _ & E)]; [by apply rollback_err in E|done].
    + destruct Hr as (d' & Htx & Hreg).
      apply bind_err in E as [E|(c & w5 & _ & E)].
      { by apply (commit_cases _ d') in E. }
      destruct c as [c|c]; [|done].
      apply bind_err in E as [E|(b & w6 & _ & E)]; [by apply rollback_err in E|done].
  - apply bind_ok in E as (u & w2 & (fs & [= <- <-])%remote_ok & E).
    apply bind_ok in E as (u2 & w3 & [fs3 ->]%begin_ok & E); [|done].
    unfold try_register in E.
    apply bind_ok in E as (r & w4 & E1%catch_ok & E).
    apply (attempt_spec _ _ (w_db w)) in E1 as [Hd Hr]; [|done]. cbn in Hd.
    destruct r as [e1|[v|res]].
    + apply bind_ok in E as (b & w5 & Hrb%rollback_ok & E). apply ret_ok in E as [<- <-].
      cbn. congruence.
    + apply ret_ok in E as [<- <-]. destruct v as [r|]; cbn; [by left|done].
    + destruct Hr as (d' & Htx & Hreg). apply bind_ok in E as (c & w5 & Hc & E).
      apply (commit_cases _ d') in Hc; [|done]. destruct c as [e1|u3].
      * apply bind_ok in E as (b & w6 & Hrb%rollback_ok & E). apply ret_ok in E as [<- <-].
        cbn. rewrite Hrb. destruct Hc as [? [-> | ->]]; split; eauto.
      * apply ret_ok in E as [<- <-]. cbn. right. by rewrite Hc.
Qed.

(** ** Every call ends *)

#[export] Instance EndsE_digest salt data : EndsE (digest salt data).
Proof. unfold digest. destruct (evp_sha256 _); apply _. Qed.
#[export] Instance EndsE_as_string f : EndsE (as_string f).
Proof. destruct f; apply _. Qed.
#[export] Instance EndsE_number f s : EndsE (number f s).
Proof. unfold number. apply _. Qed.
#[export] Instance EndsE_verify input row : EndsE (verify input row).
Proof. unfold verify, ethrow, reg_error. apply _. Qed.
#[export] Instance Ends_insert_user u a : Ends (insert_user u a).
Proof.
  unfold insert_user. apply Ends_bind; [apply _|]. intros t. apply Ends_execute.
  intros d. unfold insert_user_row. by destruct (_ || _).
Qed.
#[export] Instance Ends_save_result id uid acc : Ends (execute (save_result id uid acc)).
Proof.
  apply Ends_execute. intros d. unfold save_result.
  destruct (_ !! id); [|done]. by case_bool_decide.
Qed.
#[export] Instance Ends_allocate input free : Ends (allocate input free).
Proof. unfold allocate, reg_error. apply _. Qed.
#[export] Instance Ends_reserve input : Ends (reserve input).
Proof. unfold reserve, reg_error. apply _. Qed.
#[export] Instance Ends_settle p : Ends (settle p).
Proof. unfold settle, reg_error. apply _. Qed.
#[export] Instance Ends_begin : Ends begin_.
Proof. unfold begin_. apply _. Qed.
#[export] Instance Ends_lookup input : Ends (lookup_ input).
Proof. unfold lookup_. apply _. Qed.
#[export] Instance Ends_once_pass input : Ends (once_pass input).
Proof. unfold once_pass, try_register. apply _. Qed.

Lemma once_pass_failed input w e c rb w' :
  once_pass input w = (inr (Failed e c rb), w') → e ≠ OutOfFuel.
Proof.
  intros (fs & w1 & E & _)%with_connection_ok.
  apply bind_ok in E as (u & w2 & _ & E). apply bind_ok in E as (r & w3 & Hc & E).
  destruct r as [e1|[v|res]].
  - apply catch_not_fuel in Hc. by run_ok E; simplify_eq.
  - by run_ok E.
  - apply bind_ok in E as (r & w4 & Hc' & E). destruct r; [|by run_ok E].
    apply catch_not_fuel in Hc'. by run_ok E; simplify_eq.
Qed.

#[export] Instance Ends_once_from n attempt input : Ends (once_from n attempt input).
Proof.
  revert attempt. induction n as [|n IH]; intros attempt w; cbn [once_from]; [done|].
  pose proof (Ends_once_pass input w) as Hp. unfold mbind, M_bind.
  destruct (once_pass input w) as [[e|[v|e c rb]] w1] eqn:E; [by cbn in *; congruence|done|].
  apply once_pass_failed in E. clear Hp.
  destruct c; [|destruct (transient e && rb)].
  - apply Ends_bind; [apply _|]. intros [|[]]; apply _.
  - destruct (attempt <? 2); [|done]. apply Ends_bind; [apply Ends_ret|]. intros _. apply IH.
  - destruct (mysqlCode e 1062); [|cbn; congruence]. apply Ends_with_connection.
    apply Ends_bind; [apply _|]. intros []; apply _.
Qed.

(** ** The outcome of [once] *)

Lemma lookup_row_spec input w r w' :
  lookup_row input w = (r, w') → w_db w' = w_db w ∧
  match r with inr (Some r) => answered input (view w) r | _ => True end.
Proof.
  unfold lookup_row. unfold mbind at 1, M_bind. destruct (query _ w) as [[e|q] w1] eqn:Eq.
  { intros [= <- <-]. apply query_err in Eq as [_ [fs ->]]. done. }
  apply query_ok in Eq as (-> & fs & ->). unfold select_request.
  destruct (_ !! _) as [row|] eqn:Erow; cbn [fmap option_fmap option_map];
    [|by intros [= <- <-]].
  unfold mbind, M_bind, lift, mret, M_ret.
  destruct (verify input (request_columns row)) as [e|[]] eqn:Ev; [by intros [= <- <-]|].
  apply verify_ok in Ev. unfold nth_field.
  cbn [lookup list_lookup default request_columns from_option].
  destruct (rr_user_id row) as [uid|] eqn:E1; [|by intros [= <- <-]].
  destruct (rr_account row) as [acc|] eqn:E2; [|by intros [= <- <-]].
  intros [= <- <-]. split; [done|]. by exists row.
Qed.

Lemma lookup_spec input w r w' :
  lookup_ input w = (r, w') → w_db w' = w_db w ∧
  match r with inr (Some r) => answered input (w_db w) r | _ => True end.
Proof.
  intros (w1 & E & ->)%with_connection_run. cbn. destruct r as [e|o].
  - apply bind_err in E as [E|(u & w2 & (fs & [= <- <-])%remote_ok & E)].
    + apply remote_err in E as (fs & [[? _]|(c & -> & [->|(a & [= _ <-])])]); done.
    + by apply lookup_row_spec in E as [-> _].
  - apply bind_ok in E as (u & w2 & (fs & [= <- <-])%remote_ok & E).
    by apply lookup_row_spec in E as [-> ?].
Qed.

Lemma registers_answered input d r d' : registers input d r d' → answered input d' r.
Proof.
  intros (t & id & hash & Hr). destruct Hr as [Hdig Hp Hm Hph Ha Hf Hrg Hu ->].
  eexists. split; [apply lookup_insert_eq|]. cbn. rewrite <- Hu. done.
Qed.

Lemma answered_functional input d r r' : answered input d r → answered input d r' → r = r'.
Proof.
  intros (row & Hrow & Hu & Ha & _) (row' & Hrow' & Hu' & Ha' & _).
  destruct r, r'. cbn in *. congruence.
Qed.

Definition uncertain : exn :=
  reg_error "REGISTRATION_UNCERTAIN" "Retry the same request ID to confirm registration".

Definition once_post (input : RegistrationInput) (d d' : Database)
    (r : exn + option RegistrationResult) : Prop :=
  match r with
  | inl e => d' = d ∨ (e = uncertain ∧ ∃ r, registers input d r d')
  | inr None => d' = d ∧ pool_empty input d
  | inr (Some r) => d' = d ∧ answered input d r ∨ registers input d r d'
  end.

Lemma with_connection_query_db {A B} (q : Database → A) (f : A → M B) w :
  (∀ a w, w_db (f a w).2 = w_db w) →
  w_db (with_connection (a ← query q; f a) w).2 = w_db w.
Proof.
  intros Hf. apply (with_connection_inv _ (λ d, d = w_db w)); [done|]. intros fs.
  unfold mbind, M_bind. destruct (query q _) as [[e|a] w1] eqn:E.
  - by apply query_err in E as [_ [fs1 ->]].
  - apply query_ok in E as (_ & fs1 & ->). by rewrite Hf.
Qed.

Lemma once_from_spec n attempt input w r w' :
  once_from n attempt input w = (r, w') → once_post input (w_db w) (w_db w') r.
Proof.
  revert attempt w. induction n as [|n IH]; intros attempt w; cbn [once_from].
  { intros [= <- <-]. by left. }
  unfold mbind at 1, M_bind. destruct (once_pass input w) as [[e|[v|e c rb]] w1] eqn:E;
    apply once_pass_spec in E; cbn in E.
  - intros [= <- <-]. by left.
  - intros [= <- <-]. by destruct v.
  - destruct c; [|destruct (transient e && rb)].
    + destruct E as [_ E]. unfold mbind, M_bind.
      destruct (catch (lookup_ input) w1) as [[e2|q] w2] eqn:El.
      { apply catch_err in El as [El ->]. exfalso.
        pose proof (Ends_lookup input w1) as Hl. by rewrite El in Hl. }
      apply catch_ok, lookup_spec in El as [Hd2 El].
      destruct q as [e2|[r2|]]; intros [= <- <-]; cbn; rewrite Hd2.
      * destruct E as [E|E]; [by left|right; done].
      * destruct E as [E|[r3 E]]; [left; rewrite <- E; done|right].
        by rewrite <- (answered_functional _ _ _ _ (registers_answered _ _ _ _ E) El).
      * destruct E as [E|E]; [by left|right; done].
    + rewrite <- E. destruct (attempt <? 2); [|intros [= <- <-]; by left]. intros Hr.
      change (once_from n (attempt + 1) input w1 = (r, w')) in Hr. by apply IH in Hr.
    + rewrite <- E. destruct (mysqlCode e 1062); [|intros [= <- <-]; by left].
      intros Hr. match type of Hr with ?m _ = _ => assert (Hd : w_db (m w1).2 = w_db w1) end.
      { apply with_connection_query_db. by intros []. }
      rewrite Hr in Hd. cbn in Hd. destruct r as [e1|o]; [by left|].
      apply with_connection_ok in Hr as (fs & w2 & Hr & _). by run_ok Hr.
Qed.
End proofs.

(** * Runs without failures *)

Section progress.
Context `{Digest} `{Shuffle}.

Lemma save_result_fresh id uid acc row d :
  t_registration_requests d !! id = Some row →
  rr_user_id row = None ∨ rr_account row = None →
  (∀ id' r', t_registration_requests d !! id' = Some r' →
     rr_user_id r' ≠ Some uid ∧ rr_account r' ≠ Some acc) →
  save_result id uid acc d = inr (1, set_registration_requests
    <[id := mkRegistrationRow (rr_payload_salt row) (rr_payload_hash row)
              (Some uid) (Some acc)]> d).
Proof.
  intros Hrow Hp Hfresh. unfold save_result. rewrite Hrow.
  rewrite bool_decide_eq_false_2.
  - rewrite bool_decide_eq_false_2; [done|]. intros [? ?]. destruct Hp; congruence.
  - intros (id' & r' & Hr' & _ & Hor). destruct (Hfresh _ _ Hr'), Hor; done.
Qed.

(** The transaction of a fresh request with an unused phone number takes the
    first free account. *)
Lemma allocate_run input w d id acc row :
  w_faults w = [] → w_txn w = Some d →
  t_account_pool d !! id = Some (mkPoolRow acc 0) → id ≠ 0 → t_users_next d ≠ 0 →
  kMinAccount <= acc <= kMaxAccount →
  account_used acc d = false → phone_used (phone (in_user input)) d = false →
  t_registration_requests d !! request_id input = Some row →
  rr_user_id row = None ∨ rr_account row = None →
  (∀ id' r', t_registration_requests d !! id' = Some r' →
     rr_user_id r' ≠ Some (t_users_next d) ∧ rr_account r' ≠ Some acc) →
  ∃ w', allocate input (id, mkPoolRow acc 0) w =
          (inr (Registered (mkResult (t_users_next d) acc)), w') ∧
    w_faults w' = [] ∧ w_db w' = w_db w ∧ is_Some (w_txn w').
Proof.
  intros Hf Ht Hrow Hid Hnx Hr Hau Hph Hreq Hpend Hfresh.
  unfold allocate, insert_user. cbn [fst snd p_account].
  do 2 (erewrite bind_run by (cbn; reflexivity)).
  assert (Hguard : (id =? 0) || (acc <? kMinAccount) || (kMaxAccount <? acc) = false).
  { rewrite (proj2 (Z.eqb_neq _ _)), (proj2 (Z.ltb_ge _ _)), (proj2 (Z.ltb_ge _ _)) by lia. done. }
  rewrite Hguard. erewrite bind_run;
    [|erewrite bind_run by reflexivity; rewrite execute_run by done; rewrite (view_txn d) by done;
      unfold insert_user_row; rewrite Hau, Hph; reflexivity].
  rewrite (proj2 (Z.eqb_neq _ _)) by done.
  set (d1 := set_users_next _ _). assert (Ht1 : w_txn (put d1 w) = Some d1)
    by (rewrite txn_put, Ht; done).
  erewrite bind_run; [|rewrite update_run by (by rewrite faults_put);
    rewrite (view_txn d1), (take_pool_row_free _ _ (mkPoolRow acc 0)) by done; reflexivity].
  cbn [fst snd negb Z.eqb Pos.eqb]. rewrite put_put.
  set (d2 := set_account_pool _ d1).
  assert (Ht2 : w_txn (put d2 w) = Some d2) by (rewrite txn_put, Ht; done).
  erewrite bind_run; [|rewrite execute_run by (by rewrite faults_put); rewrite (view_txn d2) by done;
    rewrite (save_result_fresh _ _ _ row) by done; reflexivity].
  cbn [negb Z.eqb Pos.eqb]. rewrite put_put. eexists. split; [reflexivity|].
  rewrite faults_put, (db_put_txn _ _ _ Ht), txn_put, Ht. cbn. split; [done|]. split; [done|].
  by eexists.
Qed.

(** What a request that is not in the table needs to be served. *)
Record servable (input : RegistrationInput) (d : Database) : Prop := mkServable {
  sv_digest : ∃ hash, digest (password_salt (in_user input)) (in_payload input) = inr hash;
  sv_unknown : t_registration_requests d !! request_id input = None;
  sv_phone : phone_used (phone (in_user input)) d = false;
  sv_next : 0 < t_users_next d;
  sv_requests id r : t_registration_requests d !! id = Some r →
    rr_user_id r ≠ Some (t_users_next d);
}.

(** A free pool row that can be given out. *)
Record allocatable (d : Database) (id acc : Z) : Prop := mkAllocatable {
  al_row : select_free d = Some (id, mkPoolRow acc 0);
  al_id : 0 < id;
  al_range : kMinAccount <= acc <= kMaxAccount;
  al_unused : account_used acc d = false;
  al_requests i r : t_registration_requests d !! i = Some r → rr_account r ≠ Some acc;
}.

Lemma reserve_run input w d :
  w_faults w = [] → w_txn w = Some d → servable input d →
  (∀ id acc, allocatable d id acc →
    ∃ w', reserve input w = (inr (Registered (mkResult (t_users_next d) acc)), w') ∧
      w_faults w' = [] ∧ w_db w' = w_db w ∧ is_Some (w_txn w')) ∧
  (select_free d = None →
    ∃ w', reserve input w = (inr PoolEmpty, w') ∧ w_faults w' = [] ∧ w_db w' = w_db w).
Proof.
  intros Hf Ht [[hash Hdig] Hun Hph Hnx Hreq].
  set (base := mkRegistrationRow (password_salt (in_user input)) hash None None).
  set (d1 := set_registration_requests <[request_id input := base]> d).
  assert (Hins : insert_request (request_id input) (password_salt (in_user input)) hash d = (tt, d1))
    by (unfold insert_request; by rewrite Hun).
  assert (Ht1 : w_txn (put d1 w) = Some d1) by (rewrite txn_put, Ht; done).
  assert (Hf1 : w_faults (put d1 w) = []) by by rewrite faults_put.
  assert (Hsel : select_request (request_id input) d1 = Some (request_columns base)).
  { unfold select_request. change (t_registration_requests d1) with
      (<[request_id input := base]> (t_registration_requests d)). by rewrite lookup_insert_eq. }
  assert (Hstep : reserve input w =
    (f ← query select_free;
     match f with None => mret PoolEmpty | Some free => allocate input free end) (put d1 w)).
  { unfold reserve. erewrite bind_run by (unfold lift; rewrite Hdig; reflexivity).
    erewrite bind_run by (rewrite update_run by done; rewrite (view_txn d), Hins by done; reflexivity).
    cbn [fst snd]. erewrite bind_run by (rewrite query_run, (view_txn d1), Hsel by done; reflexivity).
    cbn beta iota. erewrite bind_run by (unfold lift; rewrite (proj2 (verify_ok input base)) by done; reflexivity).
    change (complete (request_columns base)) with false. cbn iota.
    erewrite (bind_run (query (phone_used _)))
      by (rewrite query_run, (view_txn d1) by done; reflexivity).
    change (phone_used (phone (in_user input)) d1) with (phone_used (phone (in_user input)) d).
    by rewrite Hph. }
  rewrite Hstep. erewrite bind_run by (rewrite query_run, (view_txn d1) by done; reflexivity).
  change (select_free d1) with (select_free d).
  split.
  - intros id acc [Hrow Hid Hrange Hau Hacc]. rewrite Hrow.
    apply select_free_Some in Hrow as [Hrow _].
    destruct (allocate_run input (put d1 w) d1 id acc base) as (w' & Hal & Hf' & Hdb & Htx);
      try done; try lia.
    { change (t_users_next d1) with (t_users_next d). lia. }
    { unfold d1. change (t_registration_requests (set_registration_requests ?f d))
        with (f (t_registration_requests d)). apply lookup_insert_eq. }
    { by left. }
    { intros id' r' Hr'. change (t_registration_requests d1) with
        (<[request_id input := base]> (t_registration_requests d)) in Hr'.
      apply lookup_insert_Some in Hr' as [[<- <-]|[_ Hr']]; [done|]. eauto. }
    exists w'. rewrite Hal. split; [done|]. split; [done|]. split; [|done].
    by rewrite Hdb, (db_put_txn _ _ _ Ht).
  - intros ->. eexists. split; [reflexivity|]. by rewrite (db_put_txn _ _ _ Ht).
Qed.

Lemma begin_run w :
  w_faults w = [] → begin_ w = (inr tt, with_txn (Some (view w)) w).
Proof.
  intros Hf. unfold begin_, set_session.
  do 2 (erewrite bind_run by (rewrite query_run by done; reflexivity)).
  by rewrite start_run.
Qed.

Lemma once_return input w r w' :
  w_faults w = [] → try_register input (with_txn (Some (w_db w)) w) = (inr (Returned r), w') →
  once input w = (inr r, with_txn (w_txn w) w').
Proof.
  intros Hf Hr. unfold once. cbn [once_from].
  rewrite (bind_run _ _ _ (Returned r) (with_txn (w_txn w) w')); [reflexivity|].
  unfold once_pass. apply with_connection_nofault; [done|].
  erewrite bind_run by (by rewrite begin_run). exact Hr.
Qed.

Lemma once_run input w :
  w_faults w = [] → servable input (w_db w) →
  (∀ id acc, allocatable (w_db w) id acc →
    ∃ w', once input w = (inr (Some (mkResult (t_users_next (w_db w)) acc)), w')) ∧
  (select_free (w_db w) = None →
    ∃ w', once input w = (inr None, w') ∧ w_faults w' = [] ∧ w_db w' = w_db w).
Proof.
  intros Hf Hs. set (w0 := with_txn (Some (w_db w)) w).
  destruct (reserve_run input w0 (w_db w)) as [Halloc Hempty]; [done..|].
  split.
  - intros id acc Hal. destruct (Halloc id acc Hal) as (w1 & Hres & Hf1 & Hdb & [d1 Ht1]).
    eexists. apply once_return; [done|]. unfold try_register. erewrite bind_run
      by (apply catch_run; erewrite bind_run by exact Hres; reflexivity).
    cbn beta iota. erewrite bind_run by (apply catch_run, commit_run; done). reflexivity.
  - intros Hn. destruct (Hempty Hn) as (w1 & Hres & Hf1 & Hdb).
    eexists. split.
    + apply once_return; [done|]. unfold try_register. erewrite bind_run by (apply catch_run; erewrite bind_run by exact Hres;
        cbn [settle]; erewrite bind_run by (by rewrite rollback_run); reflexivity).
      reflexivity.
    + cbn. done.
Qed.
End progress.
