(* ===== verification/RegistrationRefill.v ===== *)
(** The refill of the account pool and the whole registration ([create]): the
    outcome of every call under every failure schedule, the invariant of the
    account tables, replay, atomicity and progress. *)
From S2P Require Import Prelude Table Snowflake Schema Effects Users Registration RegistrationProofs.

(** * Bulk insertion into the pool *)

Lemma insert_pool_rows_app l1 l2 d :
  insert_pool_rows (l1 ++ l2) d =
  match insert_pool_rows l1 d with
  | inl e => inl e
  | inr (_, d1) => insert_pool_rows l2 d1
  end.
Proof.
  revert d. induction l1 as [|a l1 IH]; intros d; [done|]. cbn.
  destruct (insert_pool_row a d); [done|]. apply IH.
Qed.

Lemma insert_pool_row_ok a d d' :
  insert_pool_row a d = inr d' →
  (∀ k r, t_account_pool d !! k = Some r → p_account r ≠ a) ∧
  d' = set_account_pool_next (λ n, n + 1)
         (set_account_pool <[t_account_pool_next d := mkPoolRow a 0]> d).
Proof.
  unfold insert_pool_row. destruct (select_one _ _) eqn:E; [done|]. intros [= <-].
  split; [|done]. rewrite select_one_None in E. intros k r Hk. specialize (E k r Hk). by bool_to_prop.
Qed.

(** [d'] is [d] with the accounts of [l] added to the pool as free rows. *)
Record pool_extended (l : list Z) (d d' : Database) : Prop := mkExtended {
  pe_users : t_users d' = t_users d;
  pe_users_next : t_users_next d' = t_users_next d;
  pe_requests : t_registration_requests d' = t_registration_requests d;
  pe_cursor : t_account_pool_cursor d' = t_account_pool_cursor d;
  pe_next : t_account_pool_next d' = t_account_pool_next d + Z.of_nat (length l);
  pe_rows k : t_account_pool d' !! k =
    if decide (t_account_pool_next d <= k < t_account_pool_next d + Z.of_nat (length l))
    then (λ a, mkPoolRow a 0) <$> l !! Z.to_nat (k - t_account_pool_next d)
    else t_account_pool d !! k;
}.

Lemma insert_pool_rows_ok l d d' :
  insert_pool_rows l d = inr (tt, d') → pool_extended l d d'.
Proof.
  revert d. induction l as [|a l IH]; intros d; cbn [insert_pool_rows].
  - intros [= <-]. split; try done; [cbn; lia|]. intros k. cbn. case_decide; [lia|done].
  - destruct (insert_pool_row a d) as [e|d1] eqn:E1; [done|]. intros Hl.
    apply insert_pool_row_ok in E1 as [_ ->]. apply IH in Hl.
    destruct Hl as [Hu Hun Hr Hc Hn Hrows].
    change (t_account_pool_next (set_account_pool_next _ _)) with (t_account_pool_next d + 1) in *.
    split; try done; [rewrite Hn; cbn [length]; lia|]. intros k. rewrite Hrows.
    change (t_account_pool (set_account_pool_next _ _))
      with (<[t_account_pool_next d := mkPoolRow a 0]> (t_account_pool d)).
    cbn [length]. destruct (decide (k = t_account_pool_next d)) as [->|Hne].
    + rewrite decide_False by lia. rewrite decide_True by lia.
      by rewrite lookup_insert_eq, Z.sub_diag.
    + rewrite lookup_insert_ne by done. destruct (decide (_ <= k < _)).
      * rewrite decide_True by lia.
        by replace (Z.to_nat (k - t_account_pool_next d))
          with (S (Z.to_nat (k - (t_account_pool_next d + 1)))) by lia.
      * rewrite decide_False by lia. done.
Qed.

Lemma insert_chunks_ok fuel l w d u w' :
  w_txn w = Some d → insert_chunks fuel l w = (inr u, w') →
  ∃ d', w_txn w' = Some d' ∧ insert_pool_rows l d = inr (tt, d').
Proof.
  revert l w d. induction fuel as [|fuel IH]; intros l w d Ht Hc.
  - destruct l; cbn [insert_chunks] in Hc; run_ok Hc. subst. eauto.
  - destruct l as [|a l]; cbn [insert_chunks] in Hc; [run_ok Hc; subst; eauto|].
    apply bind_ok in Hc as ([] & w1 & (d1 & fs & He & ->)%execute_ok & Hc).
    rewrite (view_txn d) in He by done.
    eapply (IH _ _ d1) in Hc as (d' & ? & Hd'); [|world_simpl; by rewrite Ht].
    exists d'. split; [done|]. rewrite <- (take_drop 1000 (a :: l)), insert_pool_rows_app.
    by rewrite He.
Qed.

#[export] Instance Ends_insert_rows l : Ends (execute (insert_pool_rows l)).
Proof.
  apply Ends_execute. induction l as [|a l IH]; intros d; [done|]. cbn.
  unfold insert_pool_row. by destruct (select_one _ _).
Qed.

(** One unit of fuel per account is more than one per chunk of 1000. *)
Lemma Ends_insert_chunks fuel l : (length l <= fuel)%nat → Ends (insert_chunks fuel l).
Proof.
  revert l. induction fuel as [|fuel IH]; intros l Hl.
  - destruct l; [apply _|cbn in Hl; lia].
  - destruct l as [|a l]; [apply _|]. cbn [insert_chunks]. apply Ends_bind; [apply _|].
    intros _. apply IH. rewrite length_drop. cbn in *. lia.
Qed.

#[export] Instance InTx_insert_chunks fuel l : InTx (insert_chunks fuel l).
Proof.
  revert l. induction fuel as [|fuel IH]; intros [|a l]; cbn [insert_chunks]; apply _.
Qed.

(** * Batches of accounts *)

Section batch.
Context `{Shuffle}.

Lemma batch_elements `{!ShuffleOk} start end_ x :
  x ∈ generate_shuffled_batch start end_ ↔ start <= x < end_.
Proof.
  unfold generate_shuffled_batch. destruct (end_ <=? start) eqn:E; bool_to_prop.
  - split; [by intros ?%elem_of_nil|lia].
  - rewrite shuffle_perm, elem_of_seqZ. lia.
Qed.

Lemma batch_NoDup `{!ShuffleOk} start end_ : NoDup (generate_shuffled_batch start end_).
Proof.
  unfold generate_shuffled_batch. destruct (_ <=? _); [constructor|].
  rewrite shuffle_perm. apply NoDup_seqZ.
Qed.

Lemma batch_length `{!ShuffleOk} start count :
  0 <= count → length (generate_shuffled_batch start (start + count)) = Z.to_nat count.
Proof.
  intros Hc. unfold generate_shuffled_batch. destruct (_ <=? _) eqn:E; bool_to_prop.
  - replace count with 0 by lia. done.
  - rewrite shuffle_perm, length_seqZ. lia.
Qed.
End batch.

(** * The greatest account in use *)

Lemma max_of_upper l x : x ∈ l → ∃ m, max_of l = Some m ∧ x <= m.
Proof.
  induction l as [|y l IH]; [by intros ?%elem_of_nil|].
  intros [->|Hin]%elem_of_cons; unfold max_of; cbn [foldr]; fold (max_of l).
  - destruct (max_of l) as [m|]; eexists; (split; [done|lia]).
  - destruct (IH Hin) as (m & -> & ?). eexists; (split; [done|lia]).
Qed.

Lemma greatest_account_upper d m :
  number (greatest_account d) "refill.greatest_max" = inr m →
  (∀ k r, t_users d !! k = Some r → u_account r <= m) ∧
  (∀ k r, t_account_pool d !! k = Some r → p_account r <= m).
Proof.
  unfold greatest_account. set (l := _ ++ _). intros Hm.
  assert (Hl : ∀ x, x ∈ l → x <= m).
  { intros x Hx. destruct (max_of_upper l x Hx) as (m' & Hm' & Hle).
    rewrite Hm' in Hm. injection Hm as <-. done. }
  split; intros k r Hk; apply Hl, elem_of_app; [left|right];
    apply list_elem_of_fmap; exists (k, r); by rewrite elem_of_rows.
Qed.

Section refill_proofs.
Context `{Digest} `{Shuffle}.

#[export] Instance InTx_refill_work b : InTx (refill_work b).
Proof. unfold refill_work. apply _. Qed.

Definition free_count (d : Database) : Z := count (λ _ r, p_status r =? 0) (t_account_pool d).

(** One refill from cursor [rf_start]: the next accounts become free rows of
    the pool and the cursor moves behind them. *)
Record refilled_from (batch : Z) (d d' : Database) (rf_start : Z) : Prop := mkRefilled {
  rf_cursor : t_account_pool_cursor d = Some rf_start;
  rf_low : free_count d < kLowWaterMark;
  rf_range : kMinAccount <= rf_start <= kMaxAccount;
  rf_users : ∀ k r, t_users d !! k = Some r → u_account r < rf_start;
  rf_pool : ∀ k r, t_account_pool d !! k = Some r → p_account r < rf_start;
  rf_extended : let end_ := rf_start + Z.min batch (kMaxAccount - rf_start + 1) in
    pool_extended (generate_shuffled_batch rf_start end_)
      (set_account_pool_cursor (λ _, Some end_) d) d';
}.

Definition refilled batch d d' : Prop := ∃ start, refilled_from batch d d' start.

Lemma refill_work_ok batch w d b w' :
  w_txn w = Some d → refill_work batch w = (inr b, w') →
  if b then ∃ d', w_txn w' = Some d' ∧ refilled batch d d'
  else kLowWaterMark <= free_count d.
Proof.
  intros Ht Hw. unfold refill_work in Hw.
  apply bind_ok in Hw as (c & w1 & (-> & fs & ->)%query_ok & Hw).
  rewrite (view_txn d w Ht) in Hw.
  destruct (t_account_pool_cursor d) as [next|] eqn:Ec; [|by apply throw_ok in Hw].
  apply bind_ok in Hw as (start & w1 & [[= <-] ->]%lift_ok & Hw).
  apply bind_ok in Hw as (n & w1 & (-> & fs1 & ->)%query_ok & Hw).
  rewrite (view_txn d) in Hw by done.
  apply bind_ok in Hw as (fc & w1 & [Hfc ->]%lift_ok & Hw). fold (free_count d) in Hfc.
  cbn in Hfc. destruct (0 <=? free_count d); [injection Hfc as <-|done].
  destruct (kLowWaterMark <=? free_count d) eqn:Elow; bool_to_prop; [by run_ok Hw; subst|].
  apply bind_ok in Hw as (m & w1 & (-> & fs2 & ->)%query_ok & Hw).
  rewrite (view_txn d) in Hw by done.
  apply bind_ok in Hw as (mx & w1 & [Hm ->]%lift_ok & Hw).
  apply greatest_account_upper in Hm as [Hu Hp].
  destruct (_ || _) eqn:E1; [by apply throw_ok in Hw|].
  destruct (kMaxAccount <? next) eqn:E2; [by apply throw_ok in Hw|]. bool_to_prop.
  set (end_ := next + _) in *.
  apply bind_ok in Hw as (x & w1 & (fs3 & _ & ->)%update_ok & Hw).
  rewrite (view_txn d) in Hw by done. cbn [snd] in Hw.
  set (d1 := set_account_pool_cursor _ d) in *.
  apply bind_ok in Hw as ([] & w2 & Hc & Hw).
  apply (insert_chunks_ok _ _ _ d1) in Hc as (d' & Ht' & Hins);
    [|world_simpl; by rewrite Ht].
  run_ok Hw. subst. exists d'. split; [done|].
  apply insert_pool_rows_ok in Hins.
  exists next. split; try done; try lia.
  - intros k r Hk. specialize (Hu k r Hk). lia.
  - intros k r Hk. specialize (Hp k r Hk). lia.
Qed.

(** ** Every refill ends *)

#[export] Instance Ends_refill_work b : Ends (refill_work b).
Proof.
  unfold refill_work, reg_error.
  pose proof (λ l, Ends_insert_chunks (length l) l (le_n _)) as Hc.
  repeat (apply Ends_bind; [apply _|intros ?]; try destruct_match; try apply _).
Qed.
#[export] Instance Ends_refill_settle b : Ends (refill_settle b).
Proof. unfold refill_settle, reg_error. apply _. Qed.
#[export] Instance Ends_refill_pass b : Ends (refill_pass b).
Proof. unfold refill_pass, try_refill. apply _. Qed.

(** ** The outcome of [refill] *)

Lemma refill_attempt_spec batch w d r w' :
  w_txn w = Some d → (b ← refill_work batch; refill_settle b) w = (r, w') →
  w_db w' = w_db w ∧
  match r with
  | inl _ => True
  | inr false => kLowWaterMark <= free_count d
  | inr true => ∃ d', w_txn w' = Some d' ∧ refilled batch d d'
  end.
Proof.
  intros Ht Hr. assert (Hsettle : ∀ b w, w_db (refill_settle b w).2 = w_db w).
  { intros [] w0; [done|]. apply rollback_then_db. by intros []. }
  destruct r as [e|s].
  - apply bind_err in Hr as [Hr|(b & w1 & Hb & Hr)].
    + by destruct (in_tx_run _ _ _ _ _ Ht Hr) as [-> _].
    + destruct (in_tx_run _ _ _ _ _ Ht Hb) as [<- _].
      split; [|done]. specialize (Hsettle b w1). by rewrite Hr in Hsettle.
  - apply bind_ok in Hr as (b & w1 & Hb & Hr).
    destruct (in_tx_run _ _ _ _ _ Ht Hb) as [<- _].
    apply (refill_work_ok _ _ d) in Hb; [|done].
    specialize (Hsettle b w1). rewrite Hr in Hsettle. split; [done|].
    destruct b; cbn [refill_settle] in Hr.
    + apply ret_ok in Hr as [<- <-]. done.
    + apply bind_ok in Hr as ([] & w2 & _ & Hr); run_ok Hr. by subst.
Qed.

Definition refill_pass_post (batch : Z) (d d' : Database) (r : exn + pass unit) : Prop :=
  match r with
  | inl _ | inr (Failed _ false _) => d' = d
  | inr (Returned _) => d' = d ∧ kLowWaterMark <= free_count d ∨ refilled batch d d'
  | inr (Failed _ true _) => d' = d ∨ refilled batch d d'
  end.

Lemma refill_pass_spec batch w r w' :
  refill_pass batch w = (r, w') → refill_pass_post batch (w_db w) (w_db w') r.
Proof.
  intros (w1 & E & ->)%with_connection_run. rename r into r1.
  change (w_db (with_txn (w_txn w) w1)) with (w_db w1).
  change (w_db w) with (w_db (with_txn None w)).
  assert (Hn : w_txn (with_txn None w) = None) by done.
  generalize dependent (with_txn None w). clear w. intros w E Hn.
  destruct r1 as [e|q].
  - apply bind_err in E as [E|(u & w2 & (fs & [= <- <-])%remote_ok & E)].
    { by apply remote_err in E as (fs & [[? _]|(c & -> & [->|(a & [= _ <-])])]). }
    apply bind_err in E as [[_ E]%begin_err|(u2 & w3 & [fs3 ->]%begin_ok & E)]; [done| |done].
    unfold try_refill in E.
    apply bind_err in E as [[E _]%catch_err|(r & w4 & E1%catch_ok & E)].
    { by apply (refill_attempt_spec _ _ (w_db w)) in E as [? _]. }
    apply (refill_attempt_spec _ _ (w_db w)) in E1 as [Hd Hr]; [|done]. cbn in Hd.
    destruct r as [e1|[]]; [| |done].
    + apply bind_err in E as [E|(b & w5 & _ & E)]; [by apply rollback_err in E|done].
    + destruct Hr as (d' & Htx & Hreg).
      apply bind_err in E as [E|(c & w5 & _ & E)].
      { by apply (commit_cases _ d') in E. }
      destruct c as [c|c]; [|done].
      apply bind_err in E as [E|(b & w6 & _ & E)]; [by apply rollback_err in E|done].
  - apply bind_ok in E as (u & w2 & (fs & [= <- <-])%remote_ok & E).
    apply bind_ok in E as (u2 & w3 & [fs3 ->]%begin_ok & E); [|done].
    unfold try_refill in E.
    apply bind_ok in E as (r & w4 & E1%catch_ok & E).
    apply (refill_attempt_spec _ _ (w_db w)) in E1 as [Hd Hr]; [|done]. cbn in Hd.
    destruct r as [e1|[]].
    + apply bind_ok in E as (b & w5 & Hrb%rollback_ok & E). apply ret_ok in E as [<- <-].
      cbn. congruence.
    + destruct Hr as (d' & Htx & Hreg). apply bind_ok in E as (c & w5 & Hc & E).
      apply (commit_cases _ d') in Hc; [|done]. destruct c as [e1|u3].
      * apply bind_ok in E as (b & w6 & Hrb%rollback_ok & E). apply ret_ok in E as [<- <-].
        cbn. rewrite Hrb. destruct Hc as [? [-> | ->]]; eauto.
      * apply ret_ok in E as [<- <-]. cbn. right. by rewrite Hc.
    + apply ret_ok in E as [<- <-]. by left.
Qed.

Definition refill_uncertain : exn :=
  reg_error "REFILL_UNCERTAIN"
    "Refill outcome unknown; retry registration with the same request ID".

Definition refill_post (batch : Z) (d d' : Database) (r : exn + unit) : Prop :=
  match r with
  | inl e => d' = d ∨ (e = refill_uncertain ∧ refilled batch d d')
  | inr _ => d' = d ∧ kLowWaterMark <= free_count d ∨ refilled batch d d'
  end.

Lemma refill_from_spec n attempt batch w r w' :
  attempt + Z.of_nat n = 3 → (0 < n)%nat →
  refill_from n attempt batch w = (r, w') → refill_post batch (w_db w) (w_db w') r.
Proof.
  revert attempt w. induction n as [|n IH]; intros attempt w Hn H0n; [lia|]. cbn [refill_from].
  unfold mbind at 1, M_bind. destruct (refill_pass batch w) as [[e|[v|e c rb]] w1] eqn:E;
    apply refill_pass_spec in E; cbn in E.
  - intros [= <- <-]. by left.
  - by intros [= <- <-].
  - destruct c; [|destruct (rb && transient e)].
    + intros [= <- <-]. destruct E; [by left|by right].
    + rewrite <- E. destruct (attempt <? 2) eqn:Ea; bool_to_prop; [|intros [= <- <-]; by left].
      intros Hr. change (refill_from n (attempt + 1) batch w1 = (r, w')) in Hr.
      apply IH in Hr; [done|lia..].
    + rewrite <- E. intros [= <- <-]. by left.
Qed.

Lemma refill_post_holds batch w r w' :
  refill batch w = (r, w') → refill_post batch (w_db w) (w_db w') r.
Proof.
  unfold refill. destruct (_ || _); [intros [= <- <-]; by left|].
  apply refill_from_spec; lia.
Qed.

Lemma refill_pass_failed b w e c rb w' :
  refill_pass b w = (inr (Failed e c rb), w') → e ≠ OutOfFuel.
Proof.
  intros (fs & w1 & E & _)%with_connection_ok.
  apply bind_ok in E as (u & w2 & _ & E). apply bind_ok in E as (r & w3 & Hc & E).
  destruct r as [e1|[]].
  - apply catch_not_fuel in Hc. by run_ok E; simplify_eq.
  - apply bind_ok in E as (r & w4 & Hc' & E). destruct r; [|by run_ok E].
    apply catch_not_fuel in Hc'. by run_ok E; simplify_eq.
  - by run_ok E.
Qed.

#[export] Instance Ends_refill_from n attempt b : Ends (refill_from n attempt b).
Proof.
  revert attempt. induction n as [|n IH]; intros attempt w; cbn [refill_from]; [done|].
  pose proof (Ends_refill_pass b w) as Hp. unfold mbind, M_bind.
  destruct (refill_pass b w) as [[e|[v|e c rb]] w1] eqn:E; [by cbn in *; congruence|done|].
  apply refill_pass_failed in E. clear Hp.
  destruct c; [done|]. destruct (rb && transient e); [|cbn; congruence].
  destruct (attempt <? 2); [|done]. apply Ends_bind; [apply Ends_ret|]. intros _. apply IH.
Qed.

#[export] Instance Ends_refill b : Ends (refill b).
Proof. unfold refill, reg_error. apply _. Qed.

(** ** The outcome of [create] *)

(** The database after the refill, if there was one: only an unanswered
    request that finds the pool empty refills it. *)
Definition maybe_refilled (input : RegistrationInput) (d d' : Database) : Prop :=
  d' = d ∨ pool_empty input d ∧ refilled kRefillBatch d d'.

Definition create_post (input : RegistrationInput) (d d' : Database)
    (r : exn + RegistrationResult) : Prop :=
  ∃ d1, maybe_refilled input d d1 ∧
    match r with
    | inr r => d' = d1 ∧ answered input d1 r ∨ registers input d1 r d'
    | inl e => d' = d1 ∨ (e = uncertain ∧ ∃ r, registers input d1 r d')
    end.

Lemma once_spec input w r w' :
  once input w = (r, w') → once_post input (w_db w) (w_db w') r.
Proof. apply once_from_spec. Qed.

Lemma create_post_holds input w r w' :
  create input w = (r, w') → create_post input (w_db w) (w_db w') r.
Proof.
  unfold create, create_post, maybe_refilled. unfold mbind at 1, M_bind.
  destruct (once input w) as [[e|[r1|]] w1] eqn:E; apply once_spec in E;
    unfold once_post in E.
  - intros [= <- <-]. exists (w_db w). split; [by left|exact E].
  - intros [= <- <-]. exists (w_db w). split; [by left|exact E].
  - destruct E as [Hd Hpe]. rewrite <- Hd in Hpe. unfold mbind, M_bind. rewrite <- Hd.
    destruct (refill kRefillBatch w1) as [[e|u] w2] eqn:E2; apply refill_post_holds in E2;
      unfold refill_post in E2.
    + intros [= <- <-]. exists (w_db w2). split; [|by left].
      destruct E2 as [?|[_ ?]]; [by left|right; done].
    + assert (Hm : w_db w2 = w_db w1 ∨ pool_empty input (w_db w1) ∧
          refilled kRefillBatch (w_db w1) (w_db w2))
        by (destruct E2 as [[? _]|?]; [by left|right; done]).
      clear E2. destruct (once input w2) as [[e|[r1|]] w3] eqn:E3; apply once_spec in E3;
        unfold once_post in E3; intros [= <- <-]; exists (w_db w2); (split; [done|]).
      * exact E3.
      * exact E3.
      * left. apply E3.
Qed.

#[export] Instance Ends_create input : Ends (create input).
Proof. unfold create, once, reg_error. apply _. Qed.
End refill_proofs.

(** * Refills without failures *)

Lemma max_of_in l m : max_of l = Some m → m ∈ l.
Proof.
  revert m. induction l as [|y l IH]; intros m; [done|].
  unfold max_of; cbn [foldr]; fold (max_of l). intros [= <-]. apply elem_of_cons.
  destruct (max_of l) as [z|]; [|by left].
  destruct (Z.max_spec y z) as [[_ ->]|[_ ->]]; [right; by apply IH|by left].
Qed.

Lemma greatest_account_value d start :
  (∃ k r, t_users d !! k = Some r) →
  (∀ k r, t_users d !! k = Some r → u_account r < start) →
  (∀ k r, t_account_pool d !! k = Some r → p_account r < start) →
  ∃ m, greatest_account d = FUint64 m ∧ m < start.
Proof.
  intros (k0 & r0 & H0) Hu Hp. unfold greatest_account. set (l := _ ++ _).
  assert (Hin : u_account r0 ∈ l).
  { apply elem_of_app. left. apply list_elem_of_fmap. exists (k0, r0). by rewrite elem_of_rows. }
  destruct (max_of_upper l _ Hin) as (m & Hm & _). rewrite Hm. exists m. split; [done|].
  apply max_of_in, elem_of_app in Hm. destruct Hm as [Hm|Hm];
    apply list_elem_of_fmap in Hm as ([k r] & -> & Hk); rewrite elem_of_rows in Hk; eauto.
Qed.

Lemma insert_pool_rows_total l d :
  NoDup l → (∀ k r, t_account_pool d !! k = Some r → p_account r ∉ l) →
  ∃ d', insert_pool_rows l d = inr (tt, d').
Proof.
  revert d. induction l as [|a l IH]; intros d Hnd Hp; [by eexists|]. cbn.
  apply NoDup_cons in Hnd as [Ha Hnd]. unfold insert_pool_row.
  destruct (select_one _ _) as [[k r]|] eqn:E.
  - apply select_one_Some in E as (Hk & Heq & _). bool_to_prop. destruct (Hp k r Hk).
    rewrite Heq. constructor.
  - apply IH; [done|]. intros k r Hk.
    change (<[t_account_pool_next d := mkPoolRow a 0]> (t_account_pool d) !! k = Some r) in Hk.
    apply lookup_insert_Some in Hk as [[_ <-]|[_ Hk]]; [done|].
    intros Hin. destruct (Hp k r Hk). by right.
Qed.

Lemma insert_chunks_run fuel l w d d' :
  w_faults w = [] → w_txn w = Some d → (length l <= fuel)%nat →
  insert_pool_rows l d = inr (tt, d') →
  ∃ w', insert_chunks fuel l w = (inr tt, w') ∧ w_faults w' = [] ∧ w_db w' = w_db w ∧
    is_Some (w_txn w').
Proof.
  revert l w d. induction fuel as [|fuel IH]; intros l w d Hf Ht Hl Hins.
  - destruct l; [|cbn in Hl; lia]. eexists. split; [reflexivity|]. rewrite Ht. by eauto.
  - destruct l as [|a l]; [eexists; split; [reflexivity|]; rewrite Ht; by eauto|].
    cbn [insert_chunks].
    rewrite <- (take_drop 1000 (a :: l)), insert_pool_rows_app in Hins.
    destruct (insert_pool_rows (take 1000 (a :: l)) d) as [e|[[] d1]] eqn:E1; [done|].
    destruct (IH (drop 1000 (a :: l)) (put d1 w) d1) as (w' & Hrun & Hf' & Hdb & Htx).
    + by rewrite faults_put.
    + by rewrite txn_put, Ht.
    + rewrite length_drop. cbn in *. lia.
    + done.
    + exists w'. rewrite (db_put_txn _ _ _ Ht) in Hdb. split; [|done].
      rewrite (bind_run _ _ _ tt (put d1 w)); [done|].
      rewrite execute_run, (view_txn d) by done. by rewrite E1.
Qed.

Section refill_progress.
Context `{Digest} `{Shuffle} `{!ShuffleOk}.
#[local] Set Default Proof Using "Type*".

(** The pool is low, and the cursor is in range and above every account. *)
Record refillable (d : Database) (start : Z) : Prop := mkRefillable {
  rb_cursor : t_account_pool_cursor d = Some start;
  rb_low : free_count d < kLowWaterMark;
  rb_range : kMinAccount <= start <= kMaxAccount;
  rb_some : ∃ k r, t_users d !! k = Some r;
  rb_users k r : t_users d !! k = Some r → u_account r < start;
  rb_pool k r : t_account_pool d !! k = Some r → p_account r < start;
}.

Lemma refill_work_run batch w d start :
  w_faults w = [] → w_txn w = Some d → refillable d start →
  ∃ w', refill_work batch w = (inr true, w') ∧ w_faults w' = [] ∧ w_db w' = w_db w ∧
    is_Some (w_txn w').
Proof.
  intros Hf Ht [Hc Hlow Hrange Hsome Hu Hp]. unfold refill_work.
  destruct (greatest_account_value d start Hsome Hu Hp) as (m & Hm & Hlt).
  rewrite (bind_run _ _ _ (Some start) w) by (by rewrite query_run, (view_txn d), Hc by done).
  cbn beta iota. rewrite (bind_run _ _ _ start w) by done.
  rewrite (bind_run _ _ _ (free_count d) w) by (by rewrite query_run, (view_txn d) by done).
  rewrite (bind_run _ _ _ (free_count d) w).
  2: { unfold lift, number. rewrite (proj2 (Z.leb_le _ _)) by apply count_nonneg. done. }
  rewrite (proj2 (Z.leb_gt _ _)) by done.
  rewrite (bind_run _ _ _ (FUint64 m) w) by (by rewrite query_run, (view_txn d), Hm by done).
  rewrite (bind_run _ _ _ m w) by done.
  rewrite (proj2 (Z.ltb_ge start _)), (proj2 (Z.leb_gt start m)), (proj2 (Z.ltb_ge _ start)) by lia.
  cbn [orb]. set (end_ := start + _).
  set (d1 := set_account_pool_cursor (λ _, Some end_) d).
  rewrite (bind_run _ _ _ tt (put d1 w)) by (by rewrite update_run, (view_txn d) by done).
  destruct (insert_pool_rows_total (generate_shuffled_batch start end_) d1) as [d' Hins].
  { apply batch_NoDup. }
  { intros k r Hk%Hp Hin%batch_elements. lia. }
  destruct (insert_chunks_run (length (generate_shuffled_batch start end_))
    (generate_shuffled_batch start end_) (put d1 w) d1 d') as (w' & Hrun & Hf' & Hdb & Htx);
    [by rewrite faults_put|by rewrite txn_put, Ht|done|done|].
  exists w'. rewrite (bind_run _ _ _ tt w') by done. rewrite (db_put_txn _ _ _ Ht) in Hdb. done.
Qed.

Lemma refill_run batch w start :
  w_faults w = [] → 0 < batch <= kRefillBatch → refillable (w_db w) start →
  ∃ w', refill batch w = (inr tt, w') ∧ w_faults w' = [].
Proof.
  intros Hf Hb Hr. unfold refill.
  rewrite (proj2 (Z.eqb_neq batch 0)), (proj2 (Z.ltb_ge _ batch)) by lia. cbn [orb].
  destruct (refill_work_run batch (with_txn (Some (w_db w)) w) (w_db w) start)
    as (w1 & Hw & Hf1 & Hdb & [d1 Ht1]); [done..|].
  set (w2 := with_txn None (with_db (view w1) w1)).
  exists (with_txn (w_txn w) w2). split; [|done]. cbn [refill_from].
  rewrite (bind_run _ _ _ (Returned tt) (with_txn (w_txn w) w2)); [done|].
  unfold refill_pass. apply with_connection_nofault; [done|].
  rewrite (bind_run _ _ _ tt (with_txn (Some (w_db w)) w)) by (by rewrite begin_run).
  unfold try_refill. rewrite (bind_run _ _ _ (inr true) w1)
    by (apply catch_run; by rewrite (bind_run _ _ _ true w1) by done).
  rewrite (bind_run _ _ _ (inr tt) w2) by (apply catch_run, commit_run; done). done.
Qed.
End refill_progress.
