(* ===== verification/RegistrationTheorems.v ===== *)
(** The properties of registration: invariant, atomicity, replay, termination,
    progress, and the exact effect of a refill. *)
From S2P Require Import Prelude Table Snowflake Schema Effects Users Registration RegistrationProofs RegistrationRefill.

(** * The invariant of the account tables *)

Record auth_inv (d : Database) : Prop := mkAuthInv {
  ai_users_next : 0 < t_users_next d;
  ai_users k r : t_users d !! k = Some r → 0 < k < t_users_next d;
  ai_accounts k k' r r' : t_users d !! k = Some r → t_users d !! k' = Some r' →
    u_account r = u_account r' → k = k';
  ai_phones k k' r r' : t_users d !! k = Some r → t_users d !! k' = Some r' →
    u_phone r = u_phone r' → k = k';
  ai_pool_next : 0 < t_account_pool_next d;
  ai_pool k r : t_account_pool d !! k = Some r → 0 < k < t_account_pool_next d;
  ai_pool_unique k k' r r' : t_account_pool d !! k = Some r → t_account_pool d !! k' = Some r' →
    p_account r = p_account r' → k = k';
  (** a free account belongs to nobody *)
  ai_free k r j u : t_account_pool d !! k = Some r → p_status r = 0 →
    t_users d !! j = Some u → u_account u ≠ p_account r;
  (** a committed request is complete and names an existing user *)
  ai_requests id row : t_registration_requests d !! id = Some row →
    ∃ uid u, rr_user_id row = Some uid ∧ t_users d !! uid = Some u ∧
      rr_account row = Some (u_account u);
  ai_one_request id id' row row' : t_registration_requests d !! id = Some row →
    t_registration_requests d !! id' = Some row' → rr_user_id row = rr_user_id row' → id = id';
}.

Lemma lookup_insert_cases {K A} `{Countable K} (m : gmap K A) i j x y :
  <[i := x]> m !! j = Some y → (j = i ∧ y = x) ∨ (j ≠ i ∧ m !! j = Some y).
Proof. intros [[-> ->]|[? ?]]%lookup_insert_Some; auto. Qed.

Section theorems.
Context `{Digest} `{Shuffle}.

Lemma registered_at_tables input t hash id acc uid d :
  let d' := registered_at input t hash id acc uid d in
  t_users d' = <[uid := new_user t (in_user input) acc]> (t_users d) ∧
  t_users_next d' = t_users_next d ∧
  t_account_pool d' = <[id := mkPoolRow acc 1]> (t_account_pool d) ∧
  t_account_pool_next d' = t_account_pool_next d ∧
  t_account_pool_cursor d' = t_account_pool_cursor d ∧
  t_registration_requests d' =
    <[request_id input := mkRegistrationRow (rr_payload_salt (request_base input hash d))
         (rr_payload_hash (request_base input hash d)) (Some uid) (Some acc)]>
      (t_registration_requests d).
Proof. done. Qed.

(** A registration whose user number is free. *)
Lemma registered_at_inv input t hash id acc uid d :
  auth_inv d → 0 < uid < t_users_next d → t_users d !! uid = None →
  phone_used (phone (in_user input)) d = false → account_used acc d = false →
  t_account_pool d !! id = Some (mkPoolRow acc 0) → auth_inv (registered_at input t hash id acc uid d).
Proof.
  intros Hinv Hlt Hnew Hph Hac Hrow.
  rewrite phone_used_false in Hph. rewrite account_used_false in Hac.
  destruct (registered_at_tables input t hash id acc uid d) as (Eu & En & Ep & Epn & Ec & Er).
  set (d' := registered_at _ _ _ _ _ _ _) in *. clearbody d'.
  destruct Hinv as [I1 I2 I3 I4 I5 I6 I7 I8 I9 I10].
  split; rewrite ?Eu, ?En, ?Ep, ?Epn, ?Er.
  - done.
  - intros k u [[-> ->]|[? Hk]]%lookup_insert_cases; [lia|]. by eapply I2.
  - intros k k' u u' [[-> ->]|[? Hk]]%lookup_insert_cases
      [[-> ->]|[? Hk']]%lookup_insert_cases Heq; cbn in *; [done|by destruct (Hac k' u')|
      by destruct (Hac k u)|eauto].
  - intros k k' u u' [[-> ->]|[? Hk]]%lookup_insert_cases
      [[-> ->]|[? Hk']]%lookup_insert_cases Heq; cbn in *; [done|by destruct (Hph k' u')|
      by destruct (Hph k u)|eauto].
  - done.
  - intros k p [[-> ->]|[? Hk]]%lookup_insert_cases; eauto.
  - intros k k' p p' [[-> ->]|[? Hk]]%lookup_insert_cases
      [[-> ->]|[? Hk']]%lookup_insert_cases Heq; cbn in *; [done|..].
    + by apply (I7 id k' (mkPoolRow acc 0) p').
    + by apply (I7 k id p (mkPoolRow acc 0)).
    + eauto.
  - intros k p j u [[-> ->]|[? Hk]]%lookup_insert_cases Hst; [done|].
    intros [[-> ->]|[? Hj]]%lookup_insert_cases Heq; cbn in Heq; [|by eapply I8].
    destruct (I7 id k (mkPoolRow acc 0) p); done.
  - intros i row [[-> ->]|[? Hi]]%lookup_insert_cases; cbn.
    + eexists _, _. split; [done|]. by rewrite lookup_insert_eq.
    + destruct (I9 _ _ Hi) as (uid' & u & ? & Hu & ?). exists uid', u.
      rewrite lookup_insert_ne; [done|]. congruence.
  - assert (Hfresh : ∀ i row, t_registration_requests d !! i = Some row →
      rr_user_id row ≠ Some uid).
    { intros i row (uid' & u & -> & Hu & _)%I9 [= ->]. congruence. }
    intros i i' row row' [[-> ->]|[? Hi]]%lookup_insert_cases
      [[-> ->]|[? Hi']]%lookup_insert_cases Heq; cbn in *; [done|..].
    + by destruct (Hfresh i' row').
    + by destruct (Hfresh i row).
    + eauto.
Qed.

(** Drawing a user number. *)
Lemma drawn_inv d : auth_inv d → auth_inv (set_users_next (λ n, n + 1) d).
Proof.
  intros [I1 I2 I3 I4 I5 I6 I7 I8 I9 I10].
  split; try done; change (t_users_next (set_users_next _ d)) with (t_users_next d + 1); [lia|].
  intros k r Hk%I2. lia.
Qed.

Lemma registers_inv input d r d' : auth_inv d → registers input d r d' → auth_inv d'.
Proof.
  intros Hinv (t & id & hash & Hr). destruct Hr as [_ Hpend _ Hph Hac Hfree Hrange Huid ->].
  apply select_free_Some in Hfree as [Hrow _]. rewrite registered_db_at.
  apply registered_at_inv; [by apply drawn_inv| | |done..].
  - change (t_users_next (set_users_next _ d)) with (t_users_next d + 1). destruct Hinv. lia.
  - change (t_users d !! t_users_next d = None). destruct (t_users d !! _) eqn:E; [|done].
    apply (ai_users _ Hinv) in E. lia.
Qed.

(** A row of the extended pool is an old one, or one of the new accounts. *)
Lemma extended_row l d d' k r :
  pool_extended l d d' → t_account_pool d' !! k = Some r →
  (t_account_pool d !! k = Some r ∧ ¬ (t_account_pool_next d <= k < t_account_pool_next d')) ∨
  (t_account_pool_next d <= k < t_account_pool_next d' ∧ p_status r = 0 ∧
     l !! Z.to_nat (k - t_account_pool_next d) = Some (p_account r)).
Proof.
  intros [_ _ _ _ Hn Hrows]. rewrite Hrows, Hn. case_decide; [|by left].
  intros Hr. right. split; [done|]. destruct (l !! _); [|done].
  injection Hr as <-. done.
Qed.

Lemma extended_inv l d d' start :
  auth_inv d → pool_extended l d d' → NoDup l → (∀ a, a ∈ l → start <= a) →
  (∀ k r, t_users d !! k = Some r → u_account r < start) →
  (∀ k r, t_account_pool d !! k = Some r → p_account r < start) → auth_inv d'.
Proof.
  intros Hinv He Hnd Hl Hu Hp. pose proof He as [Eu Eun Er Ec En _].
  pose proof (λ k r, extended_row l d d' k r He) as Hrow.
  destruct Hinv as [I1 I2 I3 I4 I5 I6 I7 I8 I9 I10].
  assert (Hge : ∀ i a, l !! i = Some a → start <= a)
    by (intros i a Hi; eapply Hl, list_elem_of_lookup_2, Hi).
  split; rewrite ?Eu, ?Eun, ?Er; try done.
  - lia.
  - intros k r [[Hk _]|[? _]]%Hrow; [apply I6 in Hk; lia|lia].
  - intros k k' r r' [[Hk ?]|(? & ? & Hk)]%Hrow [[Hk' ?]|(? & ? & Hk')]%Hrow Heq.
    + eauto.
    + apply Hp in Hk. apply Hge in Hk'. lia.
    + apply Hp in Hk'. apply Hge in Hk. lia.
    + rewrite Heq in Hk. pose proof (NoDup_lookup _ _ _ _ Hnd Hk Hk'). lia.
  - intros k r j u [[Hk _]|(_ & _ & Hk)]%Hrow Hst Hj; [by eapply I8|].
    apply Hu in Hj. apply Hge in Hk. lia.
Qed.

Lemma refilled_inv `{!ShuffleOk} batch d d' : auth_inv d → refilled batch d d' → auth_inv d'.
Proof.
  intros Hinv (start & [Hc Hlow Hr Hu Hp Hext]).
  eapply (extended_inv _ _ _ start); [|exact Hext|apply batch_NoDup| |exact Hu|exact Hp].
  - destruct Hinv as [I1 I2 I3 I4 I5 I6 I7 I8 I9 I10]. by split.
  - intros a Ha%batch_elements. lia.
Qed.

Lemma create_post_inv `{!ShuffleOk} input d d' r :
  auth_inv d → create_post input d d' r → auth_inv d'.
Proof.
  intros Hinv (d1 & Hm & Hr).
  assert (Hinv1 : auth_inv d1).
  { destruct Hm as [->|[_ Hm]]; [done|]. by eapply refilled_inv. }
  destruct r as [e|r].
  - destruct Hr as [->|(_ & r & Hr)]; [done|]. by eapply registers_inv.
  - destruct Hr as [[-> _]|Hr]; [done|]. by eapply registers_inv.
Qed.

(** * The theorems *)

(** C9: registration keeps the account tables consistent under every failure
    schedule and outcome: accounts and phone numbers stay unique, a free account
    of the pool belongs to nobody, pool accounts stay unique, and every committed
    request row is complete and names an existing user with that account (a
    pending row never commits). *)
Theorem register_user_invariant `{!ShuffleOk} input w (Hinv : auth_inv (w_db w)) :
  auth_inv (w_db (register_user input w).2).
Proof.
  unfold register_user. destruct (create input w) as [r w'] eqn:E.
  eapply create_post_inv; [exact Hinv|by apply create_post_holds].
Qed.

(** C1: registration is atomic: whatever calls fail, the committed database
    afterwards is the old one, possibly with one refill of a pool that had no
    free account, followed by nothing or by exactly one complete registration
    (user, allocated account and request row together).  A returned result is
    the one stored with the request; an error other than
    REGISTRATION_UNCERTAIN means that no registration was committed; and every
    call returns. *)
Theorem register_user_atomic input w :
  create_post input (w_db w) (w_db (register_user input w).2) (register_user input w).1 ∧
  (register_user input w).1 ≠ inl OutOfFuel.
Proof.
  split; [|apply Ends_create]. unfold register_user.
  destruct (create input w) as [r w'] eqn:E. by apply create_post_holds.
Qed.

(** The statements of [reserve] on a row that already has a result. *)
Lemma reserve_stored_run input w d row hash :
  w_faults w = [] → w_txn w = Some d →
  digest (password_salt (in_user input)) (in_payload input) = inr hash →
  t_registration_requests d !! request_id input = Some row →
  reserve input w =
    (lift (verify input (request_columns row));;
     if complete (request_columns row) then
       uid ← lift (number (nth_field (request_columns row) 2) "once.replay.user_id");
       acc ← lift (number (nth_field (request_columns row) 3) "once.replay.account");
       mret (Replay (mkResult uid acc))
     else
       taken ← query (phone_used (phone (in_user input)));
       if (taken : bool)
       then throw (reg_error "PHONE_EXISTS" "Phone number is already registered")
       else
         f ← query select_free;
         match f with None => mret PoolEmpty | Some free => allocate input free end) w.
Proof.
  intros Hf Ht Hdig Hrow. unfold reserve.
  rewrite (bind_run _ _ _ hash w) by (unfold lift; by rewrite Hdig).
  assert (Hput : put d w = w).
  { unfold put. rewrite Ht. destruct w; cbn in *. by subst. }
  rewrite (bind_run _ _ _ tt w).
  2: { rewrite update_run, (view_txn d) by done. unfold insert_request. rewrite Hrow. cbn.
       by rewrite Hput. }
  rewrite (bind_run _ _ _ (Some (request_columns row)) w).
  2: { rewrite query_run, (view_txn d) by done. unfold select_request. by rewrite Hrow. }
  done.
Qed.

(** A stored request leaves the database alone, whatever happens. *)
Lemma stored_unchanged input w row :
  t_registration_requests (w_db w) !! request_id input = Some row →
  is_Some (rr_user_id row) → is_Some (rr_account row) →
  w_db (register_user input w).2 = w_db w ∧
  ∀ r, (register_user input w).1 = inr r → answered input (w_db w) r.
Proof.
  intros Hrow [uid Hu] [acc Ha]. unfold register_user.
  destruct (create input w) as [r w'] eqn:E. apply create_post_holds in E.
  destruct E as (d1 & Hm & Hr). cbn.
  assert (Hpend : ¬ pending input (w_db w)).
  { intros Hp. destruct (Hp row Hrow); congruence. }
  destruct Hm as [->|[(_ & _ & Hp) _]]; [|done].
  destruct r as [e|r].
  - destruct Hr as [->|(_ & r & Hr%registers_pending)]; done.
  - destruct Hr as [[-> Hans]|Hr%registers_pending]; [|done]. split; [done|].
    intros r' [= <-]. done.
Qed.

(** C15: registration is idempotent: once a request is stored with a result,
    repeating it with the same payload changes nothing, can only return that
    result (or fail without effect), and does return it when no call fails. *)
Theorem register_user_replay input w r hash
    (Hstored : answered input (w_db w) r)
    (Hdig : digest (password_salt (in_user input)) (in_payload input) = inr hash) :
  let '(res, w') := register_user input w in
  w_db w' = w_db w ∧ (∀ r', res = inr r' → r' = r) ∧ (w_faults w = [] → res = inr r).
Proof.
  destruct (register_user input w) as [res w'] eqn:E.
  pose proof Hstored as (row & Hrow & Hu & Ha & Hm).
  destruct (stored_unchanged input w row Hrow) as [Hdb Hres]; [by eexists..|].
  rewrite E in Hdb, Hres. split; [done|]. split.
  { intros r' Hr'. exact (answered_functional _ _ _ _ (Hres r' Hr') Hstored). }
  intros Hf. unfold register_user, create in E.
  rewrite (bind_run _ _ _ (Some r) (with_txn (w_txn w) (with_txn None w))) in E.
  { by injection E as <- _. }
  apply once_return; [done|]. unfold try_register.
  rewrite (bind_run _ _ _ (inr (Return_ (Some r))) (with_txn None w)); [done|].
  apply catch_run. rewrite (bind_run _ _ _ (Replay r) (with_txn (Some (w_db w)) w)).
  { cbn [settle]. by rewrite (bind_run _ _ _ true (with_txn None w)) by by rewrite rollback_run. }
  rewrite (reserve_stored_run _ _ (w_db w) row hash) by done.
  rewrite (bind_run _ _ _ tt (with_txn (Some (w_db w)) w))
    by (unfold lift; by rewrite (proj2 (verify_ok input row))).
  rewrite (proj2 (complete_columns row)) by (split; by eexists).
  cbn [nth_field request_columns]. unfold nth_field. cbn. rewrite Hu, Ha. by destruct r.
Qed.

(** C16: a request ID is bound to its first payload: when the stored digest is
    not that of the new payload, registration changes nothing and never returns
    a result; without failures the error is IDEMPOTENCY_CONFLICT. *)
Theorem register_user_conflict input w row hash actual
    (Hrow : t_registration_requests (w_db w) !! request_id input = Some row)
    (Huid : is_Some (rr_user_id row)) (Hacc : is_Some (rr_account row))
    (Hdig : digest (password_salt (in_user input)) (in_payload input) = inr hash)
    (Hactual : digest (rr_payload_salt row) (in_payload input) = inr actual)
    (Hother : actual ≠ rr_payload_hash row) :
  let '(res, w') := register_user input w in
  w_db w' = w_db w ∧ (∃ e, res = inl e) ∧
  (w_faults w = [] → res = inl (CodedError "IDEMPOTENCY_CONFLICT"
                                  "Request ID was already used for different input")).
Proof.
  destruct (register_user input w) as [res w'] eqn:E.
  destruct (stored_unchanged input w row Hrow Huid Hacc) as [Hdb Hres].
  rewrite E in Hdb, Hres. split; [done|]. split.
  { destruct res as [e|r]; [by eexists|].
    destruct (Hres r eq_refl) as (row' & Hrow' & _ & _ & Hm). congruence. }
  intros Hf. set (e := CodedError _ _).
  assert (Hver : verify input (request_columns row) = inl e).
  { unfold verify. cbn. rewrite Hactual. cbn. by rewrite bool_decide_eq_false_2. }
  assert (Honce : once input w = (inl e, with_txn (w_txn w) (with_txn None w))).
  { unfold once. cbn [once_from].
    rewrite (bind_run _ _ _ (Failed e false true) (with_txn (w_txn w) (with_txn None w))); [done|].
    unfold once_pass. apply with_connection_nofault; [done|].
    erewrite bind_run by (by rewrite begin_run). unfold try_register.
    rewrite (bind_run _ _ _ (inl e) (with_txn (Some (w_db w)) w)).
    { by rewrite (bind_run _ _ _ true (with_txn None w)) by by rewrite rollback_run. }
    apply catch_run_err; [|done]. apply bind_run_err.
    change (view (with_txn None w)) with (w_db w).
    rewrite (reserve_stored_run _ _ (w_db w) row hash) by done.
    apply bind_run_err. unfold lift. by rewrite Hver. }
  unfold register_user, create in E. erewrite bind_run_err in E by exact Honce.
  by injection E as <- _.
Qed.

(** ** Progress *)

Lemma inv_allocatable d id acc :
  auth_inv d → select_free d = Some (id, mkPoolRow acc 0) → kMinAccount <= acc <= kMaxAccount →
  allocatable d id acc.
Proof.
  intros Hinv Hf Hr. apply select_free_Some in Hf as Hrow. destruct Hrow as [Hrow _].
  destruct Hinv as [I1 I2 I3 I4 I5 I6 I7 I8 I9 I10].
  split; try done.
  - apply I6 in Hrow. lia.
  - apply account_used_false. intros k u Hu. by apply (I8 id (mkPoolRow acc 0) k u).
  - intros i r Hi Ha. apply I9 in Hi as (uid & u & _ & Hu & Hacc).
    apply (I8 id (mkPoolRow acc 0) uid u); [done..|]. cbn. congruence.
Qed.

Lemma inv_servable input d :
  auth_inv d →
  (∃ hash, digest (password_salt (in_user input)) (in_payload input) = inr hash) →
  t_registration_requests d !! request_id input = None →
  phone_used (phone (in_user input)) d = false → servable input d.
Proof.
  intros Hinv Hdig Hun Hph. destruct Hinv as [I1 I2 I3 I4 I5 I6 I7 I8 I9 I10].
  split; try done. intros i r Hi Heq. apply I9 in Hi as (uid & u & Hu & Hk & _).
  rewrite Hu in Heq. injection Heq as ->. apply I2 in Hk. lia.
Qed.

(** The first free account after a refill. *)
Lemma refilled_allocatable `{!ShuffleOk} d d' :
  auth_inv d → select_free d = None → refilled kRefillBatch d d' →
  ∃ id acc, allocatable d' id acc.
Proof.
  intros Hinv Hnone Href. pose proof (refilled_inv _ _ _ Hinv Href) as Hinv'.
  destruct Href as (start & [Hc Hlow Hr Hu Hp Hext]).
  set (count := Z.min kRefillBatch (kMaxAccount - start + 1)) in *.
  assert (Hcount : 0 < count) by (unfold count, kRefillBatch; lia).
  pose proof (batch_length start count ltac:(lia)) as Hlen.
  pose proof Hext as [_ _ _ _ Hn Hrows].
  change (t_account_pool_next (set_account_pool_cursor _ d)) with (t_account_pool_next d) in *.
  change (t_account_pool (set_account_pool_cursor _ d)) with (t_account_pool d) in *.
  destruct (generate_shuffled_batch start (start + count)) as [|a l] eqn:El;
    [cbn in Hlen; lia|].
  assert (Hnew : t_account_pool d' !! t_account_pool_next d = Some (mkPoolRow a 0)).
  { rewrite Hrows, decide_True by (cbn [length]; lia). by rewrite Z.sub_diag. }
  destruct (select_one_is_Some (λ _ r, p_status r =? 0) _ _ _ Hnew) as [[id row] Hsel]; [done|].
  exists id, (p_account row). apply inv_allocatable; [done|..].
  - unfold select_free. rewrite Hsel. apply select_one_Some in Hsel as (_ & Hst & _).
    bool_to_prop. destruct row. cbn in *. by subst.
  - apply select_one_Some in Hsel as (Hrow & Hst & _).
    destruct (extended_row _ _ _ _ _ Hext Hrow) as [[Hold _]|(_ & _ & Hin)].
    + unfold select_free in Hnone. rewrite select_one_None in Hnone.
      specialize (Hnone _ _ Hold). cbn in Hnone. congruence.
    + apply list_elem_of_lookup_2 in Hin. rewrite <- ?El, batch_elements in Hin.
      unfold count in *. lia.
Qed.

(** C17: progress: when no call fails, a new request with an unused phone number
    is registered, provided the first free pool account is in range, or the pool
    has no free account and its cursor is in range and above every account in
    use (then the call refills the pool first). *)
Theorem register_user_succeeds `{!ShuffleOk} input w hash
    (Hfaults : w_faults w = []) (Hinv : auth_inv (w_db w))
    (Hdig : digest (password_salt (in_user input)) (in_payload input) = inr hash)
    (Hnew : t_registration_requests (w_db w) !! request_id input = None)
    (Hphone : phone_used (phone (in_user input)) (w_db w) = false)
    (Haccount :
      (∃ id acc, select_free (w_db w) = Some (id, mkPoolRow acc 0) ∧
         kMinAccount <= acc <= kMaxAccount) ∨
      (select_free (w_db w) = None ∧ ∃ start, refillable (w_db w) start)) :
  ∃ r w', register_user input w = (inr r, w') ∧ answered input (w_db w') r ∧
    ∃ d1, (d1 = w_db w ∨ refilled kRefillBatch (w_db w) d1) ∧ registers input d1 r (w_db w').
Proof.
  assert (Hs : servable input (w_db w)) by (apply inv_servable; eauto).
  assert (Hrun : ∃ r w', create input w = (inr r, w')).
  { destruct Haccount as [(id & acc & Hsel & Hrange)|[Hnone [start Href]]].
    - destruct (once_run input w Hfaults Hs) as [Hone _].
      destruct (Hone id acc) as [w' Hw']; [by apply inv_allocatable|].
      eexists _, w'. unfold create. by rewrite (bind_run _ _ _ _ _ Hw').
    - destruct (once_run input w Hfaults Hs) as [_ Hempty].
      destruct (Hempty Hnone) as (w1 & Hw1 & Hf1 & Hd1). rewrite <- Hd1 in Href.
      destruct (refill_run kRefillBatch w1 start Hf1) as (w2 & Hw2 & Hf2);
        [unfold kRefillBatch; lia|done|].
      assert (Hrf : refilled kRefillBatch (w_db w1) (w_db w2)).
      { destruct (refill_post_holds _ _ _ _ Hw2) as [[_ Hhigh]|?]; [|done].
        destruct Href as [_ Hlow _ _ _ _]. lia. }
      destruct (refilled_allocatable (w_db w1) (w_db w2)) as (id & acc & Hal);
        [by rewrite Hd1..|done|].
      assert (Hs2 : servable input (w_db w2)).
      { pose proof (refilled_inv _ _ _ (eq_ind_r auth_inv Hinv Hd1) Hrf) as Hinv2.
        destruct Hrf as (s0 & [_ _ _ _ _ [Eu _ Er _ _ _]]).
        cbn in Eu, Er. apply inv_servable; eauto.
        - rewrite Er. cbn. by rewrite Hd1.
        - unfold phone_used in *. rewrite Eu. cbn. by rewrite Hd1. }
      destruct (once_run input w2 Hf2 Hs2) as [Hone _].
      destruct (Hone id acc Hal) as [w' Hw'].
      eexists _, w'. unfold create. rewrite (bind_run _ _ _ _ _ Hw1).
      unfold mbind at 1, M_bind. rewrite (bind_run _ _ _ _ _ Hw2), Hw'. done. }
  destruct Hrun as (r & w' & Hrun). exists r, w'. split; [done|].
  apply create_post_holds in Hrun as (d1 & Hm & Hr).
  assert (Hd1 : d1 = w_db w ∨ refilled kRefillBatch (w_db w) d1)
    by (destruct Hm as [?|[_ ?]]; auto).
  destruct Hr as [[_ (row & Hrow & _)]|Hreg].
  - assert (Er : t_registration_requests d1 = t_registration_requests (w_db w)).
    { destruct Hd1 as [->|(s0 & [_ _ _ _ _ [_ _ Er _ _ _]])]; [done|exact Er]. }
    congruence.
  - split; [by eapply registers_answered|]. eauto.
Qed.

(** ** Refill *)

(** What a committed refill of [batch] accounts did: the range
    [start, start + count) after the old cursor, none of it in use, is now free. *)
Record pool_grown (batch : Z) (d d' : Database) (start count : Z) : Prop := mkGrown {
  pg_cursor : t_account_pool_cursor d = Some start;
  pg_count : count = Z.min batch (kMaxAccount - start + 1) ∧ 0 < count;
  pg_range : kMinAccount <= start ∧ start + count - 1 <= kMaxAccount;
  pg_cursor' : t_account_pool_cursor d' = Some (start + count);
  pg_users : t_users d' = t_users d;
  pg_requests : t_registration_requests d' = t_registration_requests d;
  pg_unused a : start <= a → account_used a d = false ∧
    ∀ k r, t_account_pool d !! k = Some r → p_account r ≠ a;
  pg_old : t_account_pool d ⊆ t_account_pool d';
  pg_new a : start <= a < start + count → ∃ k, t_account_pool d !! k = None ∧
    t_account_pool d' !! k = Some (mkPoolRow a 0);
  pg_only k r : t_account_pool d' !! k = Some r → t_account_pool d !! k = None →
    p_status r = 0 ∧ start <= p_account r < start + count;
}.

Lemma refilled_grown `{!ShuffleOk} batch d d' :
  auth_inv d → 0 < batch → refilled batch d d' → ∃ start count, pool_grown batch d d' start count.
Proof.
  intros Hinv Hb (start & [Hc Hlow Hr Hu Hp Hext]).
  set (count := Z.min batch (kMaxAccount - start + 1)) in *.
  exists start, count. pose proof (ai_pool _ Hinv) as Hkeys. cbv zeta in Hext.
  set (d1 := set_account_pool_cursor (λ _, Some (start + count)) d) in *.
  pose proof (λ k r, extended_row _ _ _ k r Hext) as Hrow.
  pose proof Hext as [Eu _ Er Ec En Hrows].
  rewrite (batch_length start count) in * by lia.
  split; try done; try lia.
  - intros a Ha. split.
    + apply account_used_false. intros k u Hk%Hu. lia.
    + intros k r Hk%Hp. lia.
  - apply map_subseteq_spec. intros k r Hk. rewrite Hrows.
    rewrite decide_False; [done|]. apply Hkeys in Hk. change (t_account_pool_next d1)
      with (t_account_pool_next d). lia.
  - intros a Ha. apply (batch_elements start (start + count)) in Ha as Hin.
    apply list_elem_of_lookup in Hin as [i Hi].
    exists (t_account_pool_next d + Z.of_nat i). split.
    + apply eq_None_not_Some. intros [r Hk%Hkeys]. lia.
    + pose proof (lookup_lt_Some _ _ _ Hi) as Hlt. rewrite batch_length in Hlt by lia.
      rewrite Hrows. change (t_account_pool_next d1) with (t_account_pool_next d).
      rewrite decide_True by lia.
      replace (Z.to_nat (t_account_pool_next d + Z.of_nat i - t_account_pool_next d)) with i by lia.
      by rewrite Hi.
  - intros k r [[Hold _]|(_ & Hst & Hin)]%Hrow Hk; [change (t_account_pool d !! k = Some r) in Hold; congruence|].
    apply list_elem_of_lookup_2 in Hin. rewrite batch_elements in Hin. done.
Qed.

(** A refill that returns either found the pool full enough and changed
    nothing, or made exactly the next [batch] accounts (cut at the end of the
    range) available: none of them was in use or in the pool, each has one free
    row, the cursor stands behind them, and users, requests and old pool rows are
    as before.  An error changes nothing, except REFILL_UNCERTAIN, after which
    the same may have happened. *)
Theorem refill_effect `{!ShuffleOk} batch w
    (Hinv : auth_inv (w_db w)) (Hbatch : is_uint64 batch) :
  let '(res, w') := pool_refill batch w in
  (w_db w' = w_db w ∧ (res = inr tt → kLowWaterMark <= free_count (w_db w)) ∨
   (res = inr tt ∨ res = inl refill_uncertain) ∧
     ∃ start count, pool_grown batch (w_db w) (w_db w') start count) ∧
  auth_inv (w_db w') ∧ res ≠ inl OutOfFuel.
Proof.
  unfold pool_refill, refill_accounts. pose proof (Ends_refill batch w) as Hend.
  destruct (refill batch w) as [res w'] eqn:E. cbn in Hend.
  apply refill_post_holds in E as Hpost. unfold refill in E.
  destruct (batch =? 0) eqn:Eb; bool_to_prop.
  { cbn [orb] in E. injection E as <- <-. split; [by left|done]. }
  assert (Hgrown : refilled batch (w_db w) (w_db w') →
    (∃ start count, pool_grown batch (w_db w) (w_db w') start count) ∧ auth_inv (w_db w')).
  { intros Hr. split; [|by eapply refilled_inv].
    apply refilled_grown; [done| |done]. unfold is_uint64 in Hbatch. lia. }
  destruct res as [e|[]]; cbn in Hpost.
  - destruct Hpost as [->|[-> [? ?]%Hgrown]]; [split; [left|]; done|]. eauto 10.
  - destruct Hpost as [[-> ?]|[? ?]%Hgrown]; [split; [left|]; done|]. eauto 10.
Qed.
End theorems.

(** * Concrete runs *)

Definition sample_digest : Digest := λ s, Some s.
Definition sample_shuffle : Shuffle := λ l, l.

Lemma sample_shuffle_ok : @ShuffleOk sample_shuffle.
Proof. intros l. done. Qed.

(** One seeded user and one free account, as the schema script leaves them. *)
Definition seed_row : UserRow :=
  mkUserRow 1000000000 "seed" "10000000000" "h" "s" sample_now sample_now None.
Definition seed_db : Database :=
  set_account_pool_cursor (λ _, Some 1000000002)
    (set_account_pool_next (λ _, 2)
      (set_account_pool (λ _, {[ 1 := mkPoolRow 1000000001 0 ]})
        (set_users_next (λ _, 2)
          (set_users (λ _, {[ 1 := seed_row ]}) empty_db)))).

Definition sample_input : RegistrationInput :=
  mkInput "req-1" (mkUserInfo 0 0 "ann" "13800000000" "hash" "salt" "" "" "")
    (registration_payload "13800000000" "ann" "secret").

Definition empty_pool_db : Database := set_account_pool (λ _, ∅) seed_db.

Lemma seed_users k r : t_users seed_db !! k = Some r → k = 1 ∧ r = seed_row.
Proof. change (t_users seed_db) with ({[ 1 := seed_row ]} : gmap Z UserRow).
  by intros [<- <-]%lookup_singleton_Some. Qed.

Lemma seed_pool k r :
  t_account_pool seed_db !! k = Some r → k = 1 ∧ r = mkPoolRow 1000000001 0.
Proof.
  change (t_account_pool seed_db) with ({[ 1 := mkPoolRow 1000000001 0 ]} : gmap Z PoolRow).
  by intros [<- <-]%lookup_singleton_Some.
Qed.

Lemma no_requests i : t_registration_requests seed_db !! i = None.
Proof. change (t_registration_requests seed_db) with (∅ : gmap string RegistrationRow).
  apply lookup_empty. Qed.

Lemma seed_inv : auth_inv seed_db.
Proof.
  split; try done.
  - by intros k r [-> ->]%seed_users.
  - by intros k k' r r' [-> _]%seed_users [-> _]%seed_users.
  - by intros k k' r r' [-> _]%seed_users [-> _]%seed_users.
  - by intros k r [-> ->]%seed_pool.
  - by intros k k' r r' [-> _]%seed_pool [-> _]%seed_pool.
  - by intros k r j u [-> ->]%seed_pool _ [-> ->]%seed_users.
Qed.

Lemma empty_pool_inv : auth_inv empty_pool_db.
Proof.
  destruct seed_inv as [I1 I2 I3 I4 I5 I6 I7 I8 I9 I10].
  assert (Hno : ∀ k, t_account_pool empty_pool_db !! k = None).
  { intros k. change (t_account_pool empty_pool_db) with (∅ : gmap Z PoolRow). apply lookup_empty. }
  split; try done; intros k *; rewrite Hno; done.
Qed.

Lemma register_user_invariant_witness :
  auth_inv seed_db ∧
  auth_inv (w_db (@register_user sample_digest sample_shuffle sample_input
                    (sample_world seed_db [NoFault; NoFault; FailAfter 2013])).2).
Proof.
  split; [apply seed_inv|].
  apply (@register_user_invariant sample_digest sample_shuffle sample_shuffle_ok).
  apply seed_inv.
Defined.

(** The seeded database after the registration of [sample_input]. *)
Definition done_db : Database :=
  w_db (@register_user sample_digest sample_shuffle sample_input (sample_world seed_db [])).2.

Definition sample_hash : string :=
  "343a73616c7432373a31313a3133383030303030303030333a616e6e363a736563726574303a".

Definition sample_row : RegistrationRow :=
  mkRegistrationRow "salt" sample_hash (Some 2) (Some 1000000001).

Definition replay_world : World := sample_world done_db [NoFault; FailAfter 1205].
Definition conflict_world : World := sample_world done_db [].
Definition empty_pool_world : World := sample_world empty_pool_db [].
Definition seed_world : World := sample_world seed_db [].

Lemma register_user_replay_witness :
  let '(res, w') := @register_user sample_digest sample_shuffle sample_input replay_world in
  w_db w' = w_db replay_world ∧ (∀ r', res = inr r' → r' = mkResult 2 1000000001) ∧
  (w_faults replay_world = [] → res = inr (mkResult 2 1000000001)).
Proof.
  apply (@register_user_replay sample_digest sample_shuffle sample_input replay_world
    (mkResult 2 1000000001) sample_hash).
  - exists sample_row. split; [vm_compute; reflexivity|]. vm_compute. done.
  - vm_compute. reflexivity.
Defined.

Definition other_input : RegistrationInput :=
  mkInput "req-1" (in_user sample_input) (registration_payload "13800000000" "ann" "other").

Definition other_hash : string :=
  "343a73616c7432363a31313a3133383030303030303030333a616e6e353a6f74686572303a".

Lemma register_user_conflict_witness :
  let '(res, w') := @register_user sample_digest sample_shuffle other_input conflict_world in
  w_db w' = w_db conflict_world ∧ (∃ e, res = inl e) ∧
  (w_faults conflict_world = [] → res = inl (CodedError "IDEMPOTENCY_CONFLICT"
                                 "Request ID was already used for different input")).
Proof.
  apply (@register_user_conflict sample_digest sample_shuffle other_input
    conflict_world sample_row other_hash other_hash).
  - vm_compute. reflexivity.
  - vm_compute. by eexists.
  - vm_compute. by eexists.
  - vm_compute. reflexivity.
  - vm_compute. reflexivity.
  - vm_compute. discriminate.
Defined.

(** The pool is empty: the call refills it first. *)
Lemma register_user_succeeds_witness :
  ∃ r w', @register_user sample_digest sample_shuffle sample_input empty_pool_world = (inr r, w') ∧
    @answered sample_digest sample_input (w_db w') r ∧
    ∃ d1, (d1 = w_db empty_pool_world ∨
           @refilled sample_shuffle kRefillBatch (w_db empty_pool_world) d1) ∧
      @registers sample_digest sample_input d1 r (w_db w').
Proof.
  apply (@register_user_succeeds sample_digest sample_shuffle sample_shuffle_ok sample_input
    empty_pool_world sample_hash).
  - reflexivity.
  - apply empty_pool_inv.
  - vm_compute. reflexivity.
  - vm_compute. reflexivity.
  - vm_compute. reflexivity.
  - right. split; [vm_compute; reflexivity|]. exists 1000000002. split.
    + reflexivity.
    + vm_compute. reflexivity.
    + vm_compute. split; discriminate.
    + exists 1, seed_row. reflexivity.
    + by intros k r [-> ->]%seed_users.
    + intros k r Hk. by vm_compute in Hk.
Defined.

Lemma refill_effect_witness :
  let '(res, w') := @pool_refill sample_shuffle 3 seed_world in
  (w_db w' = w_db seed_world ∧ (res = inr tt → kLowWaterMark <= free_count (w_db seed_world)) ∨
   (res = inr tt ∨ res = inl refill_uncertain) ∧
     ∃ start count, pool_grown 3 (w_db seed_world) (w_db w') start count) ∧
  auth_inv (w_db w') ∧ res ≠ inl OutOfFuel.
Proof.
  apply (@refill_effect sample_shuffle sample_shuffle_ok 3 seed_world).
  - apply seed_inv.
  - vm_compute. split; discriminate.
Defined.
