(* ===== verification/RegistrationRace.v ===== *)
(** Registrations at once ([once] of [namespace mysql_registration],
    [src/storage/mysqlhandler.cpp] 425-492), statement by statement, at READ COMMITTED.

    [Registration.reserve] runs a registration alone.  Here any number of them run, a
    statement of one is a step, and a statement that needs a lock another transaction
    holds waits: the key of a request from its INSERT on, the pool row from its
    SELECT ... FOR UPDATE on, the unique keys of a user from its INSERT on.  What a
    transaction writes is its own until COMMIT, and then everybody's; user numbers are
    drawn when the row is inserted and are not given back. *)
From S2P Require Import Prelude Table Snowflake Schema Effects Users Registration RegistrationProofs RegistrationRefill RegistrationTheorems.

(** * The state *)

(** What a registration has found and drawn so far: the digest of its input; the pool
    row and its account; the user number and the time of the insertion. *)
Inductive race_pc :=
| Began
| Requested (hash : string)
| Verified (hash : string)
| PhoneFree (hash : string)
| Allocated (hash : string) (id acc : Z)
| Inserted (hash : string) (id acc uid : Z) (t : datetime)
| Taken (hash : string) (id acc uid : Z) (t : datetime)
| Saved (hash : string) (id acc uid : Z) (t : datetime)     (* COMMIT comes next *)
| Answered (r : RegistrationResult).                        (* returned *)

Record Race := mkRace {
  database : Database;      (* committed *)
  running : gmap nat (RegistrationInput * race_pc);
}.

Definition move (w : nat) (input : RegistrationInput) (pc : race_pc) (s : Race) : Race :=
  mkRace (database s) (<[w := (input, pc)]> (running s)).

(** The transaction is rolled back, and its locks are released. *)
Definition leave (w : nat) (s : Race) : Race := mkRace (database s) (delete w (running s)).

(** ** Locks *)

Definition hash_of (pc : race_pc) : option string :=
  match pc with
  | Began | Answered _ => None
  | Requested h | Verified h | PhoneFree h => Some h
  | Allocated h _ _ | Inserted h _ _ _ _ | Taken h _ _ _ _ | Saved h _ _ _ _ => Some h
  end.

Definition row_of (pc : race_pc) : option (Z * Z) :=
  match pc with
  | Allocated _ id acc | Inserted _ id acc _ _ | Taken _ id acc _ _ | Saved _ id acc _ _ => Some (id, acc)
  | _ => None
  end.

Definition user_of (pc : race_pc) : option (Z * Z) :=
  match pc with
  | Inserted _ _ acc uid _ | Taken _ _ acc uid _ | Saved _ _ acc uid _ => Some (uid, acc)
  | _ => None
  end.

(** Nobody else holds what the statement needs. *)
Definition request_free (s : Race) (w : nat) (input : RegistrationInput) : Prop :=
  ∀ w' input' pc, w' ≠ w → running s !! w' = Some (input', pc) → is_Some (hash_of pc) →
    request_id input' ≠ request_id input.
Definition row_free (s : Race) (w : nat) (id : Z) : Prop :=
  ∀ w' input' pc acc, w' ≠ w → running s !! w' = Some (input', pc) → row_of pc ≠ Some (id, acc).
Definition user_free (s : Race) (w : nat) (input : RegistrationInput) (acc : Z) : Prop :=
  ∀ w' input' pc uid' acc', w' ≠ w → running s !! w' = Some (input', pc) →
    user_of pc = Some (uid', acc') → phone (in_user input') ≠ phone (in_user input) ∧ acc' ≠ acc.

Section race.
Context `{Digest}.

(** * The statements *)

(** The request row as the transaction sees it. *)
Definition own_request (input : RegistrationInput) (hash : string) (d : Database) : Database :=
  (insert_request (request_id input) (password_salt (in_user input)) hash d).2.

(** SELECT ... FOR UPDATE of the request, [verify], and the replay. *)
Definition select_own_request (w : nat) (input : RegistrationInput) (hash : string) (s : Race) : Race :=
  match select_request (request_id input) (own_request input hash (database s)) with
  | None => leave w s
  | Some row =>
      match verify input row with
      | inl _ => leave w s
      | inr _ =>
          if complete row then
            match number (nth_field row 2) "once.replay.user_id", number (nth_field row 3) "once.replay.account" with
            | inr uid, inr acc => move w input (Answered (mkResult uid acc)) s
            | _, _ => leave w s
            end
          else move w input (Verified hash) s
      end
  end.

(** SELECT user_id FROM users WHERE phone=... *)
Definition select_phone (w : nat) (input : RegistrationInput) (hash : string) (s : Race) : Race :=
  if phone_used (phone (in_user input)) (database s) then leave w s
  else move w input (PhoneFree hash) s.

(** SELECT ... FROM account_pool ... FOR UPDATE, and the checks of the row. *)
Definition select_account (w : nat) (input : RegistrationInput) (hash : string) (s : Race) : Race :=
  match select_free (database s) with
  | None => leave w s
  | Some (id, row) =>
      match number (FUint64 id) "once.pool.id", number (FUint64 (p_account row)) "once.pool.account" with
      | inr id, inr acc =>
          if (id =? 0) || (acc <? kMinAccount) || (kMaxAccount <? acc) then leave w s
          else move w input (Allocated hash id acc) s
      | _, _ => leave w s
      end
  end.

(** INSERT INTO users: the number is drawn, whatever becomes of the row. *)
Definition insert_user_at (w : nat) (input : RegistrationInput) (hash : string) (id acc : Z)
    (t : datetime) (s : Race) : Race :=
  let drawn := set_users_next (λ n, n + 1) (database s) in
  match insert_user_row t (in_user input) acc (database s) with
  | inl _ => mkRace drawn (delete w (running s))
  | inr (uid, _) =>
      if uid =? 0 then mkRace drawn (delete w (running s))
      else mkRace drawn (<[w := (input, Inserted hash id acc uid t)]> (running s))
  end.

(** UPDATE account_pool SET status=1 ... *)
Definition update_pool (w : nat) (input : RegistrationInput) (hash : string) (id acc uid : Z)
    (t : datetime) (s : Race) : Race :=
  if (take_pool_row id (database s)).1 =? 1 then move w input (Taken hash id acc uid t) s
  else leave w s.

(** UPDATE registration_requests SET user_id=...,account=... *)
Definition update_request (w : nat) (input : RegistrationInput) (hash : string) (id acc uid : Z)
    (t : datetime) (s : Race) : Race :=
  match save_result (request_id input) uid acc (own_request input hash (database s)) with
  | inr (1, _) => move w input (Saved hash id acc uid t) s
  | _ => leave w s
  end.

(** COMMIT; without its answer the caller looks the request up again ([lookup]). *)
Definition commit (w : nat) (input : RegistrationInput) (hash : string) (id acc uid : Z)
    (t : datetime) (reported : bool) (s : Race) : Race :=
  mkRace (registered_at input t hash id acc uid (database s))
    (if reported then <[w := (input, Answered (mkResult uid acc))]> (running s)
     else delete w (running s)).

(** ** Steps *)

(** The rest of the program adds free accounts to the pool and leaves the rest of the
    three tables alone. *)
Record pool_grows (d d' : Database) : Prop := {
  pg_users : t_users d' = t_users d;
  pg_requests : t_registration_requests d' = t_registration_requests d;
  pg_next : t_users_next d' = t_users_next d;
  pg_pool k r : t_account_pool d !! k = Some r → t_account_pool d' !! k = Some r;
  pg_inv : auth_inv d → auth_inv d';
}.

Inductive race_step (s : Race) : Race → Prop :=
| race_begin w input : running s !! w = None → race_step s (move w input Began s)
| race_request w input hash :
    running s !! w = Some (input, Began) → request_free s w input →
    digest (password_salt (in_user input)) (in_payload input) = inr hash →
    race_step s (move w input (Requested hash) s)
| race_verify w input hash :
    running s !! w = Some (input, Requested hash) → race_step s (select_own_request w input hash s)
| race_phone w input hash :
    running s !! w = Some (input, Verified hash) → race_step s (select_phone w input hash s)
| race_account w input hash :
    running s !! w = Some (input, PhoneFree hash) →
    (∀ id row, select_free (database s) = Some (id, row) → row_free s w id) →
    race_step s (select_account w input hash s)
| race_insert w input hash id acc t :
    running s !! w = Some (input, Allocated hash id acc) → user_free s w input acc →
    race_step s (insert_user_at w input hash id acc t s)
| race_take w input hash id acc uid t :
    running s !! w = Some (input, Inserted hash id acc uid t) →
    race_step s (update_pool w input hash id acc uid t s)
| race_save w input hash id acc uid t :
    running s !! w = Some (input, Taken hash id acc uid t) →
    race_step s (update_request w input hash id acc uid t s)
| race_commit w input hash id acc uid t reported :
    running s !! w = Some (input, Saved hash id acc uid t) →
    race_step s (commit w input hash id acc uid t reported s)
| race_leave w x : running s !! w = Some x → race_step s (leave w s)
| race_others d : pool_grows (database s) d → race_step s (mkRace d (running s)).

(** * The specification: a registration is atomic *)

(** All four rows at once, on the database as it is then. *)
Record registers_now (input : RegistrationInput) (r : RegistrationResult) (d d' : Database)
    (t : datetime) (hash : string) (id : Z) : Prop := {
  rn_pending : let b := request_base input hash d in rr_user_id b = None ∨ rr_account b = None;
  rn_matches : let b := request_base input hash d in
    digest (rr_payload_salt b) (in_payload input) = inr (rr_payload_hash b);
  rn_phone : phone_used (phone (in_user input)) d = false;
  rn_account : account_used (res_account r) d = false;
  rn_free : t_account_pool d !! id = Some (mkPoolRow (res_account r) 0);
  rn_range : kMinAccount <= res_account r <= kMaxAccount;
  rn_uid : t_users d !! res_user_id r = None ∧ 0 < res_user_id r < t_users_next d;
  rn_db : d' = registered_at input t hash id (res_account r) (res_user_id r) d;
}.

Inductive atomic_registration : Database → Database → Prop :=
| atomic_register input r d d' t hash id :
    registers_now input r d d' t hash id → atomic_registration d d'
| atomic_draw d : atomic_registration d (set_users_next (λ n, n + 1) d)
| atomic_grow d d' : pool_grows d d' → atomic_registration d d'.

(** * The invariant *)

(** What a transaction knows of the database, for as long as it runs. *)
Definition verified (pc : race_pc) : bool :=
  match pc with Began | Requested _ | Answered _ => false | _ => true end.

Record knows (d : Database) (input : RegistrationInput) (pc : race_pc) : Prop := {
  kn_request hash : verified pc = true → hash_of pc = Some hash →
    (let b := request_base input hash d in rr_user_id b = None ∨ rr_account b = None) ∧
    (let b := request_base input hash d in
      digest (rr_payload_salt b) (in_payload input) = inr (rr_payload_hash b));
  kn_row id acc : row_of pc = Some (id, acc) →
    t_account_pool d !! id = Some (mkPoolRow acc 0) ∧ kMinAccount <= acc <= kMaxAccount;
  kn_user uid acc : user_of pc = Some (uid, acc) →
    t_users d !! uid = None ∧ 0 < uid < t_users_next d ∧
    phone_used (phone (in_user input)) d = false ∧ account_used acc d = false;
  kn_answer r : pc = Answered r → answered input d r;
}.

(** What two transactions do not share. *)
Record apart (x y : RegistrationInput * race_pc) : Prop := {
  ap_request : is_Some (hash_of x.2) → is_Some (hash_of y.2) → request_id x.1 ≠ request_id y.1;
  ap_row id acc acc' : row_of x.2 = Some (id, acc) → row_of y.2 = Some (id, acc') → False;
  ap_user uid acc uid' acc' : user_of x.2 = Some (uid, acc) → user_of y.2 = Some (uid', acc') →
    uid ≠ uid' ∧ phone (in_user x.1) ≠ phone (in_user y.1);
}.

Record race_inv (s : Race) : Prop := {
  rc_auth : auth_inv (database s);
  rc_knows w input pc : running s !! w = Some (input, pc) → knows (database s) input pc;
  rc_apart w1 w2 x y : w1 ≠ w2 → running s !! w1 = Some x → running s !! w2 = Some y → apart x y;
}.

Lemma apart_sym x y : apart x y → apart y x.
Proof.
  intros [A1 A2 A3]. split.
  - intros H1 H2 E. by apply (A1 H2 H1).
  - intros id acc acc' H1 H2. by eapply A2.
  - intros uid acc uid' acc' H1 H2. destruct (A3 _ _ _ _ H2 H1). by split; apply not_eq_sym.
Qed.

Lemma race_init d : auth_inv d → race_inv (mkRace d ∅).
Proof. by split. Qed.

(** A transaction moves; the tables keep what the others know. *)
Lemma race_moves d s w input pc :
  race_inv s → auth_inv d →
  (∀ w' input' pc', w' ≠ w → running s !! w' = Some (input', pc') → knows d input' pc') →
  knows d input pc → (∀ w' x, w' ≠ w → running s !! w' = Some x → apart (input, pc) x) →
  race_inv (mkRace d (<[w := (input, pc)]> (running s))).
Proof.
  intros Hs Ha Hk Hw Hap. split; cbn.
  - done.
  - intros w' i p [(<- & [= <- <-])|(Hne & Hx)]%lookup_insert_Some; [done|]. by apply (Hk w').
  - intros w1 w2 x y Hne [(<- & <-)|(H1 & Hx)]%lookup_insert_Some [(<- & <-)|(H2 & Hy)]%lookup_insert_Some.
    + done.
    + by apply (Hap w2).
    + by apply apart_sym, (Hap w1).
    + by eapply (rc_apart _ Hs w1 w2).
Qed.

Lemma race_leaves d s w :
  race_inv s → auth_inv d →
  (∀ w' input' pc', w' ≠ w → running s !! w' = Some (input', pc') → knows d input' pc') →
  race_inv (mkRace d (delete w (running s))).
Proof.
  intros Hs Ha Hk. split; cbn; [done|..].
  - intros w' i p (Hne & Hx)%lookup_delete_Some. by apply (Hk w').
  - intros w1 w2 x y Hne (_ & Hx)%lookup_delete_Some (_ & Hy)%lookup_delete_Some. by eapply (rc_apart _ Hs w1 w2).
Qed.

Lemma inv_leave s w : race_inv s → race_inv (leave w s).
Proof.
  intros Hs. apply race_leaves; [done|apply (rc_auth _ Hs)|]. intros w' i p _. apply (rc_knows _ Hs).
Qed.

Lemma inv_move s w input pc :
  race_inv s → knows (database s) input pc →
  (∀ w' x, w' ≠ w → running s !! w' = Some x → apart (input, pc) x) → race_inv (move w input pc s).
Proof.
  intros Hs Hk Ha. apply race_moves; [done|apply (rc_auth _ Hs)| |done|done].
  intros w' i p _. apply (rc_knows _ Hs).
Qed.

(** The same locks as before. *)
Lemma inv_onward s w input pc pc' :
  race_inv s → running s !! w = Some (input, pc) → knows (database s) input pc' →
  (is_Some (hash_of pc') → is_Some (hash_of pc)) → (row_of pc' = None ∨ row_of pc' = row_of pc) →
  (user_of pc' = None ∨ user_of pc' = user_of pc) → race_inv (move w input pc' s).
Proof.
  intros Hs Hw Hk Hh Hr Hu. apply inv_move; [done|done|].
  intros w' x Hne Hx. destruct (rc_apart _ Hs w w' _ _ (not_eq_sym Hne) Hw Hx) as [A1 A2 A3]. cbn in *.
  split; cbn.
  - intros H1 H2. apply A1; [by apply Hh|done].
  - intros id acc acc' H1 H2. destruct Hr as [E|E]; rewrite E in H1; [done|]. by eapply A2.
  - intros uid acc uid' acc' H1 H2. destruct Hu as [E|E]; rewrite E in H1; [done|]. by eapply A3.
Qed.

(** ** What the others know *)

Lemma request_base_same input hash d d' :
  t_registration_requests d' !! request_id input = t_registration_requests d !! request_id input →
  request_base input hash d' = request_base input hash d.
Proof. unfold request_base. by intros ->. Qed.

Lemma answered_same input d d' r :
  t_registration_requests d' !! request_id input = t_registration_requests d !! request_id input →
  answered input d r → answered input d' r.
Proof. intros E (row & Hrow & Hr). exists row. by rewrite E. Qed.

Lemma knows_grow d d' input pc :
  t_users d' = t_users d → t_registration_requests d' = t_registration_requests d →
  t_users_next d <= t_users_next d' →
  (∀ k r, t_account_pool d !! k = Some r → t_account_pool d' !! k = Some r) →
  knows d input pc → knows d' input pc.
Proof.
  intros Eu Er En Ep [K1 K2 K3 K4]. split.
  - intros hash Hv Hh. rewrite (request_base_same _ _ d d') by by rewrite Er. by apply K1.
  - intros id acc Hr. destruct (K2 id acc Hr) as [Hk ?]. split; [by apply Ep|done].
  - intros uid acc Hu. destruct (K3 uid acc Hu) as (K & Kn & Kp & Ka).
    destruct (used_users d d' acc (phone (in_user input)) Eu) as [-> ->]. rewrite Eu. split_and!; try done; lia.
  - intros r Hr. eapply answered_same; [by rewrite Er|by apply K4].
Qed.

(** A registration that commits: the request, the pool row and the user of the others
    are not its own. *)
Lemma knows_commit d input0 hash0 id0 acc0 uid0 t0 input pc :
  auth_inv d → knows d input0 (Saved hash0 id0 acc0 uid0 t0) →
  apart (input0, Saved hash0 id0 acc0 uid0 t0) (input, pc) →
  knows d input pc → knows (registered_at input0 t0 hash0 id0 acc0 uid0 d) input pc.
Proof.
  intros Ha K0 [A1 A2 A3] [K1 K2 K3 K4]. cbn in A1, A2, A3.
  destruct (registered_at_tables input0 t0 hash0 id0 acc0 uid0 d) as (Eu & En & Ep & _ & _ & Er).
  set (d' := registered_at _ _ _ _ _ _ _) in *. clearbody d'.
  destruct (kn_row _ _ _ K0 _ _ eq_refl) as [Hrow0 _].
  split.
  - intros hash Hv Hh. rewrite (request_base_same _ _ d d'); [by apply K1|].
    rewrite Er, lookup_insert_ne; [done|]. apply A1; [done|by rewrite Hh].
  - intros id acc Hr. destruct (K2 id acc Hr) as [Hk ?]. split; [|done].
    rewrite Ep, lookup_insert_ne; [done|]. intros ->. by eapply A2.
  - intros uid acc Hu. destruct (K3 uid acc Hu) as (K & Kn & Kp & Ka).
    destruct (A3 _ _ _ _ eq_refl Hu) as [Hne Hphone].
    assert (Hrow : ∃ id, row_of pc = Some (id, acc)) by (destruct pc; cbn in *; simplify_eq; eauto).
    destruct Hrow as [id Hrow]. destruct (K2 _ _ Hrow) as [Hk _].
    assert (Hacc : acc0 ≠ acc).
    { intros ->. assert (id0 = id) as -> by by apply (ai_pool_unique _ Ha _ _ _ _ Hrow0 Hk). by eapply A2. }
    rewrite En, Eu, lookup_insert_ne by done. rewrite phone_used_false, account_used_false, Eu in *.
    split_and!; [done|lia|lia|..].
    + intros k r [[_ <-]|[_ Hkr]]%lookup_insert_Some; [done|by eapply Kp].
    + intros k r [[_ <-]|[_ Hkr]]%lookup_insert_Some; [done|by eapply Ka].
  - intros r ->. eapply answered_same; [|by apply K4]. rewrite Er.
    destruct (decide (request_id input0 = request_id input)) as [E|]; [|by rewrite lookup_insert_ne].
    exfalso. destruct (kn_request _ _ _ K0 _ eq_refl eq_refl) as [Hp _].
    apply base_pending in Hp. destruct (K4 r eq_refl) as (row & Hrow & Hu & Hac & _).
    rewrite <- E in Hrow. destruct (Hp row Hrow); congruence.
Qed.

(** The answer of a registration that commits. *)
Lemma commit_answers d input hash id acc uid t :
  knows d input (Saved hash id acc uid t) →
  answered input (registered_at input t hash id acc uid d) (mkResult uid acc).
Proof.
  intros K. destruct (kn_request _ _ _ K _ eq_refl eq_refl) as [_ Hm].
  destruct (registered_at_tables input t hash id acc uid d) as (_ & _ & _ & _ & _ & Er).
  eexists. rewrite Er, lookup_insert_eq. by split_and!.
Qed.

Lemma commit_registers d input hash id acc uid t :
  knows d input (Saved hash id acc uid t) →
  registers_now input (mkResult uid acc) d (registered_at input t hash id acc uid d) t hash id.
Proof.
  intros K. destruct (kn_request _ _ _ K _ eq_refl eq_refl) as [Hp Hm].
  destruct (kn_row _ _ _ K _ _ eq_refl) as [Hrow Hrange].
  destruct (kn_user _ _ _ K _ _ eq_refl) as (Hu & Hn & Hph & Hac). by split.
Qed.

Lemma registers_now_inv input r d d' t hash id :
  auth_inv d → registers_now input r d d' t hash id → auth_inv d'.
Proof. intros Ha [_ _ Hph Hac Hrow _ [Hu Hn] ->]. by apply registered_at_inv. Qed.

(** ** The statements keep it *)

Lemma inv_begin s w input : race_inv s → race_inv (move w input Began s).
Proof.
  intros Hs. apply inv_move; [done|by split|]. intros w' x _ _. split; cbn; [by intros [? ?]|done|done].
Qed.

Lemma inv_request s w input hash :
  race_inv s → request_free s w input → race_inv (move w input (Requested hash) s).
Proof.
  intros Hs Hfree. apply inv_move; [done|by split|]. intros w' [input' pc'] Hne Hx. split; cbn; [|done|done].
  intros _ Hh E. by apply (Hfree w' input' pc' Hne Hx Hh).
Qed.

Lemma own_row input hash d :
  select_request (request_id input) (own_request input hash d) = Some (request_columns (request_base input hash d)).
Proof. unfold select_request, own_request. by rewrite insert_request_base. Qed.

Lemma complete_stored input hash d :
  complete (request_columns (request_base input hash d)) = true →
  t_registration_requests d !! request_id input = Some (request_base input hash d).
Proof.
  intros [[? Hu] _]%complete_columns. unfold request_base in *.
  by destruct (t_registration_requests d !! _).
Qed.

Lemma inv_verify s w input hash :
  race_inv s → running s !! w = Some (input, Requested hash) → race_inv (select_own_request w input hash s).
Proof.
  intros Hs Hw. unfold select_own_request. rewrite own_row.
  destruct (verify _ _) as [|[]] eqn:Hv; [by apply inv_leave|]. apply verify_ok in Hv.
  destruct (complete _) eqn:Hc.
  - destruct (number _ _) as [|uid] eqn:E1; [by apply inv_leave|].
    destruct (number (nth_field _ 3) _) as [|acc] eqn:E2; [by apply inv_leave|].
    apply number_opt in E1, E2. cbn in E1, E2.
    eapply inv_onward; [done|done| |by intros [? ?]|by left|by left].
    split; [done..|]. intros r [= <-]. eexists. split; [by apply complete_stored|by split_and!].
  - eapply inv_onward; [done|done| |done|by left|by left].
    split; [|done|done|done]. intros h _ [= <-]. split; [by apply incomplete_columns|done].
Qed.

Lemma inv_phone s w input hash :
  race_inv s → running s !! w = Some (input, Verified hash) → race_inv (select_phone w input hash s).
Proof.
  intros Hs Hw. unfold select_phone. destruct (phone_used _ _); [by apply inv_leave|].
  eapply inv_onward; [done|done| |done|by left|by left].
  destruct (rc_knows _ Hs _ _ _ Hw) as [K1 _ _ _]. split; [|done|done|done]. intros h _ [= <-]. by apply K1.
Qed.

Lemma inv_account s w input hash :
  race_inv s → running s !! w = Some (input, PhoneFree hash) →
  (∀ id row, select_free (database s) = Some (id, row) → row_free s w id) →
  race_inv (select_account w input hash s).
Proof.
  intros Hs Hw Hfree. unfold select_account. destruct (select_free _) as [[id row]|] eqn:Ef; [|by apply inv_leave].
  cbn. destruct (_ || _) eqn:Eb; [by apply inv_leave|]. bool_to_prop.
  pose proof Ef as [Hrow Hst]%select_free_Some. specialize (Hfree id row eq_refl).
  assert (row = mkPoolRow (p_account row) 0) as Er by by destruct row; cbn in *; subst.
  apply inv_move; [done|..].
  - destruct (rc_knows _ Hs _ _ _ Hw) as [K1 _ _ _]. split; [|..|done|done].
    + intros h _ [= <-]. by apply K1.
    + intros i a [= <- <-]. rewrite <- Er. split; [done|lia].
  - intros w' [input' pc'] Hne Hx. destruct (rc_apart _ Hs w w' _ _ (not_eq_sym Hne) Hw Hx) as [A1 _ _].
    split; cbn; [done| |done]. intros i a a' [= <- <-] Hr. by eapply Hfree.
Qed.

Lemma knows_drawn d input pc : knows d input pc → knows (set_users_next (λ n, n + 1) d) input pc.
Proof.
  apply knows_grow; [done|done| |done]. change (t_users_next (set_users_next _ d)) with (t_users_next d + 1). lia.
Qed.

Lemma inv_insert s w input hash id acc t :
  race_inv s → running s !! w = Some (input, Allocated hash id acc) → user_free s w input acc →
  race_inv (insert_user_at w input hash id acc t s).
Proof.
  intros Hs Hw Hfree. pose proof (rc_auth _ Hs) as Ha. pose proof (drawn_inv _ Ha) as Hd.
  assert (Hothers : ∀ w' input' pc', w' ≠ w → running s !! w' = Some (input', pc') →
    knows (set_users_next (λ n, n + 1) (database s)) input' pc')
    by (intros w' i p _ Hx; by apply knows_drawn, (rc_knows _ Hs w')).
  unfold insert_user_at, insert_user_row.
  destruct (_ || _) eqn:Eu; [by apply race_leaves|]. bool_to_prop.
  destruct (_ =? 0) eqn:E0; [by apply race_leaves|]. bool_to_prop.
  destruct (rc_knows _ Hs _ _ _ Hw) as [K1 K2 _ _]. apply race_moves; [done|done|done|..].
  - split; [intros h _ [= <-]; by apply K1|intros i a [= <- <-]; by apply K2| |done].
    intros u a [= <- <-]. change (t_users_next (set_users_next _ (database s))) with (t_users_next (database s) + 1).
    change (t_users (set_users_next _ (database s))) with (t_users (database s)).
    split_and!; [|destruct Ha; lia|lia|done|done].
    destruct (t_users _ !! _) eqn:E; [|done]. apply (ai_users _ Ha) in E. lia.
  - intros w' [input' pc'] Hne Hx. destruct (rc_apart _ Hs w w' _ _ (not_eq_sym Hne) Hw Hx) as [A1 A2 _].
    split; cbn; [done| |].
    + intros i a a' [= <- <-] Hr. by eapply A2.
    + intros u a u' a' [= <- <-] Hu. split; [|by apply not_eq_sym; eapply Hfree].
      destruct (kn_user _ _ _ (rc_knows _ Hs _ _ _ Hx) _ _ Hu) as (_ & Hlt & _). lia.
Qed.

(** The statements on rows it holds already. *)
Lemma inv_own s w input pc pc' :
  race_inv s → running s !! w = Some (input, pc) → verified pc = true → hash_of pc' = hash_of pc →
  row_of pc' = row_of pc → user_of pc' = user_of pc → (∀ r, pc' ≠ Answered r) → race_inv (move w input pc' s).
Proof.
  intros Hs Hw Hv Hh Hr Hu Hn. destruct (rc_knows _ Hs _ _ _ Hw) as [K1 K2 K3 _].
  eapply inv_onward; [done|done| |by rewrite Hh|by right|by right].
  split; [intros h _; rewrite Hh; by apply K1|intros i a; rewrite Hr; by apply K2
         |intros u a; rewrite Hu; by apply K3|by intros r E%Hn].
Qed.

Lemma inv_race_commit s w input hash id acc uid t reported :
  race_inv s → running s !! w = Some (input, Saved hash id acc uid t) →
  race_inv (commit w input hash id acc uid t reported s).
Proof.
  intros Hs Hw. pose proof (rc_knows _ Hs _ _ _ Hw) as K. pose proof (rc_auth _ Hs) as Ha.
  pose proof (registers_now_inv _ _ _ _ _ _ _ Ha (commit_registers _ _ _ _ _ _ _ K)) as Ha'.
  assert (Hothers : ∀ w' input' pc', w' ≠ w → running s !! w' = Some (input', pc') →
    knows (registered_at input t hash id acc uid (database s)) input' pc').
  { intros w' input' pc' Hne Hx. apply knows_commit; [done|done| |by apply (rc_knows _ Hs w')].
    by eapply (rc_apart _ Hs w w'); [apply not_eq_sym|..]. }
  unfold commit. destruct reported; [|by apply race_leaves].
  apply race_moves; [done|done|done|..].
  - split; [done..|]. intros r [= <-]. by apply commit_answers.
  - intros w' x _ _. split; cbn; [by intros [? ?]|done|done].
Qed.

Lemma race_inv_step s s' : race_inv s → race_step s s' → race_inv s'.
Proof.
  intros Hs [w input Hw|w input hash Hw Hfree _|w input hash Hw|w input hash Hw|w input hash Hw Hfree
    |w input hash id acc t Hw Hfree|w input hash id acc uid t Hw|w input hash id acc uid t Hw
    |w input hash id acc uid t rep Hw|w x Hw|d Hg].
  - by apply inv_begin.
  - by apply inv_request.
  - by apply inv_verify.
  - by apply inv_phone.
  - by apply inv_account.
  - by apply inv_insert.
  - unfold update_pool. destruct (_ =? 1); [|by apply inv_leave]. by eapply inv_own.
  - unfold update_request. destruct (save_result _ _ _ _) as [|[[|[]|] ?]]; try by apply inv_leave.
    by eapply inv_own.
  - by apply inv_race_commit.
  - by apply inv_leave.
  - destruct Hg as [G1 G2 G3 G4 G5]. split; cbn; [by apply G5, (rc_auth _ Hs)| |apply (rc_apart _ Hs)].
    intros w input pc Hw. eapply knows_grow; [done|done|by rewrite G3|done|by apply (rc_knows _ Hs w)].
Qed.

Lemma race_inv_run s s' : race_inv s → rtc race_step s s' → race_inv s'.
Proof. intros Hs Hrun. induction Hrun; eauto using race_inv_step. Qed.

(** A statement is invisible to the others, or is a step of the specification. *)
Lemma race_step_atomic s s' :
  race_inv s → race_step s s' → database s' = database s ∨ atomic_registration (database s) (database s').
Proof.
  intros Hs [w input Hw|w input hash Hw Hfree _|w input hash Hw|w input hash Hw|w input hash Hw Hfree
    |w input hash id acc t Hw Hfree|w input hash id acc uid t Hw|w input hash id acc uid t Hw
    |w input hash id acc uid t rep Hw|w x Hw|d Hg]; try by left.
  - left. unfold select_own_request. repeat case_match; done.
  - left. unfold select_phone. by case_match.
  - left. unfold select_account. repeat case_match; done.
  - right. unfold insert_user_at. repeat case_match; apply atomic_draw.
  - left. unfold update_pool. by case_match.
  - left. unfold update_request. repeat case_match; done.
  - right. eapply atomic_register. apply commit_registers. by apply (rc_knows _ Hs w).
  - right. by apply atomic_grow.
Qed.

(** C2: registrations that run at once are serialised: whatever the order of their
    statements, and whichever of them fail, wait or are lost, the committed tables go
    through what whole registrations do to them, one after the other in the order of
    their commits; accounts and phone numbers stay unique; every answer is the one stored
    with its request; and two answers with the same account or the same user are answers
    to the same request. *)
Theorem registrations_serialise d s (Hinv : auth_inv d) (Hrun : rtc race_step (mkRace d ∅) s) :
  rtc atomic_registration d (database s) ∧ auth_inv (database s) ∧
  (∀ w input r, running s !! w = Some (input, Answered r) → answered input (database s) r) ∧
  (∀ w1 w2 i1 i2 r1 r2, running s !! w1 = Some (i1, Answered r1) → running s !! w2 = Some (i2, Answered r2) →
     (res_account r1 = res_account r2 ∨ res_user_id r1 = res_user_id r2 → request_id i1 = request_id i2) ∧
     (request_id i1 = request_id i2 → r1 = r2)).
Proof.
  assert (Hs : race_inv s) by (eapply race_inv_run; [by apply race_init|done]).
  assert (Hans : ∀ w input r, running s !! w = Some (input, Answered r) → answered input (database s) r).
  { intros w input r Hw. by apply (kn_answer _ _ _ (rc_knows _ Hs w _ _ Hw)). }
  split_and!; [|apply (rc_auth _ Hs)|done|].
  - clear Hans Hs. change d with (database (mkRace d ∅)) at 1. generalize (race_init d Hinv). clear Hinv.
    induction Hrun as [s|s1 s2 s3 Hst _ IH]; [reflexivity|]. intros Hi.
    pose proof (race_inv_step _ _ Hi Hst) as Hi2.
    destruct (race_step_atomic _ _ Hi Hst) as [<-|Ha]; [by apply IH|]. eapply rtc_l; [exact Ha|by apply IH].
  - intros w1 w2 i1 i2 r1 r2 (row1 & Hr1 & Hu1 & Ha1 & _)%Hans (row2 & Hr2 & Hu2 & Ha2 & _)%Hans.
    pose proof (rc_auth _ Hs) as Ha. split.
    + assert (Hu : res_account r1 = res_account r2 ∨ res_user_id r1 = res_user_id r2 → res_user_id r1 = res_user_id r2).
      { intros [Hacc|?]; [|done].
        destruct (ai_requests _ Ha _ _ Hr1) as (x1 & y1 & E1 & Hx1 & F1).
        destruct (ai_requests _ Ha _ _ Hr2) as (x2 & y2 & E2 & Hx2 & F2).
        assert (x1 = x2) as -> by (apply (ai_accounts _ Ha _ _ _ _ Hx1 Hx2); congruence). congruence. }
      intros He%Hu. apply (ai_one_request _ Ha _ _ _ _ Hr1 Hr2). congruence.
    + intros E. rewrite E in Hr1. destruct r1, r2. cbn in *. congruence.
Qed.
End race.

(** * A registration alone *)

Definition alone (s : Race) (w : nat) : Prop := ∀ w' x, w' ≠ w → running s !! w' = Some x → False.

Lemma alone_move s w input pc : alone s w → alone (move w input pc s) w.
Proof.
  intros Ha w' x Hne Hx. cbn in Hx.
  apply lookup_insert_Some in Hx as [(<- & _)|(_ & Hx)]; [done|by eapply Ha].
Qed.

Section schedule.
Context `{Digest} `{Shuffle}.

(** Up to the pool row. *)
Lemma alone_allocates s w input r t id hash d' :
  running s = ∅ → auth_inv (database s) →
  registers_with input t (database s) r d' id hash →
  ∃ s', rtc race_step s s' ∧ database s' = database s ∧ alone s' w ∧
    running s' !! w = Some (input, Allocated hash id (res_account r)).
Proof.
  intros Hr Ha [Hdig Hpend Hm Hph _ Hfree Hrange _ _]. set (d := database s) in *.
  pose proof Hfree as [Hrow _]%select_free_Some. apply (ai_pool _ Ha) in Hrow.
  set (s1 := move w input Began s). set (s2 := move w input (Requested hash) s1).
  set (s3 := move w input (Verified hash) s2). set (s4 := move w input (PhoneFree hash) s3).
  set (s5 := move w input (Allocated hash id (res_account r)) s4).
  assert (A0 : alone s w) by (intros w' x _; by rewrite Hr).
  assert (A1 : alone s1 w) by by apply alone_move.
  assert (A4 : alone s4 w) by by do 3 apply alone_move.
  assert (Hv : verify input (request_columns (request_base input hash d)) = inr tt) by by apply verify_ok.
  assert (Hc : complete (request_columns (request_base input hash d)) = false).
  { apply not_true_is_false. intros [[? ?] [? ?]]%complete_columns. destruct Hpend; congruence. }
  exists s5. split_and!; [|done|by apply alone_move|apply lookup_insert_eq].
  apply (rtc_l _ _ s1); [apply race_begin; by rewrite Hr|].
  apply (rtc_l _ _ s2).
  { apply race_request; [apply lookup_insert_eq| |done]. intros w' i p Hne Hx. exfalso. by eapply A1. }
  apply (rtc_l _ _ s3).
  { replace s3 with (select_own_request w input hash s2); [apply race_verify, lookup_insert_eq|].
    unfold select_own_request. change (database s2) with d. by rewrite own_row, Hv, Hc. }
  apply (rtc_l _ _ s4).
  { replace s4 with (select_phone w input hash s3); [apply race_phone, lookup_insert_eq|].
    unfold select_phone. change (database s3) with d. by rewrite Hph. }
  apply rtc_once. replace s5 with (select_account w input hash s4).
  { apply race_account; [apply lookup_insert_eq|]. intros i row _ w' i' p a Hne Hx. exfalso. by eapply A4. }
  unfold select_account. change (database s4) with d. rewrite Hfree. cbn.
  rewrite (proj2 (Z.eqb_neq id 0)), (proj2 (Z.ltb_ge _ _)), (proj2 (Z.ltb_ge kMaxAccount _)) by lia. done.
Qed.

(** The serial registration is a schedule. *)
Lemma registration_is_a_schedule d input r d' w (Hinv : auth_inv d) (Hreg : registers input d r d') :
  ∃ s, rtc race_step (mkRace d ∅) s ∧ database s = d' ∧ running s !! w = Some (input, Answered r).
Proof.
  destruct Hreg as (t & id & hash & Hreg). pose proof Hreg as [_ Hpend _ Hph Hac Hfree _ Huid ->].
  destruct (alone_allocates (mkRace d ∅) w input r t id hash _ eq_refl Hinv Hreg) as (s5 & Hrun & Hd & A5 & Hw).
  cbn in Hd. set (acc := res_account r) in *. set (uid := res_user_id r) in *.
  set (d1 := set_users_next (λ n, n + 1) d).
  set (s6 := mkRace d1 (<[w := (input, Inserted hash id acc uid t)]> (running s5))).
  set (s7 := move w input (Taken hash id acc uid t) s6).
  set (s8 := move w input (Saved hash id acc uid t) s7).
  exists (commit w input hash id acc uid t true s8). split_and!.
  - etrans; [exact Hrun|]. apply (rtc_l _ _ s6).
    { replace s6 with (insert_user_at w input hash id acc t s5).
      { apply race_insert; [done|]. intros w' i p u a Hne Hx. exfalso. by eapply A5. }
      unfold insert_user_at, insert_user_row. rewrite Hd, Hac, Hph. cbn [orb].
      rewrite (proj2 (Z.eqb_neq _ 0)) by (destruct Hinv; lia). by rewrite <- Huid. }
    apply (rtc_l _ _ s7).
    { replace s7 with (update_pool w input hash id acc uid t s6); [apply race_take, lookup_insert_eq|].
      apply select_free_Some in Hfree as [Hrow _]. unfold update_pool.
      by rewrite (take_pool_row_free id (database s6) (mkPoolRow acc 0) Hrow eq_refl). }
    apply (rtc_l _ _ s8); [|apply rtc_once, race_commit, lookup_insert_eq].
    replace s8 with (update_request w input hash id acc uid t s7); [apply race_save, lookup_insert_eq|].
    unfold update_request. erewrite save_result_fresh; [done|apply insert_request_base|exact Hpend|].
    intros i row Hrow. unfold own_request, insert_request in Hrow.
    assert (Hold : t_registration_requests d !! i = Some row ∨ rr_user_id row = None ∧ rr_account row = None).
    { change (database s7) with d1 in Hrow. change (t_registration_requests d1) with (t_registration_requests d) in Hrow.
      destruct (t_registration_requests d !! request_id input); [by left|]. cbn [snd] in Hrow.
      change (t_registration_requests (set_registration_requests ?f d1)) with (f (t_registration_requests d)) in Hrow.
      apply lookup_insert_Some in Hrow as [[_ <-]|[_ ?]]; [by right|by left]. }
    destruct Hold as [Hold|[-> ->]]; [|done].
    destruct (ai_requests _ Hinv _ _ Hold) as (u & x & -> & Hx & ->). split; intros [= E].
    + apply (ai_users _ Hinv) in Hx. lia.
    + rewrite account_used_false in Hac. by apply (Hac u x).
  - by rewrite registered_db_at, <- Huid.
  - cbn. rewrite lookup_insert_eq. by destruct r.
Qed.

(** A refill is one of the things the rest of the program does to the pool. *)
Lemma refilled_grows `{!ShuffleOk} batch d d' : auth_inv d → refilled batch d d' → pool_grows d d'.
Proof.
  intros Hinv Hr. pose proof (refilled_inv _ _ _ Hinv Hr) as Hinv'. destruct Hr as (start & [_ _ _ _ _ Hext]).
  destruct Hext as [Eu En Er _ _ Hrows]. split; try done.
  intros k row Hk. rewrite Hrows. change (t_account_pool (set_account_pool_cursor _ d)) with (t_account_pool d).
  change (t_account_pool_next (set_account_pool_cursor _ d)) with (t_account_pool_next d).
  rewrite decide_False; [done|]. apply (ai_pool _ Hinv) in Hk. lia.
Qed.
End schedule.

(** * Two requests for one phone *)

#[local] Existing Instance RegistrationTheorems.sample_digest.

(** Two free accounts. *)
Definition race_db : Database :=
  set_account_pool_next (λ _, 3)
    (set_account_pool (λ _, {[ 1 := mkPoolRow 1000000001 0; 2 := mkPoolRow 1000000002 0 ]}) seed_db).

Lemma race_pool k r :
  t_account_pool race_db !! k = Some r →
  k = 1 ∧ r = mkPoolRow 1000000001 0 ∨ k = 2 ∧ r = mkPoolRow 1000000002 0.
Proof.
  change (t_account_pool race_db)
    with ({[ 1 := mkPoolRow 1000000001 0; 2 := mkPoolRow 1000000002 0 ]} : gmap Z PoolRow).
  intros [[<- <-]|[_ [<- <-]%lookup_singleton_Some]]%lookup_insert_Some; auto.
Qed.

Lemma race_db_inv : auth_inv race_db.
Proof.
  destruct seed_inv as [I1 I2 I3 I4 I5 I6 I7 I8 I9 I10]. split; try done.
  - intros k r [[-> _]|[-> _]]%race_pool; done.
  - intros k k' r r' [[-> ->]|[-> ->]]%race_pool [[-> ->]|[-> ->]]%race_pool; done.
  - intros k r j u [[-> ->]|[-> ->]]%race_pool _ [-> ->]%seed_users; done.
Qed.

(** The same phone, another request. *)
Definition rival_input : RegistrationInput :=
  mkInput "req-2" (in_user sample_input) (in_payload sample_input).

Definition race_result : RegistrationResult := mkResult 2 1000000001.

Definition r0 : Race := mkRace race_db ∅.
Definition both_looked : Race :=
  move 1 rival_input (PhoneFree sample_hash) (move 0 sample_input (PhoneFree sample_hash) r0).
Definition one_committed : Race :=
  mkRace (registered_at sample_input sample_now sample_hash 1 1000000001 2 (set_users_next (λ n, n + 1) race_db))
    {[ 0%nat := (sample_input, Answered race_result); 1%nat := (rival_input, PhoneFree sample_hash) ]}.

(** The other transactions of a concrete state. *)
Ltac concrete_others H :=
  cbn in H;
  repeat (apply lookup_insert_Some in H as [[<- H]|[_ H]]; [simplify_eq; cbn in *; simplify_eq|]);
  try (apply lookup_singleton_Some in H as [<- H]; simplify_eq; cbn in *; simplify_eq);
  first [by rewrite lookup_empty in H | done | by intros; simplify_eq].

(** The state reached, computed. *)
Ltac reached :=
  match goal with |- rtc _ ?x ?y => replace y with x by (vm_compute; reflexivity); reflexivity end.

Lemma both_looked_reached : rtc race_step r0 both_looked.
Proof.
  eapply rtc_l; [by apply (race_begin r0 0 sample_input)|].
  eapply rtc_l; [by apply (race_begin _ 1 rival_input)|].
  eapply rtc_l.
  { apply (race_request _ 0 sample_input sample_hash); [reflexivity| |vm_compute; reflexivity].
    intros w i pc Hne Hx Hh. concrete_others Hx. }
  eapply rtc_l.
  { apply (race_request _ 1 rival_input sample_hash); [reflexivity| |vm_compute; reflexivity].
    intros w i pc Hne Hx Hh. concrete_others Hx. }
  eapply rtc_l; [apply (race_verify _ 0 sample_input sample_hash); vm_compute; reflexivity|].
  eapply rtc_l; [apply (race_verify _ 1 rival_input sample_hash); vm_compute; reflexivity|].
  eapply rtc_l; [apply (race_phone _ 0 sample_input sample_hash); vm_compute; reflexivity|].
  eapply rtc_l; [apply (race_phone _ 1 rival_input sample_hash); vm_compute; reflexivity|].
  reached.
Qed.

Definition one_allocated : Race := move 0 sample_input (Allocated sample_hash 1 1000000001) both_looked.

Lemma one_committed_reached : rtc race_step both_looked one_committed.
Proof.
  apply (rtc_l _ _ one_allocated).
  { replace one_allocated with (select_account 0 sample_input sample_hash both_looked) by (vm_compute; reflexivity).
    apply race_account; [reflexivity|]. intros id row _ w i pc acc Hne Hx. concrete_others Hx. }
  eapply rtc_l.
  { apply (race_insert one_allocated 0 sample_input sample_hash 1 1000000001 sample_now); [reflexivity|].
    intros w i pc u a Hne Hx. concrete_others Hx. }
  eapply rtc_l; [apply (race_take _ 0 sample_input sample_hash 1 1000000001 2 sample_now); vm_compute; reflexivity|].
  eapply rtc_l; [apply (race_save _ 0 sample_input sample_hash 1 1000000001 2 sample_now); vm_compute; reflexivity|].
  eapply rtc_l; [apply (race_commit _ 0 sample_input sample_hash 1 1000000001 2 sample_now true); vm_compute; reflexivity|].
  reached.
Qed.

(** Both have found the phone free, and the first commits: the unique key refuses the
    second, whose transaction is rolled back (a user number is lost). *)
Lemma phone_decided_by_unique_key :
  rtc race_step r0 both_looked ∧
  ∃ s, rtc race_step both_looked s ∧ running s = {[ 0%nat := (sample_input, Answered race_result) ]} ∧
    t_users_next (database s) = 4 ∧ t_account_pool (database s) !! 2 = Some (mkPoolRow 1000000002 0).
Proof.
  split; [apply both_looked_reached|]. set (s1 := move 1 rival_input (Allocated sample_hash 2 1000000002) one_committed).
  exists (insert_user_at 1 rival_input sample_hash 2 1000000002 sample_now s1). split.
  - etrans; [apply one_committed_reached|]. apply (rtc_l _ _ s1).
    { replace s1 with (select_account 1 rival_input sample_hash one_committed) by (vm_compute; reflexivity).
      apply race_account; [reflexivity|]. intros id row _ w i pc acc Hne Hx. concrete_others Hx. }
    apply rtc_once. apply race_insert; [reflexivity|]. intros w i pc u a Hne Hx. concrete_others Hx.
  - split_and!; vm_compute; reflexivity.
Qed.

Lemma registrations_serialise_witness :
  answered sample_input (database one_committed) race_result ∧ auth_inv (database one_committed).
Proof.
  destruct (registrations_serialise race_db one_committed) as (_ & Ha & Hans & _).
  - apply race_db_inv.
  - etrans; [apply both_looked_reached|apply one_committed_reached].
  - split; [|exact Ha]. by apply (Hans 0%nat sample_input race_result).
Defined.
