(* ===== verification/Stores.v ===== *)
(** The stores beside MySQL: message documents in MongoDB
    ([src/storage/mongohandler.cpp]), the message cache in Redis
    ([src/storage/redishandler.cpp]) and the confirmed delivery to Kafka
    ([KafkaProducer::deliverConfirmed]).

    Each call is one round trip and takes one entry of the failure schedule.
    Protobuf serialization is a parameter ([Protobuf]). *)
From S2P Require Import Prelude Table Snowflake Schema Effects.

(** * Parameters *)

(** [SerializeToString] and [ParseFromString] of [sdkws::MsgData]. *)
Class Protobuf := {
  serialize_msg : MsgData → string;
  parse_msg : string → option MsgData;
}.
Class ProtobufOk `{Protobuf} : Prop := parse_serialize m : parse_msg (serialize_msg m) = Some m.

(** * Documents *)

Fixpoint field (doc : document) (name : string) : option bson :=
  match doc with
  | [] => None
  | (n, v) :: doc => if decide (n = name) then Some v else field doc name
  end.

(** The document [SaveMsgToMongo] inserts. *)
Definition doc_of (msg : MsgData) (committed : bool) : document :=
  [("serverMsgID", BString (serverMsgID msg));
   ("sendID", BInt64 (to_int64 (sendID msg)));
   ("recvID", BInt64 (to_int64 (recvID msg)));
   ("convID", BString (convID msg));
   ("clientMsgID", BString (clientMsgID msg));
   ("senderPlatformID", BInt32 (senderPlatformID msg));
   ("senderNickname", BString (senderNickname msg));
   ("senderFaceURL", BString (senderFaceURL msg));
   ("sessionType", BInt32 (sessionType msg));
   ("msgFrom", BInt32 (msgFrom msg));
   ("contentType", BInt32 (contentType msg));
   ("content", BString (content msg));
   ("seq", BInt64 (seq msg));
   ("sendTime", BDouble (Some (sendTime msg)));
   ("status", BInt32 (status msg));
   ("isRead", BBool (isRead msg));
   ("isDeleted", BBool (isDeleted msg));
   ("isRecalled", BBool (isRecalled msg));
   ("isPinned", BBool (isPinned msg));
   ("isGroupMsg", BBool (isGroupMsg msg));
   ("ext", BString (ext msg));
   ("committed", BBool committed)].

(** ** Reading *)

(** [element.get_string()] etc. throw on another type. *)
Definition get_string (v : bson) : E string :=
  match v with BString s => inr s | _ => inl (StoreError 0) end.
Definition get_bool (v : bson) : E bool :=
  match v with BBool b => inr b | _ => inl (StoreError 0) end.
Definition get_int64 (v : bson) : E Z :=
  match v with BInt64 z => inr z | _ => inl (StoreError 0) end.
Definition get_int32 (v : bson) : E Z :=
  match v with BInt32 z => inr z | _ => inl (StoreError 0) end.

(** The lambda [integer] of [DecodeMessage]. *)
Definition integer (v : bson) : E Z :=
  let invalid := inl (RuntimeError "Invalid numeric message metadata") in
  match v with
  | BInt64 z | BInt32 z => inr z
  | BDouble (Some z) => if (0 <=? z) && (z <? 2 ^ 63) then inr z else invalid
  | _ => invalid
  end.

(** A field that is set when it is present: [d] is the protobuf default. *)
Definition read {A} (get : bson → E A) (doc : document) (name : string) (d : A) : E A :=
  match field doc name with Some v => get v | None => inr d end.

Definition DecodeMessage (doc : document) : E MsgData :=
  id ← read get_string doc "serverMsgID" "";
  conv ← read get_string doc "convID" "";
  client ← read get_string doc "clientMsgID" "";
  nick ← read get_string doc "senderNickname" "";
  face ← read get_string doc "senderFaceURL" "";
  body ← read get_string doc "content" "";
  extra ← read get_string doc "ext" "";
  send ← read integer doc "sendID" 0;
  recv ← read integer doc "recvID" 0;
  sq ← read integer doc "seq" 0;
  time ← read integer doc "sendTime" 0;
  platform ← read integer doc "senderPlatformID" 0;
  session ← read integer doc "sessionType" 0;
  from ← read integer doc "msgFrom" 0;
  ctype ← read integer doc "contentType" 0;
  st ← read integer doc "status" 0;
  rd ← read get_bool doc "isRead" false;
  del ← read get_bool doc "isDeleted" false;
  rec ← read get_bool doc "isRecalled" false;
  pin ← read get_bool doc "isPinned" false;
  grp ← read get_bool doc "isGroupMsg" false;
  mret (mkMsgData (to_uint64 send) (to_uint64 recv) conv client id (to_int32 platform) nick face
          (to_int32 session) (to_int32 from) (to_int32 ctype) body sq time (to_int32 st)
          rd del rec pin grp extra).

(** ** Filters *)

(** Numbers compare across BSON number types; a missing field is null. *)
Definition bson_num (v : bson) : option Z :=
  match v with BInt32 z | BInt64 z => Some z | BDouble o => o | _ => None end.

Definition num_field (doc : document) (name : string) : option Z := field doc name ≫= bson_num.

Definition f_eq_num (name : string) (z : Z) (doc : document) : bool :=
  bool_decide (num_field doc name = Some z).
Definition f_ne_num (name : string) (z : Z) (doc : document) : bool :=
  negb (f_eq_num name z doc).
Definition f_gt (name : string) (z : Z) (doc : document) : bool :=
  match num_field doc name with Some x => z <? x | None => false end.
Definition f_lte (name : string) (z : Z) (doc : document) : bool :=
  match num_field doc name with Some x => x <=? z | None => false end.
Definition f_eq_bool (name : string) (b : bool) (doc : document) : bool :=
  bool_decide (field doc name = Some (BBool b)).
Definition f_ne_bool (name : string) (b : bool) (doc : document) : bool :=
  negb (f_eq_bool name b doc).
Definition f_eq_string (name : string) (s : string) (doc : document) : bool :=
  bool_decide (field doc name = Some (BString s)).

(** [update.$set]: replaces the field or appends it. *)
Fixpoint set_field (name : string) (v : bson) (doc : document) : document :=
  match doc with
  | [] => [(name, v)]
  | (n, x) :: doc => if decide (n = name) then (n, v) :: doc else (n, x) :: set_field name v doc
  end.

(** [find(filter).sort({seq:1}).limit(limit)]; 0 is no limit. *)
Definition by_seq (p q : string * document) : Prop :=
  default 0 (num_field p.2 "seq") <= default 0 (num_field q.2 "seq").

#[global] Instance by_seq_dec : RelDecision by_seq.
Proof. intros p q. unfold by_seq. apply _. Defined.
#[global] Instance by_seq_trans : Transitive by_seq.
Proof. intros p q r. unfold by_seq. lia. Qed.
#[global] Instance by_seq_total : Total by_seq.
Proof. intros p q. unfold by_seq. lia. Qed.

Definition find_sorted (P : document → bool) (limit : Z) (m : gmap string document)
    : list document :=
  let docs := snd <$> merge_sort by_seq (map_to_list (filter (λ p, P p.2 = true) m)) in
  if limit =? 0 then docs else take (Z.to_nat (Z.abs limit)) docs.

(** * MongoDB operations *)

(** One call on the collection [IM-System.msg]. *)
Definition mongo {A} (op : gmap string document → exn + (A * gmap string document)) : M A :=
  remote StoreError (λ w,
    match op (w_mongo w) with
    | inl e => inl e
    | inr (a, m) => inr (a, with_mongo m w)
    end).

Definition mongo_find {A} (q : gmap string document → A) : M A := mongo (λ m, inr (q m, m)).

(** [update_one] with upsert and [$setOnInsert]: an existing document stays. *)
Definition set_on_insert (id : string) (doc : document) (m : gmap string document)
    : gmap string document :=
  match m !! id with Some _ => m | None => <[id := doc]> m end.

(** The handler swallows the driver's exceptions. *)
Definition SaveMsgToMongo (msg : MsgData) (committed : bool) : M bool :=
  r ← catch (mongo (λ m, inr (tt, set_on_insert (serverMsgID msg) (doc_of msg committed) m)));
  match r with inr _ => mret true | inl _ => mret false end.

Definition GetMsgByServerMsgID (id : string) : M (option MsgData) :=
  d ← mongo_find (λ m, m !! id);
  match d with
  | None => mret None
  | Some doc => msg ← lift (DecodeMessage doc); mret (Some msg)
  end.

Fixpoint decode_all (docs : list document) : E (list MsgData) :=
  match docs with
  | [] => mret []
  | doc :: docs => msg ← DecodeMessage doc; msgs ← decode_all docs; mret (msg :: msgs)
  end.

(** The offline candidates of a user: single-chat messages to the user after
    [afterSeq] that are published and not delivered. *)
Definition offline_filter (userId afterSeq : Z) (doc : document) : bool :=
  f_eq_num "recvID" (to_int64 userId) doc && f_gt "seq" afterSeq doc &&
  f_ne_bool "isGroupMsg" true doc && f_eq_num "sessionType" 1 doc &&
  f_ne_bool "committed" false doc && f_ne_num "status" 2 doc.

Definition GetMsgsBySeqFromMongo (userId afterSeq limit : Z) : M (list MsgData) :=
  if (limit <=? 0) || (userId =? 0) then mret []
  else
    docs ← mongo_find (find_sorted (offline_filter userId afterSeq) limit);
    lift (decode_all docs).

Definition mark_delivered (userId : Z) (id : string) (m : gmap string document)
    : gmap string document :=
  match m !! id with
  | Some doc =>
      if f_eq_num "recvID" (to_int64 userId) doc
      then <[id := set_field "status" (BInt32 2) doc]> m else m
  | None => m
  end.

Fixpoint mark_all (userId : Z) (ids : list string) : M unit :=
  match ids with
  | [] => mret tt
  | id :: ids => mongo (λ m, inr (tt, mark_delivered userId id m));; mark_all userId ids
  end.

Definition MarkMsgsAsDelivered (userId : Z) (ids : list string) : M bool :=
  r ← catch (mark_all userId ids);
  match r with inr _ => mret true | inl _ => mret false end.

Definition history_filter (conversation : string) (cutoff : Z) (doc : document) : bool :=
  f_eq_string "convID" conversation doc && f_eq_bool "isGroupMsg" false doc &&
  f_lte "seq" cutoff doc.

(** The [serverMsgID]s of the documents found, in the order of the cursor. *)
Fixpoint history_ids (docs : list document) : E (list string) :=
  match docs with
  | [] => mret []
  | doc :: docs =>
      match field doc "serverMsgID" with
      | Some v => id ← get_string v; ids ← history_ids docs; mret (id :: ids)
      | None => history_ids docs
      end
  end.

Definition singleChatHistory (conversation : string) (erase : bool) (cutoff : Z)
    : M (list string) :=
  let matching (m : gmap string document) := filter (λ p, history_filter conversation cutoff p.2 = true) m in
  docs ← mongo_find (λ m, snd <$> map_to_list (matching m));
  ids ← lift (history_ids docs);
  when erase (mongo (λ m, inr (tt,
    filter (λ p, history_filter conversation cutoff p.2 = false) m)));;
  mret ids.

Definition GetSingleChatMessageIDs (conversation : string) (cutoff : Z) : M (list string) :=
  singleChatHistory conversation false cutoff.
Definition DeleteSingleChatHistory (conversation : string) (cutoff : Z) : M (list string) :=
  singleChatHistory conversation true cutoff.

(** The selective decoding of [GetSingleChatHistoryAsync]. *)
Definition send_time (doc : document) : Z :=
  match field doc "sendTime" with
  | Some (BDouble (Some z)) | Some (BInt64 z) => z
  | _ => 0
  end.

Definition history_message (conversation : string) (doc : document) : E MsgData :=
  id ← read get_string doc "serverMsgID" "";
  client ← read get_string doc "clientMsgID" "";
  send ← read get_int64 doc "sendID" 0;
  recv ← read get_int64 doc "recvID" 0;
  sq ← read get_int64 doc "seq" 0;
  ctype ← read get_int32 doc "contentType" 0;
  body ← read get_string doc "content" "";
  nick ← read get_string doc "senderNickname" "";
  mret (mkMsgData (to_uint64 send) (to_uint64 recv) conversation client id 0 nick "" 1 0 ctype body
          sq (send_time doc) 0 false false false false false "").

Fixpoint history_messages (conversation : string) (docs : list document) : E (list MsgData) :=
  match docs with
  | [] => mret []
  | doc :: docs =>
      msg ← history_message conversation doc;
      msgs ← history_messages conversation docs;
      mret (msg :: msgs)
  end.

Definition chat_filter (conversation : string) (afterSeq : Z) (doc : document) : bool :=
  f_eq_string "convID" conversation doc && f_eq_bool "isGroupMsg" false doc &&
  f_ne_bool "committed" false doc && f_gt "seq" afterSeq doc.

Definition GetSingleChatHistory (conversation : string) (afterSeq limit : Z) : M (list MsgData) :=
  docs ← mongo_find (find_sorted (chat_filter conversation afterSeq) limit);
  lift (history_messages conversation docs).

Definition PublishMessage (serverId : string) : M unit :=
  matched ← mongo (λ m,
    match m !! serverId with
    | Some doc => inr (true, <[serverId := set_field "committed" (BBool true) doc]> m)
    | None => inr (false, m)
    end);
  if (matched : bool) then mret tt else throw (RuntimeError "Message body is missing").

(** * Redis operations *)

Definition redis {A} (op : RedisStore → A * RedisStore) : M A :=
  remote StoreError (λ w, let '(a, r) := op (w_redis w) in inr (a, with_redis r w)).

Definition set_strings (f : gmap string string → gmap string string) (r : RedisStore) : RedisStore :=
  mkRedisStore (f (r_strings r)) (r_zsets r).

(** The time to live of SETEX is not kept: an expired key is one more way for
    [get] to find nothing, which its callers handle. *)
Definition redis_setex (key value : string) : M unit :=
  redis (λ r, (tt, set_strings <[key := value]> r)).
Definition redis_get (key : string) : M (option string) := redis (λ r, (r_strings r !! key, r)).
Definition redis_del (key : string) : M unit := redis (λ r, (tt, set_strings (delete key) r)).
Definition redis_zrem (key member : string) : M unit :=
  redis (λ r, (tt, mkRedisStore (r_strings r)
    (match r_zsets r !! key with
     | Some s => <[key := s ∖ {[ member ]}]> (r_zsets r)
     | None => r_zsets r
     end))).

Definition DeleteMsgCache (id : string) : M unit := redis_del ("msg:" +:+ id).

Definition CleanupAcknowledgedMessage (owner : Z) (id : string) : M unit :=
  DeleteMsgCache id;;
  redis_del ("msg_conv:" +:+ id);;
  redis_del ("msg:consumed:" +:+ id);;
  redis_del ("pending_ack:online:" +:+ id);;
  redis_del ("pending_ack:offline:" +:+ to_string owner +:+ ":" +:+ id);;
  redis_zrem "pending_ack:deadlines" id.

(** [std::unique] on a sorted vector. *)
Fixpoint unique (l : list string) : list string :=
  match l with
  | x :: (y :: _) as t => if decide (x = y) then unique t else x :: unique t
  | _ => l
  end.

Fixpoint cleanup_all (first second : Z) (ids : list string) : M unit :=
  match ids with
  | [] => mret tt
  | id :: ids =>
      CleanupAcknowledgedMessage first id;;
      CleanupAcknowledgedMessage second id;;
      cleanup_all first second ids
  end.

Definition RedisDeleteSingleChatHistory (first second : Z) (ids : list string) : M unit :=
  cleanup_all first second (unique (merge_sort String.le ids)).

Section protobuf.
Context `{Protobuf}.

Definition SaveMsg (msg : MsgData) : M bool :=
  r ← catch (redis_setex ("msg:" +:+ serverMsgID msg) (serialize_msg msg));
  match r with inr _ => mret true | inl _ => mret false end.

Definition GetMsg (id : string) : M (option MsgData) :=
  r ← catch (redis_get ("msg:" +:+ id));
  match r with
  | inr (Some value) => mret (parse_msg value)
  | _ => mret None
  end.
End protobuf.

(** * Kafka *)

(** The message may reach the broker although the report fails or is late. *)
Definition deliverConfirmed (key payload : string) : M bool := λ w,
  match remote StoreError (λ w, inr (tt, with_kafka (w_kafka w ++ [(key, payload)]) w)) w with
  | (inr _, w') => (inr true, w')
  | (inl _, w') => (inr false, w')
  end.
