(* ===== verification/Conversations.v ===== *)
(** Conversation summaries ([src/storage/mysqlhandler.cpp], lines 994-1298, and
    [src/services/conversation_service/server.cpp]): the per-owner summary rows,
    unread counters and read positions, and the service handlers over them.

    JSON encoding and decoding are parameters ([Json]). *)
From S2P Require Import Prelude Table Snowflake Schema Effects Users.

(** * Messages of the conversation service *)

Record MsgInfo := mkMsgInfo {
  mi_serverMsgID : string; mi_clientMsgID : string; mi_sessionType : Z;
  mi_sendID : Z; mi_recvID : Z; mi_senderName : string;
  mi_latestMsgRecvTime : Z; mi_contentType : Z; mi_content : string;
}.

Definition MsgInfo_default : MsgInfo := mkMsgInfo "" "" 0 0 0 "" 0 0 "".

Record Conversation := mkConversation {
  cv_owner : Z; cv_id : string; cv_type : Z; cv_user : Z; cv_pinned : bool;
  cv_recvMsgOpt : Z; cv_minSeq : Z; cv_maxSeq : Z; cv_readSeq : Z; cv_unread : Z;
  cv_latest : MsgInfo;
}.

Record ConversationElem := mkElem {
  ce_id : string; ce_recvMsgOpt : Z; ce_unread : Z; ce_pinned : bool; ce_info : MsgInfo;
}.

Record SortedReq := mkSortedReq {
  sr_user : Z; sr_ids : list string; sr_pageNumber : Z; sr_showNumber : Z;
}.
Record SortedResp := mkSortedResp {
  sp_total : Z; sp_unread : Z; sp_elems : list ConversationElem;
}.

(** * Parameters *)

(** [JsonStringToMessage] and [MessageToJsonString] of protobuf, [json::parse]
    and [json::dump] of nlohmann: [parse_content] is the string under "content"
    when the text is a JSON object that has one; [dump_content] is the dump of
    the object [{"content": s}], [None] when it throws. *)
Class Json := {
  msg_to_json : MsgData → option string;
  msg_of_json : string → option MsgData;
  info_to_json : MsgInfo → option string;
  info_of_json : string → option MsgInfo;
  parse_content : string → option string;
  dump_content : string → option string;
}.

Class JsonOk `{Json} : Prop := {
  msg_json m s : msg_to_json m = Some s → msg_of_json s = Some m ∧ s ≠ "";
  info_json i s : info_to_json i = Some s → info_of_json s = Some i ∧ s ≠ "";
}.

(** The primary key of [im_conversations]. *)
Abbreviation conv_key := (Z * string)%type.

Section conversations.
Context `{Json}.

(** * Summaries *)

Definition conversationNumber (value : field_view) : E Z :=
  unsigned_field value "conversation integer".

(** [(text[i] & 0xc0) == 0x80]; the byte after the end is 0. *)
Definition continuation (s : string) (i : nat) : bool :=
  match String.get i s with Some c => Z.land (byte_val c) 192 =? 128 | None => false end.

(** The loop that backs [end_] off to a character boundary. *)
Fixpoint utf8_end (text : string) (end_ : nat) : nat :=
  match end_ with
  | O => O
  | S n => if (S n <? String.length text)%nat && continuation text (S n)
           then utf8_end text n else S n
  end.

Definition conversationPreview (message : MsgData) : E string :=
  if negb (contentType message =? 101)
  then inr ("[message type " +:+ show_int (contentType message) +:+ "]")
  else
    let text := default (content message) (parse_content (content message)) in
    let end_ := utf8_end text (Nat.min (String.length text) 512) in
    match dump_content (take_str end_ text) with
    | Some s => inr s
    | None => inl (RuntimeError "json type_error")
    end.

Definition conversationRow (row : list field_view) : E Conversation :=
  f0 ← at_ row 0; owner ← conversationNumber f0;
  f1 ← at_ row 1; id ← as_string f1;
  f2 ← at_ row 2; peer ← conversationNumber f2;
  f3 ← at_ row 3; pinned ← conversationNumber f3;
  f4 ← at_ row 4; opt ← conversationNumber f4;
  f5 ← at_ row 5; min ← conversationNumber f5;
  f6 ← at_ row 6; max ← conversationNumber f6;
  f7 ← at_ row 7; rd ← conversationNumber f7;
  f8 ← at_ row 8; unread ← conversationNumber f8;
  f9 ← at_ row 9; latest ← as_string f9;
  info ← (if str_empty latest then inr MsgInfo_default
          else match info_of_json latest with
               | Some i => inr i
               | None => inl (RuntimeError "Invalid stored conversation summary")
               end);
  mret (mkConversation owner id 1 peer (negb (pinned =? 0)) (to_int32 opt) (to_int64 min)
          (to_int64 max) (to_int64 rd) (to_int64 unread) info).

Fixpoint conversationRows (rows : list (list field_view)) : E (list Conversation) :=
  match rows with
  | [] => mret []
  | row :: rows => item ← conversationRow row; items ← conversationRows rows; mret (item :: items)
  end.

(** ** SQL on conversations *)

(** The selected columns of a row ([conversationColumns]). *)
Definition conversation_columns (p : conv_key * ConversationRow) : list field_view :=
  let '((owner, id), r) := p in
  [FUint64 owner; FString id; FUint64 (c_peer r); FUint64 (c_is_pinned r);
   FUint64 (c_recv_msg_opt r); FInt64 (c_min_seq r); FInt64 (c_max_seq r);
   FInt64 (c_read_seq r); FUint64 (c_unread_count r); FString (c_latest_message r)].

(** ORDER BY is_pinned DESC, latest_time DESC, conversation_id DESC *)
Definition list_before (p q : conv_key * ConversationRow) : Prop :=
  c_is_pinned q.2 < c_is_pinned p.2 ∨
  (c_is_pinned q.2 = c_is_pinned p.2 ∧
    (c_latest_time q.2 < c_latest_time p.2 ∨
     (c_latest_time q.2 = c_latest_time p.2 ∧ String.le q.1.2 p.1.2))).

#[global] Instance list_before_dec : RelDecision list_before.
Proof. intros p q. unfold list_before. apply _. Defined.

Definition visible (owner : Z) (k : conv_key) (r : ConversationRow) : bool :=
  (k.1 =? owner) && (c_is_hidden r =? 0).

Definition visible_in (owner : Z) (ids : list string) (k : conv_key) (r : ConversationRow) : bool :=
  visible owner k r && match ids with [] => true | _ => bool_decide (k.2 ∈ ids) end.

Definition ordered (P : conv_key → ConversationRow → bool) (d : Database)
    : list (conv_key * ConversationRow) :=
  merge_sort list_before
    (filter (λ p, P p.1 p.2 = true) (map_to_list (t_im_conversations d))).

(** INSERT ... ON DUPLICATE KEY UPDATE; the assignments run left to right and
    the maximum is updated last. *)
Definition upsert_conversation (owner : Z) (id : string) (peer sq time : Z) (json : string)
    (m : gmap conv_key ConversationRow) : gmap conv_key ConversationRow :=
  match m !! (owner, id) with
  | None => <[(owner, id) := mkConversationRow peer 0 0 0 0 sq 0 0 time json]> m
  | Some r =>
      let newer := c_max_seq r <? sq in
      <[(owner, id) := mkConversationRow (c_peer r) (c_is_pinned r) (c_recv_msg_opt r)
          (if newer then 0 else c_is_hidden r) (c_min_seq r) (Z.max (c_max_seq r) sq)
          (c_read_seq r) (c_unread_count r)
          (if newer then time else c_latest_time r)
          (if newer then json else c_latest_message r)]> m
  end.

(** INSERT IGNORE ... SELECT ... WHERE read_seq<seq AND min_seq<seq; affected rows. *)
Definition insert_unread (owner : Z) (id : string) (sq : Z) (d : Database) : Z * Database :=
  match t_im_conversations d !! (owner, id) with
  | Some r =>
      if (c_read_seq r <? sq) && (c_min_seq r <? sq) &&
         negb (bool_decide ((owner, id, sq) ∈ t_im_conversation_unread d))
      then (1, set_im_conversation_unread (λ s, {[ (owner, id, sq) ]} ∪ s) d)
      else (0, d)
  | None => (0, d)
  end.

Definition with_unread (n : Z) (r : ConversationRow) : ConversationRow :=
  mkConversationRow (c_peer r) (c_is_pinned r) (c_recv_msg_opt r) (c_is_hidden r) (c_min_seq r)
    (c_max_seq r) (c_read_seq r) n (c_latest_time r) (c_latest_message r).

Definition bump_unread (owner : Z) (id : string) (d : Database) : unit * Database :=
  (tt, set_im_conversations
         (alter (λ r, with_unread (c_unread_count r + 1) r) (owner, id)) d).

Definition summary (message : MsgData) (preview : string) : MsgInfo :=
  mkMsgInfo (serverMsgID message) (clientMsgID message) 1 (sendID message) (recvID message)
    (senderNickname message) (to_int64 (sendTime message)) (contentType message) preview.

Definition summary_json (message : MsgData) : E string :=
  preview ← conversationPreview message;
  match info_to_json (summary message preview) with
  | Some json => inr json
  | None => inl (RuntimeError "Unable to serialize conversation summary")
  end.

Definition RecordConversationMessage (message : MsgData) : M unit :=
  if isGroupMsg message || (seq message <=? 0)
  then throw (InvalidArgument "Invalid single-chat conversation message")
  else
    json ← lift (summary_json message);
    let upsert owner peer :=
      upsert_conversation owner (convID message) peer (seq message)
        (to_uint64 (sendTime message)) json in
    update (λ d, (tt, set_im_conversations
      (λ m, upsert (recvID message) (sendID message) (upsert (sendID message) (recvID message) m)) d));;
    n ← update (insert_unread (recvID message) (convID message) (seq message));
    when (negb (n =? 0)) (update (bump_unread (recvID message) (convID message))).

(** DELETE FROM im_conversations WHERE conversation_id={}, with the cascade to the
    unread rows. *)
Definition delete_pair (id : string) (d : Database) : unit * Database :=
  (tt, set_im_conversation_unread (filter (λ p, p.1.2 ≠ id))
         (set_im_conversations (filter (λ p, p.1.2 ≠ id)) d)).

Definition DeleteConversationPair (id : string) : M unit := update (delete_pair id).

(** ** Reading *)

Definition ListConversations (owner : Z) : M (list Conversation) :=
  with_connection (
    rows ← query (λ d, conversation_columns <$> ordered (visible owner) d);
    lift (conversationRows rows)).

Definition FindConversation (owner : Z) (id : string) : M (option Conversation) :=
  with_connection (
    rows ← query (λ d, conversation_columns <$>
      ordered (λ k r, visible owner k r && bool_decide (k.2 = id)) d);
    match rows with
    | [] => mret None
    | row :: _ => item ← lift (conversationRow row); mret (Some item)
    end).

Definition sum_unread (l : list (conv_key * ConversationRow)) : Z :=
  foldr (λ p n, c_unread_count p.2 + n) 0 l.

(** [sum.is_string() ? stoll : number] *)
Definition sum_field (f : field_view) : E Z :=
  match f with
  | FString s =>
      match stoll s with
      | inr z => inr z
      | inl false => inl (InvalidArgument "stoll")
      | inl true => inl (RuntimeError "stoll")
      end
  | _ => z ← conversationNumber f; mret (to_int64 z)
  end.

Definition elem_of (item : Conversation) : ConversationElem :=
  mkElem (cv_id item) (cv_recvMsgOpt item) (cv_unread item) (cv_pinned item) (cv_latest item).

(** [std::clamp] *)
Definition clamp (v lo hi : Z) : Z := if v <? lo then lo else if hi <? v then hi else v.

Definition page_rows (req : SortedReq) (d : Database) : list (list field_view) :=
  let page := Z.max 1 (sr_pageNumber req) in
  let size := clamp (sr_showNumber req) 1 100 in
  let offset := (page - 1) * size in
  conversation_columns <$>
    take (Z.to_nat size) (drop (Z.to_nat offset) (ordered (visible_in (sr_user req) (sr_ids req)) d)).

Definition SortedConversations (req : SortedReq) : M SortedResp :=
  if (sr_user req =? 0) || (1000 <? Z.of_nat (length (sr_ids req)))
  then throw (InvalidArgument "Invalid conversation list request")
  else with_connection (
    set_session;;
    conversationTransaction (
      totals ← query (λ d, let l := ordered (visible_in (sr_user req) (sr_ids req)) d in
        (FInt64 (Z.of_nat (length l)), FString (to_string (sum_unread l))));
      total ← lift (conversationNumber totals.1);
      unread ← lift (sum_field totals.2);
      rows ← query (page_rows req);
      items ← lift (conversationRows rows);
      mret (mkSortedResp (to_int64 total) unread (elem_of <$> items)))).

(** ** Read positions and settings *)

(** DELETE FROM im_conversation_unread ... AND seq<={}; affected rows. *)
Definition delete_unread (owner : Z) (id : string) (sq : Z) (d : Database) : Z * Database :=
  let gone := filter (λ p, p.1 = (owner, id) ∧ p.2 <= sq) (t_im_conversation_unread d) in
  (Z.of_nat (size gone), set_im_conversation_unread (λ s, s ∖ gone) d).

Definition advance_read (sq removed : Z) (r : ConversationRow) : ConversationRow :=
  mkConversationRow (c_peer r) (c_is_pinned r) (c_recv_msg_opt r) (c_is_hidden r) (c_min_seq r)
    (c_max_seq r) sq (c_unread_count r - Z.min (c_unread_count r) removed) (c_latest_time r)
    (c_latest_message r).

(** The action of the transaction. *)
Definition mark_read (owner : Z) (id : string) (sq : Z) : M bool :=
  row ← query (λ d, (λ r, (c_max_seq r, c_read_seq r)) <$> t_im_conversations d !! (owner, id));
  match row with
  | None => mret false
  | Some (maxs, reads) =>
      if sq <=? 0 then mret false
      else
        top ← lift (conversationNumber (FInt64 maxs));
        if top <? to_uint64 sq then mret false
        else
          old ← lift (conversationNumber (FInt64 reads));
          if to_uint64 sq <=? old then mret true
          else
            removed ← update (delete_unread owner id sq);
            update (λ d, (tt, set_im_conversations (alter (advance_read sq removed) (owner, id)) d));;
            mret true
  end.

Definition MarkConversationRead (owner : Z) (id : string) (sq : Z) : M bool :=
  with_connection (conversationTransaction (mark_read owner id sq)).

Definition apply_settings (hasPinned pinned hasOpt : bool) (opt : Z) (r : ConversationRow)
    : ConversationRow :=
  mkConversationRow (c_peer r) (if hasPinned then (if pinned then 1 else 0) else c_is_pinned r)
    (if hasOpt then opt else c_recv_msg_opt r) (c_is_hidden r) (c_min_seq r) (c_max_seq r)
    (c_read_seq r) (c_unread_count r) (c_latest_time r) (c_latest_message r).

(** The result is the number of changed rows. *)
Definition update_settings (owner : Z) (id : string) (hasPinned pinned hasOpt : bool) (opt : Z)
    (d : Database) : Z * Database :=
  match t_im_conversations d !! (owner, id) with
  | Some r =>
      if c_is_hidden r =? 0 then
        let r' := apply_settings hasPinned pinned hasOpt opt r in
        (if (c_is_pinned r' =? c_is_pinned r) && (c_recv_msg_opt r' =? c_recv_msg_opt r)
         then 0 else 1,
         set_im_conversations <[(owner, id) := r']> d)
      else (0, d)
  | None => (0, d)
  end.

Definition UpdateConversationSettings (owner : Z) (id : string) (hasPinned pinned hasOpt : bool)
    (opt : Z) : M bool :=
  if (negb hasPinned && negb hasOpt) || (hasOpt && ((opt <? 0) || (1 <? opt)))
  then throw (InvalidArgument "Invalid conversation settings")
  else with_connection (
    n ← update (update_settings owner id hasPinned pinned hasOpt opt);
    if negb (n =? 0) then mret true
    else query (λ d, match t_im_conversations d !! (owner, id) with
                     | Some r => c_is_hidden r =? 0
                     | None => false
                     end)).

Definition hide_row (r : ConversationRow) : ConversationRow :=
  mkConversationRow (c_peer r) (c_is_pinned r) (c_recv_msg_opt r) 1 (c_min_seq r) (c_max_seq r)
    (c_max_seq r) 0 (c_latest_time r) (c_latest_message r).

Definition hide_conversation (owner : Z) (id : string) : M bool :=
  row ← query (λ d, c_max_seq <$> t_im_conversations d !! (owner, id));
  match row with
  | None => mret true
  | Some _ =>
      update (λ d, (tt, set_im_conversation_unread (filter (λ p, p.1 ≠ (owner, id))) d));;
      update (λ d, (tt, set_im_conversations (alter hide_row (owner, id)) d));;
      mret true
  end.

Definition DeleteConversation (owner : Z) (id : string) : M bool :=
  with_connection (conversationTransaction (hide_conversation owner id)).
End conversations.

(** * The service handlers *)

(** [grpc::Status] as the handlers finish with it. *)
Inductive grpc_status := Status_OK | Status (code message : string).

(** [catch (const std::exception&)] around a handler: the response is lost. *)
Definition handle {A} (unavailable : grpc_status) (m : M (grpc_status * A)) (none : A)
    : M (grpc_status * A) :=
  r ← catch m;
  match r with inr x => mret x | inl _ => mret (unavailable, none) end.

Section service.
Context `{Json}.

Definition svc_GetAllConversations (owner : Z) : M (grpc_status * list Conversation) :=
  handle (Status "INTERNAL" "Conversation list unavailable")
    (if owner =? 0 then mret (Status "INVALID_ARGUMENT" "Missing owner", [])
     else items ← ListConversations owner; mret (Status_OK, items)) [].

Definition svc_GetConversation (owner : Z) (id : string) : M (grpc_status * option Conversation) :=
  handle (Status "INTERNAL" "Conversation unavailable")
    (found ← FindConversation owner id;
     match found with
     | None => mret (Status "NOT_FOUND" "Conversation not found", None)
     | Some item => mret (Status_OK, Some item)
     end) None.

Definition svc_GetSortedConversationList (req : SortedReq) : M (grpc_status * option SortedResp) :=
  handle (Status "INTERNAL" "Conversation list unavailable")
    (resp ← SortedConversations req; mret (Status_OK, Some resp)) None.

Definition svc_MarkConversationRead (owner : Z) (id : string) (sq : Z) : M (grpc_status * unit) :=
  handle (Status "INTERNAL" "Read update unavailable")
    (if (owner =? 0) || str_empty id || (sq <=? 0)
     then mret (Status "INVALID_ARGUMENT" "Invalid read position", tt)
     else
       updated ← MarkConversationRead owner id sq;
       mret (if (updated : bool) then Status_OK
             else Status "FAILED_PRECONDITION" "Invalid read position or missing conversation", tt)) tt.

Definition svc_UpdateConversationSettings (owner : Z) (id : string)
    (hasPinned pinned hasOpt : bool) (opt : Z) : M (grpc_status * unit) :=
  handle (Status "INTERNAL" "Settings unavailable")
    (if (owner =? 0) || str_empty id then mret (Status "INVALID_ARGUMENT" "Invalid conversation", tt)
     else
       updated ← UpdateConversationSettings owner id hasPinned pinned hasOpt opt;
       mret (if (updated : bool) then Status_OK
             else Status "NOT_FOUND" "Conversation not found", tt)) tt.

Definition svc_DeleteConversation (owner : Z) (id : string) : M (grpc_status * unit) :=
  handle (Status "INTERNAL" "Conversation deletion unavailable")
    (if (owner =? 0) || str_empty id then mret (Status "INVALID_ARGUMENT" "Invalid conversation", tt)
     else DeleteConversation owner id;; mret (Status_OK, tt)) tt.
End service.
