(* ===== verification/Samples.v ===== *)
(** Concrete instances of the parameters, on which the theorems are evaluated:
    encoders that know one message each, and small worlds. *)
From S2P Require Import Prelude Table Snowflake Schema Effects Users Stores Conversations.

Definition sample_message : MsgData :=
  mkMsgData 7 9 "7_9" "c1" "m1" 1 "ann" "" 1 0 101 "hello" 5 1750000000000 0
    false false false false false "".

Definition sample_summary : MsgInfo :=
  mkMsgInfo "m1" "c1" 1 7 9 "ann" 1750000000000 101 "{hello}".

#[global] Instance MsgInfo_eq_dec : EqDecision MsgInfo.
Proof. solve_decision. Defined.

(** Each encoder knows one message and one summary, and fails on the rest. *)
Definition json_for (message : MsgData) (summary : MsgInfo) : Json := {|
  msg_to_json m := if decide (m = message) then Some "M" else None;
  msg_of_json s := if decide (s = "M") then Some message else None;
  info_to_json i := if decide (i = summary) then Some "I" else None;
  info_of_json s := if decide (s = "I") then Some summary else None;
  parse_content s := None;
  dump_content s := Some ("{" +:+ s +:+ "}");
|}.

Lemma json_for_ok message summary : JsonOk (H:=json_for message summary).
Proof.
  split; intros x s; unfold msg_to_json, info_to_json; cbn; case_decide; [|done| |done];
    subst; by intros [= <-].
Qed.

#[export] Instance sample_json : Json := json_for sample_message sample_summary.
#[export] Instance sample_json_ok : JsonOk := json_for_ok sample_message sample_summary.

#[export] Instance sample_protobuf : Protobuf := {|
  serialize_msg m := if decide (m = sample_message) then "P" else "";
  parse_msg s := if decide (s = "P") then Some sample_message else None;
|}.

(** * A serializer of every message *)

(** A value in front of a string, and back: enough for an instance of [Protobuf] that
    satisfies its law. *)
Record codec (A : Type) := mkCodec {
  enc : A → string → string;
  dec : string → option (A * string);
  dec_enc a s : dec (enc a s) = Some (a, s);
}.
Arguments enc {_} _ _ _.
Arguments dec {_} _ _.

Fixpoint put_string (x s : string) : string :=
  match x with
  | EmptyString => String "0" s
  | String c x => String "1" (String c (put_string x s))
  end.
Fixpoint take_string (fuel : nat) (s : string) : option (string * string) :=
  match fuel, s with
  | S n, String "1" (String c s) => '(x, r) ← take_string n s; Some (String c x, r)
  | S _, String "0" s => Some ("", s)
  | _, _ => None
  end.

Lemma take_put_string x s n :
  (String.length (put_string x s) <= n)%nat → take_string n (put_string x s) = Some (x, s).
Proof.
  revert n. induction x as [|c x IH]; intros [|n]; cbn; try lia; [done|].
  intros Hn. by rewrite IH by lia.
Qed.

Definition string_codec : codec string :=
  mkCodec _ put_string (λ s, take_string (String.length s) s)
    (λ x s, take_put_string x s _ (le_n _)).

Definition put_bool (b : bool) (s : string) : string := String (if b then "1" else "0") s.
Definition take_bool (s : string) : option (bool * string) :=
  match s with String c s => Some (bool_decide (c = "1"%char), s) | _ => None end.
Lemma take_put_bool b s : take_bool (put_bool b s) = Some (b, s).
Proof. by destruct b. Qed.
Definition bool_codec : codec bool := mkCodec _ put_bool take_bool take_put_bool.

Fixpoint digits (p : positive) : string :=
  match p with xH => "" | xO p => String "0" (digits p) | xI p => String "1" (digits p) end.
Fixpoint number_of (s : string) : positive :=
  match s with
  | EmptyString => xH
  | String c s => if bool_decide (c = "1"%char) then xI (number_of s) else xO (number_of s)
  end.
Lemma number_of_digits p : number_of (digits p) = p.
Proof. induction p as [p IH|p IH|]; cbn; [by rewrite IH..|done]. Qed.

Definition integer_text (z : Z) : string :=
  match z with Z0 => "" | Zpos p => String "+" (digits p) | Zneg p => String "-" (digits p) end.
Definition text_integer (s : string) : Z :=
  match s with
  | EmptyString => 0
  | String c s => if bool_decide (c = "+"%char) then Zpos (number_of s) else Zneg (number_of s)
  end.

Definition put_Z (z : Z) : string → string := enc string_codec (integer_text z).
Definition take_Z (s : string) : option (Z * string) :=
  '(x, r) ← dec string_codec s; Some (text_integer x, r).
Lemma take_put_Z z s : take_Z (put_Z z s) = Some (z, s).
Proof. unfold take_Z, put_Z. rewrite dec_enc. destruct z; cbn; by rewrite ?number_of_digits. Qed.
Definition Z_codec : codec Z := mkCodec _ put_Z take_Z take_put_Z.

Section pair.
Context {A B : Type} (a : codec A) (b : codec B).
Definition put_pair (p : A * B) (s : string) : string := enc a p.1 (enc b p.2 s).
Definition take_pair (s : string) : option (A * B * string) :=
  '(x, s) ← dec a s; '(y, s) ← dec b s; Some ((x, y), s).
Lemma take_put_pair p s : take_pair (put_pair p s) = Some (p, s).
Proof. unfold take_pair, put_pair. rewrite dec_enc. cbn. rewrite dec_enc. by destruct p. Qed.
Definition pair_codec : codec (A * B) := mkCodec _ put_pair take_pair take_put_pair.
End pair.

Definition message_codec :=
  let s := string_codec in let z := Z_codec in let b := bool_codec in
  pair_codec (pair_codec (pair_codec z z) (pair_codec (pair_codec s s) (pair_codec s z)))
    (pair_codec (pair_codec (pair_codec s s) (pair_codec (pair_codec z z) (pair_codec z s)))
       (pair_codec (pair_codec z (pair_codec z z))
          (pair_codec (pair_codec b (pair_codec b b)) (pair_codec b (pair_codec b s))))).

Definition wire_protobuf : Protobuf := {|
  serialize_msg m := enc message_codec
    (((sendID m, recvID m), ((convID m, clientMsgID m), (serverMsgID m, senderPlatformID m))),
     (((senderNickname m, senderFaceURL m), ((sessionType m, msgFrom m), (contentType m, content m))),
      ((seq m, (sendTime m, status m)),
       ((isRead m, (isDeleted m, isRecalled m)), (isPinned m, (isGroupMsg m, ext m)))))) "";
  parse_msg t :=
    '((((a1, a2), ((a3, a4), (a5, a6))),
      (((a7, a8), ((a9, a10), (a11, a12))),
       ((a13, (a14, a15)), ((a16, (a17, a18)), (a19, (a20, a21)))))), _) ← dec message_codec t;
    Some (mkMsgData a1 a2 a3 a4 a5 a6 a7 a8 a9 a10 a11 a12 a13 a14 a15 a16 a17 a18 a19 a20 a21)
|}.

Lemma wire_ok : ProtobufOk (H:=wire_protobuf).
Proof. intros []. unfold parse_msg, serialize_msg, wire_protobuf. by rewrite dec_enc. Qed.
