(* ===== verification/ConversationTheorems.v ===== *)
(** The theorems on conversation summaries. *)
From S2P Require Import Prelude Table Snowflake Schema Effects Users Conversations Stores Samples ConversationProofs.

Section theorems.
Context `{Json}.

(** C22: the conversation tables stay consistent under every operation, every
    outcome and every failure schedule: a row's unread counter is the number of
    its unread messages, the read position never exceeds the newest message,
    unread messages lie strictly between the two, and a hidden conversation is
    completely read.  Recording and pair deletion run inside a transaction of
    their caller, as the outbox worker does. *)
Theorem conversation_invariant owner id sq hasPinned pinned hasOpt opt message w
    (Hsq : is_int64 sq) (Hinv : conv_inv (w_db w)) (Hn : w_txn w = None) :
  conv_inv (w_db (svc_MarkConversationRead owner id sq w).2) ∧
  conv_inv (w_db (svc_DeleteConversation owner id w).2) ∧
  conv_inv (w_db (svc_UpdateConversationSettings owner id hasPinned pinned hasOpt opt w).2) ∧
  conv_inv (w_db (conversationTransaction (RecordConversationMessage message) w).2) ∧
  conv_inv (w_db (conversationTransaction (DeleteConversationPair id) w).2).
Proof.
  unfold svc_MarkConversationRead, svc_DeleteConversation, svc_UpdateConversationSettings.
  rewrite !handle_db. split; [|split; [|split; [|split]]].
  - destruct (_ || _); [done|]. rewrite bind_mret_db. unfold MarkConversationRead.
    eapply (connected_transaction _ conv_inv); [done|]. intros w0 x w1 Ht Hrun.
    apply mark_read_run_ok in Hrun as Heq; rewrite ?(view_txn _ _ Ht) in *; [|done..].
    replace (view w1) with (mark_read_effect owner id sq (w_db w)).1 by by rewrite <- Heq.
    by apply mark_read_effect_ok.
  - destruct (_ || _); [done|]. rewrite bind_mret_db. unfold DeleteConversation.
    eapply (connected_transaction _ conv_inv); [done|]. intros w0 x w1 Ht Hrun.
    apply hide_conversation_ok in Hrun as [_ ->]. rewrite (view_txn _ _ Ht).
    case_decide as Hrow; [|done]. destruct Hrow as [r Hr]. by eapply hide_ok.
  - destruct (_ || _); [done|]. rewrite bind_mret_db. by apply settings_inv.
  - eapply (in_transaction _ conv_inv); [done| |done]. intros w0 x w1 Ht Hrun.
    apply RecordConversationMessage_ok in Hrun as (json & fs & _ & Hseq & _ & ->).
    world_simpl. rewrite (view_txn _ _ Ht). by apply record_db_ok.
  - eapply (in_transaction _ conv_inv); [done| |done]. intros w0 x w1 Ht Hrun.
    apply update_ok in Hrun as (fs & _ & ->). world_simpl. rewrite (view_txn _ _ Ht).
    by apply delete_pair_ok.
Qed.

(** ** Recording twice *)

Lemma upsert_noop owner id peer sq time json m r :
  m !! (owner, id) = Some r → sq <= c_max_seq r →
  upsert_conversation owner id peer sq time json m = m.
Proof.
  intros Hr Hm. unfold upsert_conversation. rewrite Hr, (proj2 (Z.ltb_ge _ _)) by lia.
  rewrite Z.max_l by lia. apply insert_id. rewrite Hr. by destruct r.
Qed.

Lemma insert_unread_conversations owner id sq d :
  t_im_conversations (insert_unread owner id sq d).2 = t_im_conversations d.
Proof.
  unfold insert_unread. destruct (t_im_conversations d !! (owner, id)); [|done].
  by destruct (_ && _).
Qed.

(** Counting keeps the positions of every row. *)
Lemma count_unread_rows owner id sq d k r :
  t_im_conversations d !! k = Some r →
  ∃ n, t_im_conversations (count_unread owner id sq d) !! k = Some (with_unread n r).
Proof.
  intros Hk. unfold count_unread. pose proof (insert_unread_conversations owner id sq d) as Hd.
  destruct (insert_unread owner id sq d) as [n d']. cbn in Hd.
  assert (Hsame : t_im_conversations d' !! k = Some (with_unread (c_unread_count r) r))
    by (rewrite Hd, Hk; by destruct r).
  destruct (n =? 0); [by eexists|]. unfold bump_unread. cbn [snd].
  change (t_im_conversations (set_im_conversations ?f d')) with (f (t_im_conversations d')).
  destruct (decide ((owner, id) = k)) as [<-|Hne].
  - rewrite lookup_alter_eq, Hsame. by eexists.
  - rewrite lookup_alter_ne by done. by eexists.
Qed.

Lemma count_unread_again owner id sq d :
  count_unread owner id sq (count_unread owner id sq d) = count_unread owner id sq d.
Proof.
  destruct (t_im_conversations d !! (owner, id)) as [r|] eqn:Er.
  2: { assert (Hno : count_unread owner id sq d = d).
       { unfold count_unread, insert_unread. by rewrite Er. }
       by rewrite !Hno. }
  destruct (count_unread_rows owner id sq d _ _ Er) as (n & Hn).
  set (d1 := count_unread owner id sq d) in *.
  assert (Hg : insert_unread owner id sq d1 = (0, d1)); [|unfold count_unread at 1; by rewrite Hg].
  unfold insert_unread. rewrite Hn. cbn [c_read_seq c_min_seq with_unread].
  destruct (_ && _ && _) eqn:E; [|done]. exfalso. bool_to_prop.
  lazymatch goal with Hn : _ ∉ _ |- False => apply Hn end.
  subst d1. unfold count_unread, insert_unread. rewrite Er.
  rewrite (proj2 (Z.ltb_lt _ _)), (proj2 (Z.ltb_lt (c_min_seq r) sq)) by done. cbn [andb].
  case_bool_decide as Hin; cbn [negb Z.eqb]; [done|].
  change (t_im_conversation_unread (bump_unread _ _ (set_im_conversation_unread ?f d)).2)
    with (f (t_im_conversation_unread d)).
  apply elem_of_union. left. by apply elem_of_singleton.
Qed.

Lemma set_conversations_id f d :
  f (t_im_conversations d) = t_im_conversations d → set_im_conversations f d = d.
Proof.
  destruct d as [? ? [c u] ? ?]. unfold set_im_conversations, on_conv, t_im_conversations. cbn.
  by intros ->.
Qed.

Lemma record_db_again message json d :
  record_db message json (record_db message json d) = record_db message json d.
Proof.
  set (d1 := record_db message json d).
  assert (Hkeys : ∀ owner, owner = sendID message ∨ owner = recvID message → ∃ r,
    t_im_conversations d1 !! (owner, convID message) = Some r ∧ seq message <= c_max_seq r).
  { intros owner Ho. unfold d1, record_db. match goal with
    | |- context [count_unread _ _ _ (set_im_conversations ?f d)] => set (up := f) end.
    assert (∃ r, up (t_im_conversations d) !! (owner, convID message) = Some r ∧
              seq message <= c_max_seq r) as (r & Hr & Hm).
    { unfold up. destruct Ho as [->| ->].
      - edestruct upsert_lookup as (r0 & Hr0 & Hm0).
        edestruct upsert_grows as (r & Hr & Hm); [exact Hr0|]. exists r. split; [exact Hr|lia].
      - apply upsert_lookup. }
    destruct (count_unread_rows (recvID message) (convID message) (seq message)
      (set_im_conversations up d) _ _ Hr) as [n Hn]. eexists. split; [exact Hn|done]. }
  destruct (Hkeys (sendID message)) as (r1 & Hr1 & Hm1); [by left|].
  destruct (Hkeys (recvID message)) as (r2 & Hr2 & Hm2); [by right|].
  unfold record_db at 1. rewrite set_conversations_id.
  - apply count_unread_again.
  - rewrite (upsert_noop (sendID message) _ _ _ _ _ _ r1) by done.
    by rewrite (upsert_noop _ _ _ _ _ _ _ r2).
Qed.

(** C23: recording a message is idempotent: a second successful run of
    [RecordConversationMessage] on the same message, as after a retried outbox
    task, leaves the database exactly as the first run did: no unread message
    is counted twice and no summary changes. *)
Theorem record_idempotent message w w1 w2
    (Hfirst : RecordConversationMessage message w = (inr tt, w1))
    (Hsecond : RecordConversationMessage message w1 = (inr tt, w2)) :
  view w2 = view w1.
Proof.
  apply RecordConversationMessage_ok in Hfirst as (json & fs & Hj & _ & _ & ->).
  apply RecordConversationMessage_ok in Hsecond as (json' & fs' & Hj' & _ & _ & ->).
  assert (json' = json) as -> by congruence. world_simpl. apply record_db_again.
Qed.

(** ** Read positions *)

(** The database [d'] after the owner has read up to [sq] in [d]. *)
Record read_up_to (k : conv_key) (sq : Z) (d d' : Database) : Prop := mkReadUpTo {
  ru_valid : 0 < sq;
  ru_row : ∃ r r', t_im_conversations d !! k = Some r ∧ t_im_conversations d' !! k = Some r' ∧
    sq <= c_max_seq r ∧ c_read_seq r' = Z.max (c_read_seq r) sq ∧
    c_unread_count r' = Z.of_nat (size (unread_of k (t_im_conversation_unread d'))) ∧
    c_max_seq r' = c_max_seq r ∧ c_is_hidden r' = c_is_hidden r ∧ c_is_pinned r' = c_is_pinned r;
  ru_unread p : p ∈ t_im_conversation_unread d' ↔
    p ∈ t_im_conversation_unread d ∧ (p.1 = k → sq < p.2);
  ru_others k' : k' ≠ k → t_im_conversations d' !! k' = t_im_conversations d !! k';
}.

Lemma mark_read_db_rows owner id sq d :
  t_im_conversations (mark_read_db owner id sq d) =
  alter (advance_read sq (Z.of_nat (size (unread_upto (owner, id) sq (t_im_conversation_unread d)))))
    (owner, id) (t_im_conversations d).
Proof. done. Qed.

Lemma mark_read_db_unread owner id sq d :
  t_im_conversation_unread (mark_read_db owner id sq d) =
  t_im_conversation_unread d ∖ unread_upto (owner, id) sq (t_im_conversation_unread d).
Proof. done. Qed.

Lemma mark_read_effect_spec owner id sq d :
  conv_inv d →
  let '(d', b) := mark_read_effect owner id sq d in
  (b = true → read_up_to (owner, id) sq d d') ∧
  (b = false → d' = d ∧ ∀ r, t_im_conversations d !! (owner, id) = Some r →
     ¬ 0 < sq <= c_max_seq r).
Proof.
  intros Hinv. pose proof (mark_read_effect_ok owner id sq d Hinv) as Hinv'.
  destruct (mark_read_effect owner id sq d) as [d' b] eqn:E. unfold mark_read_effect in E.
  destruct (t_im_conversations d !! (owner, id)) as [r|] eqn:Er; [|by injection E as <- <-].
  destruct (_ || _) eqn:E1.
  { injection E as <- <-. split; [done|]. intros _. split; [done|]. intros ? [= <-].
    apply orb_true_iff in E1 as [?%Z.leb_le|?%Z.ltb_lt]; lia. }
  bool_to_prop. destruct (sq <=? c_read_seq r) eqn:E2; bool_to_prop; injection E as <- <-.
  - split; [|done]. intros _. split; [done| |intros p|done].
    + exists r, r. rewrite Z.max_l by done. rewrite <- (co_count _ _ Hinv _ _ Er). done.
    + split; [|tauto]. intros Hp. split; [done|]. destruct p as [k q]. cbn. intros ->.
      destruct (co_range _ _ Hinv _ _ Hp) as (x & Hx & ?). assert (x = r) as -> by congruence. lia.
  - split; [|done]. intros _. unfold conv_inv in Hinv'. cbn [fst] in Hinv'.
    rewrite mark_read_db_rows, mark_read_db_unread in Hinv'.
    split; rewrite ?mark_read_db_rows, ?mark_read_db_unread.
    + done.
    + eexists r, _. rewrite Z.max_r by lia. split; [done|].
      rewrite lookup_alter_eq, Er. do 2 (split; [done|]). split; [done|]. split; [|done].
      apply (co_count _ _ Hinv'). by rewrite lookup_alter_eq, Er.
    + intros p. unfold unread_upto. rewrite elem_of_difference, elem_of_filter. split.
      * intros [? Hn]. split; [done|]. intros Hk. destruct (Z.le_gt_cases p.2 sq); [|lia]. tauto.
      * intros [? Hn]. split; [done|]. intros [[Hk ?] _]. specialize (Hn Hk). lia.
    + intros k Hk. by rewrite lookup_alter_ne.
Qed.

(** [MarkConversationRead] moves the read position to the given sequence
    number, never backwards, drops exactly the unread messages up to it and
    recounts the rest.  It answers true exactly then, false exactly when the
    position is not positive or beyond the newest message (or there is no such
    conversation) and nothing changes; a failure leaves the old state or that
    of a complete update; without failures it does not fail. *)
Theorem mark_conversation_read_spec owner id sq w
    (Hsq : is_int64 sq) (Hinv : conv_inv (w_db w)) :
  let '(res, w') := MarkConversationRead owner id sq w in
  match res with
  | inr true => read_up_to (owner, id) sq (w_db w) (w_db w')
  | inr false => w_db w' = w_db w ∧ ∀ r,
      t_im_conversations (w_db w) !! (owner, id) = Some r → ¬ 0 < sq <= c_max_seq r
  | inl _ => w_faults w ≠ [] ∧
      (w_db w' = w_db w ∨ read_up_to (owner, id) sq (w_db w) (w_db w'))
  end.
Proof.
  pose proof (mark_read_effect_spec owner id sq (w_db w) Hinv) as Hspec.
  destruct (MarkConversationRead owner id sq w) as [res w'] eqn:E.
  destruct res as [e|b].
  - split; [intros Hf; by apply (mark_read_progress owner id sq w e w' Hsq Hinv Hf)|].
    apply with_connection_err in E as [(_ & -> & _)|(fs & w1 & E & ->)]; [by left|].
    change (w_db (with_txn (w_txn w) w1)) with (w_db w1).
    apply conversationTransaction_err in E
      as [->|(c & fs1 & x & w2 & d & _ & Hrun & Ht & ->)]; [by left| |apply _|done].
    apply mark_read_run_ok in Hrun; [|done..]. rewrite (view_txn d) in Hrun by done.
    change (view (tx_start fs1 (with_faults fs (with_txn None w)))) with (w_db w) in Hrun.
    rewrite <- Hrun in Hspec. destruct x; [right; by apply Hspec|left; by apply Hspec].
  - apply with_connection_ok in E as (fs & w1 & E & ->).
    apply conversationTransaction_ok in E as (fs1 & w2 & d & Hrun & Ht & fs2 & ->);
      [|apply _|done].
    apply mark_read_run_ok in Hrun; [|done..]. rewrite (view_txn d) in Hrun by done.
    change (view (tx_start fs1 (with_faults fs (with_txn None w)))) with (w_db w) in Hrun.
    rewrite <- Hrun in Hspec. by destruct b; apply Hspec.
Qed.
(** ** The sorted list *)

Lemma set_session_ok w u w' : set_session w = (inr u, w') → ∃ fs, w' = with_faults fs w.
Proof. intros (_ & fs & ->)%query_ok. eauto. Qed.

(** What a successful page request returns. *)
Lemma SortedConversations_ok req w resp w' :
  SortedConversations req w = (inr resp, w') →
  let l := ordered (visible_in (sr_user req) (sr_ids req)) (w_db w) in
  let size := clamp (sr_showNumber req) 1 100 in
  let offset := (Z.max 1 (sr_pageNumber req) - 1) * size in
  sp_total resp = to_int64 (Z.of_nat (length l)) ∧
  stoll (to_string (sum_unread l)) = inr (sp_unread resp) ∧
  ce_id <$> sp_elems resp =
    take (Z.to_nat size) (drop (Z.to_nat offset) ((λ p : conv_key * ConversationRow, p.1.2) <$> l)).
Proof.
  intros Hrun. unfold SortedConversations in Hrun. destruct (_ || _); [done|].
  apply with_connection_ok in Hrun as (fs & w1 & Hrun & _).
  apply bind_ok in Hrun as (u & w2 & [fs1 ->]%set_session_ok & Hrun).
  apply conversationTransaction_ok in Hrun as (fs2 & w3 & d & Hrun & _); [|apply _|done].
  apply bind_ok in Hrun as (totals & w4 & (-> & fs3 & ->)%query_ok & Hrun).
  apply bind_ok in Hrun as (total & w4 & [Ht ->]%lift_ok & Hrun).
  apply bind_ok in Hrun as (unread & w4 & [Hs ->]%lift_ok & Hrun).
  apply bind_ok in Hrun as (rows & w4 & (-> & fs4 & ->)%query_ok & Hrun).
  apply bind_ok in Hrun as (items & w4 & [Hi ->]%lift_ok & [<- _]%ret_ok).
  match type of Hi with context [page_rows req ?db] => change db with (w_db w) in * end.
  cbn [fst snd] in *.
  match type of Ht with context [length ?x] => set (l := x) in * end.
  unfold conversationNumber, unsigned_field in Ht. rewrite (proj2 (Z.leb_le 0 _)) in Ht by lia.
  injection Ht as <-. cbn zeta. split; [done|]. split.
  - cbn [sum_field sp_unread] in *.
    match type of Hs with context [stoll ?x] => change x with (to_string (sum_unread l)) in * end.
    destruct (stoll _) as [[]|z]; [done|done|congruence].
  - unfold page_rows in Hi. apply conversationRows_ids in Hi.
    cbn [sp_elems]. rewrite <- list_fmap_compose. change (ce_id ∘ elem_of) with cv_id.
    rewrite Hi, fmap_take, fmap_drop. done.
Qed.

(** The paged conversation list: requests for pages 1 to [k] that succeed on
    the same committed database return consecutive parts of one list, pinned
    conversations first, newest first and without repetition, which holds
    exactly the visible conversations of the user (those asked for, when the
    request names some); every page reports the length of the whole list and
    the sum of its unread counters. *)
Theorem sorted_conversations_pages user ids size k w (resp : nat → SortedResp)
    (Hsize : 1 <= size <= 100)
    (Hruns : ∀ i, (i < k)%nat → ∃ w', SortedConversations
       (mkSortedReq user ids (Z.of_nat i + 1) size) w = (inr (resp i), w')) :
  let l := ordered (visible_in user ids) (w_db w) in
  StronglySorted list_before l ∧ NoDup l.*1 ∧
  (∀ key r, (key, r) ∈ l ↔ t_im_conversations (w_db w) !! key = Some r ∧
     key.1 = user ∧ c_is_hidden r = 0 ∧ (ids = [] ∨ key.2 ∈ ids)) ∧
  concat ((λ i, ce_id <$> sp_elems (resp i)) <$> List.seq 0 k) =
    take (k * Z.to_nat size) ((λ p, p.1.2) <$> l) ∧
  ∀ i, (i < k)%nat → sp_total (resp i) = to_int64 (Z.of_nat (length l)) ∧
    (0 <= sum_unread l <= int64_max → sp_unread (resp i) = sum_unread l).
Proof.
  intros l. split; [apply ordered_sorted|]. split; [apply ordered_NoDup|]. split.
  { intros key r. unfold l. rewrite elem_of_ordered. unfold visible_in, visible.
    rewrite !andb_true_iff, !Z.eqb_eq. destruct ids; [tauto|].
    rewrite bool_decide_eq_true. split; [tauto|].
    intros (? & ? & ? & [?|?]); [done|tauto]. }
  assert (Hpage : ∀ i, (i < k)%nat →
    sp_total (resp i) = to_int64 (Z.of_nat (length l)) ∧
    stoll (to_string (sum_unread l)) = inr (sp_unread (resp i)) ∧
    ce_id <$> sp_elems (resp i) =
      take (Z.to_nat size) (drop (i * Z.to_nat size) ((λ p : conv_key * ConversationRow, p.1.2) <$> l))).
  { intros i Hi. destruct (Hruns i Hi) as [w' Hrun].
    apply SortedConversations_ok in Hrun as (Ht & Hs & He). cbn [sr_user sr_ids] in *.
    split; [exact Ht|]. split; [exact Hs|]. rewrite He. unfold clamp. cbn [sr_showNumber sr_pageNumber].
    rewrite (proj2 (Z.ltb_ge size 1)), (proj2 (Z.ltb_ge 100 size)), Z.max_r by lia.
    do 2 f_equal. lia. }
  split.
  - rewrite <- pages_concat. f_equal. apply list_fmap_ext. intros j i Hi.
    apply lookup_seq in Hi as [-> Hi]. by apply Hpage.
  - intros i Hi. destruct (Hpage i Hi) as (? & Hs & _). split; [done|].
    intros Hb. rewrite stoll_to_string in Hs by done. by injection Hs.
Qed.
(** ** Settings *)

(** Settings apply to visible conversations only: the answer is true
    exactly when the conversation exists and is not hidden, also when the
    requested values are the current ones (zero changed rows); then the row has
    them and nothing else in the database changed.  Otherwise nothing changes. *)
Theorem update_settings_spec owner id hasPinned pinned hasOpt opt w b w'
    (Hrun : UpdateConversationSettings owner id hasPinned pinned hasOpt opt w = (inr b, w')) :
  match t_im_conversations (w_db w) !! (owner, id) with
  | Some r =>
      if c_is_hidden r =? 0 then
        b = true ∧ w_db w' = set_im_conversations
          <[(owner, id) := apply_settings hasPinned pinned hasOpt opt r]> (w_db w) ∧
        (hasPinned || hasOpt = true) ∧ (hasOpt = true → 0 <= opt <= 1)
      else b = false ∧ w_db w' = w_db w
  | None => b = false ∧ w_db w' = w_db w
  end.
Proof.
  unfold UpdateConversationSettings in Hrun. destruct (_ || _) eqn:Eg; [done|].
  apply with_connection_ok in Hrun as (fs & w1 & Hrun & ->).
  apply bind_ok in Hrun as (n & w2 & (fs1 & -> & ->)%update_ok & Hrun).
  change (view (with_faults _ (with_txn None w))) with (w_db w) in Hrun.
  assert (Hdb : w_db w1 = (update_settings owner id hasPinned pinned hasOpt opt (w_db w)).2 ∧
    b = (negb ((update_settings owner id hasPinned pinned hasOpt opt (w_db w)).1 =? 0) ||
         match t_im_conversations (w_db w1) !! (owner, id) with
         | Some r => c_is_hidden r =? 0 | None => false end)).
  { destruct (negb (_ =? 0)) eqn:En; [by apply ret_ok in Hrun as [<- <-]|].
    by apply query_ok in Hrun as (-> & fs2 & ->). }
  change (w_db (with_txn (w_txn w) w1)) with (w_db w1).
  destruct Hdb as [Hdb Hb]. unfold update_settings in Hdb, Hb.
  destruct (t_im_conversations (w_db w) !! (owner, id)) as [r|] eqn:Er.
  2: { cbn in Hdb. rewrite Hdb, Er in Hb. done. }
  destruct (c_is_hidden r =? 0) eqn:Eh; cbn [fst snd] in Hdb.
  2: { rewrite Hdb, Er, Eh in Hb. done. }
  split; [|split; [done|]].
  - rewrite Hb, Hdb. apply orb_true_iff. right.
    change (t_im_conversations (set_im_conversations ?f ?d)) with (f (t_im_conversations d)).
    rewrite lookup_insert_eq. done.
  - apply orb_false_elim in Eg as [Eg1 Eg2]. split.
    + by destruct hasPinned, hasOpt.
    + intros ->. cbn in Eg2. bool_to_prop. lia.
Qed.

(** ** The preview of a text message *)

Lemma utf8_end_spec text n :
  let e := utf8_end text n in
  (e <= n)%nat ∧ (e = 0%nat ∨ continuation text e = false ∨ (String.length text <= e)%nat) ∧
  ∀ j, (e < j <= n)%nat → continuation text j = true.
Proof.
  cbn. induction n as [|n IH]; cbn [utf8_end]; [split; [done|]; split; [by left|lia]|].
  destruct ((S n <? String.length text)%nat && continuation text (S n)) eqn:E.
  - apply andb_prop in E as [Hl Hc]. destruct IH as (IH1 & IH2 & IH3).
    split; [lia|]. split; [done|]. intros j Hj.
    destruct (decide (j = S n)) as [->|]; [done|]. apply IH3. lia.
  - split; [lia|]. split; [|lia]. right.
    apply andb_false_iff in E as [?%Nat.ltb_ge|?]; [by right|by left].
Qed.

Lemma take_str_length n s : String.length (take_str n s) = Nat.min n (String.length s).
Proof.
  revert s. induction n as [|n IH]; intros [|c s]; cbn; [done..|]. by rewrite IH.
Qed.

Lemma take_drop_str n s : take_str n s +:+ drop_str n s = s.
Proof.
  revert s. induction n as [|n IH]; intros [|c s]; cbn; [done..|]. by rewrite IH.
Qed.

Lemma continuation_drop e s i : continuation (drop_str e s) i = continuation s (e + i).
Proof.
  revert s. induction e as [|e IH]; intros [|c s]; cbn [drop_str Nat.add]; [done..|].
  apply IH.
Qed.

Lemma drop_str_all e s : (String.length s <= e)%nat → drop_str e s = "".
Proof.
  revert s. induction e as [|e IH]; intros [|c s]; cbn; intros Hl; [done|lia|done|].
  apply IH. lia.
Qed.

(** The stored preview of a text message is a prefix of the text of at most
    512 bytes that does not end inside a UTF-8 character: the first byte left out is
    no continuation byte (unless nothing is left), and only continuation bytes
    were given up below the limit. *)
Theorem conversationPreview_prefix message out
    (Htext : contentType message = 101) (Hout : conversationPreview message = inr out) :
  let text := default (content message) (parse_content (content message)) in
  ∃ prefix rest, text = prefix +:+ rest ∧ dump_content prefix = Some out ∧
    (String.length prefix <= 512)%nat ∧
    (rest ≠ "" → prefix ≠ "" → continuation rest 0 = false) ∧
    (rest ≠ "" → ∀ j, (String.length prefix < j <= 512)%nat → (j < String.length text)%nat →
       continuation text j = true).
Proof.
  cbn zeta. unfold conversationPreview in Hout. rewrite Htext in Hout. cbn [negb Z.eqb Pos.eqb] in Hout.
  set (text := default _ _) in *.
  destruct (utf8_end_spec text (Nat.min (String.length text) 512)) as (H1 & H2 & H3).
  set (e := utf8_end _ _) in *.
  destruct (dump_content (take_str e text)) as [o|] eqn:Ed; [injection Hout as <-|done].
  exists (take_str e text), (drop_str e text).
  rewrite take_drop_str, take_str_length, Nat.min_l by lia.
  split; [done|]. split; [done|]. split; [lia|]. split.
  - intros Hrest Hpre. rewrite continuation_drop, Nat.add_0_r.
    destruct H2 as [H2|[H2|H2]]; [|done|].
    + rewrite H2 in Hpre. by destruct text.
    + exfalso. apply Hrest. by apply drop_str_all.
  - intros Hrest j Hj Hl. apply H3. lia.
Qed.
End theorems.

Definition record_w0 : World := sample_world empty_db [].
Definition record_w1 : World := (RecordConversationMessage sample_message record_w0).2.
Definition record_w2 : World := (RecordConversationMessage sample_message record_w1).2.

Lemma record_idempotent_witness :
  view record_w2 = view record_w1 ∧ size (t_im_conversation_unread (view record_w1)) = 1%nat.
Proof.
  split; [|by vm_compute].
  apply (record_idempotent sample_message record_w0 record_w1 record_w2); by vm_compute.
Defined.

(** Two pages of one conversation each. *)
Definition two_rows_db : Database :=
  set_im_conversations (λ _, <[(7, "a") := mkConversationRow 9 0 0 0 0 3 1 2 50 ""]>
    (<[(7, "b") := mkConversationRow 8 1 0 0 0 4 4 0 40 ""]> ∅)) empty_db.
Definition pages_world : World := sample_world two_rows_db [].
Definition page_resp (i : nat) : SortedResp :=
  match (SortedConversations (mkSortedReq 7 [] (Z.of_nat i + 1) 1) pages_world).1 with
  | inr r => r
  | inl _ => mkSortedResp 0 0 []
  end.

Lemma sorted_conversations_pages_witness :
  concat ((λ i, ce_id <$> sp_elems (page_resp i)) <$> List.seq 0 2) = ["b"; "a"] ∧
  sp_unread (page_resp 1) = 2.
Proof.
  destruct (sorted_conversations_pages 7 [] 1 2 pages_world page_resp) as (_ & _ & _ & Hc & Hp).
  - done.
  - intros i Hi. apply run_fst. destruct i as [|[|i]]; [vm_compute; reflexivity..|lia].
  - split; [etrans; [exact Hc|vm_compute; reflexivity]|].
    destruct (Hp 1%nat) as [_ Hu]; [lia|].
    rewrite Hu; vm_compute; [reflexivity|split; discriminate].
Defined.

Lemma two_rows_inv : conv_inv (set_im_conversation_unread (λ _, {[(7, "a", 2); (7, "a", 3)]}) two_rows_db).
Proof.
  assert (Hrows : ∀ k r, t_im_conversations two_rows_db !! k = Some r →
    k = (7, "a") ∧ r = mkConversationRow 9 0 0 0 0 3 1 2 50 "" ∨
    k = (7, "b") ∧ r = mkConversationRow 8 1 0 0 0 4 4 0 40 "").
  { intros k r. unfold two_rows_db.
    change (t_im_conversations (set_im_conversations ?f ?d)) with (f (t_im_conversations d)).
    cbv beta. intros [[<- <-]|[_ [[<- <-]|[_ ?]]%lookup_insert_Some]]%lookup_insert_Some;
      [by left|by right|done]. }
  split.
  - by intros k r [[-> ->]|[-> ->]]%Hrows.
  - by intros k r [[-> ->]|[-> ->]]%Hrows.
  - intros k q Hin. change ((k, q) ∈ ({[(7, "a", 2); (7, "a", 3)]} : gset (Z * string * Z))) in Hin.
    assert (k = (7, "a") ∧ 1 < q <= 3) as [-> Hq].
    { apply elem_of_union in Hin as [[= -> ->]%elem_of_singleton|[= -> ->]%elem_of_singleton];
        (split; [done|lia]). }
    eexists. split; [reflexivity|]. cbn. lia.
  - by intros k r [[-> ->]|[-> ->]]%Hrows.
Qed.

Definition unread_db : Database :=
  set_im_conversation_unread (λ _, {[(7, "a", 2); (7, "a", 3)]}) two_rows_db.
Definition unread_world : World := sample_world unread_db [NoFault; NoFault; FailAfter 2013].

Lemma conversation_invariant_witness :
  conv_inv (w_db (@svc_MarkConversationRead 7 "a" 2 unread_world).2).
Proof.
  apply (@conversation_invariant sample_json 7 "a" 2 true true false 0 sample_message unread_world).
  - unfold is_int64. by vm_compute.
  - apply two_rows_inv.
  - reflexivity.
Defined.

Definition read_world : World := sample_world unread_db [].

Lemma mark_conversation_read_spec_witness :
  let '(res, w') := MarkConversationRead 7 "a" 2 read_world in
  match res with
  | inr true => read_up_to (7, "a") 2 (w_db read_world) (w_db w')
  | inr false => w_db w' = w_db read_world ∧ ∀ r,
      t_im_conversations (w_db read_world) !! (7, "a") = Some r → ¬ 0 < 2 <= c_max_seq r
  | inl _ => w_faults read_world ≠ [] ∧
      (w_db w' = w_db read_world ∨ read_up_to (7, "a") 2 (w_db read_world) (w_db w'))
  end.
Proof.
  apply (mark_conversation_read_spec 7 "a" 2 read_world).
  - unfold is_int64. by vm_compute.
  - apply two_rows_inv.
Defined.

(** The row of "b" is pinned already: no row changes, the answer is still true. *)
Definition settings_world : World :=
  (UpdateConversationSettings 7 "b" true true false 0 read_world).2.

Lemma update_settings_spec_witness :
  true = true ∧ w_db settings_world = set_im_conversations
    <[(7, "b") := mkConversationRow 8 1 0 0 0 4 4 0 40 ""]> (w_db read_world).
Proof.
  destruct (update_settings_spec 7 "b" true true false 0 read_world true settings_world)
    as (Hb & Hdb & _); [vm_compute; reflexivity|]. split; [exact Hb|exact Hdb].
Defined.

Lemma conversationPreview_prefix_witness :
  ∃ prefix rest, "hello" = prefix +:+ rest ∧ dump_content prefix = Some "{hello}" ∧
    (String.length prefix <= 512)%nat.
Proof.
  destruct (conversationPreview_prefix sample_message "{hello}")
    as (p & r & H1 & H2 & H3 & _); [reflexivity|vm_compute; reflexivity|].
  exists p, r. split; [exact H1|]. split; [exact H2|exact H3].
Defined.
