(* ===== verification/StoreProofs.v ===== *)
(** Correctness of the message stores: a document decodes to the message it was
    made from, every operation keeps the collection well formed, a body is
    stored once and never overwritten, and offline recovery returns exactly the
    published, undelivered single-chat messages in order. *)
From S2P Require Import Prelude Table Snowflake Schema Effects Users Stores Conversations Samples.

(** * Documents and messages *)

(** The ranges of the protobuf types; [sendTime] is an integral double. *)
Record msg_ok (m : MsgData) : Prop := mkMsgOk {
  mo_send : is_uint64 (sendID m); mo_recv : is_uint64 (recvID m);
  mo_platform : is_int32 (senderPlatformID m); mo_session : is_int32 (sessionType m);
  mo_from : is_int32 (msgFrom m); mo_type : is_int32 (contentType m);
  mo_status : is_int32 (status m); mo_seq : is_int64 (seq m);
  mo_time : 0 <= sendTime m < 2 ^ 53;
}.

Lemma DecodeMessage_doc_of m c : msg_ok m → DecodeMessage (doc_of m c) = inr m.
Proof.
  intros [Hs Hr Hp Hse Hf Ht Hst Hq Hti].
  destruct m as [sid rid conv cid id plat nick face ses from ty body sq time st rd del rec pin grp ext].
  cbn in *. assert (H1 : (0 <=? time) = true) by (apply Z.leb_le; lia).
  assert (H2 : (time <? 2 ^ 63) = true) by (apply Z.ltb_lt; lia).
  lazy -[to_uint64 to_int64 to_int32 Z.leb Z.ltb Z.pow Z.of_nat]. rewrite H1, H2.
  by rewrite !to_uint64_to_int64, !to_int32_id.
Qed.

Definition with_status (st : Z) (m : MsgData) : MsgData :=
  mkMsgData (sendID m) (recvID m) (convID m) (clientMsgID m) (serverMsgID m) (senderPlatformID m)
    (senderNickname m) (senderFaceURL m) (sessionType m) (msgFrom m) (contentType m) (content m)
    (seq m) (sendTime m) st (isRead m) (isDeleted m) (isRecalled m) (isPinned m) (isGroupMsg m)
    (ext m).

Lemma with_status_ok m : msg_ok m → msg_ok (with_status 2 m).
Proof. intros []. by split. Qed.

Lemma set_status_doc m c : set_field "status" (BInt32 2) (doc_of m c) = doc_of (with_status 2 m) c.
Proof. reflexivity. Qed.

Lemma set_committed_doc m c : set_field "committed" (BBool true) (doc_of m c) = doc_of m true.
Proof. reflexivity. Qed.

Lemma doc_of_inj m c m' c' : msg_ok m → msg_ok m' → doc_of m c = doc_of m' c' → m = m' ∧ c = c'.
Proof.
  intros Hm Hm' Heq. split.
  - pose proof (DecodeMessage_doc_of m c Hm) as H1. rewrite Heq, DecodeMessage_doc_of in H1 by done.
    by injection H1.
  - assert (Hc : field (doc_of m c) "committed" = field (doc_of m' c') "committed") by by rewrite Heq.
    by injection Hc.
Qed.

Lemma to_int64_inj x y : is_uint64 x → is_uint64 y → to_int64 x = to_int64 y → x = y.
Proof.
  intros Hx Hy Heq. rewrite <- (to_uint64_to_int64 x), <- (to_uint64_to_int64 y) by done.
  by rewrite Heq.
Qed.

Lemma f_eq_num_doc (name : string) z doc x :
  num_field doc name = Some x → f_eq_num name z doc = (x =? z).
Proof.
  intros Hx. unfold f_eq_num. rewrite Hx. apply Bool.eq_iff_eq_true.
  rewrite bool_decide_eq_true, Z.eqb_eq. split; congruence.
Qed.

Lemma recv_filter m c u :
  msg_ok m → is_uint64 u → f_eq_num "recvID" (to_int64 u) (doc_of m c) = (recvID m =? u).
Proof.
  intros Hm Hu. rewrite (f_eq_num_doc _ _ _ (to_int64 (recvID m))) by done.
  apply Bool.eq_iff_eq_true. rewrite !Z.eqb_eq. split; [|by intros ->].
  apply to_int64_inj; [apply Hm|done].
Qed.

Lemma bool_field b b' : bool_decide (Some (BBool b) = Some (BBool b')) = Bool.eqb b b'.
Proof. by destruct b, b'. Qed.

Lemma string_field_eq s t : bool_decide (Some (BString s) = Some (BString t)) = bool_decide (s = t).
Proof. apply bool_decide_ext. split; congruence. Qed.

(** The filters on stored messages. *)
Lemma offline_filter_doc m c u after :
  msg_ok m → is_uint64 u →
  offline_filter u after (doc_of m c) = true ↔
  recvID m = u ∧ after < seq m ∧ isGroupMsg m = false ∧ sessionType m = 1 ∧ c = true ∧ status m ≠ 2.
Proof.
  intros Hm Hu. unfold offline_filter. rewrite !andb_true_iff, recv_filter by done.
  unfold f_ne_num. rewrite (f_eq_num_doc "sessionType" _ _ (sessionType m)) by done.
  rewrite (f_eq_num_doc "status" _ _ (status m)) by done.
  change (f_gt "seq" after (doc_of m c)) with (after <? seq m).
  change (f_ne_bool "isGroupMsg" true (doc_of m c))
    with (negb (bool_decide (Some (BBool (isGroupMsg m)) = Some (BBool true)))).
  change (f_ne_bool "committed" false (doc_of m c))
    with (negb (bool_decide (Some (BBool c) = Some (BBool false)))).
  rewrite !bool_field, !Z.eqb_eq, Z.ltb_lt.
  destruct (isGroupMsg m), c; cbn; rewrite negb_true_iff, Z.eqb_neq; intuition congruence.
Qed.

Lemma history_filter_doc m c conv cutoff :
  history_filter conv cutoff (doc_of m c) = true ↔
  convID m = conv ∧ isGroupMsg m = false ∧ seq m <= cutoff.
Proof.
  unfold history_filter. rewrite !andb_true_iff.
  change (f_eq_string "convID" conv (doc_of m c)) with (bool_decide (Some (BString (convID m)) = Some (BString conv))).
  change (f_eq_bool "isGroupMsg" false (doc_of m c))
    with (bool_decide (Some (BBool (isGroupMsg m)) = Some (BBool false))).
  change (f_lte "seq" cutoff (doc_of m c)) with (seq m <=? cutoff).
  rewrite bool_field, string_field_eq, bool_decide_eq_true, Z.leb_le.
  destruct (isGroupMsg m); cbn; intuition congruence.
Qed.

Lemma chat_filter_doc m c conv after :
  chat_filter conv after (doc_of m c) = true ↔
  convID m = conv ∧ isGroupMsg m = false ∧ c = true ∧ after < seq m.
Proof.
  unfold chat_filter. rewrite !andb_true_iff.
  change (f_eq_string "convID" conv (doc_of m c)) with (bool_decide (Some (BString (convID m)) = Some (BString conv))).
  change (f_eq_bool "isGroupMsg" false (doc_of m c))
    with (bool_decide (Some (BBool (isGroupMsg m)) = Some (BBool false))).
  change (f_ne_bool "committed" false (doc_of m c))
    with (negb (bool_decide (Some (BBool c) = Some (BBool false)))).
  change (f_gt "seq" after (doc_of m c)) with (after <? seq m).
  rewrite !bool_field, string_field_eq, bool_decide_eq_true, Z.ltb_lt.
  destruct (isGroupMsg m), c; cbn; intuition congruence.
Qed.

(** * The collection *)

(** Every document is that of a message of the protobuf ranges, under its id. *)
Definition store_ok (s : gmap string document) : Prop :=
  ∀ id doc, s !! id = Some doc → ∃ m c, doc = doc_of m c ∧ msg_ok m ∧ serverMsgID m = id.

(** Bodies are immutable: only the delivery status and the publication may
    change, and a publication is never retracted. *)
Definition doc_evolves (d d' : document) : Prop :=
  ∃ m c m' c', d = doc_of m c ∧ d' = doc_of m' c' ∧ msg_ok m ∧
    (m' = m ∨ m' = with_status 2 m) ∧ (c = true → c' = true).

Definition store_evolves (s s' : gmap string document) : Prop :=
  store_ok s → store_ok s' ∧
  ∀ id d, s !! id = Some d → ∃ d', s' !! id = Some d' ∧ doc_evolves d d'.

Lemma doc_evolves_refl m c : msg_ok m → doc_evolves (doc_of m c) (doc_of m c).
Proof. intros Hm. exists m, c, m, c. split; [done|]. eauto. Qed.

Lemma doc_evolves_trans d1 d2 d3 : doc_evolves d1 d2 → doc_evolves d2 d3 → doc_evolves d1 d3.
Proof.
  intros (m1 & c1 & m2 & c2 & -> & -> & Hm1 & Hm & Hc) (m2' & c2' & m3 & c3 & Heq & -> & Hm2 & Hm' & Hc').
  apply doc_of_inj in Heq as [-> ->]; [|by destruct Hm as [->| ->]; [|apply with_status_ok]|done].
  exists m1, c1, m3, c3. split; [done|]. split; [done|]. split; [done|]. split; [|tauto].
  destruct Hm as [->| ->], Hm' as [->| ->]; auto.
Qed.

#[export] Instance store_evolves_preorder : PreOrder store_evolves.
Proof.
  split.
  - intros s Hs. split; [done|]. intros id d Hd. exists d. split; [done|].
    destruct (Hs id d Hd) as (m & c & -> & Hm & _). by apply doc_evolves_refl.
  - intros s1 s2 s3 H12 H23 Hs. destruct (H12 Hs) as [Hs2 K12]. destruct (H23 Hs2) as [Hs3 K23].
    split; [done|]. intros id d Hd. destruct (K12 id d Hd) as (d2 & Hd2 & He).
    destruct (K23 id d2 Hd2) as (d3 & Hd3 & He'). exists d3. split; [done|].
    by eapply doc_evolves_trans.
Qed.

(** One document replaced by a later state of it. *)
Lemma store_evolves_insert s id d d' :
  s !! id = Some d → (∀ m c, d = doc_of m c → msg_ok m → ∃ m' c', d' = doc_of m' c' ∧
    (m' = m ∨ m' = with_status 2 m) ∧ (c = true → c' = true)) →
  store_evolves s (<[id := d']> s).
Proof.
  intros Hd He Hs. destruct (Hs id d Hd) as (m & c & Heq & Hm & Hid).
  destruct (He m c Heq Hm) as (m' & c' & Heq' & Hm' & Hc). split.
  - intros id' doc [[<- <-]|[_ Hdoc]]%lookup_insert_Some; [|by apply Hs].
    exists m', c'. split; [done|]. destruct Hm' as [->| ->]; [done|]. split; [by apply with_status_ok|done].
  - intros id' doc Hdoc. destruct (decide (id = id')) as [<-|Hne].
    + exists d'. rewrite lookup_insert_eq. split; [done|]. assert (doc = d) as -> by congruence.
      exists m, c, m', c'. done.
    + exists doc. rewrite lookup_insert_ne by done. split; [done|].
      destruct (Hs id' doc Hdoc) as (m1 & c1 & -> & Hm1 & _). by apply doc_evolves_refl.
Qed.

Lemma set_on_insert_evolves m c s :
  msg_ok m → store_evolves s (set_on_insert (serverMsgID m) (doc_of m c) s).
Proof.
  intros Hm. unfold set_on_insert. destruct (s !! serverMsgID m) eqn:E; [done|].
  intros Hs. split.
  - intros id doc [[<- <-]|[_ Hdoc]]%lookup_insert_Some; [|by apply Hs]. by exists m, c.
  - intros id doc Hdoc. exists doc. rewrite lookup_insert_ne by congruence. split; [done|].
    destruct (Hs id doc Hdoc) as (m1 & c1 & -> & Hm1 & _). by apply doc_evolves_refl.
Qed.

Lemma mark_delivered_evolves u id s : store_evolves s (mark_delivered u id s).
Proof.
  unfold mark_delivered. destruct (s !! id) as [d|] eqn:E; [|done].
  destruct (f_eq_num _ _ _); [|done]. eapply store_evolves_insert; [done|].
  intros m c -> _. exists (with_status 2 m), c. split; [apply set_status_doc|]. auto.
Qed.

(** ** The operations *)

Definition store_step (w w' : World) : Prop := store_evolves (w_mongo w) (w_mongo w').

#[export] Instance store_step_preorder : PreOrder store_step.
Proof.
  split; [intros w; unfold store_step; reflexivity|].
  intros w1 w2 w3. unfold store_step. by apply transitivity.
Qed.

Lemma Step_mongo {A} (op : gmap string document → exn + (A * gmap string document)) :
  (∀ s a s', op s = inr (a, s') → store_evolves s s') → Step store_step (mongo op).
Proof.
  intros Hop. apply Step_remote; [apply _|intros fs w; unfold store_step; reflexivity|].
  intros w a w'. destruct (op (w_mongo w)) as [|[a1 s]] eqn:E; [done|]. intros [= <- <-].
  by eapply Hop.
Qed.

#[export] Instance Step_mongo_find {A} (q : gmap string document → A) :
  Step store_step (mongo_find q).
Proof. apply Step_mongo. intros s a s' [= _ <-]. reflexivity. Qed.

Lemma Step_SaveMsgToMongo m c : msg_ok m → Step store_step (SaveMsgToMongo m c).
Proof.
  intros Hm. unfold SaveMsgToMongo.
  assert (Step store_step (mongo (λ s, inr (tt, set_on_insert (serverMsgID m) (doc_of m c) s)))).
  { apply Step_mongo. intros s a s' [= _ <-]. by apply set_on_insert_evolves. }
  apply _.
Qed.

#[export] Instance Step_PublishMessage id : Step store_step (PublishMessage id).
Proof.
  unfold PublishMessage. apply Step_bind; [apply _| |apply _].
  apply Step_mongo. intros s a s'. destruct (s !! id) as [d|] eqn:E; intros [= _ <-]; [|reflexivity].
  eapply store_evolves_insert; [done|]. intros m c -> _. exists m, true.
  split; [apply set_committed_doc|]. auto.
Qed.

#[export] Instance Step_MarkMsgsAsDelivered u ids : Step store_step (MarkMsgsAsDelivered u ids).
Proof.
  assert (Hall : Step store_step (mark_all u ids)).
  { induction ids as [|id ids IH]; cbn [mark_all]; [apply _|].
    apply Step_bind; [apply _| |done]. apply Step_mongo. intros s a s' [= _ <-].
    apply mark_delivered_evolves. }
  unfold MarkMsgsAsDelivered. apply _.
Qed.

(** * Sorted queries *)

Section find_sorted.
Context (P : document → bool).
Implicit Types (s : gmap string document) (l : list (string * document)).

Definition found s : list (string * document) :=
  merge_sort by_seq (map_to_list (filter (λ p, P p.2 = true) s)).

Lemma find_sorted_found s limit :
  0 < limit → find_sorted P limit s = take (Z.to_nat limit) (snd <$> found s).
Proof.
  intros Hl. unfold find_sorted. rewrite (proj2 (Z.eqb_neq limit 0)) by lia.
  by rewrite Z.abs_eq by lia.
Qed.

Lemma elem_of_found s id d : (id, d) ∈ found s ↔ s !! id = Some d ∧ P d = true.
Proof.
  unfold found. rewrite merge_sort_Permutation, elem_of_map_to_list, map_lookup_filter_Some. done.
Qed.

Lemma found_sorted s : StronglySorted by_seq (found s).
Proof. apply StronglySorted_merge_sort; apply _. Qed.

Lemma found_NoDup s : NoDup (found s).*1.
Proof. unfold found. rewrite merge_sort_Permutation. apply NoDup_fst_map_to_list. Qed.
End find_sorted.

Lemma decode_found s l :
  store_ok s → (∀ p, p ∈ l → s !! p.1 = Some p.2) →
  ∃ msgs, decode_all (snd <$> l) = inr msgs ∧
    Forall2 (λ p m, p.1 = serverMsgID m ∧ msg_ok m ∧ ∃ c, p.2 = doc_of m c) l msgs.
Proof.
  intros Hs. induction l as [|[id d] l IH]; intros Hin.
  - exists []. split; [done|constructor].
  - destruct IH as (msgs & Hd & Hall); [intros p Hp; apply Hin; by constructor|].
    destruct (Hs id d (Hin (id, d) ltac:(constructor))) as (m & c & -> & Hm & Hid).
    exists (m :: msgs). split.
    + change (snd <$> (id, doc_of m c) :: l) with (doc_of m c :: (snd <$> l)).
      cbn [decode_all]. rewrite DecodeMessage_doc_of by done. unfold mbind at 1, E_bind. by rewrite Hd.
    + constructor; [|done]. cbn. eauto.
Qed.

Lemma decode_all_take n docs msgs :
  decode_all docs = inr msgs → decode_all (take n docs) = inr (take n msgs).
Proof.
  revert n msgs. induction docs as [|d docs IH]; intros [|n] msgs Hd; cbn [take decode_all] in *;
    try (by injection Hd as <-); [done|].
  apply ebind_ok in Hd as (m & Hm & Hd). apply ebind_ok in Hd as (ms & Hms & [= <-]).
  rewrite Hm. cbn. by rewrite (IH n ms Hms).
Qed.

Lemma sorted_messages l msgs :
  StronglySorted by_seq l →
  Forall2 (λ p m, p.1 = serverMsgID m ∧ msg_ok m ∧ ∃ c, p.2 = doc_of m c) l msgs →
  StronglySorted (λ m m', seq m <= seq m') msgs.
Proof.
  intros Hs Hall. induction Hall as [|p m l msgs (_ & _ & c & Hp) Hall IH]; [constructor|].
  apply StronglySorted_inv in Hs as [Hs Hle]. constructor; [by apply IH|].
  rewrite Forall_forall in Hle. apply Forall_forall. intros m' Hm'.
  apply list_elem_of_lookup in Hm' as [i Hi].
  destruct (Forall2_lookup_r _ _ _ _ _ Hall Hi) as (q & Hq & (_ & _ & c' & Hq')).
  apply list_elem_of_lookup_2 in Hq. specialize (Hle q Hq). unfold by_seq in Hle.
  rewrite Hp, Hq' in Hle. exact Hle.
Qed.

(** The messages a sorted query stands for. *)
Lemma query_messages P s limit docs :
  store_ok s → 0 < limit → docs = find_sorted P limit s →
  ∃ msgs, decode_all docs = inr msgs ∧ StronglySorted (λ m m', seq m <= seq m') msgs ∧
    NoDup (serverMsgID <$> msgs) ∧ (length msgs <= Z.to_nat limit)%nat ∧
    (∀ m, m ∈ msgs → msg_ok m ∧ ∃ c, s !! serverMsgID m = Some (doc_of m c) ∧ P (doc_of m c) = true) ∧
    (∀ m c, msg_ok m → s !! serverMsgID m = Some (doc_of m c) → P (doc_of m c) = true →
       m ∈ msgs ∨ length msgs = Z.to_nat limit ∧ ∀ m', m' ∈ msgs → seq m' <= seq m).
Proof.
  intros Hs Hl ->. rewrite find_sorted_found by done.
  destruct (decode_found s (found P s) Hs) as (all & Hd & Hall).
  { intros [id d] Hin. apply elem_of_found in Hin. tauto. }
  set (n := Z.to_nat limit). exists (take n all).
  pose proof (sorted_messages _ _ (found_sorted P s) Hall) as Hsorted.
  split; [by apply decode_all_take|]. split; [by apply StronglySorted_take|]. split.
  { rewrite fmap_take. apply (sublist_NoDup _ (serverMsgID <$> all)); [|apply sublist_take].
    replace (serverMsgID <$> all) with (found P s).*1; [apply found_NoDup|].
    clear -Hall. induction Hall as [|p m l msgs (Hp & _) _ IH]; [done|]. cbn. by rewrite IH, Hp. }
  split; [rewrite length_take; lia|]. split.
  - intros m Hm. apply elem_of_take in Hm as (i & Hi & _).
    destruct (Forall2_lookup_r _ _ _ _ _ Hall Hi) as ([id d] & Hq & (Hid & Hok & c & Heq)).
    split; [done|]. exists c. apply list_elem_of_lookup_2, elem_of_found in Hq. cbn in *. by subst.
  - intros m c Hok Hm HP.
    assert (Hin : (serverMsgID m, doc_of m c) ∈ found P s) by by apply elem_of_found.
    apply list_elem_of_lookup in Hin as [i Hi].
    destruct (Forall2_lookup_l _ _ _ _ _ Hall Hi) as (m1 & Hm1 & (_ & Hok1 & c1 & Heq)).
    cbn in Heq. apply doc_of_inj in Heq as [<- _]; [|done..].
    destruct (decide (i < n)%nat) as [Hlt|Hge].
    + left. apply elem_of_take. eauto.
    + right. assert (Hlen : (i < length all)%nat) by by eapply lookup_lt_Some.
      split; [rewrite length_take; lia|]. intros m' Hm'.
      apply elem_of_take in Hm' as (j & Hj & Hjn).
      exact (StronglySorted_lookup _ _ j i _ _ Hsorted Hj Hm1 ltac:(lia)).
Qed.

(** * The theorems *)

(** Message bodies in MongoDB are immutable: storing a message, publishing it
    and marking it delivered keep every stored document, under every outcome and
    failure schedule, up to the delivery status (which only becomes 2) and the
    publication flag (which is never retracted), and keep the collection well
    formed.  In particular a second body under the same server ID is ignored. *)
Theorem message_bodies_immutable m c id user ids w (Hm : msg_ok m) :
  store_evolves (w_mongo w) (w_mongo (SaveMsgToMongo m c w).2) ∧
  store_evolves (w_mongo w) (w_mongo (PublishMessage id w).2) ∧
  store_evolves (w_mongo w) (w_mongo (MarkMsgsAsDelivered user ids w).2).
Proof.
  split; [apply (Step_SaveMsgToMongo m c Hm w)|].
  split; [apply (Step_PublishMessage id w)|apply (Step_MarkMsgsAsDelivered user ids w)].
Qed.

Lemma SaveMsgToMongo_true m c w w' :
  SaveMsgToMongo m c w = (inr true, w') →
  ∃ fs, w' = with_mongo (set_on_insert (serverMsgID m) (doc_of m c) (w_mongo w)) (with_faults fs w).
Proof.
  intros (r & w1 & Hc%catch_ok & H)%bind_ok. destruct r as [e|u]; [by run_ok H|].
  apply ret_ok in H as [_ <-]. apply remote_ok in Hc as (fs & Hc). injection Hc as _ <-. eauto.
Qed.

Lemma mongo_find_ok {A} (q : gmap string document → A) w a w' :
  mongo_find q w = (inr a, w') → a = q (w_mongo w) ∧ ∃ fs, w' = with_mongo (w_mongo w) (with_faults fs w).
Proof. intros (fs & H)%remote_ok. injection H as <- <-. eauto. Qed.

(** A body that was stored is read back unchanged: after a successful
    [SaveMsgToMongo] of a new message, and whatever a retry with another body
    under the same ID does, a successful read returns the first message, every
    field of it (64-bit identifiers survive the signed BSON integers). *)
Theorem saved_message_read_back m c m2 c2 w w1 w2 r w3 (Hm : msg_ok m)
    (Hnew : w_mongo w !! serverMsgID m = None)
    (Hsave : SaveMsgToMongo m c w = (inr true, w1))
    (Hid : serverMsgID m2 = serverMsgID m)
    (Hretry : w2 = (SaveMsgToMongo m2 c2 w1).2)
    (Hread : GetMsgByServerMsgID (serverMsgID m) w2 = (inr r, w3)) :
  r = Some m.
Proof.
  apply SaveMsgToMongo_true in Hsave as (fs & ->).
  assert (Hdoc : w_mongo w2 !! serverMsgID m = Some (doc_of m c)).
  { subst w2. set (w1 := with_mongo _ _).
    assert (H1 : w_mongo w1 !! serverMsgID m = Some (doc_of m c)).
    { cbn. unfold set_on_insert. rewrite Hnew. apply lookup_insert_eq. }
    assert (Hkeep : w_mongo (SaveMsgToMongo m2 c2 w1).2 = w_mongo w1).
    { assert (Step (λ w w', w_mongo w !! serverMsgID m = Some (doc_of m c) → w_mongo w' = w_mongo w)
        (SaveMsgToMongo m2 c2)) as Hst; [|by apply Hst].
      unfold SaveMsgToMongo. set (R := λ w w' : World, _).
      assert (PreOrder R).
      { split; [by intros x _|]. intros x y z Hxy Hyz Hx. specialize (Hxy Hx). rewrite <- Hxy in Hx.
        by rewrite (Hyz Hx), Hxy. }
      apply Step_bind; [done| |intros []; apply _]. apply Step_catch, Step_remote; [done..|].
      intros x a x' [= _ <-] Hx. cbn. unfold set_on_insert. by rewrite Hid, Hx. }
    by rewrite Hkeep. }
  unfold GetMsgByServerMsgID in Hread.
  apply bind_ok in Hread as (d & w4 & [-> [fs' ->]]%mongo_find_ok & Hread).
  rewrite Hdoc in Hread. apply bind_ok in Hread as (m' & w5 & [Hd ->]%lift_ok & [<- _]%ret_ok).
  rewrite DecodeMessage_doc_of in Hd by done. by injection Hd as <-.
Qed.

(** C24: offline recovery: a successful [GetMsgsBySeqFromMongo] returns, in
    ascending order of sequence numbers and without repetition, only messages
    addressed to the user, newer than the given position, published, of single
    chat and not marked delivered; and it misses such a message only when the
    limit is reached by messages that are not newer. *)
Theorem offline_recovery user after limit w msgs w'
    (Hstore : store_ok (w_mongo w)) (Huser : is_uint64 user) (Hu : user ≠ 0) (Hl : 0 < limit)
    (Hrun : GetMsgsBySeqFromMongo user after limit w = (inr msgs, w')) :
  let candidate m := w_mongo w !! serverMsgID m = Some (doc_of m true) ∧ recvID m = user ∧
    after < seq m ∧ isGroupMsg m = false ∧ sessionType m = 1 ∧ status m ≠ 2 in
  StronglySorted (λ m m', seq m <= seq m') msgs ∧ NoDup (serverMsgID <$> msgs) ∧
  (length msgs <= Z.to_nat limit)%nat ∧
  (∀ m, m ∈ msgs → candidate m) ∧
  (∀ m, msg_ok m → candidate m → m ∈ msgs ∨
     length msgs = Z.to_nat limit ∧ ∀ m', m' ∈ msgs → seq m' <= seq m).
Proof.
  unfold GetMsgsBySeqFromMongo in Hrun.
  rewrite (proj2 (Z.leb_gt limit 0)), (proj2 (Z.eqb_neq user 0)) in Hrun by lia. cbn [orb] in Hrun.
  apply bind_ok in Hrun as (docs & w1 & [-> [fs ->]]%mongo_find_ok & [Hd _]%lift_ok).
  destruct (query_messages (offline_filter user after) (w_mongo w) limit _ Hstore Hl eq_refl)
    as (ms & Hms & H1 & H2 & H3 & H4 & H5).
  rewrite Hms in Hd. injection Hd as ->. cbn zeta. do 3 (split; [done|]). split.
  - intros m Hm. destruct (H4 m Hm) as (Hok & c & Hdoc & HP).
    apply offline_filter_doc in HP as (? & ? & ? & ? & -> & ?); done.
  - intros m Hok (Hdoc & Hcand). eapply H5; [done|exact Hdoc|].
    apply offline_filter_doc; [done..|]. tauto.
Qed.

(** * Witnesses *)

Lemma sample_message_ok : msg_ok sample_message.
Proof. split; cbn; by vm_compute. Qed.

Definition empty_store_world : World := sample_world empty_db [].

Lemma message_bodies_immutable_witness :
  store_evolves (w_mongo empty_store_world)
    (w_mongo (SaveMsgToMongo sample_message false empty_store_world).2).
Proof. apply (message_bodies_immutable sample_message false "m1" 9 ["m1"]), sample_message_ok. Defined.

(** The first save, a retry with another body, and the read. *)
Definition saved_world : World := (SaveMsgToMongo sample_message false empty_store_world).2.
Definition other_message : MsgData := with_status 2 sample_message.
Definition resaved_world : World := (SaveMsgToMongo other_message true saved_world).2.
Definition read_back_world : World := (GetMsgByServerMsgID "m1" resaved_world).2.

Lemma saved_message_read_back_witness : Some sample_message = Some sample_message.
Proof.
  apply (saved_message_read_back sample_message false other_message true empty_store_world
    saved_world resaved_world (Some sample_message) read_back_world); try reflexivity.
  - apply sample_message_ok.
Defined.

Definition published_world : World := (SaveMsgToMongo sample_message true empty_store_world).2.

Lemma published_store_ok : store_ok (w_mongo published_world).
Proof.
  intros id d. change (w_mongo published_world) with ({["m1" := doc_of sample_message true]} : gmap string document).
  intros [<- <-]%lookup_singleton_Some. exists sample_message, true.
  split; [done|]. split; [apply sample_message_ok|done].
Qed.

Definition recovered_world : World := (GetMsgsBySeqFromMongo 9 4 10 published_world).2.

Lemma offline_recovery_witness : NoDup (serverMsgID <$> [sample_message]).
Proof.
  destruct (offline_recovery 9 4 10 published_world [sample_message] recovered_world)
    as (_ & H & _); [apply published_store_ok|by vm_compute|done|done|vm_compute; reflexivity|exact H].
Defined.
