(* ===== verification/Friendship.v ===== *)
(** What other components use of the friendship tables
    ([src/storage/mysqlhandler.cpp], lines 664-764, 938-992 and 1331-1351): the
    pair lock, the test whether two users may exchange a message, and the
    transaction around a message between friends.

    [initialize] asks once per process whether the four tables exist; here it is
    one round trip each time (a schedule without a failure at that place is the
    run that skips it).  The pair lock is the row of [friend_pairs]; a handler
    runs as one sequence of steps, so the model keeps the row and not the wait. *)
From S2P Require Import Prelude Table Snowflake Schema Effects Users.

(** The tables exist: the count of the schema query is 4. *)
Definition initialize : M unit :=
  n ← query (λ _, FInt64 4);
  n ← lift (unsigned_field n "friend record integer");
  if n =? 4 then mret tt else throw (RuntimeError "friend tables").

Definition pair_key (a b : Z) : Z * Z := (Z.min a b, Z.max a b).

Definition lock_row (a b : Z) (d : Database) : Database :=
  set_friend_pairs (λ s, {[ pair_key a b ]} ∪ s) d.

Definition lockPair (a b : Z) : M unit := update (λ d, (tt, lock_row a b d)).

(** WHERE (owner=a AND friend=b) OR (owner=b AND friend=a) *)
Definition pair_rows (a b : Z) (_ : Z) (r : FriendRow) : bool :=
  ((f_owner r =? a) && (f_friend r =? b)) || ((f_owner r =? b) && (f_friend r =? a)).

Definition count_pair (a b : Z) (d : Database) : field_view :=
  FInt64 (count (pair_rows a b) (t_friends d)).

Definition deleted_seq (a b : Z) (d : Database) : option Z :=
  d_seq <$> t_friend_chat_deletions d !! (a, b).

Definition friendAllows (actor peer sq : Z) : M bool :=
  n ← query (count_pair actor peer);
  n ← lift (unsigned_field n "friends.count");
  if (actor =? peer) || negb (n =? 2) then mret false
  else
    row ← query (deleted_seq actor peer);
    match row with
    | None => mret true
    | Some s => s ← lift (unsigned_field (FInt64 s) "deletion.seq"); mret (to_int64 s <? sq)
    end.

(** The rows of the outbox for a message: operation 1. *)
Definition message_row (id : string) (_ : Z) (r : OutboxRow) : bool :=
  (o_operation r =? 1) && bool_decide (o_server_msg_id r = id).

(** The checks of [WithFriendMessage] inside its transaction. *)
Definition message_allowed (message : MsgData) (requireUndelivered : bool) : M bool :=
  n ← query (count_pair (sendID message) (recvID message));
  n ← lift (unsigned_field n "friend record integer");
  if (sendID message =? recvID message) || negb (n =? 2) then mret false
  else
    row ← query (deleted_seq (sendID message) (recvID message));
    newer ← match row with
            | None => mret true
            | Some s =>
                (* message.seq() > number(...) compares as uint64_t *)
                s ← lift (unsigned_field (FInt64 s) "friend record integer");
                mret (s <? to_uint64 (seq message))
            end;
    if negb newer || str_empty (serverMsgID message) then mret newer
    else
      task ← query (λ d, snd <$> select_one (message_row (serverMsgID message)) (t_im_outbox d));
      published ← match task with
                  | None => mret true
                  | Some t =>
                      stage ← lift (unsigned_field (FUint64 (o_stage t)) "friend record integer");
                      state ← lift (unsigned_field (FUint64 (o_state t)) "friend record integer");
                      mret ((1 <=? stage) && negb (state =? 3))
                  end;
      if (published : bool) && requireUndelivered
      then query (λ d, bool_decide
             (t_im_message_receipts d !! (recvID message, serverMsgID message) = None))
      else mret published.

(** The try block; the action may throw.  What the action writes to the variables
    it captured is its result; [None] means it was not run (the code's false). *)
Definition friend_message_body {A} (message : MsgData) (action : M A) (requireUndelivered : bool)
    : M (option A) :=
  lockPair (sendID message) (recvID message);;
  allowed ← message_allowed message requireUndelivered;
  r ← (if (allowed : bool) then a ← action; mret (Some a) else mret None);
  commit;;
  mret r.

Definition WithFriendMessage {A} (message : MsgData) (action : M A) (requireUndelivered : bool)
    : M (option A) :=
  with_connection (
    initialize;;
    set_session;;
    start_transaction;;
    r ← catch (friend_message_body message action requireUndelivered);
    match r with
    | inr allowed => mret allowed
    | inl failure => rollback;; throw failure
    end).

Definition FriendDeletionSeq (owner peer : Z) : M Z :=
  with_connection (
    row ← query (deleted_seq owner peer);
    match row with
    | None => mret 0
    | Some s => s ← lift (unsigned_field (FInt64 s) "deletion.seq"); mret (to_int64 s)
    end).

#[export] Instance InTx_lockPair a b : InTx (lockPair a b).
Proof. unfold lockPair. apply _. Qed.
#[export] Instance InTx_friendAllows a b s : InTx (friendAllows a b s).
Proof. unfold friendAllows. apply _. Qed.

(** * What the test decides *)

(** Both directions of the friendship are stored, and the sequence number is
    after the last deletion of the chat. *)
Definition may_exchange (d : Database) (a b sq : Z) : Prop :=
  a ≠ b ∧ count (pair_rows a b) (t_friends d) = 2 ∧
  match deleted_seq a b d with None => True | Some s => to_int64 s < sq end.

#[export] Instance may_exchange_dec d a b sq : Decision (may_exchange d a b sq).
Proof. unfold may_exchange. destruct (deleted_seq a b d); apply _. Defined.

Lemma friendAllows_ok a b sq w x w' :
  friendAllows a b sq w = (inr x, w') →
  x = bool_decide (may_exchange (view w) a b sq) ∧ ∃ fs, w' = with_faults fs w.
Proof.
  unfold friendAllows. intros H.
  apply bind_ok in H as (n & w1 & (-> & fs & ->)%query_ok & H).
  apply bind_ok in H as (n & w1 & [Hn ->]%lift_ok & H).
  unfold count_pair, unsigned_field in Hn.
  rewrite (proj2 (Z.leb_le 0 _)) in Hn by apply count_nonneg. injection Hn as <-.
  destruct (_ || _) eqn:E.
  - apply ret_ok in H as [<- <-]. split; [|eauto]. symmetry. apply bool_decide_eq_false_2.
    intros (Hab & Hc & _). apply orb_true_iff in E as [?%Z.eqb_eq|E]; [done|].
    rewrite Hc in E. done.
  - bool_to_prop. apply bind_ok in H as (row & w1 & (-> & fs1 & ->)%query_ok & H).
    change (view (with_faults fs w)) with (view w) in H.
    destruct (deleted_seq a b (view w)) as [s|] eqn:Ed.
    + apply bind_ok in H as (s' & w1 & [Hs ->]%lift_ok & [<- <-]%ret_ok).
      unfold unsigned_field in Hs. destruct (0 <=? s); [|done]. injection Hs as <-.
      split; [|eauto]. apply Bool.eq_iff_eq_true.
      rewrite Z.ltb_lt, bool_decide_eq_true. unfold may_exchange. rewrite Ed. tauto.
    + apply ret_ok in H as [<- <-]. split; [|eauto]. symmetry. apply bool_decide_eq_true_2.
      unfold may_exchange. by rewrite Ed.
Qed.

Lemma lockPair_ok a b w u w' :
  lockPair a b w = (inr u, w') → ∃ fs, w' = put (lock_row a b (view w)) (with_faults fs w).
Proof. intros (fs & _ & ->)%update_ok. eauto. Qed.
