(* ===== verification/Outbox.v ===== *)
(** The transactional outbox of single chat ([src/storage/mysqlhandler.cpp], lines
    1301-1739, and [src/services/msg_service/outbox_worker.cpp]): queueing a
    message or an acknowledgement, claiming a task under a lease, processing it
    (body to MongoDB, conversation rows, publication, Kafka), retrying, and the
    queries the delivery side asks.

    The columns created_at and updated_at are written and never read; they are
    left out, with the clock readings that only fill them. *)
From S2P Require Import Prelude Table Snowflake Schema Effects Users Stores Conversations Friendship.

Record OutboxTask := mkOutboxTask {
  tk_id : Z; tk_actor : Z; tk_peer : Z; tk_seq : Z;
  tk_operation : Z; tk_state : Z; tk_stage : Z; tk_attempts : Z;
  tk_dispatchDone : bool;
  tk_conversation : string; tk_serverId : string; tk_payload : string; tk_leaseToken : string;
}.

(** ** SQL on the outbox *)

(** The selected columns ([outboxColumns]). *)
Definition outbox_columns (p : Z * OutboxRow) : list field_view :=
  let '(id, r) := p in
  [FUint64 id; FUint64 (o_operation r); FUint64 (o_actor r); FUint64 (o_peer r);
   FString (o_conversation r); FString (o_server_msg_id r); FInt64 (o_seq r);
   FString (o_payload r); FUint64 (o_state r); FUint64 (o_stage r); FUint64 (o_attempts r);
   FString (o_lease_token r); FUint64 (o_dispatch_done r)].

Definition outboxRow (row : list field_view) : E OutboxTask :=
  f0 ← at_ row 0; id ← unsigned_field f0 "outbox.id";
  f1 ← at_ row 1; operation ← unsigned_field f1 "outbox.operation";
  f2 ← at_ row 2; actor ← unsigned_field f2 "outbox.actor";
  f3 ← at_ row 3; peer ← unsigned_field f3 "outbox.peer";
  f4 ← at_ row 4; conversation ← as_string f4;
  f5 ← at_ row 5; serverId ← as_string f5;
  f6 ← at_ row 6; sq ← unsigned_field f6 "outbox.seq";
  f7 ← at_ row 7; payload ← as_string f7;
  f8 ← at_ row 8; state ← unsigned_field f8 "outbox.state";
  f9 ← at_ row 9; stage ← unsigned_field f9 "outbox.stage";
  f10 ← at_ row 10; attempts ← unsigned_field f10 "outbox.attempts";
  f11 ← at_ row 11; token ← as_string f11;
  f12 ← at_ row 12; done ← unsigned_field f12 "outbox.dispatch_done";
  mret (mkOutboxTask id actor peer (to_int64 sq) (to_int32 operation) (to_int32 state)
          (to_int32 stage) (to_int32 attempts) (negb (done =? 0)) conversation serverId payload
          token).

(** INSERT INTO im_outbox; the columns not named have their defaults.  The
    unique key is (operation, dedupe_key). *)
Definition new_outbox_row (operation : Z) (key : string) (actor peer : Z) (conversation id : string)
    (sq : Z) (payload : string) : OutboxRow :=
  mkOutboxRow operation key actor peer conversation id sq payload 0 0 0 0 0 0 "" "".

Definition same_key (operation : Z) (key : string) (_ : Z) (r : OutboxRow) : bool :=
  (o_operation r =? operation) && bool_decide (o_dedupe_key r = key).

Definition insert_row (row : OutboxRow) (d : Database) : Z * Database :=
  let id := t_im_outbox_next d in
  (id, set_im_outbox_next (λ n, n + 1) (set_im_outbox <[id := row]> d)).

Definition insert_outbox (row : OutboxRow) (d : Database) : exn + (Z * Database) :=
  match select_one (same_key (o_operation row) (o_dedupe_key row)) (t_im_outbox d) with
  | Some _ => inl (SqlError 1062)
  | None => inr (insert_row row d)
  end.

(** ... ON DUPLICATE KEY UPDATE id=im_outbox.id *)
Definition insert_once (row : OutboxRow) (d : Database) : unit * Database :=
  match select_one (same_key (o_operation row) (o_dedupe_key row)) (t_im_outbox d) with
  | Some _ => (tt, d)
  | None => (tt, (insert_row row d).2)
  end.

Definition set_row (f : OutboxRow → OutboxRow) (id : Z) (d : Database) : unit * Database :=
  (tt, set_im_outbox (alter f id) d).

Definition set_rows (P : Z → OutboxRow → bool) (f : OutboxRow → OutboxRow) (d : Database)
    : unit * Database :=
  (tt, set_im_outbox (update_where P f) d).

(** state=3,payload='',lease_token='',last_error='Friend relationship removed' *)
Definition cancelled (r : OutboxRow) : OutboxRow :=
  mkOutboxRow (o_operation r) (o_dedupe_key r) (o_actor r) (o_peer r) (o_conversation r)
    (o_server_msg_id r) (o_seq r) "" 3 (o_stage r) (o_dispatch_done r) (o_attempts r)
    (o_available_at r) (o_lease_until r) "" "Friend relationship removed".

(** state=3,last_error='Friend relationship removed' *)
Definition unfriended (r : OutboxRow) : OutboxRow :=
  mkOutboxRow (o_operation r) (o_dedupe_key r) (o_actor r) (o_peer r) (o_conversation r)
    (o_server_msg_id r) (o_seq r) (o_payload r) 3 (o_stage r) (o_dispatch_done r) (o_attempts r)
    (o_available_at r) (o_lease_until r) (o_lease_token r) "Friend relationship removed".

(** state=1,attempts=attempts+1,lease_token={},lease_until={} *)
Definition leased (token : string) (until : Z) (r : OutboxRow) : OutboxRow :=
  mkOutboxRow (o_operation r) (o_dedupe_key r) (o_actor r) (o_peer r) (o_conversation r)
    (o_server_msg_id r) (o_seq r) (o_payload r) 1 (o_stage r) (o_dispatch_done r)
    (o_attempts r + 1) (o_available_at r) until token (o_last_error r).

(** state=0,available_at={},lease_token='',last_error={} *)
Definition released (at_time : Z) (error : string) (r : OutboxRow) : OutboxRow :=
  mkOutboxRow (o_operation r) (o_dedupe_key r) (o_actor r) (o_peer r) (o_conversation r)
    (o_server_msg_id r) (o_seq r) (o_payload r) 0 (o_stage r) (o_dispatch_done r)
    (o_attempts r) at_time (o_lease_until r) "" error.

(** stage=1 *)
Definition staged (r : OutboxRow) : OutboxRow :=
  mkOutboxRow (o_operation r) (o_dedupe_key r) (o_actor r) (o_peer r) (o_conversation r)
    (o_server_msg_id r) (o_seq r) (o_payload r) (o_state r) 1 (o_dispatch_done r)
    (o_attempts r) (o_available_at r) (o_lease_until r) (o_lease_token r) (o_last_error r).

(** state=2,lease_token='',last_error='' *)
Definition finished (r : OutboxRow) : OutboxRow :=
  mkOutboxRow (o_operation r) (o_dedupe_key r) (o_actor r) (o_peer r) (o_conversation r)
    (o_server_msg_id r) (o_seq r) (o_payload r) 2 (o_stage r) (o_dispatch_done r)
    (o_attempts r) (o_available_at r) (o_lease_until r) "" "".

(** state=2,dispatch_done=1,lease_token='',last_error='' *)
Definition dispatched (r : OutboxRow) : OutboxRow :=
  mkOutboxRow (o_operation r) (o_dedupe_key r) (o_actor r) (o_peer r) (o_conversation r)
    (o_server_msg_id r) (o_seq r) (o_payload r) 2 (o_stage r) 1
    (o_attempts r) (o_available_at r) (o_lease_until r) "" "".

(** std::to_string(min) + "_" + std::to_string(max) *)
Definition conversation_id (a b : Z) : string :=
  to_string (Z.min a b) +:+ "_" +:+ to_string (Z.max a b).

(** * Queueing *)

(** WHERE conversation_id={} AND operation=1 AND seq<={} AND state IN (0,1) *)
Definition open_message (conversation : string) (cutoff : Z) (_ : Z) (r : OutboxRow) : bool :=
  bool_decide (o_conversation r = conversation) && (o_operation r =? 1) && (o_seq r <=? cutoff) &&
  ((o_state r =? 0) || (o_state r =? 1)).

Definition QueueConversationCleanup (actor peer cutoff : Z) : M unit :=
  let id := conversation_id actor peer in
  update (insert_once (new_outbox_row 2 (id +:+ ":" +:+ show_int cutoff) actor peer id "" cutoff ""));;
  update (set_rows (open_message id cutoff) cancelled).

Definition valid_client_id (s : string) : bool :=
  negb (any_of (λ c, (byte_val c <? 33) || (126 <? byte_val c)) s).

Definition valid_single (m : MsgData) : bool :=
  negb (sendID m =? 0) && negb (recvID m =? 0) && negb (sendID m =? recvID m) &&
  negb (isGroupMsg m) && (sessionType m =? 1) && negb (str_empty (clientMsgID m)) &&
  (size_of (clientMsgID m) <=? 128) && (size_of (content m) <=? 64 * 1024) &&
  valid_client_id (clientMsgID m).

Definition message_key (m : MsgData) : string := to_string (sendID m) +:+ ":" +:+ clientMsgID m.

Section outbox.
Context `{Json} `{Protobuf}.

Definition outboxMessage (task : OutboxTask) : E MsgData :=
  match msg_of_json (tk_payload task) with
  | Some m => inr m
  | None => inl (RuntimeError "Invalid outbox message payload")
  end.

(** The task of an earlier attempt with the same client ID. *)
Definition requeue (message : MsgData) (p : Z * OutboxRow) : M OutboxTask :=
  task ← lift (outboxRow (outbox_columns p));
  if (tk_state task =? 3) || str_empty (tk_payload task)
  then throw (InvalidArgument "This clientMsgID belongs to a deleted conversation")
  else
    original ← lift (outboxMessage task);
    ok ← friendAllows (sendID original) (recvID original) (seq original);
    if negb ok then throw (InvalidArgument "This clientMsgID belongs to a deleted conversation")
    else if negb (recvID original =? recvID message) ||
            negb (bool_decide (content original = content message)) ||
            negb (contentType original =? contentType message) ||
            negb (sessionType original =? sessionType message)
    then throw (InvalidArgument "clientMsgID was reused for a different message")
    else if tk_state task =? 3
    then throw (InvalidArgument "This message was cancelled by a friend deletion")
    else mret task.

Definition queue_message (message : MsgData) : M OutboxTask :=
  lockPair (sendID message) (recvID message);;
  ok ← friendAllows (sendID message) (recvID message) (seq message);
  if negb ok then throw (InvalidArgument "Only friends may exchange messages")
  else
    let key := message_key message in
    row ← query (λ d, select_one (same_key 1 key) (t_im_outbox d));
    match row with
    | Some p => requeue message p
    | None =>
        match msg_to_json message with
        | None => throw (InvalidArgument "Invalid message payload")
        | Some payload =>
            id ← execute (insert_outbox (new_outbox_row 1 key (sendID message) (recvID message)
                   (convID message) (serverMsgID message) (seq message) payload));
            mret (mkOutboxTask id (sendID message) (recvID message) (seq message) 1 0 0 0 false
                    (convID message) (serverMsgID message) payload "")
        end
    end.

Definition QueueSingleMessage (message : MsgData) : M OutboxTask :=
  if negb (valid_single message) then throw (InvalidArgument "Invalid single-chat message")
  else with_connection (conversationTransaction (queue_message message)).

Definition GetOutboxTask (id : Z) : M OutboxTask :=
  with_connection (
    row ← query (λ d, t_im_outbox d !! id);
    match row with
    | None => throw (RuntimeError "Outbox task missing")
    | Some r => lift (outboxRow (outbox_columns (id, r)))
    end).

(** * Claiming and retrying *)

(** ORDER BY f,id *)
Definition order_by (f : OutboxRow → Z) (p q : Z * OutboxRow) : Prop :=
  f p.2 < f q.2 ∨ (f p.2 = f q.2 ∧ p.1 <= q.1).

#[global] Instance order_by_dec f : RelDecision (order_by f).
Proof. intros p q. unfold order_by. apply _. Defined.
#[global] Instance order_by_trans f : Transitive (order_by f).
Proof. intros p q r. unfold order_by. lia. Qed.
#[global] Instance order_by_total f : Total (order_by f).
Proof. intros p q. unfold order_by. lia. Qed.

Definition first_by (f : OutboxRow → Z) (P : OutboxRow → bool) (d : Database)
    : option (Z * OutboxRow) :=
  head (merge_sort (order_by f) (select (λ _ r, P r) (t_im_outbox d))).

Definition ready_task (t : Z) : Database → option (Z * OutboxRow) :=
  first_by o_available_at (λ r, (o_state r =? 0) && (o_available_at r <=? t)).
Definition expired_task (t : Z) : Database → option (Z * OutboxRow) :=
  first_by o_lease_until (λ r, (o_state r =? 1) && (o_lease_until r <=? t)).

Definition with_lease (token : string) (t : OutboxTask) : OutboxTask :=
  mkOutboxTask (tk_id t) (tk_actor t) (tk_peer t) (tk_seq t) (tk_operation t) 1 (tk_stage t)
    (to_int32 (tk_attempts t + 1)) (tk_dispatchDone t) (tk_conversation t) (tk_serverId t)
    (tk_payload t) token.

Definition claim : M (option OutboxTask) :=
  t ← now;
  row ← query (ready_task t);
  row ← match row with
        | Some p => mret (Some p)
        | None => t ← now; query (expired_task t)
        end;
  match row with
  | None => mret None
  | Some p =>
      task ← lift (outboxRow (outbox_columns p));
      token ← newone_str;
      t ← now;
      update (set_row (leased token (t + 45000)) (tk_id task));;
      mret (Some (with_lease token task))
  end.

Definition ClaimOutboxTask : M (option OutboxTask) :=
  with_connection (conversationTransaction claim).

Definition retry_delay (attempts : Z) : Z :=
  Z.min 60000 (Z.shiftl 1000 (Z.min attempts 6)).

(** WHERE id={} AND state=1 AND lease_token={} *)
Definition holds_lease (task : OutboxTask) (id : Z) (r : OutboxRow) : bool :=
  (id =? tk_id task) && (o_state r =? 1) && bool_decide (o_lease_token r = tk_leaseToken task).

Definition RetryOutboxTask (task : OutboxTask) (error : string) : M unit :=
  with_connection (
    t ← now;
    update (set_rows (holds_lease task)
              (released (t + retry_delay (tk_attempts task)) (take_str 1500 error)))).

(** * Acknowledgements *)

Definition insert_receipt (owner : Z) (id : string) (conversation : string) (sq t : Z) (d : Database)
    : unit * Database :=
  (tt, set_im_message_receipts (λ m,
     match m !! (owner, id) with
     | Some _ => m
     | None => <[(owner, id) := mkReceiptRow conversation sq t]> m
     end) d).

(** What the outbox says of the message: an early answer, the message, or
    nothing. *)
Definition ack_lookup (owner : Z) (serverId : string) : M (bool + option MsgData) :=
  with_connection (
    row ← query (λ d, snd <$> select_one (message_row serverId) (t_im_outbox d));
    match row with
    | None => mret (inr None)
    | Some r =>
        recipient ← lift (unsigned_field (FUint64 (o_peer r)) "outbox.recipient");
        if negb (recipient =? owner)
        then throw (InvalidArgument "Acknowledgement owner does not match recipient")
        else
          state ← lift (unsigned_field (FUint64 (o_state r)) "outbox.state");
          if state =? 3 then mret (inl true)
          else
            stage ← lift (unsigned_field (FUint64 (o_stage r)) "outbox.stage");
            if stage =? 0 then throw (InvalidArgument "Message has not been committed")
            else match msg_of_json (o_payload r) with
                 | None => throw (InvalidArgument "Message has not been committed")
                 | Some m => mret (inr (Some m))
                 end
    end).

Definition queue_ack (owner : Z) (serverId : string) (message : MsgData) : M bool :=
  lockPair (sendID message) (recvID message);;
  t ← now;
  update (insert_receipt owner serverId (convID message) (seq message) t);;
  update (insert_once (new_outbox_row 3 (to_string owner +:+ ":" +:+ serverId) (sendID message)
            owner (convID message) serverId (seq message) ""));;
  mret true.

Definition QueueMessageAck (owner : Z) (serverId : string) : M bool :=
  if (owner =? 0) || str_empty serverId || (128 <? size_of serverId)
  then throw (InvalidArgument "Invalid message acknowledgement")
  else
    found ← ack_lookup owner serverId;
    match found with
    | inl answer => mret answer
    | inr message =>
        message ← match message with
                  | Some m => if str_empty (serverMsgID m) then GetMsgByServerMsgID serverId
                              else mret (Some m)
                  | None => GetMsgByServerMsgID serverId
                  end;
        match message with
        | None => mret true
        | Some m =>
            if isGroupMsg m then mret false
            else if negb (recvID m =? owner)
            then throw (InvalidArgument "Acknowledgement owner does not match recipient")
            else with_connection (conversationTransaction (queue_ack owner serverId m));; mret true
        end
    end.

(** * Processing *)

(** The first phase of a message: body, conversation rows, stage. *)
Definition persist_message (id : Z) (message : MsgData) : M unit :=
  saved ← SaveMsgToMongo message false;
  if negb saved then throw (RuntimeError "MongoDB message persistence failed")
  else
    RecordConversationMessage message;;
    update (set_row staged id).

Definition complete_task (id : Z) : M bool := update (set_row finished id);; mret true.

(** The second phase: publication, then Kafka unless the recipient has already
    acknowledged. *)
Definition dispatch_message (task : OutboxTask) (message : MsgData) : M bool :=
  PublishMessage (tk_serverId task);;
  receipt ← query (λ d, t_im_message_receipts d !! (tk_peer task, tk_serverId task));
  match receipt with
  | Some _ => complete_task (tk_id task)
  | None =>
      cached ← SaveMsg message;
      if negb cached then throw (RuntimeError "Redis message caching failed")
      else
        confirmed ← deliverConfirmed (tk_conversation task) (tk_serverId task);
        if negb confirmed then throw (RuntimeError "Kafka broker did not confirm delivery")
        else
          t ← now;
          update (set_row (released (t + 5000) "") (tk_id task));;
          mret true
  end.

(** WHERE operation=1 AND conversation_id={} AND seq<={} *)
Definition old_message (conversation : string) (cutoff : Z) (_ : Z) (r : OutboxRow) : bool :=
  (o_operation r =? 1) && bool_decide (o_conversation r = conversation) && (o_seq r <=? cutoff).

Definition cleanup_chat (task : OutboxTask) : M bool :=
  update (set_rows (old_message (tk_conversation task) (tk_seq task)) cancelled);;
  ids ← GetSingleChatMessageIDs (tk_conversation task) (tk_seq task);
  RedisDeleteSingleChatHistory (tk_actor task) (tk_peer task) ids;;
  DeleteSingleChatHistory (tk_conversation task) (tk_seq task);;
  complete_task (tk_id task).

Definition acknowledge (task : OutboxTask) : M bool :=
  marked ← MarkMsgsAsDelivered (tk_peer task) [tk_serverId task];
  if negb marked then throw (RuntimeError "MongoDB acknowledgement update failed")
  else
    CleanupAcknowledgedMessage (tk_peer task) (tk_serverId task);;
    complete_task (tk_id task).

(** The work of a task whose lease is held; [stage] is the stored stage. *)
Definition work (task : OutboxTask) (persist : bool) (stage : Z) : M bool :=
  if tk_operation task =? 1 then
    ok ← friendAllows (tk_actor task) (tk_peer task) (tk_seq task);
    if negb ok then update (set_row unfriended (tk_id task));; mret false
    else
      message ← lift (outboxMessage task);
      if persist then when (stage =? 0) (persist_message (tk_id task) message);; mret true
      else dispatch_message task message
  else if tk_operation task =? 2 then cleanup_chat task
  else if tk_operation task =? 3 then acknowledge task
  else throw (RuntimeError "Unknown outbox operation").

Definition phase_action (task : OutboxTask) (persist : bool) : M bool :=
  lockPair (tk_actor task) (tk_peer task);;
  row ← query (λ d, t_im_outbox d !! tk_id task);
  match row with
  | None => mret false
  | Some r =>
      current ← lift (outboxRow (outbox_columns (tk_id task, r)));
      if negb (tk_state current =? 1) || negb (bool_decide (tk_leaseToken current = tk_leaseToken task))
      then mret false
      else work task persist (tk_stage current)
  end.

Definition phase (task : OutboxTask) (persist : bool) : M bool :=
  conversationTransaction (phase_action task persist).

Definition ProcessOutboxTask (task : OutboxTask) : M unit :=
  with_connection (
    go ← (if tk_operation task =? 1 then phase task true else mret true);
    if (go : bool) then phase task false;; mret tt else mret tt).

(** * Questions of the delivery side *)

Definition friends_both (d : Database) (a b : Z) : bool :=
  bool_decide (select_one (λ _ r, (f_owner r =? a) && (f_friend r =? b)) (t_friends d) ≠ None) &&
  bool_decide (select_one (λ _ r, (f_owner r =? b) && (f_friend r =? a)) (t_friends d) ≠ None).

(** The WHERE clause of the join for one message. *)
Definition visible_row (d : Database) (m : MsgData) : bool :=
  friends_both d (sendID m) (recvID m) &&
  match deleted_seq (sendID m) (recvID m) d with Some s => s <? seq m | None => true end &&
  match select (message_row (serverMsgID m)) (t_im_outbox d) with
  | [] => true
  | rows => existsb (λ p, (o_stage p.2 =? 1) && negb (o_state p.2 =? 3)) rows
  end.

Definition visible_ids (messages : list MsgData) (d : Database) : list string :=
  serverMsgID <$> filter (λ m, visible_row d m = true) messages.

Definition FilterVisibleMessages (messages : list MsgData) : M (list MsgData) :=
  match messages with
  | [] => mret []
  | _ => with_connection (
      ids ← query (visible_ids messages);
      mret (filter (λ m, serverMsgID m ∈ ids) messages))
  end.

Definition MessageDispatchDone (owner : Z) (serverId : string) : M bool :=
  with_connection (
    query (λ d,
      bool_decide (select_one (λ k r, message_row serverId k r &&
        ((o_state r =? 3) || (o_dispatch_done r =? 1))) (t_im_outbox d) ≠ None) ||
      bool_decide (t_im_message_receipts d !! (owner, serverId) ≠ None))).

(** WHERE operation=1 AND server_msg_id={} AND stage=1 AND state<>3 *)
Definition published_row (serverId : string) (k : Z) (r : OutboxRow) : bool :=
  message_row serverId k r && (o_stage r =? 1) && negb (o_state r =? 3).

Definition ConfirmMessageDispatch (serverId : string) : M unit :=
  with_connection (update (set_rows (published_row serverId) dispatched)).
End outbox.
