(* ===== verification/OutboxWorker.v ===== *)
(** The outbox worker ([src/services/msg_service/outbox_worker.cpp]): one pass of
    its loop claims a task, processes it, records a failure for a later retry,
    and tells the sender the outcome. *)
From S2P Require Import Prelude Table Snowflake Schema Effects Users Stores Conversations Friendship Outbox.

(** [sdkws::SendMessageRespInfo] *)
Record SendInfo := mkSendInfo { si_msg : option MsgData; si_errorCode : string; si_errorMsg : string }.

(** The push to the sender's sessions: [SdkWSResp] of type 101, error code "0",
    with one info. *)
Record SenderPush := mkSenderPush { sp_account : Z; sp_requestId : string; sp_info : SendInfo }.

Section worker.
Context `{Json} `{Protobuf}.

Definition notifySender (task : OutboxTask) : option SenderPush :=
  if negb (tk_operation task =? 1) || ((tk_stage task =? 0) && negb (tk_state task =? 3)) ||
     ((tk_stage task =? 1) && (tk_state task =? 3))
  then None
  else
    match msg_of_json (tk_payload task) with
    | None => None
    | Some message =>
        Some (mkSenderPush (tk_actor task) (clientMsgID message)
          (mkSendInfo (Some message) (if tk_state task =? 3 then "NOT_FRIEND" else "0")
             (if tk_state task =? 3
              then "Message cancelled because the friend relationship was removed" else "")))
    end.

(** [what] is the text of an exception.  The result of a pass: the push, if any,
    and the sleep in milliseconds, if any. *)
Definition worker_pass (what : exn → string) : M (option SenderPush * option Z) :=
  claimed ← catch ClaimOutboxTask;
  match claimed with
  | inl _ => mret (None, Some 1000)
  | inr None => mret (None, Some 250)
  | inr (Some task) =>
      processed ← catch (ProcessOutboxTask task);
      let error := match processed with inl e => Some (what e) | inr _ => None end in
      told ← catch (
        match error with Some e => RetryOutboxTask task e | None => mret tt end;;
        current ← GetOutboxTask (tk_id task);
        mret (notifySender current));
      mret (match told with inr push => push | inl _ => None end,
            match error with Some _ => Some 1000 | None => None end)
  end.

(** [Run], stopped after [n] passes. *)
Fixpoint Run (what : exn → string) (n : nat) : M unit :=
  match n with
  | O => mret tt
  | S n => worker_pass what;; Run what n
  end.
End worker.
