(* ===== verification/OutboxProofs.v ===== *)
(** Correctness of the outbox: how rows evolve under every operation and failure
    schedule, what a claim takes, and what a lease protects. *)
From S2P Require Import Prelude Table Snowflake Schema Effects Users Stores Conversations Friendship Outbox.

(** * The evolution of rows *)

(** The identity of a task never changes; the stage moves from 0 to 1 only; a
    finished task (state 2) can only be cancelled and a cancelled one (state 3)
    stays cancelled; a payload is only dropped by a cancellation. *)
Record row_evolves (r r' : OutboxRow) : Prop := mkRowEvolves {
  re_operation : o_operation r' = o_operation r;
  re_key : o_dedupe_key r' = o_dedupe_key r;
  re_actor : o_actor r' = o_actor r;
  re_peer : o_peer r' = o_peer r;
  re_conversation : o_conversation r' = o_conversation r;
  re_id : o_server_msg_id r' = o_server_msg_id r;
  re_seq : o_seq r' = o_seq r;
  re_payload : o_payload r' = o_payload r ∨ o_payload r' = "" ∧ o_state r' = 3;
  re_stage : o_stage r' = o_stage r ∨ o_stage r' = 1;
  re_done : o_dispatch_done r' = o_dispatch_done r ∨ o_dispatch_done r' = 1;
  re_attempts : o_attempts r <= o_attempts r';
  re_cancelled : o_state r = 3 → o_state r' = 3;
  re_finished : o_state r = 2 → o_state r' = 2 ∨ o_state r' = 3;
}.

#[export] Instance row_evolves_preorder : PreOrder row_evolves.
Proof.
  split.
  - intros r. split; auto; lia.
  - intros a b c [] []. split; try congruence; try lia; try intuition congruence.
Qed.

Record row_ok (r : OutboxRow) : Prop := mkRowOk {
  ro_operation : 1 <= o_operation r <= 3;
  ro_state : 0 <= o_state r <= 3;
  ro_stage : 0 <= o_stage r <= 1;
}.

(** The identifiers are below the counter and (operation, dedupe_key) is unique. *)
Record outbox_ok (d : Database) : Prop := mkOutboxOk {
  oo_next id r : t_im_outbox d !! id = Some r → id < t_im_outbox_next d;
  oo_row id r : t_im_outbox d !! id = Some r → row_ok r;
  oo_unique id id' r r' : t_im_outbox d !! id = Some r → t_im_outbox d !! id' = Some r' →
    o_operation r = o_operation r' → o_dedupe_key r = o_dedupe_key r' → id = id';
}.

Definition outbox_evolves (d d' : Database) : Prop :=
  outbox_ok d → outbox_ok d' ∧
  ∀ id r, t_im_outbox d !! id = Some r → ∃ r', t_im_outbox d' !! id = Some r' ∧ row_evolves r r'.

#[export] Instance outbox_evolves_preorder : PreOrder outbox_evolves.
Proof.
  split.
  - intros d Hd. split; [done|]. intros id r Hr. exists r. split; [done|reflexivity].
  - intros d1 d2 d3 H12 H23 H1. destruct (H12 H1) as [H2 K12]. destruct (H23 H2) as [H3 K23].
    split; [done|]. intros id r Hr. destruct (K12 id r Hr) as (r2 & Hr2 & He).
    destruct (K23 id r2 Hr2) as (r3 & Hr3 & He'). exists r3. split; [done|by etrans].
Qed.

(** A change that keeps the outbox. *)
Lemma outbox_same d d' :
  t_im_outbox d' = t_im_outbox d → t_im_outbox_next d' = t_im_outbox_next d → outbox_evolves d d'.
Proof.
  intros E1 E2 [H1 H2 H3]. split; [split; rewrite ?E1, ?E2; done|].
  intros id r Hr. exists r. rewrite E1. split; [done|reflexivity].
Qed.

(** A change of rows in place. *)
Lemma outbox_in_place d g :
  (∀ id r, t_im_outbox d !! id = Some r → row_evolves r (g id r) ∧ (row_ok r → row_ok (g id r))) →
  outbox_evolves d (set_im_outbox (map_imap (λ id r, Some (g id r))) d).
Proof.
  intros Hg [H1 H2 H3].
  change (t_im_outbox (set_im_outbox ?f d)) with (f (t_im_outbox d)).
  assert (Hrow : ∀ id r', map_imap (λ id r, Some (g id r)) (t_im_outbox d) !! id = Some r' →
    ∃ r, t_im_outbox d !! id = Some r ∧ r' = g id r).
  { intros id r'. rewrite map_lookup_imap. destruct (t_im_outbox d !! id) as [r|]; [|done].
    intros [= <-]. eauto. }
  split.
  - split;
      change (t_im_outbox (set_im_outbox ?f d)) with (f (t_im_outbox d));
      change (t_im_outbox_next (set_im_outbox ?f d)) with (t_im_outbox_next d).
    + intros id r' (r & Hr & _)%Hrow. by apply (H1 id r).
    + intros id r' (r & Hr & ->)%Hrow. exact (proj2 (Hg id r Hr) (H2 id r Hr)).
    + intros i j r1' r2' (r1 & Hr1 & ->)%Hrow (r2 & Hr2 & ->)%Hrow.
      destruct (Hg i r1 Hr1) as [[-> -> _ _ _ _ _ _ _ _ _ _ _] _].
      destruct (Hg j r2 Hr2) as [[-> -> _ _ _ _ _ _ _ _ _ _ _] _]. eauto.
  - intros id r Hr. exists (g id r). rewrite map_lookup_imap, Hr. split; [done|by apply Hg].
Qed.

Lemma set_rows_evolves P f d :
  (∀ id r, t_im_outbox d !! id = Some r → P id r = true → row_evolves r (f r) ∧ (row_ok r → row_ok (f r))) →
  outbox_evolves d (set_rows P f d).2.
Proof.
  intros Hf. apply (outbox_in_place d (λ id r, if P id r then f r else r)).
  intros id r Hr. destruct (P id r) eqn:E; [by apply (Hf id r)|]. split; [reflexivity|done].
Qed.

Lemma set_row_as_rows f id d :
  set_row f id d = set_rows (λ k _, k =? id) f d.
Proof.
  unfold set_row, set_rows, set_im_outbox, on_outbox. do 3 f_equal. apply map_eq. intros k.
  rewrite lookup_update_where. destruct (decide (k = id)) as [->|Hne].
  - rewrite lookup_alter_eq, Z.eqb_refl. done.
  - rewrite lookup_alter_ne, (proj2 (Z.eqb_neq k id)) by done.
    by destruct (im_outbox (db_outbox d) !! k).
Qed.

Lemma set_row_evolves f id d :
  (∀ r, t_im_outbox d !! id = Some r → row_evolves r (f r) ∧ (row_ok r → row_ok (f r))) →
  outbox_evolves d (set_row f id d).2.
Proof.
  intros Hf. rewrite set_row_as_rows. apply set_rows_evolves.
  intros k r Hr ->%Z.eqb_eq. by apply Hf.
Qed.

Lemma insert_row_evolves row d :
  row_ok row → (∀ id r, t_im_outbox d !! id = Some r →
     ¬ (o_operation r = o_operation row ∧ o_dedupe_key r = o_dedupe_key row)) →
  outbox_evolves d (insert_row row d).2.
Proof.
  intros Hrow Hnew [H1 H2 H3]. unfold insert_row. cbn [snd].
  change (t_im_outbox (set_im_outbox_next _ (set_im_outbox ?f d))) with (f (t_im_outbox d)).
  set (n := t_im_outbox_next d) in *.
  assert (Hfresh : t_im_outbox d !! n = None).
  { destruct (t_im_outbox d !! n) eqn:E; [|done]. apply H1 in E. lia. }
  split.
  - split;
      change (t_im_outbox (set_im_outbox_next _ (set_im_outbox ?f d))) with (f (t_im_outbox d));
      change (t_im_outbox_next (set_im_outbox_next ?f (set_im_outbox _ d))) with (f n).
    + intros id r [[<- _]|[_ Hr]]%lookup_insert_Some; [lia|apply H1 in Hr; lia].
    + intros id r [[_ <-]|[_ Hr]]%lookup_insert_Some; [done|eauto].
    + intros i j r1 r2 [[<- <-]|[? Hr1]]%lookup_insert_Some [[<- <-]|[? Hr2]]%lookup_insert_Some;
        intros Ho Hk; [done| | |by eapply H3].
      * exfalso. apply (Hnew j r2 Hr2). done.
      * exfalso. apply (Hnew i r1 Hr1). done.
  - intros id r Hr. exists r. rewrite lookup_insert_ne by congruence. split; [done|reflexivity].
Qed.

Lemma same_key_none op key (m : gmap Z OutboxRow) :
  select_one (same_key op key) m = None →
  ∀ id r, m !! id = Some r → ¬ (o_operation r = op ∧ o_dedupe_key r = key).
Proof.
  rewrite select_one_None. intros Hall id r Hr [Ho Hk]. specialize (Hall id r Hr).
  unfold same_key in Hall. rewrite Ho, Z.eqb_refl, bool_decide_eq_true_2 in Hall; done.
Qed.

Lemma insert_outbox_evolves row d id d' :
  row_ok row → insert_outbox row d = inr (id, d') → outbox_evolves d d'.
Proof.
  intros Hrow. unfold insert_outbox. destruct (select_one _ _) eqn:E; [done|].
  intros Heq. injection Heq as _ <-. apply (insert_row_evolves row d); [done|].
  by apply same_key_none.
Qed.

Lemma insert_once_evolves row d : row_ok row → outbox_evolves d (insert_once row d).2.
Proof.
  intros Hrow. unfold insert_once. destruct (select_one _ _) eqn:E; [reflexivity|].
  apply insert_row_evolves; [done|]. by apply same_key_none.
Qed.

Lemma new_row_ok op key a p c s q pl :
  1 <= op <= 3 → row_ok (new_outbox_row op key a p c s q pl).
Proof. intros. split; cbn; lia. Qed.

(** ** The single changes *)

Ltac row_change := intros; split; [split; cbn; auto; lia|intros [? ? ?]; split; cbn; auto; lia].

Lemma cancelled_evolves r : row_evolves r (cancelled r) ∧ (row_ok r → row_ok (cancelled r)).
Proof. row_change. Qed.
Lemma unfriended_evolves r : row_evolves r (unfriended r) ∧ (row_ok r → row_ok (unfriended r)).
Proof. row_change. Qed.
Lemma staged_evolves r : row_evolves r (staged r) ∧ (row_ok r → row_ok (staged r)).
Proof. row_change. Qed.
Lemma leased_evolves t u r :
  o_state r = 0 ∨ o_state r = 1 → row_evolves r (leased t u r) ∧ (row_ok r → row_ok (leased t u r)).
Proof. row_change. Qed.
Lemma released_evolves t e r :
  o_state r = 1 → row_evolves r (released t e r) ∧ (row_ok r → row_ok (released t e r)).
Proof. row_change. Qed.
Lemma finished_evolves r :
  o_state r = 1 → row_evolves r (finished r) ∧ (row_ok r → row_ok (finished r)).
Proof. row_change. Qed.
Lemma dispatched_evolves r :
  o_state r ≠ 3 → row_evolves r (dispatched r) ∧ (row_ok r → row_ok (dispatched r)).
Proof. row_change. Qed.

(** * Statements of the other components *)

Section other_stores.
Context (R : relation Database) `{!PreOrder R}.
#[local] Set Default Proof Using "All".

#[global] Instance Step_mongo_stmt {A} (op : gmap string document → exn + (A * gmap string document)) :
  Step (stmt_step R) (mongo op).
Proof.
  apply Step_remote; [apply _|intros fs w; by apply stmt_step_same|].
  intros w a w'. destruct (op (w_mongo w)) as [|[]]; [done|]. intros [= _ <-]. by apply stmt_step_same.
Qed.

#[global] Instance Step_redis_stmt {A} (op : RedisStore → A * RedisStore) :
  Step (stmt_step R) (redis op).
Proof.
  apply Step_remote; [apply _|intros fs w; by apply stmt_step_same|].
  intros w a w'. destruct (op (w_redis w)). intros [= _ <-]. by apply stmt_step_same.
Qed.

#[global] Instance Step_deliver_stmt key payload : Step (stmt_step R) (deliverConfirmed key payload).
Proof.
  intros w. unfold deliverConfirmed.
  assert (Hs : Step (stmt_step R) (remote StoreError
    (λ w, inr (tt, with_kafka (w_kafka w ++ [(key, payload)]) w)))).
  { apply Step_remote; [apply _|intros fs x; by apply stmt_step_same|].
    intros x a x' [= _ <-]. by apply stmt_step_same. }
  specialize (Hs w). by destruct (remote _ _ w) as [[] ?].
Qed.

#[global] Instance Step_SaveMsgToMongo_stmt m c : Step (stmt_step R) (SaveMsgToMongo m c).
Proof. unfold SaveMsgToMongo. apply _. Qed.
#[global] Instance Step_Publish_stmt id : Step (stmt_step R) (PublishMessage id).
Proof. unfold PublishMessage. apply _. Qed.
#[global] Instance Step_MarkMsgs_stmt u ids : Step (stmt_step R) (MarkMsgsAsDelivered u ids).
Proof.
  assert (Step (stmt_step R) (mark_all u ids)) by (induction ids; cbn [mark_all]; apply _).
  unfold MarkMsgsAsDelivered. apply _.
Qed.
#[global] Instance Step_history_stmt c e s : Step (stmt_step R) (singleChatHistory c e s).
Proof. unfold singleChatHistory, mongo_find. apply _. Qed.
#[global] Instance Step_GetMsg_stmt id : Step (stmt_step R) (GetMsgByServerMsgID id).
Proof. unfold GetMsgByServerMsgID, mongo_find. apply _. Qed.
#[global] Instance Step_cleanup_stmt o id : Step (stmt_step R) (CleanupAcknowledgedMessage o id).
Proof.
  unfold CleanupAcknowledgedMessage, DeleteMsgCache, redis_del, redis_zrem. apply _.
Qed.
#[global] Instance Step_redis_history_stmt a b ids :
  Step (stmt_step R) (RedisDeleteSingleChatHistory a b ids).
Proof.
  unfold RedisDeleteSingleChatHistory. generalize (unique (merge_sort String.le ids)) as l.
  intros l. induction l; cbn [cleanup_all]; apply _.
Qed.
#[global] Instance Step_SaveMsg_stmt `{Protobuf} m : Step (stmt_step R) (SaveMsg m).
Proof. unfold SaveMsg, redis_setex. apply _. Qed.
#[global] Instance Step_friendAllows_stmt a b s : Step (stmt_step R) (friendAllows a b s).
Proof. unfold friendAllows. apply _. Qed.
End other_stores.

(** * The operations evolve the outbox *)

Section evolution.
Context `{Json} `{Protobuf}.

#[export] Instance OE_lockPair a b : Step (stmt_step outbox_evolves) (lockPair a b).
Proof. apply Step_update; [apply _|]. intros d. by apply outbox_same. Qed.

#[export] Instance OE_requeue m p : Step (stmt_step outbox_evolves) (requeue m p).
Proof. unfold requeue. apply _. Qed.

#[export] Instance OE_queue_message m : Step (stmt_step outbox_evolves) (queue_message m).
Proof.
  unfold queue_message. apply Step_bind; [apply _..|]. intros _.
  apply Step_bind; [apply _..|]. intros ok. destruct (negb ok); [apply _|].
  apply Step_bind; [apply _..|]. intros [p|]; [apply _|].
  destruct (msg_to_json m); [|apply _]. apply Step_bind; [apply _| |apply _].
  apply Step_execute; [apply _|]. intros d id d'. apply insert_outbox_evolves. by apply new_row_ok.
Qed.

#[export] Instance OE_cleanup a b c : Step (stmt_step outbox_evolves) (QueueConversationCleanup a b c).
Proof.
  unfold QueueConversationCleanup. apply Step_bind; [apply _| |intros _].
  - apply Step_update; [apply _|]. intros d. apply insert_once_evolves. by apply new_row_ok.
  - apply Step_update; [apply _|]. intros d. apply set_rows_evolves. intros id r _ _.
    apply cancelled_evolves.
Qed.

#[export] Instance OE_queue_ack o id m : Step (stmt_step outbox_evolves) (queue_ack o id m).
Proof.
  unfold queue_ack. apply Step_bind; [apply _..|]. intros _. apply Step_bind; [apply _..|]. intros t.
  apply Step_bind; [apply _| |intros _; apply Step_bind; [apply _| |apply _]].
  - apply Step_update; [apply _|]. intros d. by apply outbox_same.
  - apply Step_update; [apply _|]. intros d. apply insert_once_evolves. by apply new_row_ok.
Qed.

#[export] Instance OE_retry task e : Step (db_step outbox_evolves) (RetryOutboxTask task e).
Proof.
  unfold RetryOutboxTask. apply Step_with_connection; [apply _|]. apply Conn_stmt; [apply _|].
  apply Step_bind; [apply _..|]. intros t. apply Step_update; [apply _|]. intros d.
  apply set_rows_evolves. intros id r _ Hp. apply released_evolves. unfold holds_lease in Hp.
  by bool_to_prop.
Qed.

#[export] Instance OE_confirm id : Step (db_step outbox_evolves) (ConfirmMessageDispatch id).
Proof.
  unfold ConfirmMessageDispatch. apply Step_with_connection; [apply _|]. apply Conn_stmt; [apply _|].
  apply Step_update; [apply _|]. intros d. apply set_rows_evolves. intros k r _ Hp.
  apply dispatched_evolves. unfold published_row in Hp. by bool_to_prop.
Qed.

#[export] Instance OE_QueueSingleMessage m : Step (db_step outbox_evolves) (QueueSingleMessage m).
Proof.
  unfold QueueSingleMessage. destruct (negb _); [apply _|].
  apply Step_with_connection; [apply _|]. apply Conn_tx_step; apply _.
Qed.

#[export] Instance OE_QueueMessageAck o id : Step (db_step outbox_evolves) (QueueMessageAck o id).
Proof.
  assert (Hget : ∀ id, Step (db_step outbox_evolves) (GetMsgByServerMsgID id)).
  { intros i. apply Step_db_same; [apply _|..]; intros w; unfold GetMsgByServerMsgID, mongo_find, mongo;
      unfold mbind, M_bind, remote; destruct (w_faults w) as [|[] ?]; cbn; try done;
      destruct (w_mongo w !! i); cbn; try done; unfold lift; by destruct (DecodeMessage _). }
  assert (Hlook : Step (db_step outbox_evolves) (ack_lookup o id)).
  { unfold ack_lookup. apply Step_with_connection; [apply _|]. apply Conn_stmt; apply _. }
  assert (Hack : ∀ m, Step (db_step outbox_evolves)
    (with_connection (conversationTransaction (queue_ack o id m)))).
  { intros m. apply Step_with_connection; [apply _|]. apply Conn_tx_step; apply _. }
  unfold QueueMessageAck. apply _.
Qed.
End evolution.

(** * Tasks and rows *)

Definition task_of (id : Z) (r : OutboxRow) : OutboxTask :=
  mkOutboxTask id (o_actor r) (o_peer r) (to_int64 (o_seq r)) (to_int32 (o_operation r))
    (to_int32 (o_state r)) (to_int32 (o_stage r)) (to_int32 (o_attempts r))
    (negb (o_dispatch_done r =? 0)) (o_conversation r) (o_server_msg_id r) (o_payload r)
    (o_lease_token r).

Lemma outboxRow_columns id r :
  outboxRow (outbox_columns (id, r)) =
  if 0 <=? o_seq r then inr (task_of id r)
  else inl (field_error (FInt64 (o_seq r)) "outbox.seq" "a nonnegative integer").
Proof. unfold outboxRow. cbn. by destruct (0 <=? o_seq r). Qed.

Lemma outboxRow_ok id r t : outboxRow (outbox_columns (id, r)) = inr t → t = task_of id r ∧ 0 <= o_seq r.
Proof. rewrite outboxRow_columns. destruct (0 <=? o_seq r) eqn:E; [|done]. intros [= <-]. by bool_to_prop. Qed.

Lemma to_int32_small z : 0 <= z <= 3 → to_int32 z = z.
Proof. intros. apply to_int32_id. unfold is_int32. lia. Qed.

(** ** The oldest row *)

Lemma first_by_Some f P d k r :
  first_by f P d = Some (k, r) →
  t_im_outbox d !! k = Some r ∧ P r = true ∧
  ∀ k' r', t_im_outbox d !! k' = Some r' → P r' = true →
    f r < f r' ∨ (f r = f r' ∧ k <= k').
Proof.
  unfold first_by. intros Hh. set (l := merge_sort _ _) in Hh.
  assert (Hl : l ≡ₚ select (λ _ r, P r) (t_im_outbox d)) by apply merge_sort_Permutation.
  assert (Hs : StronglySorted (order_by f) l) by (apply StronglySorted_merge_sort; apply _).
  destruct l as [|p l]; [done|]. injection Hh as ->.
  assert (Hin : (k, r) ∈ select (λ _ r, P r) (t_im_outbox d)) by (rewrite <- Hl; constructor).
  apply elem_of_select in Hin as [Hk HP]. split; [done|]. split; [done|].
  intros k' r' Hk' HP'.
  assert (Hin' : (k', r') ∈ select (λ _ r, P r) (t_im_outbox d)) by by apply elem_of_select.
  rewrite <- Hl in Hin'. apply elem_of_cons in Hin' as [[= -> ->]|Hin']; [lia|].
  apply StronglySorted_inv in Hs as [_ Hall]. rewrite Forall_forall in Hall.
  exact (Hall _ Hin').
Qed.

Lemma first_by_None f P d :
  first_by f P d = None → ∀ k r, t_im_outbox d !! k = Some r → P r = false.
Proof.
  unfold first_by. intros Hh k r Hk. destruct (P r) eqn:HP; [|done]. exfalso.
  set (l := merge_sort _ _) in Hh.
  assert (Hl : l ≡ₚ select (λ _ r, P r) (t_im_outbox d)) by apply merge_sort_Permutation.
  destruct l; [|done]. apply Permutation_nil_l in Hl.
  assert (Hin : (k, r) ∈ select (λ _ r, P r) (t_im_outbox d)) by by apply elem_of_select.
  rewrite <- Hl in Hin. by apply elem_of_nil in Hin.
Qed.

(** ** Claims *)

(** The row a claim takes when the two clock readings are [t0] and [t1]. *)
Definition claimable (t0 t1 : Z) (d : Database) : option (Z * OutboxRow) :=
  match ready_task t0 d with Some p => Some p | None => expired_task t1 d end.

Lemma claimable_row t0 t1 d k r :
  claimable t0 t1 d = Some (k, r) →
  t_im_outbox d !! k = Some r ∧
  (o_state r = 0 ∧ o_available_at r <= t0 ∨ o_state r = 1 ∧ o_lease_until r <= t1).
Proof.
  unfold claimable. destruct (ready_task t0 d) as [p|] eqn:E.
  - intros [= ->]. apply first_by_Some in E as (Hk & HP & _). bool_to_prop. auto.
  - intros Hx. apply first_by_Some in Hx as (Hk & HP & _). bool_to_prop. auto.
Qed.

(** Every outcome of [claim]: nothing changed, or one row was leased. *)
Lemma claim_outcome w r w' :
  claim w = (r, w') →
  let t i := w_clock w (i + w_tick w) in
  let n := match ready_task (t 0%nat) (view w) with Some _ => 1%nat | None => 2%nat end in
  (view w' = view w ∧ ∀ x, r = inr x → x = None ∧ claimable (t 0%nat) (t 1%nat) (view w) = None) ∨
  ∃ k row, claimable (t 0%nat) (t 1%nat) (view w) = Some (k, row) ∧
    view w' = (set_row (leased (w_uuid w (w_uuids w)) (t n + 45000)) k (view w)).2 ∧
    0 <= o_seq row ∧
    ∀ x, r = inr x → x = Some (with_lease (w_uuid w (w_uuids w)) (task_of k row)).
Proof.
  intros Hrun t n. unfold claim in Hrun.
  apply bind_cases in Hrun as [(e & He & ->)|(t0 & w0 & H0 & Hrun)]; [done|].
  injection H0 as <- <-. change (w_clock w (w_tick w)) with (t 0%nat) in Hrun.
  apply bind_cases in Hrun as [(e & He & ->)|(row & w1 & Hq & Hrun)].
  { apply quiet_run in He as [Hv _]; [|apply _]. left. by rewrite Hv. }
  apply query_ok in Hq as (-> & fs1 & ->).
  change (view (with_tick _ w)) with (view w) in Hrun.
  apply bind_cases in Hrun as [(e & He & ->)|(row & w2 & Hrow & Hrun)].
  { apply quiet_run in He as [Hv _]; [|destruct (ready_task _ _); apply _]. left. by rewrite Hv. }
  assert (Hw2 : row = claimable (t 0%nat) (t 1%nat) (view w) ∧
    ∃ fs2, w2 = with_faults fs2 (with_tick (n + w_tick w) w)).
  { unfold claimable, n. destruct (ready_task (t 0%nat) (view w)) as [p|].
    - apply ret_ok in Hrow as [<- <-]. split; [done|]. by eexists.
    - apply bind_ok in Hrow as (t1 & w3 & Ht & Hq). injection Ht as <- <-.
      apply query_ok in Hq as (-> & fs2 & ->). split; [done|]. by eexists. }
  destruct Hw2 as [-> [fs2 ->]]. clear Hrow.
  destruct (claimable _ _ (view w)) as [[k rw]|] eqn:Ec.
  2: { apply ret_cases in Hrun as [-> ->]. left. split; [done|]. by intros x [= <-]. }
  apply bind_cases in Hrun as [(e & He & ->)|(task & w3 & [Htask ->]%lift_ok & Hrun)].
  { apply quiet_run in He as [Hv _]; [|apply _]. left. by rewrite Hv. }
  apply outboxRow_ok in Htask as [-> Hseq].
  apply bind_cases in Hrun as [(e & He & ->)|(tok & w4 & Htok & Hrun)]; [done|].
  injection Htok as <- <-.
  apply bind_cases in Hrun as [(e & He & ->)|(t2 & w4 & Ht & Hrun)]; [done|].
  injection Ht as <- <-. world_cbn.
  apply bind_cases in Hrun as [(e & He & ->)|(u & w4 & Hu & Hrun)].
  - apply update_err in He as (fs & [->| ->]); [by left|].
    right. exists k, rw. split; [done|]. world_simpl. by split_and!.
  - apply update_ok in Hu as (fs & _ & ->). apply ret_cases in Hrun as [-> ->].
    right. exists k, rw. split; [done|]. world_simpl. split_and!; [done|done|]. by intros x [= <-].
Qed.

Lemma InTx_claim : InTx claim.
Proof. unfold claim. apply _. Qed.

Lemma claim_evolves w r w' : claim w = (r, w') → outbox_evolves (view w) (view w').
Proof.
  intros [[-> _]|(k & row & Hc & -> & _)]%claim_outcome; [reflexivity|].
  apply claimable_row in Hc as [Hk Hst]. apply set_row_evolves. intros r' Hr'.
  assert (r' = row) as -> by congruence. apply leased_evolves. tauto.
Qed.

#[export] Instance OE_ClaimOutboxTask : Step (db_step outbox_evolves) ClaimOutboxTask.
Proof.
  unfold ClaimOutboxTask. apply Step_with_connection; [apply _|].
  apply Conn_tx; [apply _| |apply InTx_claim]. intros w d0 Ht.
  destruct (claim w) as [r w'] eqn:E. cbn. rewrite <- (view_txn d0 w) by done.
  by eapply claim_evolves.
Qed.

(** ** Processing a task *)

(** The row of the task is leased and has the task's operation. *)
Definition locked (task : OutboxTask) (d : Database) : Prop :=
  ∃ r, t_im_outbox d !! tk_id task = Some r ∧ o_state r = 1 ∧ o_operation r = tk_operation task.

(** The statements before the last one keep the row leased. *)
Definition working (task : OutboxTask) (d d' : Database) : Prop :=
  locked task d → outbox_evolves d d' ∧ locked task d'.

#[export] Instance working_preorder task : PreOrder (working task).
Proof.
  split.
  - intros d Hl. split; [reflexivity|done].
  - intros d1 d2 d3 H12 H23 H1. destruct (H12 H1) as [E12 H2]. destruct (H23 H2) as [E23 H3].
    split; [by etrans|done].
Qed.

Lemma working_same task d d' :
  t_im_outbox d' = t_im_outbox d → t_im_outbox_next d' = t_im_outbox_next d → working task d d'.
Proof.
  intros E1 E2 (r & Hr). split; [by apply outbox_same|]. exists r. by rewrite E1.
Qed.

(** The whole work, the last statement included. *)
Definition worked (task : OutboxTask) (w w' : World) : Prop :=
  locked task (view w) → outbox_evolves (view w) (view w').

Lemma worked_bind {A B} task (m : M A) (f : A → M B) :
  Step (stmt_step (working task)) m → (∀ a, Step (worked task) (f a)) →
  Step (worked task) (m ≫= f).
Proof.
  intros Hm Hf. eapply Step_bind_het; [exact Hm|exact Hf|..].
  - intros x y [H1 _] Hl. by apply H1.
  - intros x y z [H1 _] H2 Hl. destruct (H1 Hl) as [E1 Hl']. etrans; [exact E1|by apply H2].
Qed.

Lemma worked_working {A} task (m : M A) : Step (stmt_step (working task)) m → Step (worked task) m.
Proof. intros Hm w Hl. destruct (Hm w) as [H1 _]. by apply H1. Qed.

#[export] Instance worked_ret {A} task (a : A) : Step (worked task) (mret a).
Proof. apply worked_working. apply _. Qed.
#[export] Instance worked_throw {A} task e : Step (worked task) (throw (A:=A) e).
Proof. apply worked_working. apply _. Qed.

Lemma worked_set_row task f (b : bool) :
  (∀ r, o_state r = 1 → row_evolves r (f r) ∧ (row_ok r → row_ok (f r))) →
  Step (worked task) (update (set_row f (tk_id task));; mret b).
Proof.
  intros Hf w (r & Hr & Hst & _).
  assert (He : outbox_evolves (view w) (set_row f (tk_id task) (view w)).2).
  { apply set_row_evolves. intros r' Hr'. assert (r' = r) as -> by congruence. by apply Hf. }
  unfold mbind, M_bind. destruct (update _ w) as [[e|u] w'] eqn:E; cbn.
  - apply update_err in E as (fs & [->| ->]); [reflexivity|]. by rewrite view_put.
  - apply update_ok in E as (fs & _ & ->). by rewrite view_put.
Qed.

Section processing.
Context `{Json} `{Protobuf}.

#[export] Instance working_record task m :
  Step (stmt_step (working task)) (RecordConversationMessage m).
Proof.
  unfold RecordConversationMessage. destruct (_ || _); [apply _|].
  apply Step_bind; [apply _..|]. intros json. apply Step_bind; [apply _| |intros _].
  { apply Step_update; [apply _|]. intros d. by apply working_same. }
  apply Step_bind; [apply _| |intros n].
  { apply Step_update; [apply _|]. intros d. unfold insert_unread.
    destruct (t_im_conversations d !! _); [|reflexivity]. destruct (_ && _); [|reflexivity].
    by apply working_same. }
  apply Step_when; [apply _|]. apply Step_update; [apply _|]. intros d. by apply working_same.
Qed.

#[export] Instance working_persist task m :
  Step (stmt_step (working task)) (persist_message (tk_id task) m).
Proof.
  unfold persist_message. apply Step_bind; [apply _..|]. intros saved. destruct (negb saved); [apply _|].
  apply Step_bind; [apply _..|]. intros _. apply Step_update; [apply _|].
  intros d (r & Hr & Hst & Hop). split.
  - apply set_row_evolves. intros r' _. apply staged_evolves.
  - exists (staged r). split; [|done].
    change (t_im_outbox (set_row ?f ?i d).2) with (alter f i (t_im_outbox d)).
    by rewrite lookup_alter_eq, Hr.
Qed.

Lemma worked_complete task : Step (worked task) (complete_task (tk_id task)).
Proof. apply worked_set_row. apply finished_evolves. Qed.

#[export] Instance worked_dispatch task m : Step (worked task) (dispatch_message task m).
Proof.
  unfold dispatch_message. apply worked_bind; [apply _|]. intros _.
  apply worked_bind; [apply _|]. intros [receipt|]; [apply worked_complete|].
  apply worked_bind; [apply _|]. intros cached. destruct (negb cached); [apply _|].
  apply worked_bind; [apply _|]. intros confirmed. destruct (negb confirmed); [apply _|].
  apply worked_bind; [apply _|]. intros t. apply worked_set_row. intros r. apply released_evolves.
Qed.

#[export] Instance worked_acknowledge task : Step (worked task) (acknowledge task).
Proof.
  unfold acknowledge. apply worked_bind; [apply _|]. intros marked. destruct (negb marked); [apply _|].
  apply worked_bind; [apply _|]. intros _. apply worked_complete.
Qed.

Lemma worked_cleanup task : tk_operation task = 2 → Step (worked task) (cleanup_chat task).
Proof.
  intros Hop. unfold cleanup_chat. apply worked_bind; [|intros _].
  { apply Step_update; [apply _|]. intros d (r & Hr & Hst & Hopr). split.
    - apply set_rows_evolves. intros id r' _ _. apply cancelled_evolves.
    - exists r. split; [|done].
      change (t_im_outbox (set_rows ?p ?f d).2) with (update_where p f (t_im_outbox d)).
      rewrite lookup_update_where, Hr. cbn. unfold old_message. rewrite Hopr, Hop. done. }
  apply worked_bind; [unfold GetSingleChatMessageIDs; apply _|]. intros ids.
  apply worked_bind; [apply _|]. intros _.
  apply worked_bind; [unfold DeleteSingleChatHistory; apply _|]. intros _. apply worked_complete.
Qed.

Lemma worked_work task persist stage : Step (worked task) (work task persist stage).
Proof.
  unfold work. destruct (tk_operation task =? 1).
  - apply worked_bind; [apply _|]. intros ok. destruct (negb ok).
    { apply worked_set_row. intros r _. apply unfriended_evolves. }
    apply worked_bind; [apply _|]. intros m. destruct persist; [|apply _].
    apply worked_working. apply _.
  - destruct (tk_operation task =? 2) eqn:E2; bool_to_prop; [by apply worked_cleanup|].
    destruct (tk_operation task =? 3); apply _.
Qed.

(** The task came from this row. *)
Definition task_from (task : OutboxTask) (d : Database) : Prop :=
  ∃ r, t_im_outbox d !! tk_id task = Some r ∧ o_operation r = tk_operation task.

#[export] Instance InTx_phase_action task persist : InTx (phase_action task persist).
Proof.
  assert (Hr : ∀ m, InTx (RecordConversationMessage m)).
  { intros m. unfold RecordConversationMessage. apply _. }
  assert (Hs : ∀ {A} (m : M A), Step (stmt_step (λ _ _, True)) m → InTx m).
  { intros A m Hm w d Hd. destruct (Hm w) as [_ H1]. rewrite Hd in H1. destruct H1 as [? [d' ?]]. eauto. }
  assert (PreOrder (λ _ _ : Database, True)) by by split.
  apply Hs. unfold phase_action, lockPair, work, persist_message, dispatch_message, complete_task,
    cleanup_chat, acknowledge, GetSingleChatMessageIDs, DeleteSingleChatHistory.
  assert (Hu : ∀ {A} (u : Database → A * Database), Step (stmt_step (λ _ _, True)) (update u))
    by (intros; by apply Step_update).
  assert (Hrec : ∀ m, Step (stmt_step (λ _ _, True)) (RecordConversationMessage m))
    by (intros; unfold RecordConversationMessage; apply _).
  apply _.
Qed.

(** What [phase_action] does without a lease: nothing but the pair lock. *)
Lemma phase_action_outcome task persist w r w' :
  phase_action task persist w = (r, w') →
  ((view w' = view w ∨ view w' = lock_row (tk_actor task) (tk_peer task) (view w)) ∧
    same_stores w w' ∧ (∀ x, r = inr x → x = false)) ∨
  ∃ fs row, t_im_outbox (view w) !! tk_id task = Some row ∧ 0 <= o_seq row ∧
    to_int32 (o_state row) = 1 ∧ o_lease_token row = tk_leaseToken task ∧
    work task persist (to_int32 (o_stage row))
      (put (lock_row (tk_actor task) (tk_peer task) (view w)) (with_faults fs w)) = (r, w').
Proof.
  intros Hrun. unfold phase_action in Hrun. set (L := lock_row _ _ (view w)).
  apply bind_cases in Hrun as [(e & He & ->)|(u & w1 & [fs1 ->]%lockPair_ok & Hrun)].
  { left. apply update_err in He as (fs & [->| ->]); [split; [by left|done]|].
    split; [right; by rewrite view_put|]. split; [apply put_stores|done]. }
  apply bind_cases in Hrun as [(e & He & ->)|(row & w2 & (-> & fs2 & ->)%query_ok & Hrun)].
  { left. pose proof He as [Hv _]%quiet_run; [|apply _]. rewrite view_put in Hv.
    split; [by right|]. split; [|done]. pose proof (stores_query (λ d, t_im_outbox d !! tk_id task)
      (put L (with_faults fs1 w))) as Hs. unfold L in Hs. rewrite He in Hs.
    etrans; [apply put_stores|exact Hs]. }
  fold L in Hrun. rewrite view_put in Hrun. change (t_im_outbox L) with (t_im_outbox (view w)) in Hrun.
  assert (Hsame : ∀ e, with_faults fs2 (put L (with_faults fs1 w)) = w' → r = e →
    (∀ x, e = inr x → x = false) →
    (view w' = view w ∨ view w' = L) ∧ same_stores w w' ∧ (∀ x, r = inr x → x = false)).
  { intros e <- -> He. split; [right; by rewrite view_faults, view_put|].
    split; [|done]. etrans; [apply (put_stores L fs1 w)|done]. }
  destruct (t_im_outbox (view w) !! tk_id task) as [row|] eqn:Erow.
  2: { apply ret_cases in Hrun as [-> ->]. left. eapply Hsame; [done..|]. by intros x [= <-]. }
  apply bind_cases in Hrun as [(e & He & ->)|(cur & w3 & [Hcur ->]%lift_ok & Hrun)].
  { injection He as _ <-. left. by eapply (Hsame (inl e)). }
  apply outboxRow_ok in Hcur as [-> Hseq]. cbn [tk_state tk_leaseToken tk_stage task_of] in Hrun.
  destruct (_ || _) eqn:Eg.
  { apply ret_cases in Hrun as [-> ->]. left. eapply Hsame; [done..|]. by intros x [= <-]. }
  bool_to_prop. right. exists fs2, row. do 4 (split; [done|]).
  rewrite put_faults in Hrun |- *. exact Hrun.
Qed.

Definition processed (task : OutboxTask) (d d' : Database) : Prop :=
  outbox_ok d → task_from task d → outbox_evolves d d'.

Lemma evolves_task_from task d d' :
  outbox_ok d → outbox_evolves d d' → task_from task d → task_from task d'.
Proof.
  intros Hok He (r & Hr & Hop). destruct (He Hok) as [_ Hk]. destruct (Hk _ _ Hr) as (r' & Hr' & Hev).
  exists r'. split; [done|]. by rewrite (re_operation _ _ Hev).
Qed.

#[export] Instance processed_preorder task : PreOrder (processed task).
Proof.
  split.
  - intros d _ _. reflexivity.
  - intros d1 d2 d3 H12 H23 Hok Hfrom. pose proof (H12 Hok Hfrom) as E12.
    etrans; [exact E12|]. apply H23; [by apply E12|]. by eapply evolves_task_from.
Qed.

Lemma Conn_phase task persist : Conn (processed task) (phase task persist).
Proof.
  apply Conn_tx; [apply _| |apply _]. intros w d0 Ht Hok (r & Hr & Hop).
  destruct (phase_action task persist w) as [x w'] eqn:E. cbn. rewrite <- (view_txn d0 w) in * by done.
  apply phase_action_outcome in E as [[[->| ->] _]|(fs & row & Hrow & _ & Hst & _ & Hrun)];
    [reflexivity|by apply outbox_same|].
  assert (row = r) as -> by congruence.
  etrans; [apply (outbox_same _ (lock_row (tk_actor task) (tk_peer task) (view w))); done|].
  rewrite to_int32_small in Hst by apply (oo_row _ Hok _ _ Hr).
  pose proof (worked_work task persist (to_int32 (o_stage r))
    (put (lock_row (tk_actor task) (tk_peer task) (view w)) (with_faults fs w))) as Hw.
  rewrite Hrun in Hw. unfold worked in Hw. rewrite view_put in Hw. apply Hw.
  exists r. done.
Qed.

#[export] Instance Step_process task : Step (db_step (processed task)) (ProcessOutboxTask task).
Proof.
  unfold ProcessOutboxTask. apply Step_with_connection; [apply _|].
  apply Conn_bind; [apply _| |].
  - destruct (tk_operation task =? 1); [apply Conn_phase|]. apply Conn_ret. apply _.
  - intros go. destruct go; [|apply Conn_ret; apply _].
    apply Conn_bind; [apply _|apply Conn_phase|]. intros _. apply Conn_ret. apply _.
Qed.
End processing.
