(* ===== verification/OutboxTheorems.v ===== *)
(** The theorems on the outbox. *)
From S2P Require Import Prelude Table Snowflake Schema Effects Users Stores Conversations Samples ConversationProofs StoreProofs Friendship Outbox OutboxWorker OutboxProofs.

Section theorems.
Context `{Json} `{Protobuf}.

(** What a successful claim leaves. *)
Lemma ClaimOutboxTask_ok w x w' :
  ClaimOutboxTask w = (inr x, w') →
  let t i := w_clock w (i + w_tick w) in
  let n := match ready_task (t 0%nat) (w_db w) with Some _ => 1%nat | None => 2%nat end in
  match claimable (t 0%nat) (t 1%nat) (w_db w) with
  | None => x = None ∧ w_db w' = w_db w
  | Some (k, row) =>
      x = Some (with_lease (w_uuid w (w_uuids w)) (task_of k row)) ∧
      w_db w' = (set_row (leased (w_uuid w (w_uuids w)) (t n + 45000)) k (w_db w)).2 ∧
      0 <= o_seq row
  end.
Proof.
  intros (fs & w1 & Hrun & ->)%with_connection_ok t n.
  apply conversationTransaction_ok in Hrun as (fs1 & w2 & d & Hrun & Ht & fs2 & ->);
    [|apply InTx_claim|done].
  change (w_db (with_txn _ (with_faults fs2 (with_txn None (with_db d w2))))) with d.
  apply claim_outcome in Hrun as [[Hv Hx]|(k & row & Hc & Hv & Hseq & Hx)].
  - destruct (Hx x eq_refl) as [-> Hc]. rewrite (view_txn d) in Hv by done.
    change (claimable (t 0%nat) (t 1%nat) (w_db w) = None) in Hc. by rewrite Hc, Hv.
  - rewrite (Hx x eq_refl), (view_txn d) in * by done.
    change (claimable (t 0%nat) (t 1%nat) (w_db w) = Some (k, row)) in Hc. rewrite Hc.
    split_and!; [done|exact Hv|exact Hseq].
Qed.

Lemma claimed_from w task w' :
  outbox_ok (w_db w) → ClaimOutboxTask w = (inr (Some task), w') → task_from task (w_db w').
Proof.
  intros Hok Hc%ClaimOutboxTask_ok. cbv zeta in Hc.
  destruct (claimable _ _ (w_db w)) as [[k row]|] eqn:E; [|by destruct Hc].
  destruct Hc as ([= ->] & -> & _). apply claimable_row in E as [Hk _].
  eexists. cbn [tk_id with_lease task_of tk_operation].
  change (t_im_outbox (set_row ?f ?i ?d).2) with (alter f i (t_im_outbox d)).
  rewrite lookup_alter_eq, Hk. split; [done|]. cbn. symmetry. apply to_int32_small.
  pose proof (ro_operation _ (oo_row _ Hok _ _ Hk)). lia.
Qed.

#[export] Instance Step_GetOutboxTask R `{!PreOrder R} id : Step (db_step R) (GetOutboxTask id).
Proof.
  unfold GetOutboxTask. apply Step_with_connection; [apply _|]. apply Conn_stmt; apply _.
Qed.

Lemma worker_pass_evolves what w :
  w_txn w = None → outbox_evolves (w_db w) (w_db (worker_pass what w).2).
Proof.
  intros Hn Hok. destruct (worker_pass what w) as [r w'] eqn:Hrun. cbn.
  cut (outbox_evolves (w_db w) (w_db w')); [by intros He; apply He|].
  pose proof (OE_ClaimOutboxTask w Hn) as [Hc Hn1]. unfold worker_pass in Hrun.
  apply bind_cases in Hrun as [(e & [He _]%catch_err & _)|(claimed & w1 & Hcl%catch_ok & Hrun)].
  { by rewrite He in Hc. }
  rewrite Hcl in Hc, Hn1. cbn in Hc, Hn1.
  destruct claimed as [e|[task|]]; [by injection Hrun as _ <-| |by injection Hrun as _ <-].
  pose proof (claimed_from _ _ _ Hok Hcl) as Hfrom.
  assert (Hretry : ∀ e, Step (db_step (processed task)) (RetryOutboxTask task e)).
  { intros e x Hx. destruct (OE_retry task e x Hx) as [He ?]. split; [by intros _ _|done]. }
  match type of Hrun with ?m w1 = _ =>
    assert (Hs : Step (db_step (processed task)) m) by apply _; specialize (Hs w1) end.
  rewrite Hrun in Hs. destruct (Hs Hn1) as [Hp _]. cbn in Hp.
  etrans; [exact Hc|]. apply Hp; [by apply Hc|done].
Qed.

(** ** The life of a row *)

(** One operation on the outbox, under any failure schedule: the world [w] has
    the committed database before it, with no transaction open. *)
Inductive outbox_step : relation Database :=
| step_queue m w : w_txn w = None → outbox_step (w_db w) (w_db (QueueSingleMessage m w).2)
| step_ack owner id w : w_txn w = None → outbox_step (w_db w) (w_db (QueueMessageAck owner id w).2)
| step_confirm id w : w_txn w = None → outbox_step (w_db w) (w_db (ConfirmMessageDispatch id w).2)
| step_cleanup a b cutoff w : w_txn w = None → outbox_step (w_db w)
    (w_db (conversationTransaction (QueueConversationCleanup a b cutoff) w).2)
| step_claim w : w_txn w = None → outbox_step (w_db w) (w_db (ClaimOutboxTask w).2)
| step_process task w : w_txn w = None → task_from task (w_db w) →
    outbox_step (w_db w) (w_db (ProcessOutboxTask task w).2)
| step_retry task error w : w_txn w = None →
    outbox_step (w_db w) (w_db (RetryOutboxTask task error w).2)
| step_worker what w : w_txn w = None → outbox_step (w_db w) (w_db (worker_pass what w).2).

Lemma outbox_step_evolves d d' : outbox_step d d' → outbox_evolves d d'.
Proof.
  intros [m w Hn|owner id w Hn|id w Hn|a b cutoff w Hn|w Hn|task w Hn Hf|task error w Hn|what w Hn].
  - exact (proj1 (OE_QueueSingleMessage m w Hn)).
  - exact (proj1 (OE_QueueMessageAck owner id w Hn)).
  - exact (proj1 (OE_confirm id w Hn)).
  - exact (proj1 (Conn_tx_step outbox_evolves _ (OE_cleanup a b cutoff) w Hn)).
  - exact (proj1 (OE_ClaimOutboxTask w Hn)).
  - intros Hok. exact (proj1 (Step_process task w Hn) Hok Hf Hok).
  - exact (proj1 (OE_retry task error w Hn)).
  - exact (worker_pass_evolves what w Hn).
Qed.

(** C33: the outbox as a state machine: along every sequence of operations (queue,
    acknowledge, claim, process, retry, confirm, cleanup, whole worker passes) and
    under every failure schedule, (operation, dedupe_key) stays unique; rows are
    never removed and keep their identity; the stage goes from 0 to 1 only; a
    finished task is never reopened except to be cancelled and a cancelled one
    stays so; a payload is dropped only by a cancellation. *)
Theorem outbox_rows_evolve d d' (Hsteps : rtc outbox_step d d') (Hok : outbox_ok d) :
  outbox_ok d' ∧
  ∀ id r, t_im_outbox d !! id = Some r → ∃ r', t_im_outbox d' !! id = Some r' ∧ row_evolves r r'.
Proof.
  assert (He : outbox_evolves d d'); [|by apply He].
  clear Hok. induction Hsteps as [d|d d1 d' Hs%outbox_step_evolves _ IH]; [reflexivity|by etrans].
Qed.

(** ** Claims *)

Lemma ready_order t d k r :
  ready_task t d = Some (k, r) → ∀ k' r', t_im_outbox d !! k' = Some r' → o_state r' = 0 →
  o_available_at r' <= t → order_by o_available_at (k, r) (k', r').
Proof.
  intros (_ & _ & Hall)%first_by_Some k' r' Hk Hst Hav. apply (Hall k' r' Hk).
  rewrite Hst. cbn. by apply Z.leb_le.
Qed.

(** A claim takes the ready task that has waited longest or, when none is
    ready, the one whose lease expired first; it never takes a task whose lease
    is running.  The row is leased for 45 seconds under a fresh token with one
    more attempt, every other row is as before; without such a task nothing
    changes.  [t0], [t1] and [t2] are the clock readings of the claim. *)
Theorem claim_spec w x w' (Hrun : ClaimOutboxTask w = (inr x, w')) :
  let t0 := w_clock w (w_tick w) in let t1 := w_clock w (1 + w_tick w) in
  let ready r := o_state r = 0 ∧ o_available_at r <= t0 in
  let expired r := o_state r = 1 ∧ o_lease_until r <= t1 in
  match x with
  | None => w_db w' = w_db w ∧
      ∀ k r, t_im_outbox (w_db w) !! k = Some r → ¬ ready r ∧ ¬ expired r
  | Some task => ∃ r t2,
      t_im_outbox (w_db w) !! tk_id task = Some r ∧
      (ready r ∧ (∀ k' r', t_im_outbox (w_db w) !! k' = Some r' → ready r' →
         order_by o_available_at (tk_id task, r) (k', r')) ∨
       expired r ∧ (∀ k' r', t_im_outbox (w_db w) !! k' = Some r' → ¬ ready r' ∧
         (expired r' → order_by o_lease_until (tk_id task, r) (k', r')))) ∧
      t_im_outbox (w_db w') = <[tk_id task := leased (tk_leaseToken task) (t2 + 45000) r]>
                                (t_im_outbox (w_db w)) ∧
      tk_leaseToken task = w_uuid w (w_uuids w) ∧ tk_payload task = o_payload r
  end.
Proof.
  apply ClaimOutboxTask_ok in Hrun. cbv zeta in Hrun |- *. cbn [Nat.add] in Hrun.
  set (t0 := w_clock w (w_tick w)) in *. set (t1 := w_clock w (S (w_tick w))) in *.
  change (w_clock w (1 + w_tick w)) with t1.
  assert (Hready : ready_task t0 (w_db w) = None → ∀ k r, t_im_outbox (w_db w) !! k = Some r →
    ¬ (o_state r = 0 ∧ o_available_at r <= t0)).
  { intros Hn k r Hk [Hs Ha]. apply first_by_None with (k := k) (r := r) in Hn; [|done].
    rewrite Hs, (proj2 (Z.leb_le _ _) Ha) in Hn. done. }
  assert (Hset : ∀ k r tok u, t_im_outbox (w_db w) !! k = Some r →
    t_im_outbox (set_row (leased tok u) k (w_db w)).2 = <[k := leased tok u r]> (t_im_outbox (w_db w))).
  { intros k r tok u Hk. change (alter (leased tok u) k (t_im_outbox (w_db w)) = <[k := leased tok u r]> (t_im_outbox (w_db w))).
    apply map_eq. intros j. destruct (decide (j = k)) as [->|].
    - by rewrite lookup_alter_eq, Hk, lookup_insert_eq.
    - by rewrite lookup_alter_ne, lookup_insert_ne. }
  unfold claimable in Hrun. destruct (ready_task t0 (w_db w)) as [[k r]|] eqn:Er.
  - destruct Hrun as (-> & -> & _). pose proof Er as (Hk & HP & _)%first_by_Some. bool_to_prop.
    exists r. eexists. split; [exact Hk|]. split.
    { left. split; [done|]. intros k' r' Hk' [Hs Ha]. by eapply ready_order. }
    split; [by apply Hset|done].
  - destruct (expired_task t1 (w_db w)) as [[k r]|] eqn:Ee.
    + destruct Hrun as (-> & -> & _). pose proof Ee as (Hk & HP & Hall)%first_by_Some. bool_to_prop.
      exists r. eexists. split; [exact Hk|]. split.
      { right. split; [done|]. intros k' r' Hk'. split; [by eapply Hready|]. intros [Hs Ha].
        apply (Hall k' r' Hk'). rewrite Hs. cbn. by apply Z.leb_le. }
      split; [by apply Hset|done].
    + destruct Hrun as [-> ->]. split; [done|]. intros k r Hk. split; [by eapply Hready|].
      intros [Hs Ha]. apply first_by_None with (k := k) (r := r) in Ee; [|done].
      rewrite Hs, (proj2 (Z.leb_le _ _) Ha) in Ee. done.
Qed.

(** ** Leases *)

(** The task's lease is gone: no such row, not leased, or leased to another. *)
Definition stale (task : OutboxTask) (d : Database) : Prop :=
  ∀ r, t_im_outbox d !! tk_id task = Some r → o_state r ≠ 1 ∨ o_lease_token r ≠ tk_leaseToken task.

Definition only_lock (task : OutboxTask) (d d' : Database) : Prop :=
  d' = d ∨ d' = lock_row (tk_actor task) (tk_peer task) d.

Lemma stale_phase_action task persist w r w' :
  outbox_ok (view w) → stale task (view w) → phase_action task persist w = (r, w') →
  only_lock task (view w) (view w') ∧ same_stores w w' ∧ (∀ x, r = inr x → x = false).
Proof.
  intros Hok Hst [Hl|(fs & row & Hrow & _ & Hstate & Htok & _)]%phase_action_outcome; [exact Hl|].
  rewrite to_int32_small in Hstate by apply (oo_row _ Hok _ _ Hrow).
  by destruct (Hst row Hrow).
Qed.

Lemma retry_db task error w :
  (∀ d t err, t_im_outbox d = t_im_outbox (w_db w) →
     (set_rows (holds_lease task) (released t err) d).2 = d) →
  w_db (RetryOutboxTask task error w).2 = w_db w.
Proof.
  intros Hid. apply (with_connection_inv _ (λ d, d = w_db w)); [done|]. intros fs.
  unfold mbind, M_bind, now. cbn [fst snd].
  destruct (update _ _) as [[e|u] w1] eqn:E; cbn.
  - apply update_err in E as (fs' & [->| ->]); [done|]. rewrite Hid; done.
  - apply update_ok in E as (fs' & _ & ->). rewrite Hid; done.
Qed.

(** One transaction on a stale lease. *)
Lemma stale_phase task persist w r w' :
  w_txn w = None → outbox_ok (w_db w) → stale task (w_db w) → phase task persist w = (r, w') →
  only_lock task (w_db w) (w_db w') ∧ same_stores w w' ∧
  (∀ x, r = inr x → x = false ∧ w_txn w' = None).
Proof.
  intros Hn Hok Hst Hrun. unfold phase in Hrun. split; [|split].
  - destruct r as [e|x].
    + apply conversationTransaction_err in Hrun as [->|(c & fs & x & w1 & d & _ & Ha & Ht & ->)];
        [by left| |apply _|done].
      apply stale_phase_action in Ha as [Hl _]; [|done..]. rewrite (view_txn d w1) in Hl by done.
      exact Hl.
    + apply conversationTransaction_ok in Hrun as (fs & w1 & d & Ha & Ht & fs' & ->); [|apply _|done].
      apply stale_phase_action in Ha as [Hl _]; [|done..]. rewrite (view_txn d w1) in Hl by done.
      exact Hl.
  - apply conversationTransaction_stores in Hrun as [?|(fs & x & w1 & Ha & Hs)]; [done|].
    assert (Hv : view (with_faults fs (with_txn (Some (view w)) w)) = w_db w)
      by (unfold view; cbn; by rewrite Hn).
    apply stale_phase_action in Ha as (_ & Hs' & _); [|rewrite Hv; done..]. etrans; [exact Hs'|exact Hs].
  - intros x ->. apply conversationTransaction_ok in Hrun as (fs & w1 & d & Ha & Ht & fs' & ->);
      [|apply _|done]. apply stale_phase_action in Ha as (_ & _ & Hx); [|done..]. split; [by apply Hx|done].
Qed.

(** Both phases on a stale lease. *)
Lemma stale_phases task w r w' :
  w_txn w = None → outbox_ok (w_db w) → stale task (w_db w) →
  (go ← (if tk_operation task =? 1 then phase task true else mret true);
    if (go : bool) then phase task false;; mret tt else mret tt) w = (r, w') →
  only_lock task (w_db w) (w_db w') ∧ same_stores w w'.
Proof.
  intros Hn Hok Hstale Hrun.
  assert (Hsecond : ∀ z w3, (phase task false;; mret tt) w = (z, w3) →
    only_lock task (w_db w) (w_db w3) ∧ same_stores w w3).
  { intros z w3 Hz. apply bind_cases in Hz as [(e & He & ->)|(x & w4 & Hx & Hz)].
    - by apply stale_phase in He as (? & ? & _).
    - apply stale_phase in Hx as (? & ? & _); [|done..]. by apply ret_cases in Hz as [_ ->]. }
  destruct (tk_operation task =? 1); [|by eapply Hsecond].
  apply bind_cases in Hrun as [(e & He & ->)|(go & w3 & Hgo & Hrun)].
  - by apply stale_phase in He as (? & ? & _).
  - apply stale_phase in Hgo as (? & ? & Hx); [|done..]. destruct (Hx go eq_refl) as [-> _].
    by apply ret_cases in Hrun as [_ ->].
Qed.

(** Recording a failure without the lease. *)
Lemma stale_released task d t err x :
  stale task d → t_im_outbox x = t_im_outbox d →
  (set_rows (holds_lease task) (released t err) x).2 = x.
Proof.
  intros Hstale Hx. unfold set_rows. cbn [snd].
  unfold set_im_outbox, on_outbox. change (im_outbox (db_outbox x)) with (t_im_outbox x).
  rewrite update_where_id; [by destruct x as [? ? ? [] ?]|].
  intros k r Hk Hh. unfold holds_lease in Hh. bool_to_prop. subst k. rewrite Hx in Hk.
  by destruct (Hstale r Hk).
Qed.

Lemma retry_stores task error w : same_stores w (RetryOutboxTask task error w).2.
Proof.
  destruct (RetryOutboxTask task error w) as [r w'] eqn:Erun. cbn.
  apply with_connection_cases in Erun as [[_ ?]|(fs & w1 & Hrun & _ & Hs)]; [done|].
  etrans; [|exact Hs]. set (w0 := with_faults fs _) in *.
  assert (Hst : Step same_stores (t ← now; update (set_rows (holds_lease task)
    (released (t + retry_delay (tk_attempts task)) (take_str 1500 error))))).
  { apply Step_bind; [apply _|by intros z|apply _]. }
  specialize (Hst w0). by rewrite Hrun in Hst.
Qed.

(** C32: a worker whose lease was lost (expired and claimed by another worker, or
    ended by a confirmation or cancellation) has no effect: processing touches
    neither the tables (but for the pair lock) nor MongoDB, Redis or Kafka, and
    recording a failure changes nothing, whatever calls fail. *)
Theorem stale_lease_no_effect task error w
    (Hok : outbox_ok (w_db w)) (Hstale : stale task (w_db w)) :
  let p := (ProcessOutboxTask task w).2 in let q := (RetryOutboxTask task error w).2 in
  only_lock task (w_db w) (w_db p) ∧ same_stores w p ∧ w_db q = w_db w ∧ same_stores w q.
Proof.
  cbv zeta. split_and!; [| |apply retry_db; by intros; eapply stale_released|apply retry_stores];
    destruct (ProcessOutboxTask task w) as [r w'] eqn:E; cbn [snd];
    apply with_connection_cases in E as [[Hdb Hs]|(fs & w1 & Hrun & Hdb & Hs)];
    [by left|apply stale_phases in Hrun as [Hl _]; [by rewrite Hdb|done..]
    |done|apply stale_phases in Hrun as [_ Hs']; [by etrans; [exact Hs'|exact Hs]|done..]].
Qed.

(** ** Dispatch *)

(** The document that is under [id], published; no other document changes. *)
Definition published_as (id : string) (s s' : gmap string document) : Prop :=
  ∃ doc, s !! id = Some doc ∧ s' = <[id := set_field "committed" (BBool true) doc]> s.

(** What the delivery side may rely on when Kafka is given the message [id] with body
    [m]: the document is published and the cache holds the body. *)
Definition ready_for_delivery (id : string) (m : MsgData) (w w' : World) : Prop :=
  published_as id (w_mongo w) (w_mongo w') ∧
  r_strings (w_redis w') !! ("msg:" +:+ id) = Some (serialize_msg m).

Definition same_kafka (w w' : World) : Prop := w_kafka w' = w_kafka w.

#[export] Instance same_kafka_preorder : PreOrder same_kafka.
Proof. split; [done|]. intros w1 w2 w3. unfold same_kafka. congruence. Qed.

Lemma stores_kafka {A} (m : M A) : Step same_stores m → Step same_kafka m.
Proof. intros Hm w. by destruct (Hm w) as (_ & _ & ?). Qed.

#[export] Instance kafka_mongo {A} (op : gmap string document → exn + (A * gmap string document)) :
  Step same_kafka (mongo op).
Proof.
  apply Step_remote; [apply _|done|]. intros w a w'. destruct (op _) as [|[]]; [done|]. by intros [= _ <-].
Qed.
#[export] Instance kafka_redis {A} (op : RedisStore → A * RedisStore) : Step same_kafka (redis op).
Proof. apply Step_remote; [apply _|done|]. intros w a w'. destruct (op _). by intros [= _ <-]. Qed.
#[export] Instance kafka_execute {A} (op : Database → exn + (A * Database)) : Step same_kafka (execute op).
Proof. apply stores_kafka, _. Qed.
#[export] Instance kafka_update {A} (u : Database → A * Database) : Step same_kafka (update u).
Proof. apply stores_kafka, _. Qed.
#[export] Instance kafka_query {A} (q : Database → A) : Step same_kafka (query q).
Proof. apply stores_kafka, _. Qed.
#[export] Instance kafka_now : Step same_kafka now.
Proof. by intros w. Qed.

Lemma PublishMessage_ok id w u w' :
  PublishMessage id w = (inr u, w') →
  published_as id (w_mongo w) (w_mongo w') ∧ w_kafka w' = w_kafka w.
Proof.
  unfold PublishMessage. intros Hrun. apply bind_ok in Hrun as (b & w1 & Hm & Hrun).
  apply remote_ok in Hm as (fs & Hm). cbn in Hm. destruct (w_mongo w !! id) as [doc|] eqn:E.
  - injection Hm as <- <-. apply ret_ok in Hrun as [_ <-]. split; [|done]. by exists doc.
  - injection Hm as <- <-. done.
Qed.

Lemma SaveMsg_true m w w' :
  SaveMsg m w = (inr true, w') →
  w_mongo w' = w_mongo w ∧ w_kafka w' = w_kafka w ∧
  r_strings (w_redis w') !! ("msg:" +:+ serverMsgID m) = Some (serialize_msg m).
Proof.
  intros (r & w1 & Hc%catch_ok & Hrun)%bind_ok. destruct r as [e|u]; [by run_ok Hrun|].
  apply ret_ok in Hrun as [_ <-]. apply remote_ok in Hc as (fs & [= _ <-]). cbn.
  split; [done|]. split; [done|]. apply lookup_insert_eq.
Qed.

Lemma deliver_outcome key payload w r w' :
  deliverConfirmed key payload w = (r, w') →
  w_mongo w' = w_mongo w ∧ w_redis w' = w_redis w ∧
  (w_kafka w' = w_kafka w ∨ w_kafka w' = w_kafka w ++ [(key, payload)]).
Proof.
  unfold deliverConfirmed. destruct (remote _ _ w) as [[e|u] w1] eqn:E; intros [= _ <-].
  - apply remote_err in E as (fs & [[? _]|(c & _ & [->|(a & [= _ <-])])]); [done|auto|cbn; auto].
  - apply remote_ok in E as (fs & [= _ <-]). cbn. auto.
Qed.

(** The only work that hands a message to Kafka, in every outcome. *)
Lemma dispatch_outcome task m w r w' :
  serverMsgID m = tk_serverId task → dispatch_message task m w = (r, w') →
  w_kafka w' = w_kafka w ∨
  w_kafka w' = w_kafka w ++ [(tk_conversation task, tk_serverId task)] ∧
  ready_for_delivery (tk_serverId task) m w w'.
Proof.
  intros Hid Hrun. unfold dispatch_message in Hrun.
  apply bind_cases in Hrun as [(e & He & ->)|(u & w1 & Hp & Hrun)].
  { left. assert (Hs : Step same_kafka (PublishMessage (tk_serverId task))) by (unfold PublishMessage; apply _).
    specialize (Hs w). by rewrite He in Hs. }
  apply PublishMessage_ok in Hp as [Hpub Hk1].
  apply bind_cases in Hrun as [(e & He & ->)|(receipt & w2 & Hq & Hrun)].
  { left. pose proof (kafka_query (λ d, t_im_message_receipts d !! (tk_peer task, tk_serverId task)) w1) as Hs.
    rewrite He in Hs. unfold same_kafka in Hs. cbn in Hs. congruence. }
  apply query_ok in Hq as (-> & fs & ->).
  destruct (t_im_message_receipts _ !! _) as [receipt|].
  { left. assert (Hs : Step same_kafka (complete_task (tk_id task))) by (unfold complete_task; apply _).
    specialize (Hs (with_faults fs w1)). rewrite Hrun in Hs. unfold same_kafka in Hs. cbn in Hs. congruence. }
  apply bind_cases in Hrun as [(e & He & ->)|(cached & w3 & Hc & Hrun)].
  { left. assert (Hs : Step same_kafka (SaveMsg m)) by (unfold SaveMsg, redis_setex; apply _).
    specialize (Hs (with_faults fs w1)). rewrite He in Hs. unfold same_kafka in Hs. cbn in Hs. congruence. }
  destruct cached; cbn [negb] in Hrun.
  2: { left. assert (Hs : Step same_kafka (SaveMsg m)) by (unfold SaveMsg, redis_setex; apply _).
       specialize (Hs (with_faults fs w1)). rewrite Hc in Hs. injection Hrun as _ <-.
       unfold same_kafka in Hs. cbn in Hs. congruence. }
  apply SaveMsg_true in Hc as (Hm3 & Hk3 & Hr3). cbn in Hm3, Hk3. rewrite Hid in Hr3.
  apply bind_cases in Hrun as [(e & He & ->)|(conf & w4 & Hd & Hrun)].
  { unfold deliverConfirmed in He. by destruct (remote _ _ w3) as [[] ?]. }
  apply deliver_outcome in Hd as (Hm4 & Hr4 & Hk4).
  assert (Hlast : same_stores w4 w').
  { destruct (negb conf); [by injection Hrun as _ <-|].
    assert (Hs : Step same_stores (t ← now; update (set_row (released (t + 5000) "") (tk_id task));; mret true)).
    { apply Step_bind; [apply _|by intros x|apply _]. }
    specialize (Hs w4). by rewrite Hrun in Hs. }
  destruct Hlast as (Hm5 & Hr5 & Hk5).
  destruct Hk4 as [Hk4|Hk4]; [left; congruence|]. right. split; [congruence|]. split.
  - replace (w_mongo w') with (w_mongo w1); [done|congruence].
  - congruence.
Qed.

(** Everything else leaves Kafka alone. *)
#[export] Instance kafka_record m : Step same_kafka (RecordConversationMessage m).
Proof. unfold RecordConversationMessage. apply _. Qed.
#[export] Instance kafka_friendAllows a b s : Step same_kafka (friendAllows a b s).
Proof. unfold friendAllows. apply _. Qed.
#[export] Instance kafka_cleanup a b ids : Step same_kafka (RedisDeleteSingleChatHistory a b ids).
Proof.
  unfold RedisDeleteSingleChatHistory. generalize (unique (merge_sort String.le ids)) as l.
  intros l. induction l; cbn [cleanup_all]; [apply _|].
  unfold CleanupAcknowledgedMessage, DeleteMsgCache, redis_del, redis_zrem. apply _.
Qed.

Lemma kafka_work task persist stage :
  (tk_operation task = 1 → persist = true) → Step same_kafka (work task persist stage).
Proof.
  intros Hp. unfold work. destruct (tk_operation task =? 1) eqn:E; bool_to_prop.
  - rewrite Hp by done. unfold persist_message, SaveMsgToMongo. apply _.
  - assert (Hall : ∀ u l, Step same_kafka (mark_all u l)) by (intros u l; induction l; cbn [mark_all]; apply _).
    unfold cleanup_chat, acknowledge, complete_task, GetSingleChatMessageIDs, DeleteSingleChatHistory,
      singleChatHistory, mongo_find, MarkMsgsAsDelivered, CleanupAcknowledgedMessage, DeleteMsgCache,
      redis_del, redis_zrem. apply _.
Qed.

(** Friendship is not changed by the work of a task. *)
Definition same_friends (d d' : Database) : Prop :=
  t_friends d' = t_friends d ∧ t_friend_chat_deletions d' = t_friend_chat_deletions d.

#[export] Instance same_friends_preorder : PreOrder same_friends.
Proof. split; [done|]. intros d1 d2 d3 [A B] [A' B']. unfold same_friends. by rewrite A', B'. Qed.

Lemma same_friends_may d d' a b s : same_friends d d' → may_exchange d' a b s ↔ may_exchange d a b s.
Proof. intros [H1 H2]. unfold may_exchange, deleted_seq. by rewrite H1, H2. Qed.

#[export] Instance friends_record m : Step (stmt_step same_friends) (RecordConversationMessage m).
Proof.
  unfold RecordConversationMessage. destruct (_ || _); [apply _|].
  apply Step_bind; [apply _..|]. intros json. apply Step_bind; [apply _| |intros _].
  { apply Step_update; [apply _|by intros d; split]. }
  apply Step_bind; [apply _| |intros n].
  { apply Step_update; [apply _|]. intros d. unfold insert_unread.
    destruct (t_im_conversations d !! _); [|reflexivity]. by destruct (_ && _). }
  apply Step_when; [apply _|]. apply Step_update; [apply _|by intros d; split].
Qed.

Lemma friends_phase_action task : Step (stmt_step same_friends) (phase_action task true).
Proof.
  assert (Hr : ∀ f i, Step (stmt_step same_friends) (update (set_row f i)))
    by (intros; apply Step_update; [apply _|by intros d; split]).
  assert (Hs : ∀ p f, Step (stmt_step same_friends) (update (set_rows p f)))
    by (intros; apply Step_update; [apply _|by intros d; split]).
  assert (Hl : Step (stmt_step same_friends) (lockPair (tk_actor task) (tk_peer task)))
    by (unfold lockPair; apply Step_update; [apply _|by intros d; split]).
  unfold phase_action, work, persist_message, dispatch_message, cleanup_chat, acknowledge,
    complete_task, GetSingleChatMessageIDs, DeleteSingleChatHistory. apply _.
Qed.

(** The conversation tables. *)
Definition same_conv (d d' : Database) : Prop :=
  t_im_conversations d' = t_im_conversations d ∧
  t_im_conversation_unread d' = t_im_conversation_unread d.

#[export] Instance same_conv_preorder : PreOrder same_conv.
Proof. split; [done|]. intros d1 d2 d3 [A B] [A' B']. unfold same_conv. by rewrite A', B'. Qed.

(** Recording a message reads and writes the conversation tables only. *)
Lemma record_db_conv m json d1 d2 :
  same_conv d1 d2 → same_conv (record_db m json d1) (record_db m json d2).
Proof.
  intros [E1 E2]. unfold same_conv, record_db, count_unread, insert_unread, bump_unread. db_simpl.
  rewrite ?E1, ?E2. destruct (_ !! _) as [r|]; [destruct (_ && _)|]; cbn; db_simpl; by rewrite ?E1, ?E2.
Qed.

Lemma record_db_outbox m json d : t_im_outbox (record_db m json d) = t_im_outbox d.
Proof.
  unfold record_db, count_unread, insert_unread, bump_unread. db_simpl.
  by destruct (_ !! _) as [r|]; [destruct (_ && _)|].
Qed.

(** What the first phase makes of the collection and the conversation tables, by the
    stage it finds: the body is stored where there is none, and the message recorded;
    or both were done by an earlier pass, and are not done again. *)
Definition persisted (m : MsgData) (stage : Z) (s : gmap string document) (d : Database)
    (s' : gmap string document) (d' : Database) : Prop :=
  if stage =? 0 then
    s' = set_on_insert (serverMsgID m) (doc_of m false) s ∧
    isGroupMsg m = false ∧ 0 < seq m ∧
    ∃ json, summary_json m = inr json ∧ same_conv (record_db m json d) d'
  else s' = s ∧ same_conv d d'.

(** The transaction of a first phase that goes on. *)
Lemma first_phase_effect task m w w' :
  outbox_ok (view w) → tk_operation task = 1 → outboxMessage task = inr m →
  phase_action task true w = (inr true, w') →
  ∃ row, t_im_outbox (view w) !! tk_id task = Some row ∧
    persisted m (o_stage row) (w_mongo w) (view w) (w_mongo w') (view w') ∧
    ∃ row', t_im_outbox (view w') !! tk_id task = Some row' ∧ o_stage row' = 1.
Proof.
  intros Hok Hop Hmsg Hrun.
  apply phase_action_outcome in Hrun as [(_ & _ & Hx)|(fs & row & Hrow & _ & Hst & _ & Hrun)];
    [by specialize (Hx true eq_refl)|].
  pose proof (oo_row _ Hok _ _ Hrow) as [_ Hst' Hsg].
  rewrite (to_int32_small (o_stage row)) in Hrun by lia. exists row. split; [done|].
  set (w0 := put _ _) in Hrun.
  assert (Hw0 : view w0 = lock_row (tk_actor task) (tk_peer task) (view w)) by (unfold w0; by rewrite view_put).
  assert (Hm0 : w_mongo w0 = w_mongo w) by (unfold w0; by rewrite mongo_put).
  unfold work in Hrun. rewrite Hop in Hrun. cbn [Z.eqb Pos.eqb] in Hrun.
  apply bind_ok in Hrun as (ok & w1 & [_ [fs1 ->]]%friendAllows_ok & Hrun).
  destruct (negb ok).
  { apply bind_ok in Hrun as (? & ? & _ & [? _]%ret_ok). done. }
  rewrite Hmsg in Hrun. apply bind_ok in Hrun as (m' & w1 & [[= <-] ->]%lift_ok & Hrun).
  apply bind_ok in Hrun as (u & w1 & Hp & [_ <-]%ret_ok). unfold when in Hp. unfold persisted.
  destruct (o_stage row =? 0) eqn:E0; bool_to_prop.
  2: { apply ret_ok in Hp as [_ <-]. rewrite view_faults, Hw0. split; [by split|].
       exists row. split; [done|lia]. }
  unfold persist_message in Hp.
  apply bind_ok in Hp as (saved & w2 & Hsave & Hp). destruct saved; [|done].
  apply SaveMsgToMongo_true in Hsave as (fs2 & ->).
  apply bind_ok in Hp as (u' & w3 & (json & fs3 & Hj & Hseq & Hgrp & ->)%RecordConversationMessage_ok &
    (fs4 & _ & ->)%update_ok).
  set (w2 := with_mongo _ _) in *.
  assert (Hw2 : view w2 = lock_row (tk_actor task) (tk_peer task) (view w))
    by (unfold w2; rewrite <- Hw0; done).
  world_simpl. rewrite Hw2. split.
  - split; [unfold w2; cbn; by rewrite Hm0|]. split_and!; [done..|]. exists json. split; [done|].
    transitivity (record_db m json (lock_row (tk_actor task) (tk_peer task) (view w))); [|by split].
    apply record_db_conv. by split.
  - exists (staged row). split; [|done].
    change (t_im_outbox (set_row ?f ?i ?d).2) with (alter f i (t_im_outbox d)).
    rewrite lookup_alter_eq, record_db_outbox.
    change (t_im_outbox (lock_row _ _ ?d)) with (t_im_outbox d). by rewrite Hrow.
Qed.

(** The second phase, on a committed database whose row has stage 1. *)
Lemma second_phase task m w r w' :
  w_txn w = None → outbox_ok (w_db w) → task_from task (w_db w) → serverMsgID m = tk_serverId task →
  (tk_operation task = 1 → outboxMessage task = inr m) →
  phase task false w = (r, w') →
  w_kafka w' = w_kafka w ∨
  tk_operation task = 1 ∧ w_kafka w' = w_kafka w ++ [(tk_conversation task, tk_serverId task)] ∧
  ready_for_delivery (tk_serverId task) m w w' ∧
  may_exchange (w_db w) (tk_actor task) (tk_peer task) (tk_seq task).
Proof.
  intros Hn Hok Hfrom Hid Hmsg Hrun. unfold phase in Hrun.
  apply conversationTransaction_stores in Hrun as [(_ & _ & ?)|(fs & x & w1 & Ha & Hs)]; [by left|].
  set (w0 := with_faults fs _) in Ha. assert (Hv : view w0 = w_db w) by (unfold w0, view; cbn; by rewrite Hn).
  destruct Hs as (Hs1 & Hs2 & Hs3). rewrite Hs3. unfold ready_for_delivery. rewrite Hs1, Hs2.
  apply phase_action_outcome in Ha as [(_ & (_ & _ & ->) & _)|(fs1 & row & _ & _ & _ & _ & Hrun)];
    [by left|].
  rewrite Hv in Hrun. set (w2 := put _ _) in Hrun.
  assert (Hk2 : w_kafka w2 = w_kafka w) by (unfold w2; by rewrite kafka_put).
  assert (Hm2 : w_mongo w2 = w_mongo w) by (unfold w2; by rewrite mongo_put).
  destruct (tk_operation task =? 1) eqn:Eop.
  2: { bool_to_prop. pose proof (kafka_work task false (to_int32 (o_stage row)) ltac:(done) w2) as Hk.
       rewrite Hrun in Hk. unfold same_kafka in Hk. cbn in Hk. left. congruence. }
  unfold work in Hrun. rewrite Eop in Hrun. bool_to_prop.
  apply bind_cases in Hrun as [(e & He & ->)|(ok & w3 & Hf & Hrun)].
  { pose proof (kafka_friendAllows (tk_actor task) (tk_peer task) (tk_seq task) w2) as Hk.
    rewrite He in Hk. unfold same_kafka in Hk. cbn in Hk. left. congruence. }
  apply friendAllows_ok in Hf as [-> [fs2 ->]]. destruct (negb (bool_decide _)) eqn:Ef.
  { match type of Hrun with ?m _ = _ => assert (Hs : Step same_kafka m) by apply _ end.
    specialize (Hs (with_faults fs2 w2)). rewrite Hrun in Hs. unfold same_kafka in Hs. cbn in Hs.
    left. congruence. }
  bool_to_prop. rewrite Hmsg in Hrun by done.
  apply bind_cases in Hrun as [(e & He & ->)|(m' & w3 & [[= <-] ->]%lift_ok & Hrun)]; [done|].
  apply dispatch_outcome in Hrun as [Hk|[Hk Hrd]]; [cbn in Hk; left; congruence| |done].
  right. split; [done|]. split; [cbn in Hk; congruence|]. split.
  { rewrite <- Hm2. exact Hrd. }
  unfold w2 in Ef. rewrite view_put in Ef. exact Ef.
Qed.

(** It leaves the conversation tables alone. *)
Lemma second_phase_conv task : Conn same_conv (phase task false).
Proof.
  apply Conn_tx_step; [apply _|].
  assert (Hr : ∀ f i, Step (stmt_step same_conv) (update (set_row f i)))
    by (intros; apply Step_update; [apply _|by intros d; split]).
  assert (Hs : ∀ p f, Step (stmt_step same_conv) (update (set_rows p f)))
    by (intros; apply Step_update; [apply _|by intros d; split]).
  assert (Hl : Step (stmt_step same_conv) (lockPair (tk_actor task) (tk_peer task)))
    by (unfold lockPair; apply Step_update; [apply _|by intros d; split]).
  unfold phase_action, work, dispatch_message, cleanup_chat, acknowledge, complete_task,
    GetSingleChatMessageIDs, DeleteSingleChatHistory. apply _.
Qed.

(** What the second phase leaves, in the words of the theorem below; [w2] is the world
    before it. *)
Definition message_dispatched (task : OutboxTask) (m : MsgData) (w2 w' : World) : Prop :=
  tk_operation task = 1
  ∧ w_kafka w' = w_kafka w2 ++ [(tk_conversation task, tk_serverId task)]
  ∧ ready_for_delivery (tk_serverId task) m w2 w'
  ∧ outbox_evolves (w_db w2) (w_db w') ∧ same_conv (w_db w2) (w_db w')
  ∧ may_exchange (w_db w2) (tk_actor task) (tk_peer task) (tk_seq task).

Lemma second_dispatches task m w2 y w' :
  w_txn w2 = None → outbox_ok (w_db w2) → task_from task (w_db w2) →
  outboxMessage task = inr m → serverMsgID m = tk_serverId task →
  (phase task false;; mret tt) w2 = (y, w') →
  w_kafka w' = w_kafka w2 ∨ message_dispatched task m w2 w'.
Proof.
  intros Hn Hok Hfrom Hom Hid Hr.
  assert (Hph : ∃ z, phase task false w2 = (z, w')).
  { apply bind_cases in Hr as [(e & He & _)|(x & w3 & Hx & Hr)]; [eauto|].
    apply ret_cases in Hr as [_ ->]. eauto. }
  destruct Hph as [z Hph]. pose proof (Conn_phase task false w2 Hn) as [Hp _].
  pose proof (second_phase_conv task w2 Hn) as [Hc _].
  rewrite Hph in Hp, Hc. cbn in Hp, Hc. specialize (Hp Hok Hfrom).
  apply (second_phase _ m) in Hph as [Hk|(? & Hk & Hrd & Hmay)]; [by left| |done..]. by right.
Qed.

(** The first phase does not touch Kafka. *)
Lemma first_phase_kafka task w r w' : phase task true w = (r, w') → w_kafka w' = w_kafka w.
Proof.
  intros Hz. apply conversationTransaction_stores in Hz as [(_ & _ & ?)|(fs & x & w1 & Ha & Hs)]; [done|].
  destruct Hs as (_ & _ & ->).
  assert (Hst : Step same_kafka (phase_action task true)).
  { pose proof (λ s, kafka_work task true s ltac:(done)). unfold phase_action, lockPair. apply _. }
  specialize (Hst (with_faults fs (with_txn (Some (view w)) w))). rewrite Ha in Hst. exact Hst.
Qed.

(** A first phase that goes on: the body and the conversation rows are persisted and the
    row has stage 1 in the committed tables, which evolved, and friendships are as
    before. *)
Lemma first_phase_commits task m w w' :
  w_txn w = None → outbox_ok (w_db w) → tk_operation task = 1 → task_from task (w_db w) →
  outboxMessage task = inr m → phase task true w = (inr true, w') →
  w_txn w' = None ∧ outbox_evolves (w_db w) (w_db w') ∧ same_friends (w_db w) (w_db w')
  ∧ ∃ row row', t_im_outbox (w_db w) !! tk_id task = Some row
    ∧ persisted m (o_stage row) (w_mongo w) (w_db w) (w_mongo w') (w_db w')
    ∧ t_im_outbox (w_db w') !! tk_id task = Some row' ∧ o_stage row' = 1.
Proof.
  intros Hn Hok Hop Hfrom Hmsg Hgo. pose proof (Conn_phase task true w Hn) as [Hev _]. rewrite Hgo in Hev.
  specialize (Hev Hok Hfrom). cbn [snd] in Hev. unfold phase in Hgo.
  apply conversationTransaction_ok in Hgo as (fs1 & w4 & d & Ha & Ht & fs2 & ->); [|apply _|done].
  assert (Hd : d = view w4) by by rewrite (view_txn d).
  assert (Hv : view (tx_start fs1 w) = w_db w) by done.
  pose proof (friends_phase_action task (tx_start fs1 w)) as [Hfr _]. rewrite Ha in Hfr. cbn [snd] in Hfr.
  rewrite <- Hd, Hv in Hfr. split; [done|]. split; [exact Hev|]. split; [exact Hfr|].
  apply (first_phase_effect _ m) in Ha as (row & Hrow & Hper & row' & Hrow' & Hst); [|by rewrite Hv|done..].
  rewrite Hv in Hrow, Hper. rewrite <- Hd in Hper, Hrow'. exists row, row'. done.
Qed.

(** Everything a message has gone through when it reaches Kafka; [row] is the task's row
    before, [s] the collection between the phases. *)
Definition dispatched_message (task : OutboxTask) (m : MsgData) (w w' : World) : Prop :=
  tk_operation task = 1 ∧
  w_kafka w' = w_kafka w ++ [(tk_conversation task, tk_serverId task)] ∧
  (∃ row s, t_im_outbox (w_db w) !! tk_id task = Some row ∧
     persisted m (o_stage row) (w_mongo w) (w_db w) s (w_db w') ∧
     published_as (tk_serverId task) s (w_mongo w')) ∧
  r_strings (w_redis w') !! ("msg:" +:+ tk_serverId task) = Some (serialize_msg m) ∧
  (∃ row, t_im_outbox (w_db w') !! tk_id task = Some row ∧ o_stage row = 1) ∧
  may_exchange (w_db w) (tk_actor task) (tk_peer task) (tk_seq task).

(** Both phases. *)
Lemma phases_dispatch task m w y w' :
  w_txn w = None → outbox_ok (w_db w) → task_from task (w_db w) →
  outboxMessage task = inr m → serverMsgID m = tk_serverId task →
  (go ← (if tk_operation task =? 1 then phase task true else mret true);
    if (go : bool) then phase task false;; mret tt else mret tt) w = (y, w') →
  w_kafka w' = w_kafka w ∨ dispatched_message task m w w'.
Proof.
  intros Hn Hok Hfrom Hom Hid Hrun. destruct (tk_operation task =? 1) eqn:Eop; bool_to_prop.
  2: { apply (second_dispatches task m) in Hrun as [?|(? & _)]; by auto. }
  apply bind_cases in Hrun as [(e & He & ->)|(go & w3 & Hgo & Hrun)].
  { left. by eapply first_phase_kafka. }
  pose proof (first_phase_kafka _ _ _ _ Hgo) as Hk3. destruct go; [|injection Hrun as _ <-; by left].
  apply (first_phase_commits _ m) in Hgo as (Hn3 & Hev & Hfr & row & row1 & Hrow & Hper & Hrow1 & Hstage);
    [|done..].
  apply (second_dispatches task m) in Hrun as [Hk|(_ & Hk & [Hpub Hcache] & Hev2 & Hconv & Hmay)];
    [left; congruence| |done|by apply Hev|by eapply evolves_task_from|done|done].
  right. split; [done|]. split; [congruence|]. split; [|split; [done|split]].
  - exists row, (w_mongo w3). split; [done|]. split; [|done]. unfold persisted in *.
    destruct (o_stage row =? 0).
    + destruct Hper as (? & ? & ? & json & ? & ?). split_and!; [done..|]. exists json. split; [done|by etrans].
    + destruct Hper as [? ?]. split; [done|by etrans].
  - destruct (Hev2 (proj1 (Hev Hok))) as [_ Hkeep]. destruct (Hkeep _ _ Hrow1) as (row' & Hrow' & Hre).
    exists row'. split; [done|]. destruct (re_stage _ _ Hre); congruence.
  - by apply (same_friends_may _ _ _ _ _ Hfr).
Qed.

(** The documents of a message, as it was sent or marked delivered. *)
Definition body_of (m : MsgData) (c : bool) (doc : document) : Prop :=
  doc = doc_of m c ∨ doc = doc_of (with_status 2 m) c.

Lemma dispatched_body task m w w' :
  serverMsgID m = tk_serverId task → dispatched_message task m w w' →
  (∀ doc, w_mongo w !! tk_serverId task = Some doc → ∃ c, body_of m c doc) →
  ∃ doc, w_mongo w' !! tk_serverId task = Some doc ∧ body_of m true doc.
Proof.
  intros Hid (_ & _ & (row & s & _ & Hper & doc & Hdoc & ->) & _) Hold. rewrite lookup_insert_eq.
  eexists. split; [done|].
  assert (Hb : ∃ c, body_of m c doc).
  { unfold persisted, set_on_insert in Hper. rewrite Hid in Hper. destruct (o_stage row =? 0).
    - destruct Hper as [-> _]. destruct (w_mongo w !! tk_serverId task) as [old|] eqn:E.
      + apply Hold. congruence.
      + rewrite lookup_insert_eq in Hdoc. injection Hdoc as <-. exists false. by left.
    - destruct Hper as [-> _]. by apply Hold. }
  destruct Hb as [c [-> | ->]]; [left|right]; apply set_committed_doc.
Qed.

(** C27: a message reaches Kafka only when everything the delivery side relies on
    is in place: processing a task, whatever calls fail, either leaves Kafka
    alone or appends exactly the message's own entry.  Then the task is a single-chat
    task (operation 1) of committed stage 1, sender and recipient are friends whose chat
    was not deleted after it, the cache entry holds the body, and, by the stage that the
    processing has found: at 0, the body was stored under its server id (unless MongoDB
    had a document there) and the committed conversation tables are those that recording
    the message makes of the earlier ones; at 1, both were done when the stage was set,
    and are not done again; after that the document under its server id, which exists,
    was published, and nothing else in MongoDB changed.  So if MongoDB held nothing else
    under that id, it holds this message's body there, published. *)
Theorem dispatch_after_commit task m w
    (Hn : w_txn w = None) (Hok : outbox_ok (w_db w)) (Hfrom : task_from task (w_db w))
    (Hmsg : msg_of_json (tk_payload task) = Some m) (Hid : serverMsgID m = tk_serverId task) :
  let w' := (ProcessOutboxTask task w).2 in
  w_kafka w' = w_kafka w ∨
  dispatched_message task m w w' ∧
  ((∀ doc, w_mongo w !! tk_serverId task = Some doc → ∃ c, body_of m c doc) →
   ∃ doc, w_mongo w' !! tk_serverId task = Some doc ∧ body_of m true doc).
Proof.
  cbv zeta. destruct (ProcessOutboxTask task w) as [r w'] eqn:Erun. cbn [snd].
  assert (Hom : outboxMessage task = inr m) by (unfold outboxMessage; by rewrite Hmsg).
  cut (w_kafka w' = w_kafka w ∨ dispatched_message task m w w').
  { intros [?|Hd]; [by left|right]. split; [done|by apply dispatched_body]. }
  apply with_connection_cases in Erun as [[_ (_ & _ & ?)]|(fs & w1 & Hrun & Hdb & Hs1 & Hs2 & Hs3)]; [by left|].
  unfold dispatched_message. rewrite Hs1, Hs2, Hs3, Hdb.
  by apply (phases_dispatch task m) in Hrun as [?|?]; [left|right|..].
Qed.

(** ** Retries *)

Lemma retry_delay_value n :
  0 <= n → retry_delay n = (if n <? 6 then 1000 * 2 ^ n else 60000).
Proof.
  intros Hn. unfold retry_delay. destruct (n <? 6) eqn:E; bool_to_prop.
  - rewrite (Z.min_l n 6), Z.shiftl_mul_pow2 by lia.
    assert (2 ^ n <= 2 ^ 5) by (apply Z.pow_le_mono_r; lia). lia.
  - rewrite (Z.min_r n 6) by lia. done.
Qed.

(** A failed task is put back with an exponential delay between one second
    and one minute (1 s doubled per attempt, 60 s from the sixth on), only if its
    lease is still held: the row becomes ready, its token is cleared and the
    error is recorded up to 1500 bytes; every other row is as before. *)
Theorem retry_spec task error w u w'
    (Hatt : 0 <= tk_attempts task) (Hrun : RetryOutboxTask task error w = (inr u, w')) :
  let delay := if tk_attempts task <? 6 then 1000 * 2 ^ tk_attempts task else 60000 in
  1000 <= delay <= 60000 ∧
  ∀ k, t_im_outbox (w_db w') !! k =
    (λ r, if (k =? tk_id task) && (o_state r =? 1) && bool_decide (o_lease_token r = tk_leaseToken task)
          then released (w_clock w (w_tick w) + delay) (take_str 1500 error) r else r)
      <$> t_im_outbox (w_db w) !! k.
Proof.
  cbv zeta. split.
  - destruct (_ <? 6) eqn:E; bool_to_prop; [|lia].
    assert (2 ^ tk_attempts task <= 2 ^ 5) by (apply Z.pow_le_mono_r; lia).
    pose proof (Z.pow_pos_nonneg 2 (tk_attempts task) ltac:(lia) Hatt). lia.
  - intros k. apply with_connection_ok in Hrun as (fs & w1 & Hrun & ->).
    apply bind_ok in Hrun as (t & w2 & Hnow & (fs1 & _ & ->)%update_ok). injection Hnow as <- <-.
    rewrite <- retry_delay_value by done. world_cbn. apply lookup_update_where.
Qed.

(** ** Queueing *)

(** The row of an earlier message with the same key agrees with the message. *)
Definition same_message (d : Database) (message : MsgData) (k : Z) (r : OutboxRow) : Prop :=
  o_state r ≠ 3 ∧ ∃ original, msg_of_json (o_payload r) = Some original ∧
    recvID original = recvID message ∧ content original = content message ∧
    contentType original = contentType message ∧ sessionType original = sessionType message ∧
    may_exchange d (sendID original) (recvID original) (seq original).

Lemma may_exchange_lock d a b x y s : may_exchange (lock_row a b d) x y s ↔ may_exchange d x y s.
Proof. done. Qed.

Lemma requeue_ok message k r w task w' :
  row_ok r → requeue message (k, r) w = (inr task, w') →
  task = task_of k r ∧ same_message (view w) message k r ∧ view w' = view w.
Proof.
  intros [_ Hst _] Hrun. unfold requeue in Hrun.
  apply bind_ok in Hrun as (t & w1 & [[-> _]%outboxRow_ok ->]%lift_ok & Hrun).
  destruct (_ || _) eqn:E1; [done|]. bool_to_prop. cbn [tk_state task_of] in *.
  rewrite to_int32_small in * by done.
  apply bind_ok in Hrun as (original & w1 & [Hm ->]%lift_ok & Hrun).
  apply bind_ok in Hrun as (ok & w1 & [-> [fs ->]]%friendAllows_ok & Hrun).
  destruct (negb (bool_decide _)) eqn:E2; [done|].
  destruct (_ || _ || _ || _) eqn:E3; [done|]. destruct (o_state r =? 3); [done|].
  apply ret_ok in Hrun as [<- <-]. bool_to_prop. split; [done|]. split; [|done]. split; [done|].
  unfold outboxMessage in Hm. cbn [tk_payload task_of] in Hm.
  destruct (msg_of_json (o_payload r)) as [m|]; [|done]. injection Hm as ->.
  exists original. done.
Qed.

Lemma queue_message_ok message w task w' :
  outbox_ok (view w) → queue_message message w = (inr task, w') →
  let d1 := lock_row (sendID message) (recvID message) (view w) in
  may_exchange (view w) (sendID message) (recvID message) (seq message) ∧
  ((∃ k r, t_im_outbox (view w) !! k = Some r ∧ same_key 1 (message_key message) k r = true ∧
      task = task_of k r ∧ same_message (view w) message k r ∧ view w' = d1) ∨
   (∃ payload, select_one (same_key 1 (message_key message)) (t_im_outbox (view w)) = None ∧
      msg_to_json message = Some payload ∧ tk_payload task = payload ∧
      tk_id task = t_im_outbox_next (view w) ∧ tk_state task = 0 ∧ tk_stage task = 0 ∧
      view w' = (insert_row (new_outbox_row 1 (message_key message) (sendID message)
        (recvID message) (convID message) (serverMsgID message) (seq message) payload) d1).2)).
Proof.
  intros Hok Hrun d1. unfold queue_message in Hrun.
  apply bind_ok in Hrun as (u & w1 & [fs ->]%lockPair_ok & Hrun). fold d1 in Hrun.
  apply bind_ok in Hrun as (ok & w1 & [-> [fs1 ->]]%friendAllows_ok & Hrun).
  rewrite view_put in Hrun. destruct (negb (bool_decide _)) eqn:E; [done|]. bool_to_prop.
  split; [exact E|].
  apply bind_ok in Hrun as (row & w1 & (-> & fs2 & ->)%query_ok & Hrun).
  world_simpl. change (t_im_outbox d1) with (t_im_outbox (view w)) in Hrun.
  destruct (select_one _ _) as [[k r]|] eqn:Es.
  - left. apply select_one_Some in Es as (Hk & Hkey & _). exists k, r.
    apply requeue_ok in Hrun as (-> & Hsame & ->); [|by apply (oo_row _ Hok k)].
    split; [done|]. split; [done|]. split; [done|]. world_simpl. done.
  - right. destruct (msg_to_json message) as [payload|]; [|done].
    apply bind_ok in Hrun as (id & w1 & (d & fs3 & Hins & ->)%execute_ok & [<- <-]%ret_ok).
    exists payload. world_simpl. unfold insert_outbox in Hins.
    change (t_im_outbox d1) with (t_im_outbox (view w)) in Hins.
    cbn [o_operation o_dedupe_key new_outbox_row] in Hins. rewrite Es in Hins.
    injection Hins as <- <-. done.
Qed.

(** Accepting a single-chat message: a task is returned only for a valid
    message between friends (whose chat was not deleted after it).  If the sender
    already used the client ID, it is the earlier task, not cancelled, whose
    stored message has the same recipient, content and types, and no row changes;
    otherwise exactly one new row is committed, with the message as payload. *)
Theorem queue_single_message_spec message w task w'
    (Hok : outbox_ok (w_db w)) (Hrun : QueueSingleMessage message w = (inr task, w')) :
  valid_single message = true ∧
  may_exchange (w_db w) (sendID message) (recvID message) (seq message) ∧
  ((∃ k r, t_im_outbox (w_db w) !! k = Some r ∧ same_key 1 (message_key message) k r = true ∧
      task = task_of k r ∧ same_message (w_db w) message k r ∧
      t_im_outbox (w_db w') = t_im_outbox (w_db w)) ∨
   (∃ payload, select_one (same_key 1 (message_key message)) (t_im_outbox (w_db w)) = None ∧
      msg_to_json message = Some payload ∧ tk_payload task = payload ∧
      tk_state task = 0 ∧ tk_stage task = 0 ∧ t_im_outbox (w_db w) !! tk_id task = None ∧
      t_im_outbox (w_db w') =
        <[tk_id task := new_outbox_row 1 (message_key message) (sendID message)
            (recvID message) (convID message) (serverMsgID message) (seq message) payload]>
          (t_im_outbox (w_db w)))).
Proof.
  unfold QueueSingleMessage in Hrun. destruct (negb _) eqn:Ev; [done|]. bool_to_prop.
  split; [done|]. apply with_connection_ok in Hrun as (fs & w1 & Hrun & ->).
  apply conversationTransaction_ok in Hrun as (fs1 & w2 & d & Hrun & Ht & fs2 & ->); [|apply _|done].
  change (w_db (with_txn _ (with_faults _ (with_txn _ (with_db d w2))))) with d.
  apply queue_message_ok in Hrun as (Hmay & Hcase); [|done].
  rewrite (view_txn d w2) in Hcase by done. split; [exact Hmay|].
  destruct Hcase as [(k & r & Hk & Hkey & -> & Hsame & ->)|(payload & Hs & Hp & Hpl & Hid & Hst & Hsg & ->)].
  - left. exists k, r. done.
  - right. exists payload. split; [exact Hs|]. do 4 (split; [done|]). split; [|by rewrite Hid].
    destruct (t_im_outbox (w_db w) !! tk_id task) as [r|] eqn:E; [|done].
    apply (oo_next _ Hok) in E. change (t_im_outbox_next (view _)) with (t_im_outbox_next (w_db w)) in Hid.
    lia.
Qed.

(** Resending is idempotent: when a message was accepted, every later
    accepted message of the same sender with the same client ID (a client retry
    after a lost answer) gets the same task, and the outbox is unchanged: no
    message is stored twice. *)
Theorem resend_same_task m1 m2 w w1 w2 t1 t2
    (Hok : outbox_ok (w_db w)) (Hn : w_txn w = None)
    (Hfirst : QueueSingleMessage m1 w = (inr t1, w1))
    (Hsecond : QueueSingleMessage m2 w1 = (inr t2, w2))
    (Hkey : message_key m2 = message_key m1) :
  tk_id t2 = tk_id t1 ∧ t_im_outbox (w_db w2) = t_im_outbox (w_db w1).
Proof.
  pose proof (OE_QueueSingleMessage m1 w Hn) as [He _]. rewrite Hfirst in He. cbn in He.
  destruct (He Hok) as [Hok1 _].
  assert (Hrow : ∃ r, t_im_outbox (w_db w1) !! tk_id t1 = Some r ∧
    same_key 1 (message_key m1) (tk_id t1) r = true).
  { apply queue_single_message_spec in Hfirst as (_ & _ & [(k & r & Hk & Hke & -> & _ & ->)|
      (payload & _ & _ & _ & _ & _ & _ & ->)]); [by exists r| |done].
    eexists. rewrite lookup_insert_eq. split; [done|].
    unfold same_key. cbn. by rewrite bool_decide_eq_true_2. }
  destruct Hrow as (r & Hr & Hkr).
  apply queue_single_message_spec in Hsecond as (_ & _ & [(k & r2 & Hk & Hke & -> & _ & ->)|
      (payload & Hnone & _)]); [| |done].
  - split; [|done]. cbn. rewrite Hkey in Hke. unfold same_key in Hke, Hkr. bool_to_prop.
    eapply (oo_unique _ Hok1); [exact Hk|exact Hr|congruence|congruence].
  - rewrite Hkey in Hnone. rewrite select_one_None in Hnone. by rewrite (Hnone _ _ Hr) in Hkr.
Qed.
End theorems.

(** * Witnesses *)

(** Users 7 and 9 are friends. *)
Definition friends_db : Database :=
  set_friends (λ _, <[1 := mkFriendRow 7 9 "" 0]> (<[2 := mkFriendRow 9 7 "" 0]> ∅)) empty_db.

Lemma friends_db_ok : outbox_ok friends_db.
Proof.
  split; intros id r; change (t_im_outbox friends_db) with (∅ : gmap Z OutboxRow); by rewrite lookup_empty.
Qed.

Definition send_w0 : World := sample_world friends_db [].
Definition sent_task : OutboxTask := mkOutboxTask 1 7 9 5 1 0 0 0 false "7_9" "m1" "M" "".
Definition send_w1 : World := (QueueSingleMessage sample_message send_w0).2.
Definition send_w2 : World := (QueueSingleMessage sample_message send_w1).2.
Definition claimed_task : OutboxTask := with_lease "uuid-" sent_task.
Definition claim_w : World := (ClaimOutboxTask send_w1).2.

Lemma send_run : QueueSingleMessage sample_message send_w0 = (inr sent_task, send_w1).
Proof. vm_compute. reflexivity. Qed.

Lemma send_w1_ok : outbox_ok (w_db send_w1).
Proof. exact (proj1 (proj1 (OE_QueueSingleMessage sample_message send_w0 eq_refl) friends_db_ok)). Qed.

Lemma claim_w_ok : outbox_ok (w_db claim_w).
Proof. exact (proj1 (proj1 (OE_ClaimOutboxTask send_w1 eq_refl) send_w1_ok)). Qed.

Lemma queue_single_message_spec_witness :
  valid_single sample_message = true ∧ may_exchange (w_db send_w0) 7 9 5.
Proof.
  destruct (queue_single_message_spec sample_message send_w0 sent_task send_w1)
    as (H1 & H2 & _); [apply friends_db_ok|vm_compute; reflexivity|]. split; [exact H1|exact H2].
Defined.

Lemma resend_same_task_witness :
  tk_id sent_task = tk_id sent_task ∧ t_im_outbox (w_db send_w2) = t_im_outbox (w_db send_w1).
Proof.
  apply (resend_same_task sample_message sample_message send_w0 send_w1 send_w2 sent_task sent_task);
    [apply friends_db_ok|reflexivity|vm_compute; reflexivity|vm_compute; reflexivity|reflexivity].
Defined.

Lemma claim_spec_witness :
  ∃ r t2, t_im_outbox (w_db send_w1) !! 1 = Some r ∧
    t_im_outbox (w_db claim_w) = <[1 := leased "uuid-" (t2 + 45000) r]> (t_im_outbox (w_db send_w1)).
Proof.
  destruct (claim_spec send_w1 (Some claimed_task) claim_w) as (r & t2 & H1 & _ & H2 & _);
    [vm_compute; reflexivity|]. exists r, t2. split; [exact H1|exact H2].
Defined.

Lemma claimed_from_witness : task_from claimed_task (w_db claim_w).
Proof. eexists. split; vm_compute; reflexivity. Qed.

(** The claimed task is dispatched: one Kafka entry. *)
Lemma dispatch_after_commit_witness :
  w_kafka (ProcessOutboxTask claimed_task claim_w).2 = [("7_9", "m1")] ∧
  dispatched_message claimed_task sample_message claim_w (ProcessOutboxTask claimed_task claim_w).2 ∧
  ∃ doc, w_mongo (ProcessOutboxTask claimed_task claim_w).2 !! "m1" = Some doc ∧ body_of sample_message true doc.
Proof.
  assert (Hk : w_kafka (ProcessOutboxTask claimed_task claim_w).2 = [("7_9", "m1")])
    by (vm_compute; reflexivity).
  split; [exact Hk|].
  destruct (dispatch_after_commit claimed_task sample_message claim_w) as [Hn|[Hr Hb]].
  - reflexivity.
  - apply claim_w_ok.
  - apply claimed_from_witness.
  - vm_compute. reflexivity.
  - reflexivity.
  - exfalso. rewrite Hk in Hn. vm_compute in Hn. discriminate.
  - split; [exact Hr|]. apply Hb. intros doc Hdoc. vm_compute in Hdoc. discriminate.
Defined.

Definition stale_task : OutboxTask := with_lease "lost" sent_task.

Lemma stale_lease_no_effect_witness :
  only_lock stale_task (w_db claim_w) (w_db (ProcessOutboxTask stale_task claim_w).2).
Proof.
  apply (stale_lease_no_effect stale_task "e" claim_w).
  - apply claim_w_ok.
  - intros r Hr. right. vm_compute in Hr. injection Hr as <-. vm_compute. discriminate.
Defined.

Definition retry_w : World := (RetryOutboxTask claimed_task "broker down" claim_w).2.

Lemma retry_spec_witness : 1000 <= 2000 <= 60000.
Proof.
  apply (retry_spec claimed_task "broker down" claim_w tt retry_w).
  - vm_compute. discriminate.
  - vm_compute. reflexivity.
Defined.

Lemma send_w1_txn : w_txn send_w1 = None.
Proof. vm_compute. reflexivity. Qed.

Lemma outbox_rows_evolve_witness : outbox_ok (w_db (worker_pass (λ _, "") send_w1).2).
Proof.
  apply (outbox_rows_evolve friends_db).
  - apply (rtc_l _ _ (w_db send_w1)); [exact (step_queue sample_message send_w0 eq_refl)|].
    apply rtc_once. exact (step_worker (λ _, "") send_w1 send_w1_txn).
  - apply friends_db_ok.
Defined.
