(* ===== verification/OutboxLeases.v ===== *)
(** Workers that claim at once ([ClaimOutboxTask], [src/storage/mysqlhandler.cpp]
    1495-1523, run by the two coroutines of [OutboxWorker]), statement by statement.

    [Outbox.claim] runs a claim alone.  Here every statement of every worker is a step,
    and between two of them anything else may happen: statements of other claims, the
    commit of any other transaction, the clock.  [FOR UPDATE SKIP LOCKED] reads the
    newest committed rows, passes over those another transaction has locked (a worker
    may find any others locked as well: by transactions that are not claims, or because
    InnoDB locks what it scans) and locks the row it returns until COMMIT or ROLLBACK. *)
From stdpp Require Import pretty.
From S2P Require Import Prelude Table Snowflake Schema Effects Users Stores Conversations Samples Friendship Outbox OutboxWorker OutboxProofs OutboxTheorems.

(** * The state *)

(** Where a worker is in [ClaimOutboxTask]; a worker that is not in the map is not in it.
    The tokens are numbered as they are drawn. *)
Inductive claim_pc :=
| Ready                                   (* the first SELECT comes next *)
| Expired                                 (* the second *)
| Chosen (id : Z) (row : OutboxRow)       (* a row is locked *)
| Updated (id : Z) (row : OutboxRow) (n : nat) (until : Z)   (* COMMIT comes next *)
| Claimed (task : OutboxTask) (n : nat).  (* returned; the worker has the task *)

Record Leases := mkLeases {
  database : Database;           (* committed *)
  clock : Z;
  workers : gmap nat claim_pc;
  tokens : nat;
}.

Definition at_pc (w : nat) (pc : claim_pc) (s : Leases) : Leases :=
  mkLeases (database s) (clock s) (<[w := pc]> (workers s)) (tokens s).

Definition away (w : nat) (s : Leases) : Leases :=
  mkLeases (database s) (clock s) (delete w (workers s)) (tokens s).

(** The row a worker has locked. *)
Definition lock_of (pc : claim_pc) : option Z :=
  match pc with Chosen id _ => Some id | Updated id _ _ _ => Some id | _ => None end.

Definition holds (s : Leases) (w : nat) (id : Z) : Prop :=
  ∃ pc, workers s !! w = Some pc ∧ lock_of pc = Some id.

(** * The statements *)

Section claims.
Context (uuid : nat → string).

(** The rows that SKIP LOCKED leaves. *)
Definition unlocked (skipped : gset Z) (d : Database) : Database :=
  set_im_outbox (filter (λ p, p.1 ∉ skipped)) d.

(** WHERE state=0 ...; [t] is what [now()] returned before the statement was sent. *)
Definition select_ready (w : nat) (t : Z) (skipped : gset Z) (s : Leases) : Leases :=
  match ready_task t (unlocked skipped (database s)) with
  | Some (id, row) => at_pc w (Chosen id row) s
  | None => at_pc w Expired s
  end.

(** WHERE state=1 ...; without a row the transaction is rolled back. *)
Definition select_expired (w : nat) (t : Z) (skipped : gset Z) (s : Leases) : Leases :=
  match expired_task t (unlocked skipped (database s)) with
  | Some (id, row) => at_pc w (Chosen id row) s
  | None => away w s
  end.

(** [outboxRow], the token, and the UPDATE, in the transaction's own copy of the row. *)
Definition update_row (w : nat) (t : Z) (id : Z) (row : OutboxRow) (s : Leases) : Leases :=
  match outboxRow (outbox_columns (id, row)) with
  | inl _ => away w s
  | inr _ => mkLeases (database s) (clock s)
      (<[w := Updated id row (tokens s) (t + 45000)]> (workers s)) (S (tokens s))
  end.

Definition task_returned (id : Z) (row : OutboxRow) (n : nat) : option OutboxTask :=
  match outboxRow (outbox_columns (id, row)) with
  | inl _ => None
  | inr task => Some (with_lease (uuid n) task)
  end.

Definition written (id : Z) (n : nat) (until : Z) (d : Database) : Database :=
  (set_row (leased (uuid n) until) id d).2.

(** COMMIT; [reported]: its answer arrives. *)
Definition commit (w : nat) (id : Z) (row : OutboxRow) (n : nat) (until : Z) (reported : bool)
    (s : Leases) : Leases :=
  mkLeases (written id n until (database s)) (clock s)
    (match task_returned id row n with
     | Some task => if reported then <[w := Claimed task n]> (workers s) else delete w (workers s)
     | None => delete w (workers s)
     end) (tokens s).

(** What the rest of the program does to the table: it leases nothing. *)
Definition same_lease (r r' : OutboxRow) : Prop :=
  o_state r = 1 ∧ o_state r' = 1 ∧ o_lease_token r' = o_lease_token r ∧ o_lease_until r' = o_lease_until r.

Definition leases_nothing (d d' : Database) : Prop :=
  ∀ id r', t_im_outbox d' !! id = Some r' → o_state r' = 1 →
    ∃ r, t_im_outbox d !! id = Some r ∧ same_lease r r'.

(** ** Steps *)

(** The locks of the others are among the rows skipped. *)
Definition skips (s : Leases) (w : nat) (skipped : gset Z) : Prop :=
  ∀ w' id, w' ≠ w → holds s w' id → id ∈ skipped.

Inductive claim_step (s : Leases) : Leases → Prop :=
| step_begin w : workers s !! w = None → claim_step s (at_pc w Ready s)
| step_ready w t skipped :
    workers s !! w = Some Ready → t <= clock s → skips s w skipped →
    claim_step s (select_ready w t skipped s)
| step_expired w t skipped :
    workers s !! w = Some Expired → t <= clock s → skips s w skipped →
    claim_step s (select_expired w t skipped s)
| step_update w t id row :
    workers s !! w = Some (Chosen id row) → t <= clock s → claim_step s (update_row w t id row s)
| step_commit w id row n until reported :
    workers s !! w = Some (Updated id row n until) →
    claim_step s (commit w id row n until reported s)
| step_abort w pc : workers s !! w = Some pc → claim_step s (away w s)
| step_tick t : clock s <= t → claim_step s (mkLeases (database s) t (workers s) (tokens s))
| step_others d :
    leases_nothing (database s) d →
    (∀ w id, holds s w id → t_im_outbox d !! id = t_im_outbox (database s) !! id) →
    claim_step s (mkLeases d (clock s) (workers s) (tokens s)).

(** * The specification: a claim is atomic *)

(** A row a claim may take. *)
Definition due (t : Z) (r : OutboxRow) : Prop :=
  o_state r = 0 ∧ o_available_at r <= t ∨ o_state r = 1 ∧ o_lease_until r <= t.

Inductive atomic_step : Database * Z → Database * Z → Prop :=
| atomic_claim d t id row n until :
    t_im_outbox d !! id = Some row → due t row → until <= t + 45000 →
    atomic_step (d, t) (written id n until d, t)
| atomic_tick d t t' : t <= t' → atomic_step (d, t) (d, t')
| atomic_others d d' t : leases_nothing d d' → atomic_step (d, t) (d', t).

Definition abstract (s : Leases) : Database * Z := (database s, clock s).

(** * The invariant *)

Definition token_of (pc : claim_pc) : option nat :=
  match pc with Updated _ _ n _ => Some n | Claimed _ n => Some n | _ => None end.

(** What a worker that has locked a row knows of it. *)
Definition knows (s : Leases) (pc : claim_pc) : Prop :=
  match pc with
  | Chosen id row => t_im_outbox (database s) !! id = Some row ∧ due (clock s) row
  | Updated id row _ until => t_im_outbox (database s) !! id = Some row ∧ due (clock s) row
      ∧ until <= clock s + 45000
  | Claimed task n => tk_leaseToken task = uuid n
  | _ => True
  end.

Record claims_inv (s : Leases) : Prop := {
  ci_knows w pc : workers s !! w = Some pc → knows s pc;
  ci_locks w1 w2 id : holds s w1 id → holds s w2 id → w1 = w2;
  ci_drawn w pc n : workers s !! w = Some pc → token_of pc = Some n → (n < tokens s)%nat;
  ci_tokens w1 w2 pc1 pc2 n : workers s !! w1 = Some pc1 → workers s !! w2 = Some pc2 →
    token_of pc1 = Some n → token_of pc2 = Some n → w1 = w2;
}.

Lemma due_later t t' r : due t r → t <= t' → due t' r.
Proof. unfold due. lia. Qed.

Lemma written_lookup id n until d k :
  t_im_outbox (written id n until d) !! k =
  if decide (k = id) then (leased (uuid n) until <$> (t_im_outbox d !! id)) else t_im_outbox d !! k.
Proof.
  change (t_im_outbox (written id n until d)) with (alter (leased (uuid n) until) id (t_im_outbox d)).
  destruct (decide (k = id)) as [->|]; [by rewrite lookup_alter_eq|by rewrite lookup_alter_ne].
Qed.

(** What SKIP LOCKED returns. *)
Lemma unlocked_lookup skipped d id r :
  t_im_outbox (unlocked skipped d) !! id = Some r ↔ t_im_outbox d !! id = Some r ∧ id ∉ skipped.
Proof.
  change (t_im_outbox (unlocked skipped d)) with (filter (λ p : Z * OutboxRow, (p.1 ∉ skipped)) (t_im_outbox d)).
  by rewrite map_lookup_filter_Some.
Qed.

Lemma select_due t skipped d id r :
  ready_task t (unlocked skipped d) = Some (id, r) ∨ expired_task t (unlocked skipped d) = Some (id, r) →
  t_im_outbox d !! id = Some r ∧ (id ∉ skipped) ∧ due t r.
Proof.
  intros [(Hk & HP & _)%first_by_Some|(Hk & HP & _)%first_by_Some]; bool_to_prop;
    apply unlocked_lookup in Hk as [Hk Hs]; unfold due; auto.
Qed.

(** Holders after a worker moved. *)
Lemma holds_at s w pc w' id :
  holds (at_pc w pc s) w' id ↔ (w' = w ∧ lock_of pc = Some id) ∨ (w' ≠ w ∧ holds s w' id).
Proof.
  unfold holds. simpl. split.
  - intros (x & [(-> & <-)|(Hne & Hx)]%lookup_insert_Some & Hl); [by left|right; eauto].
  - intros [(-> & Hl)|(Hne & x & Hx & Hl)]; [exists pc; by rewrite lookup_insert_eq|].
    exists x. by rewrite lookup_insert_ne.
Qed.

Lemma inv_at s w pc :
  claims_inv s → knows s pc → (∀ w' id, w' ≠ w → lock_of pc = Some id → ¬ holds s w' id) →
  (∀ n, token_of pc = Some n → (n < tokens s)%nat ∧
     ∀ w' pc', w' ≠ w → workers s !! w' = Some pc' → token_of pc' ≠ Some n) →
  claims_inv (at_pc w pc s).
Proof.
  intros Hs Hk Hl Ht. split; simpl.
  - intros w' x [(<- & <-)|(_ & Hx)]%lookup_insert_Some; [done|]. by apply (ci_knows _ Hs w' x).
  - intros w1 w2 id [(-> & H1)|(Hn1 & H1)]%holds_at [(-> & H2)|(Hn2 & H2)]%holds_at; [done|..].
    + by destruct (Hl w2 id).
    + by destruct (Hl w1 id).
    + by eapply (ci_locks _ Hs).
  - intros w' x n [(<- & <-)|(_ & Hx)]%lookup_insert_Some Hn; [by apply Ht|by eapply (ci_drawn _ Hs)].
  - intros w1 w2 x1 x2 n [(<- & <-)|(Hn1 & H1)]%lookup_insert_Some
      [(<- & <-)|(Hn2 & H2)]%lookup_insert_Some E1 E2; [done|..].
    + by destruct (Ht n E1) as [_ Ho]; destruct (Ho w2 x2).
    + by destruct (Ht n E2) as [_ Ho]; destruct (Ho w1 x1).
    + by eapply (ci_tokens _ Hs).
Qed.

Lemma holds_away s w w' id : holds (away w s) w' id ↔ w' ≠ w ∧ holds s w' id.
Proof.
  unfold holds. simpl. split.
  - intros (x & (Hne & Hx)%lookup_delete_Some & Hl). eauto.
  - intros (Hne & x & Hx & Hl). exists x. by rewrite lookup_delete_ne.
Qed.

Lemma inv_away s w : claims_inv s → claims_inv (away w s).
Proof.
  intros Hs. split; simpl.
  - intros w' x (_ & Hx)%lookup_delete_Some. by apply (ci_knows _ Hs w' x).
  - intros w1 w2 id (_ & H1)%holds_away (_ & H2)%holds_away. by eapply (ci_locks _ Hs).
  - intros w' x n (_ & Hx)%lookup_delete_Some. by eapply (ci_drawn _ Hs).
  - intros w1 w2 x1 x2 n (_ & H1)%lookup_delete_Some (_ & H2)%lookup_delete_Some. by eapply (ci_tokens _ Hs).
Qed.

(** The tables, the clock and the tokens move on; locked rows stay as they are. *)
Lemma inv_world s d t n :
  claims_inv s → clock s <= t → (tokens s <= n)%nat →
  (∀ w id, holds s w id → t_im_outbox d !! id = t_im_outbox (database s) !! id) →
  claims_inv (mkLeases d t (workers s) n).
Proof.
  intros Hs Ht Hn Hd. split; simpl.
  - intros w pc Hw. pose proof (ci_knows _ Hs w pc Hw) as Hk. destruct pc as [| |id row|id row m until|]; try done.
    + destruct Hk as [Hk Hdue]. split; [cbn|by eapply due_later]. by rewrite (Hd w id) by by eexists.
    + destruct Hk as (Hk & Hdue & Hu). split_and!; [cbn|by eapply due_later|cbn; lia].
      by rewrite (Hd w id) by by eexists.
  - apply (ci_locks _ Hs).
  - intros w pc m Hw Hm. pose proof (ci_drawn _ Hs w pc m Hw Hm). lia.
  - apply (ci_tokens _ Hs).
Qed.

Lemma inv_init d t n : claims_inv (mkLeases d t ∅ n).
Proof. split; simpl; [by intros w pc Hw; rewrite lookup_empty in Hw|..].
  - by intros w1 w2 id (pc & Hw & _).
  - by intros w pc m Hw.
  - by intros w1 w2 pc1 pc2 m Hw.
Qed.

(** * Every claim is atomic *)

Lemma inv_chosen s w skipped id row :
  claims_inv s → skips s w skipped → t_im_outbox (database s) !! id = Some row → id ∉ skipped →
  due (clock s) row → claims_inv (at_pc w (Chosen id row) s).
Proof.
  intros Hs Hskip Hk Hn Hdue. apply inv_at; [done|done| |done].
  intros w' i Hne [= <-] Hh. apply Hn. by eapply Hskip.
Qed.

Lemma inv_other_pc s w pc :
  claims_inv s → lock_of pc = None → token_of pc = None → claims_inv (at_pc w pc s).
Proof.
  intros Hs Hl Ht. apply inv_at; [done|by destruct pc; simplify_eq|by intros w' id _ E; rewrite Hl in E|].
  intros n E. by rewrite Ht in E.
Qed.

Lemma inv_update s w t id row :
  claims_inv s → workers s !! w = Some (Chosen id row) → t <= clock s →
  claims_inv (update_row w t id row s).
Proof.
  intros Hs Hw Ht. unfold update_row. destruct (outboxRow _); [by apply inv_away|].
  set (s1 := mkLeases (database s) (clock s) (workers s) (S (tokens s))).
  assert (Hs1 : claims_inv s1) by (apply inv_world; [done|lia|lia|done]).
  apply (inv_at s1 w); [done|..].
  - destruct (ci_knows _ Hs _ _ Hw) as [Hk Hdue]. split_and!; [done|done|cbn; lia].
  - intros w' i Hne [= <-] Hh. apply Hne. eapply (ci_locks _ Hs); [exact Hh|]. by eexists.
  - intros n [= <-]. split; [cbn; lia|]. intros w' pc' _ Hw' Hn.
    pose proof (ci_drawn _ Hs w' pc' (tokens s) Hw' Hn). lia.
Qed.

Lemma inv_commit s w id row n until reported :
  claims_inv s → workers s !! w = Some (Updated id row n until) →
  claims_inv (commit w id row n until reported s).
Proof.
  intros Hs Hw.
  set (s1 := mkLeases (written id n until (database s)) (clock s) (delete w (workers s)) (tokens s)).
  assert (Hs1 : claims_inv s1).
  { apply (inv_world (away w s)); [by apply inv_away|cbn; lia|cbn; lia|].
    intros w' i [Hne Hh]%holds_away. rewrite written_lookup, decide_False; [done|].
    intros ->. apply Hne. eapply (ci_locks _ Hs); [exact Hh|]. by eexists. }
  unfold commit. destruct (task_returned id row n) as [task|] eqn:Htask; [|exact Hs1].
  destruct reported; [|exact Hs1]. rewrite <- insert_delete_eq. apply (inv_at s1 w); [done| |done|].
  { unfold task_returned in Htask. destruct (outboxRow _); [done|]. by injection Htask as <-. }
  intros m [= <-]. split; [by eapply (ci_drawn _ Hs)|].
  intros w' pc' Hne Hw' Hm. cbn in Hw'. apply lookup_delete_Some in Hw' as [_ Hw']. apply Hne. by eapply (ci_tokens _ Hs).
Qed.

Lemma claims_inv_step s s' : claims_inv s → claim_step s s' → claims_inv s'.
Proof.
  intros Hs [w Hw|w t0 skipped Hw Ht0 Hskip|w t0 skipped Hw Ht0 Hskip|w t0 id row Hw Ht0|w id row n until rep Hw|w pc Hw|t Ht|d Hl Hd].
  - by apply inv_other_pc.
  - unfold select_ready. destruct (ready_task _ _) as [[id row]|] eqn:E; [|by apply inv_other_pc].
    destruct (select_due _ _ _ _ _ (or_introl E)) as (Hk & Hn & Hdue). eapply inv_chosen; eauto using due_later.
  - unfold select_expired. destruct (expired_task _ _) as [[id row]|] eqn:E; [|by apply inv_away].
    destruct (select_due _ _ _ _ _ (or_intror E)) as (Hk & Hn & Hdue). eapply inv_chosen; eauto using due_later.
  - by apply inv_update.
  - by apply inv_commit.
  - by apply inv_away.
  - apply inv_world; [done|done|lia|done].
  - apply inv_world; [done|lia|lia|done].
Qed.

(** A statement is invisible, or is a step of the specification. *)
Lemma step_atomic s s' :
  claims_inv s → claim_step s s' → abstract s' = abstract s ∨ atomic_step (abstract s) (abstract s').
Proof.
  intros Hs [w Hw|w t0 skipped Hw Ht0 Hskip|w t0 skipped Hw Ht0 Hskip|w t0 id row Hw Ht0|w id row n until rep Hw|w pc Hw|t Ht|d Hl Hd].
  - by left.
  - left. unfold select_ready. by destruct (ready_task _ _) as [[]|].
  - left. unfold select_expired. by destruct (expired_task _ _) as [[]|].
  - left. unfold update_row. by destruct (outboxRow _).
  - right. destruct (ci_knows _ Hs _ _ Hw) as (Hk & Hdue & Hu). by eapply atomic_claim.
  - by left.
  - right. by apply atomic_tick.
  - right. by apply atomic_others.
Qed.

Lemma claims_inv_run s s' : claims_inv s → rtc claim_step s s' → claims_inv s'.
Proof. intros Hs Hrun. induction Hrun; eauto using claims_inv_step. Qed.

(** C25: claims are atomic, though their statements interleave: whatever any number of
    workers, the other transactions and the clock do between a worker's statements, and
    whichever transactions are lost, the table goes through what a sequence of whole
    claims does to it, each of a row that is due at the moment of its commit; and at no
    moment have two workers chosen the same row. *)
Theorem claims_are_atomic d t n s (Hrun : rtc claim_step (mkLeases d t ∅ n) s) :
  rtc atomic_step (d, t) (abstract s) ∧
  ∀ w1 w2 id, holds s w1 id → holds s w2 id → w1 = w2.
Proof.
  assert (Hinv : claims_inv s) by (eapply claims_inv_run; [apply inv_init|done]).
  split; [|apply (ci_locks _ Hinv)]. clear Hinv.
  change (d, t) with (abstract (mkLeases d t ∅ n)).
  generalize (inv_init d t n). induction Hrun as [s|s1 s2 s3 Hs _ IH]; [reflexivity|].
  intros Hi. pose proof (claims_inv_step _ _ Hi Hs) as Hi2.
  destruct (step_atomic _ _ Hi Hs) as [<-|Ha]; [by apply IH|]. eapply rtc_l; [exact Ha|by apply IH].
Qed.

(** * Leases do not overlap *)

Definition leased_row (d : Database) (id : Z) : Prop :=
  ∃ r, t_im_outbox d !! id = Some r ∧ o_state r = 1.

(** A step after which the row is leased. *)
Definition keeps_leased (id : Z) (s s' : Leases) : Prop :=
  claim_step s s' ∧ leased_row (database s') id.

Lemma same_lease_refl r : o_state r = 1 → same_lease r r.
Proof. by unfold same_lease. Qed.

Lemma same_lease_trans r1 r2 r3 : same_lease r1 r2 → same_lease r2 r3 → same_lease r1 r3.
Proof. unfold same_lease. intros (? & ? & ? & ?) (? & ? & ? & ?). split_and!; congruence. Qed.

Lemma atomic_lease d t d' t' id r r' :
  atomic_step (d, t) (d', t') → t_im_outbox d !! id = Some r → t_im_outbox d' !! id = Some r' →
  o_state r = 1 → o_state r' = 1 → same_lease r r' ∨ o_lease_until r <= t'.
Proof.
  inversion 1 as [? ? i row n until Hk Hdue Hu|? ? ? Ht|? ? ? Hl]; subst; intros Hr Hr' Hst Hst'.
  - rewrite written_lookup in Hr'. destruct (decide (id = i)) as [->|].
    + right. assert (row = r) as -> by congruence. destruct Hdue as [[? _]|[_ ?]]; [congruence|done].
    + left. assert (r' = r) as -> by congruence. by apply same_lease_refl.
  - left. assert (r' = r) as -> by congruence. by apply same_lease_refl.
  - left. destruct (Hl id r' Hr' Hst') as (r0 & Hr0 & Hs). by assert (r0 = r) as -> by congruence.
Qed.

Lemma atomic_clock d t d' t' : atomic_step (d, t) (d', t') → t <= t'.
Proof. inversion 1; subst; lia. Qed.

Lemma lease_step s s' id r r' :
  claims_inv s → claim_step s s' → t_im_outbox (database s) !! id = Some r →
  t_im_outbox (database s') !! id = Some r' → o_state r = 1 → o_state r' = 1 →
  clock s <= clock s' ∧ (same_lease r r' ∨ o_lease_until r <= clock s').
Proof.
  intros Hi Hs Hr Hr' Hst Hst'. destruct (step_atomic _ _ Hi Hs) as [E|Ha].
  - injection E as Ed Et. rewrite Ed, Hr in Hr'. injection Hr' as <-. rewrite Et.
    split; [done|]. left. by apply same_lease_refl.
  - split; [by eapply atomic_clock|by eapply atomic_lease].
Qed.

Lemma lease_run s s' id :
  rtc (keeps_leased id) s s' → ∀ r, claims_inv s → t_im_outbox (database s) !! id = Some r →
  o_state r = 1 → ∀ r', t_im_outbox (database s') !! id = Some r' →
  clock s <= clock s' ∧ (same_lease r r' ∨ o_lease_until r <= clock s').
Proof.
  induction 1 as [s|s y s' [Hs (ry & Hry & Hsty)] _ IH]; intros r Hi Hr Hst r' Hr'.
  - split; [done|]. left. assert (r' = r) as -> by congruence. by apply same_lease_refl.
  - destruct (lease_step _ _ id r ry Hi Hs Hr Hry Hst Hsty) as [Ht1 H1].
    destruct (IH ry (claims_inv_step _ _ Hi Hs) Hry Hsty r' Hr') as [Ht2 H2].
    split; [lia|]. destruct H1 as [H1|H1]; [|right; lia]. destruct H2 as [H2|H2].
    + left. by eapply same_lease_trans.
    + right. by destruct H1 as (_ & _ & _ & <-).
Qed.

(** Two tasks that match the row are one task. *)
Lemma one_holder (Huuid : Inj (=) (=) uuid) s id r w1 w2 task1 task2 n1 n2 :
  claims_inv s → workers s !! w1 = Some (Claimed task1 n1) → workers s !! w2 = Some (Claimed task2 n2) →
  holds_lease task1 id r = true → holds_lease task2 id r = true → w1 = w2.
Proof.
  intros Hi H1 H2 M1 M2. unfold holds_lease in M1, M2. bool_to_prop.
  pose proof (ci_knows _ Hi _ _ H1) as K1. pose proof (ci_knows _ Hi _ _ H2) as K2. simpl in K1, K2.
  assert (n1 = n2) as <- by (apply (inj uuid); congruence).
  by eapply (ci_tokens _ Hi).
Qed.

(** C26: leases do not overlap: once a row is leased, and for as long as it does not leave
    the leased state (its holder gives it back or finishes it, a deletion cancels it), it
    has that token and that end, on every schedule, until the lease has run out; and at
    any time at most one worker's task matches the row, so that it alone may process it. *)
Theorem leases_exclusive d t n s s' id r r'
    (Huuid : Inj (=) (=) uuid)
    (Hrun : rtc claim_step (mkLeases d t ∅ n) s)
    (Hr : t_im_outbox (database s) !! id = Some r) (Hleased : o_state r = 1)
    (Hkept : rtc (keeps_leased id) s s')
    (Hr' : t_im_outbox (database s') !! id = Some r') :
  (same_lease r r' ∨ o_lease_until r <= clock s') ∧
  ∀ w1 w2 task1 task2 n1 n2,
    workers s' !! w1 = Some (Claimed task1 n1) → workers s' !! w2 = Some (Claimed task2 n2) →
    holds_lease task1 id r' = true → holds_lease task2 id r' = true → w1 = w2.
Proof.
  assert (Hi : claims_inv s) by (eapply claims_inv_run; [apply inv_init|done]).
  assert (Hi' : claims_inv s').
  { clear -Hkept Hi. induction Hkept as [|x y z [Hs _] _ IH]; eauto using claims_inv_step. }
  split; [by eapply lease_run|]. intros. by eapply (one_holder Huuid s' id r').
Qed.

(** * A claim alone *)

(** When nothing comes in between, the statements do what [Outbox.ClaimOutboxTask] does:
    the serial claim is one of the schedules. *)
Lemma unlocked_nothing d : unlocked ∅ d = d.
Proof.
  unfold unlocked, set_im_outbox, on_outbox. rewrite map_filter_id; [by destruct d as [? ? ? [] ?]|].
  by intros i x _.
Qed.

Lemma nothing_locked s w : workers s = ∅ → ∀ pc, skips (at_pc w pc s) w ∅.
Proof.
  intros Hw pc w' id Hne (x & Hx & _). simpl in Hx. rewrite Hw in Hx.
  apply lookup_insert_Some in Hx as [(<- & _)|(_ & Hx)]; [done|by rewrite lookup_empty in Hx].
Qed.

(** The statements from [Chosen] on. *)
Lemma chosen_commits s w id row t :
  workers s = {[w := Chosen id row]} → 0 <= o_seq row → clock s <= t →
  rtc claim_step s (mkLeases (written id (tokens s) (t + 45000) (database s)) t
    {[w := Claimed (with_lease (uuid (tokens s)) (task_of id row)) (tokens s)]} (S (tokens s))).
Proof.
  intros Hw Hseq Ht.
  assert (Htask : outboxRow (outbox_columns (id, row)) = inr (task_of id row)).
  { rewrite outboxRow_columns. by rewrite (proj2 (Z.leb_le _ _) Hseq). }
  eapply rtc_l; [by apply (step_tick _ t)|].
  eapply rtc_l; [apply (step_update _ w t id row); [cbn; rewrite Hw; apply lookup_singleton_eq|cbn; lia]|].
  unfold update_row. rewrite Htask. cbn. rewrite Hw, insert_singleton_eq.
  apply rtc_once.
  pose proof (step_commit (mkLeases (database s) t {[w := Updated id row (tokens s) (t + 45000)]} (S (tokens s)))
    w id row (tokens s) (t + 45000) true (lookup_singleton_eq _ _)) as Hc.
  unfold commit, task_returned in Hc. rewrite Htask in Hc. cbn in Hc. by rewrite insert_singleton_eq in Hc.
Qed.

Lemma begin_selects s w :
  workers s = ∅ → rtc claim_step s (select_ready w (clock s) ∅ (at_pc w Ready s)).
Proof.
  intros Hw. eapply rtc_l; [apply (step_begin _ w); by rewrite Hw|]. apply rtc_once.
  apply step_ready; [apply lookup_insert_eq|cbn; lia|by apply nothing_locked].
Qed.

(** From the second SELECT, at the time [t]. *)
Lemma expired_selects s w t :
  workers s = {[w := Expired]} → clock s <= t →
  rtc claim_step s (select_expired w t ∅ (mkLeases (database s) t (workers s) (tokens s))).
Proof.
  intros Hw Ht. eapply rtc_l; [by apply (step_tick _ t)|]. apply rtc_once. apply step_expired.
  - cbn. rewrite Hw. apply lookup_singleton_eq.
  - cbn. lia.
  - intros w' id Hne (pc & Hpc & _). cbn in Hpc. rewrite Hw in Hpc.
    by apply lookup_singleton_Some in Hpc as [-> _].
Qed.
End claims.

Section serial.
Context `{Json} `{Protobuf}.

(** The serial claim is a schedule. *)
Theorem claim_is_a_schedule w x w' k
    (Hclock : ∀ i, w_clock w i <= w_clock w (S i)) (Hrun : ClaimOutboxTask w = (inr x, w')) :
  ∃ s, rtc (claim_step (w_uuid w)) (mkLeases (w_db w) (w_clock w (w_tick w)) ∅ (w_uuids w)) s
    ∧ database s = w_db w'
    ∧ workers s = match x with Some task => {[k := Claimed task (w_uuids w)]} | None => ∅ end.
Proof.
  apply ClaimOutboxTask_ok in Hrun. cbn [Nat.add] in Hrun. cbv zeta in Hrun.
  set (s0 := mkLeases _ _ _ _). unfold claimable in Hrun.
  pose proof (begin_selects (w_uuid w) s0 k eq_refl) as Hb.
  unfold select_ready in Hb. rewrite unlocked_nothing in Hb. cbn in Hb.
  destruct (ready_task (w_clock w (w_tick w)) (w_db w)) as [[id row]|].
  - destruct Hrun as (-> & -> & Hseq). eexists. split.
    { etrans; [exact Hb|]. apply (chosen_commits (w_uuid w) _ k id row (w_clock w (S (w_tick w)))); [|done|apply Hclock].
      cbn. by rewrite !insert_insert_eq. }
    done.
  - pose proof (expired_selects (w_uuid w) (at_pc k Expired (at_pc k Ready s0)) k (w_clock w (S (w_tick w)))) as He.
    unfold select_expired in He. rewrite unlocked_nothing in He. cbn in He.
    assert (Hs : <[k:=Expired]> (<[k:=Ready]> (∅ : gmap nat claim_pc)) = {[k := Expired]}) by by rewrite insert_insert_eq.
    specialize (He Hs (Hclock _)).
    destruct (expired_task (w_clock w (S (w_tick w))) (w_db w)) as [[id row]|].
    + destruct Hrun as (-> & -> & Hseq). eexists. split.
      { etrans; [exact Hb|]. etrans; [exact He|].
        apply (chosen_commits (w_uuid w) _ k id row (w_clock w (S (S (w_tick w))))); [|done|apply Hclock].
        cbn. by rewrite !insert_insert_eq. }
      done.
    + destruct Hrun as [-> ->]. eexists. split; [etrans; [exact Hb|exact He]|]. split; [done|].
      cbn. rewrite Hs. apply delete_singleton_eq.
Qed.
End serial.

(** * The rest of the program leases nothing *)

#[export] Instance leases_nothing_preorder : PreOrder leases_nothing.
Proof.
  split.
  - intros d id r Hr Hst. exists r. split; [done|by apply same_lease_refl].
  - intros d1 d2 d3 H12 H23 id r3 H3 Hst. destruct (H23 id r3 H3 Hst) as (r2 & H2 & S2).
    destruct (H12 id r2 H2 (proj1 S2)) as (r1 & H1 & S1). exists r1. split; [done|by eapply same_lease_trans].
Qed.

Lemma leases_same d d' : t_im_outbox d' = t_im_outbox d → leases_nothing d d'.
Proof. intros E id r Hr Hst. exists r. rewrite <- E. split; [done|by apply same_lease_refl]. Qed.

Lemma leases_set_rows P f d :
  (∀ r, o_state (f r) = 1 → same_lease r (f r)) → leases_nothing d (set_rows P f d).2.
Proof.
  intros Hf id r'. change (t_im_outbox (set_rows P f d).2) with (update_where P f (t_im_outbox d)).
  rewrite lookup_update_where. destruct (t_im_outbox d !! id) as [r|] eqn:E; [|done].
  intros [= <-] Hst. exists r. split; [done|]. destruct (P id r); [by apply Hf|by apply same_lease_refl].
Qed.

Lemma leases_set_row f id d :
  (∀ r, o_state (f r) = 1 → same_lease r (f r)) → leases_nothing d (set_row f id d).2.
Proof. rewrite set_row_as_rows. apply leases_set_rows. Qed.

Lemma leases_insert_row row d : o_state row = 0 → leases_nothing d (insert_row row d).2.
Proof.
  intros Hrow id r. unfold insert_row. cbn [snd].
  change (t_im_outbox (set_im_outbox_next _ (set_im_outbox ?f d))) with (f (t_im_outbox d)).
  intros [[_ <-]|[_ Hr]]%lookup_insert_Some Hst; [congruence|].
  exists r. split; [done|by apply same_lease_refl].
Qed.

Lemma leases_insert_once row d : o_state row = 0 → leases_nothing d (insert_once row d).2.
Proof. intros Hrow. unfold insert_once. destruct (select_one _ _); [reflexivity|by apply leases_insert_row]. Qed.

Lemma leases_insert_outbox row d id d' :
  o_state row = 0 → insert_outbox row d = inr (id, d') → leases_nothing d d'.
Proof.
  intros Hrow. unfold insert_outbox. destruct (select_one _ _); [done|]. intros Heq.
  injection Heq as _ <-. by apply (leases_insert_row row d).
Qed.

(** No statement but the UPDATE of a claim makes a row leased. *)
Ltac leases_nothing_step :=
  apply Step_update; [apply _|]; intros ?;
  first [ by apply leases_same
        | apply leases_insert_once; done
        | apply leases_set_rows; intros ? ?; by unfold same_lease
        | apply leases_set_row; intros ? ?; by unfold same_lease ].

Section operations.
Context `{Json} `{Protobuf}.

#[export] Instance LN_lockPair a b : Step (stmt_step leases_nothing) (lockPair a b).
Proof. leases_nothing_step. Qed.

#[export] Instance LN_queue_message m : Step (stmt_step leases_nothing) (queue_message m).
Proof.
  assert (∀ p, Step (stmt_step leases_nothing) (requeue m p)) by (intros; unfold requeue; apply _).
  unfold queue_message. apply Step_bind; [apply _..|]. intros _.
  apply Step_bind; [apply _..|]. intros ok. destruct (negb ok); [apply _|].
  apply Step_bind; [apply _..|]. intros [p|]; [apply _|].
  destruct (msg_to_json m); [|apply _]. apply Step_bind; [apply _| |apply _].
  apply Step_execute; [apply _|]. intros d id d'. by apply leases_insert_outbox.
Qed.

#[export] Instance LN_cleanup a b c : Step (stmt_step leases_nothing) (QueueConversationCleanup a b c).
Proof.
  unfold QueueConversationCleanup. apply Step_bind; [apply _|leases_nothing_step|intros _; leases_nothing_step].
Qed.

#[export] Instance LN_queue_ack o id m : Step (stmt_step leases_nothing) (queue_ack o id m).
Proof.
  unfold queue_ack. apply Step_bind; [apply _..|]. intros _. apply Step_bind; [apply _..|]. intros t.
  apply Step_bind; [apply _|leases_nothing_step|]. intros _.
  apply Step_bind; [apply _|leases_nothing_step|apply _].
Qed.

#[export] Instance LN_record m : Step (stmt_step leases_nothing) (RecordConversationMessage m).
Proof.
  unfold RecordConversationMessage. destruct (_ || _); [apply _|].
  apply Step_bind; [apply _..|]. intros json. apply Step_bind; [apply _|leases_nothing_step|]. intros _.
  apply Step_bind; [apply _| |intros n; apply Step_when; [apply _|leases_nothing_step]].
  apply Step_update; [apply _|]. intros d. unfold insert_unread.
  destruct (t_im_conversations d !! _); [|reflexivity]. destruct (_ && _); [|reflexivity].
  by apply leases_same.
Qed.

#[export] Instance LN_work task persist stage : Step (stmt_step leases_nothing) (work task persist stage).
Proof.
  assert (∀ id, Step (stmt_step leases_nothing) (complete_task id)).
  { intros id. unfold complete_task. apply Step_bind; [apply _|leases_nothing_step|apply _]. }
  unfold work. destruct (tk_operation task =? 1).
  - apply Step_bind; [apply _..|]. intros ok. destruct (negb ok).
    { apply Step_bind; [apply _|leases_nothing_step|apply _]. }
    apply Step_bind; [apply _..|]. intros m. destruct persist.
    + apply Step_bind; [apply _| |apply _]. apply Step_when; [apply _|]. unfold persist_message.
      apply Step_bind; [apply _..|]. intros saved. destruct (negb saved); [apply _|].
      apply Step_bind; [apply _..|]. intros _. leases_nothing_step.
    + unfold dispatch_message. apply Step_bind; [apply _..|]. intros _.
      apply Step_bind; [apply _..|]. intros [?|]; [apply _|].
      apply Step_bind; [apply _..|]. intros cached. destruct (negb cached); [apply _|].
      apply Step_bind; [apply _..|]. intros confirmed. destruct (negb confirmed); [apply _|].
      apply Step_bind; [apply _..|]. intros t. apply Step_bind; [apply _|leases_nothing_step|apply _].
  - destruct (tk_operation task =? 2).
    + unfold cleanup_chat. apply Step_bind; [apply _|leases_nothing_step|]. intros _.
      apply Step_bind; [apply _|unfold GetSingleChatMessageIDs; apply _|]. intros ids.
      apply Step_bind; [apply _..|]. intros _.
      apply Step_bind; [apply _|unfold DeleteSingleChatHistory; apply _|apply _].
    + destruct (tk_operation task =? 3); [|apply _]. unfold acknowledge.
      apply Step_bind; [apply _..|]. intros marked. destruct (negb marked); apply _.
Qed.

#[export] Instance LN_phase_action task persist :
  Step (stmt_step leases_nothing) (phase_action task persist).
Proof.
  unfold phase_action. apply Step_bind; [apply _..|]. intros _. apply Step_bind; [apply _..|].
  intros [r|]; [|apply _]. apply Step_bind; [apply _..|]. intros current.
  destruct (_ || _); [apply _|apply LN_work].
Qed.

Abbreviation leases_step := (db_step leases_nothing).

#[export] Instance LN_process task : Step leases_step (ProcessOutboxTask task).
Proof.
  assert (∀ persist, Conn leases_nothing (phase task persist)).
  { intros persist. apply Conn_tx_step; apply _. }
  unfold ProcessOutboxTask. apply Step_with_connection; [apply _|].
  apply Conn_bind; [apply _| |].
  - destruct (tk_operation task =? 1); [done|]. apply Conn_ret. apply _.
  - intros go. destruct go; [|apply Conn_ret; apply _].
    apply Conn_bind; [apply _|done|]. intros _. apply Conn_ret. apply _.
Qed.

#[export] Instance LN_retry task e : Step leases_step (RetryOutboxTask task e).
Proof.
  unfold RetryOutboxTask. apply Step_with_connection; [apply _|]. apply Conn_stmt; [apply _|].
  apply Step_bind; [apply _..|]. intros t. leases_nothing_step.
Qed.

#[export] Instance LN_confirm id : Step leases_step (ConfirmMessageDispatch id).
Proof.
  unfold ConfirmMessageDispatch. apply Step_with_connection; [apply _|]. apply Conn_stmt; [apply _|].
  leases_nothing_step.
Qed.

#[export] Instance LN_QueueSingleMessage m : Step leases_step (QueueSingleMessage m).
Proof.
  unfold QueueSingleMessage. destruct (negb _); [apply _|].
  apply Step_with_connection; [apply _|]. apply Conn_tx_step; apply _.
Qed.

#[export] Instance LN_QueueMessageAck o id : Step leases_step (QueueMessageAck o id).
Proof.
  assert (∀ id, Step leases_step (GetMsgByServerMsgID id)).
  { intros i. apply Step_db_same; [apply _|..]; intros w; unfold GetMsgByServerMsgID, mongo_find, mongo;
      unfold mbind, M_bind, remote; destruct (w_faults w) as [|[] ?]; cbn; try done;
      destruct (w_mongo w !! i); cbn; try done; unfold lift; by destruct (DecodeMessage _). }
  assert (Step leases_step (ack_lookup o id)).
  { unfold ack_lookup. apply Step_with_connection; [apply _|]. apply Conn_stmt; apply _. }
  assert (∀ m, Step leases_step (with_connection (conversationTransaction (queue_ack o id m)))).
  { intros m. apply Step_with_connection; [apply _|]. apply Conn_tx_step; [apply _|apply LN_queue_ack]. }
  unfold QueueMessageAck. apply _.
Qed.

(** Nothing but a claim leases a row: queueing, acknowledging, confirming, clearing a
    conversation, processing and retrying, on every schedule of failures, are steps of
    [step_others], when the rows they change are not locked. *)
Theorem only_claims_lease w (Hw : w_txn w = None) :
  (∀ m, leases_nothing (w_db w) (w_db (QueueSingleMessage m w).2)) ∧
  (∀ owner id, leases_nothing (w_db w) (w_db (QueueMessageAck owner id w).2)) ∧
  (∀ id, leases_nothing (w_db w) (w_db (ConfirmMessageDispatch id w).2)) ∧
  (∀ a b cutoff, leases_nothing (w_db w)
     (w_db (conversationTransaction (QueueConversationCleanup a b cutoff) w).2)) ∧
  (∀ task, leases_nothing (w_db w) (w_db (ProcessOutboxTask task w).2)) ∧
  (∀ task error, leases_nothing (w_db w) (w_db (RetryOutboxTask task error w).2)).
Proof.
  assert (Hc : ∀ a b cutoff, Conn leases_nothing (conversationTransaction (QueueConversationCleanup a b cutoff)))
    by (intros; apply Conn_tx_step; apply _).
  split_and!; intros.
  - apply (LN_QueueSingleMessage m w Hw).
  - apply (LN_QueueMessageAck owner id w Hw).
  - apply (LN_confirm id w Hw).
  - apply (Hc a b cutoff w Hw).
  - apply (LN_process task w Hw).
  - apply (LN_retry task error w Hw).
Qed.
End operations.

(** * Instances *)

(** Two tasks are queued; two workers begin, and choose one after the other. *)
Definition queued (sq : Z) : OutboxRow :=
  new_outbox_row 1 (to_string sq) 7 9 "7_9" ("m" +:+ to_string sq) sq "{}".
Definition one_task : Database := (insert_row (queued 1) friends_db).2.
Definition two_tasks : Database := (insert_row (queued 2) one_task).2.

Definition both_began : Leases := at_pc 1 Ready (at_pc 0 Ready (mkLeases two_tasks 0 ∅ 0)).
Definition one_chose : Leases := at_pc 0 (Chosen 1 (queued 1)) both_began.
Definition both_chose : Leases := at_pc 1 (Chosen 2 (queued 2)) one_chose.

(** The locks of a concrete state. *)
Ltac concrete_skips :=
  let H := fresh in
  intros ? ? ? (? & H & ?); cbn in H;
  repeat (apply lookup_insert_Some in H as [[<- <-]|[_ H]]; [cbn in *; simplify_eq; try set_solver|]);
  first [by rewrite lookup_empty in H
        | apply lookup_singleton_Some in H as [<- <-]; cbn in *; simplify_eq
        | idtac].

Lemma both_chose_reached : rtc (claim_step pretty) (mkLeases two_tasks 0 ∅ 0) both_chose.
Proof.
  eapply rtc_l; [by apply (step_begin _ _ 0)|]. eapply rtc_l; [by apply (step_begin _ _ 1)|].
  change (rtc (claim_step pretty) both_began both_chose).
  apply (rtc_l _ _ one_chose).
  { replace one_chose with (select_ready 0 0 ∅ both_began) by (vm_compute; reflexivity).
    apply step_ready; [reflexivity|cbn; lia|concrete_skips]. }
  apply rtc_once. replace both_chose with (select_ready 1 0 {[1]} one_chose) by (vm_compute; reflexivity).
  apply step_ready; [reflexivity|cbn; lia|concrete_skips].
Qed.

Lemma claims_are_atomic_witness :
  holds both_chose 0 1 ∧ holds both_chose 1 2 ∧
  rtc (atomic_step pretty) (two_tasks, 0) (abstract both_chose).
Proof.
  split_and!; [by eexists|by eexists|].
  exact (proj1 (claims_are_atomic pretty two_tasks 0 0 both_chose both_chose_reached)).
Defined.

(** One task: the first worker claims it and is not heard of again; after 45 seconds the
    second one takes it over. *)
Definition first_has : Leases :=
  mkLeases (written pretty 1 0 45000 one_task) 0
    {[0%nat := Claimed (with_lease (pretty 0%nat) (task_of 1 (queued 1))) 0]} 1.

Definition row_of (s : Leases) : OutboxRow := default (queued 0) (t_im_outbox (database s) !! 1).

Lemma first_has_reached : rtc (claim_step pretty) (mkLeases one_task 0 ∅ 0) first_has.
Proof.
  etrans; [by apply (begin_selects pretty _ 0)|].
  replace (select_ready 0 (clock (mkLeases one_task 0 ∅ 0)) ∅ (at_pc 0 Ready (mkLeases one_task 0 ∅ 0)))
    with (mkLeases one_task 0 {[0%nat := Chosen 1 (queued 1)]} 0) by (vm_compute; reflexivity).
  apply (chosen_commits pretty (mkLeases one_task 0 {[0%nat := Chosen 1 (queued 1)]} 0) 0 1 (queued 1) 0);
    [done|vm_compute; discriminate|done].
Qed.

Definition later : Leases := mkLeases (database first_has) 50000 (workers first_has) 1.
Definition second_looks : Leases := at_pc 1 Expired (at_pc 1 Ready later).
Definition second_chose : Leases := at_pc 1 (Chosen 1 (row_of first_has)) second_looks.
Definition second_updated : Leases := update_row 1 50000 1 (row_of first_has) second_chose.
Definition second_has : Leases := commit pretty 1 1 (row_of first_has) 1 95000 true second_updated.

Lemma taken_over : rtc (keeps_leased pretty 1) first_has second_has.
Proof.
  assert (Hl : ∀ s s', t_im_outbox (database s') !! 1 = Some (row_of s') → o_state (row_of s') = 1 →
    claim_step pretty s s' → keeps_leased pretty 1 s s').
  { intros s s' Hr Hst Hs. split; [done|]. by exists (row_of s'). }
  apply (rtc_l _ _ later); [apply Hl; [reflexivity|reflexivity|by apply (step_tick _ first_has 50000)]|].
  apply (rtc_l _ _ (at_pc 1 Ready later)); [apply Hl; [reflexivity|reflexivity|by apply step_begin]|].
  apply (rtc_l _ _ second_looks).
  { apply Hl; [reflexivity|reflexivity|].
    replace second_looks with (select_ready 1 50000 ∅ (at_pc 1 Ready later)) by (vm_compute; reflexivity).
    apply step_ready; [reflexivity|cbn; lia|concrete_skips]. }
  apply (rtc_l _ _ second_chose).
  { apply Hl; [reflexivity|reflexivity|].
    replace second_chose with (select_expired 1 50000 ∅ second_looks) by (vm_compute; reflexivity).
    apply step_expired; [reflexivity|cbn; lia|concrete_skips]. }
  apply (rtc_l _ _ second_updated); [apply Hl; [reflexivity|reflexivity|apply step_update; [reflexivity|cbn; lia]]|].
  apply rtc_once, Hl; [reflexivity|reflexivity|]. apply (step_commit pretty second_updated). vm_compute. reflexivity.
Qed.

Lemma leases_exclusive_witness :
  o_lease_token (row_of first_has) = "0" ∧ o_lease_token (row_of second_has) = "1" ∧
  (same_lease (row_of first_has) (row_of second_has) ∨
   o_lease_until (row_of first_has) <= clock second_has).
Proof.
  split_and!; [reflexivity|reflexivity|].
  apply (leases_exclusive pretty one_task 0 0 first_has second_has 1 (row_of first_has) (row_of second_has)).
  - apply _.
  - exact first_has_reached.
  - reflexivity.
  - reflexivity.
  - exact taken_over.
  - reflexivity.
Defined.

Lemma only_claims_lease_witness :
  leases_nothing (w_db send_w0) (w_db (QueueSingleMessage sample_message send_w0).2).
Proof. exact (proj1 (only_claims_lease send_w0 eq_refl) sample_message). Defined.

(** The clock of [send_w1] does not go back. *)
Lemma claim_is_a_schedule_witness :
  ∃ s, rtc (claim_step (w_uuid send_w1)) (mkLeases (w_db send_w1) (w_clock send_w1 (w_tick send_w1)) ∅ (w_uuids send_w1)) s
    ∧ workers s = {[5%nat := Claimed claimed_task (w_uuids send_w1)]}.
Proof.
  destruct (claim_is_a_schedule send_w1 (Some claimed_task) claim_w 5) as (s & Hs & _ & Hw); [|vm_compute; reflexivity|by exists s].
  assert (E : w_clock send_w1 = sample_clock) by (vm_compute; reflexivity).
  intros i. rewrite E. unfold sample_clock. lia.
Defined.
