(* ===== verification/MsgService.v ===== *)
(** The message service ([src/services/msg_service/server.cpp]): sending single-chat
    messages through the outbox, and the history of a chat. *)
From S2P Require Import Prelude Table Snowflake Schema Effects Users Stores Conversations Friendship Outbox OutboxWorker.

Definition with_ids (conv id : string) (sq time : Z) (m : MsgData) : MsgData :=
  mkMsgData (sendID m) (recvID m) conv (clientMsgID m) id (senderPlatformID m)
    (senderNickname m) (senderFaceURL m) (sessionType m) (msgFrom m) (contentType m) (content m)
    sq time (status m) (isRead m) (isDeleted m) (isRecalled m) (isPinned m) (isGroupMsg m) (ext m).

Section msg_service.
Context `{Json} `{Protobuf}.

(** [wait] is the 200 ms sleep: what the rest of the system does meanwhile. *)
Context (wait : M unit).

(** The polling loop; [fuel] bounds the number of sleeps. *)
Fixpoint poll (fuel : nat) (deadline : Z) (task : OutboxTask) : M OutboxTask :=
  if (tk_stage task =? 0) && negb (tk_state task =? 3) then
    t ← now;
    if t <? deadline then
      match fuel with
      | O => throw OutOfFuel
      | S fuel => wait;; task ← GetOutboxTask (tk_id task); poll fuel deadline task
      end
    else mret task
  else mret task.

(** The try block: the message of the reply and its error fields. *)
Definition submit (fuel : nat) (msg : MsgData) : M SendInfo :=
  task ← QueueSingleMessage msg;
  t ← now;
  task ← poll fuel (t + 8000) task;
  match msg_of_json (tk_payload task) with
  | None => throw (RuntimeError "Invalid stored message")
  | Some stored =>
      mret (if tk_state task =? 3
            then mkSendInfo None "NOT_FRIEND" "Message cancelled because the friend relationship was removed"
            else if tk_stage task =? 0
            then mkSendInfo (Some stored) "PENDING" "Message accepted; persistence is being retried"
            else mkSendInfo (Some stored) "0" "")
  end.

(** One message.  The identifiers are drawn outside the try block. *)
Definition send_one (fuel : nat) (msg : MsgData) : M SendInfo :=
  if isGroupMsg msg then mret (mkSendInfo None "UPGRADE_REQUIRED" "Use group chat Send (type 250)")
  else
    id ← newone_str;
    sq ← snowflake_nextId;
    time ← now;
    r ← catch (submit fuel (with_ids (conversation_id (sendID msg) (recvID msg)) id sq time msg));
    mret (match r with
          | inr info => info
          | inl (InvalidArgument what) => mkSendInfo None "INVALID_MESSAGE" what
          | inl _ => mkSendInfo None "DB_ERROR"
                       "Unable to confirm submission; retry with the same clientMsgID"
          end).

Fixpoint send_all (fuel : nat) (msgs : list MsgData) : M (list SendInfo) :=
  match msgs with
  | [] => mret []
  | msg :: msgs => info ← send_one fuel msg; infos ← send_all fuel msgs; mret (info :: infos)
  end.

Definition SendMessages (fuel : nat) (msgs : list MsgData) : M (grpc_status * list SendInfo) :=
  match msgs with
  | [] => mret (Status "INVALID_ARGUMENT" "msgs is empty", [])
  | _ => infos ← send_all fuel msgs; mret (Status_OK, infos)
  end.
End msg_service.

(** * History *)

Record HistoryReq := mkHistoryReq { hq_owner : Z; hq_peer : Z; hq_afterSeq : Z; hq_limit : Z }.
Record HistoryResp := mkHistoryResp {
  hr_peer : Z; hr_messages : list MsgData; hr_hasMore : bool; hr_nextSeq : Z;
}.

(** The candidate whose admission decides the request. *)
Definition history_candidate (q : HistoryReq) : MsgData :=
  mkMsgData (hq_owner q) (hq_peer q) "" "" "" 0 "" "" 0 0 0 "" int64_max 0 0
    false false false false false "".

Definition between (a b : Z) (m : MsgData) : bool :=
  ((sendID m =? a) || (sendID m =? b)) && ((recvID m =? a) || (recvID m =? b)).

Definition history_page (q : HistoryReq) (limit : Z) (messages : list MsgData) : HistoryResp :=
  let shown := filter (λ m, between (hq_owner q) (hq_peer q) m = true)
                 (take (Z.to_nat limit) messages) in
  mkHistoryResp (hq_peer q) shown (limit <? Z.of_nat (length messages))
    (match last shown with Some m => seq m | None => 0 end).

Definition history_action (q : HistoryReq) (limit : Z) : M HistoryResp :=
  cutoff ← FriendDeletionSeq (hq_owner q) (hq_peer q);
  messages ← GetSingleChatHistory (conversation_id (hq_owner q) (hq_peer q))
               (Z.max (hq_afterSeq q) cutoff) (limit + 1);
  messages ← FilterVisibleMessages messages;
  mret (history_page q limit messages).

Definition svc_GetSingleChatHistory (q : HistoryReq) : M (grpc_status * option HistoryResp) :=
  if (hq_owner q =? 0) || (hq_peer q =? 0) || (hq_owner q =? hq_peer q) || (hq_afterSeq q <? 0)
  then mret (Status "INVALID_ARGUMENT" "Invalid single-chat history request", None)
  else
    handle (Status "INTERNAL" "History unavailable")
      (let limit := clamp (hq_limit q) 1 100 in
       page ← WithFriendMessage (history_candidate q) (history_action q limit) false;
       mret (match page with
             | Some p => (Status_OK, Some p)
             | None => (Status "PERMISSION_DENIED" "Users are not friends", None)
             end)) None.

(** The calls that are not implemented or retired finish with a fixed status. *)
Inductive retired :=
| GetMaxSeq | GetMaxSeqs | GetHasReadSeqs | GetMsgByConversationIDs | GetConversationMaxSeq
| PullMessageBySeqs | GetSeqMessage | SearchMessage
| SendSimpleMsg | SetUserConversationsMinSeq | ClearConversationsMsg | UserClearAllMsg
| DeleteMsgs | DeleteMsgPhysicalBySeq | DeleteMsgPhysical | SetSendMsgStatus | GetSendMsgStatus
| RevokeMsg | MarkMsgsAsRead | MarkConversationAsRead | SetConversationHasReadSeq
| GetConversationsHasReadAndMaxSeq | GetActiveUser | GetActiveGroup | GetServerTime | ClearMsg
| DestructMsgs | GetActiveConversation | SetUserConversationMaxSeq | SetUserConversationMinSeq
| GetLastMessageSeqByTime | GetLastMessage.

Definition retired_status (c : retired) : grpc_status :=
  match c with
  | GetMaxSeqs | GetHasReadSeqs | GetConversationMaxSeq | MarkConversationAsRead
  | SetConversationHasReadSeq | GetConversationsHasReadAndMaxSeq | GetActiveConversation
  | SetUserConversationMaxSeq => Status "UNIMPLEMENTED" "Use ConversationService"
  | PullMessageBySeqs =>
      Status "UNIMPLEMENTED"
        "Use GetSingleChatHistory or GroupService Execute; legacy Redis offline pull is retired"
  | _ => Status_OK
  end.
