(* ===== verification/MsgTheorems.v ===== *)
(** The theorems on the message service. *)
From S2P Require Import Prelude Table Snowflake Schema Effects Users Stores Conversations Samples Friendship Outbox OutboxWorker OutboxProofs OutboxTheorems MsgService.

Section theorems.
Context `{Json} `{Protobuf}.
Context (wait : M unit).

(** A stored task: its row in the committed database. *)
Definition stored_task (d : Database) (t : OutboxTask) : Prop :=
  ∃ r, t_im_outbox d !! tk_id t = Some r ∧ t = task_of (tk_id t) r.

Lemma GetOutboxTask_ok id w t w' :
  GetOutboxTask id w = (inr t, w') →
  w_db w' = w_db w ∧ w_txn w' = w_txn w ∧ tk_id t = id ∧ stored_task (w_db w') t.
Proof.
  intros (fs & w1 & Hrun & ->)%with_connection_ok.
  apply bind_ok in Hrun as (row & w2 & (-> & fs1 & ->)%query_ok & Hrun).
  change (view (with_faults fs (with_txn None w))) with (w_db w) in Hrun.
  destruct (t_im_outbox (w_db w) !! id) as [r|] eqn:E; [|done].
  apply lift_ok in Hrun as [[-> _]%outboxRow_ok ->]. split_and!; [done..|]. by exists r.
Qed.

(** What the rest of the system may do to the outbox while the handler sleeps:
    anything that the outbox's own operations may do. *)
Definition outbox_only (m : M unit) : Prop :=
  ∀ w, w_txn w = None → outbox_evolves (w_db w) (w_db (m w).2) ∧ w_txn (m w).2 = None.

(** The loop ends with the task it was given or with a stored one, of the same row. *)
Lemma poll_ok fuel deadline t w t' w' :
  outbox_only wait → w_txn w = None → poll wait fuel deadline t w = (inr t', w') →
  outbox_evolves (w_db w) (w_db w') ∧
  (t' = t ∧ w_db w' = w_db w ∨ tk_id t' = tk_id t ∧ stored_task (w_db w') t').
Proof.
  intros Hwait. revert t w. induction fuel as [|fuel IH]; intros t w Hn Hrun; cbn [poll] in Hrun.
  - destruct (_ && _); [|apply ret_ok in Hrun as [-> ->]; split; [reflexivity|by left]].
    apply bind_ok in Hrun as (n & w1 & Hw1 & Hrun). injection Hw1 as <- <-.
    destruct (_ <? _); [done|]. apply ret_ok in Hrun as [<- <-]. split; [reflexivity|by left].
  - destruct (_ && _); [|apply ret_ok in Hrun as [-> ->]; split; [reflexivity|by left]].
    apply bind_ok in Hrun as (n & w1 & Hw1 & Hrun). injection Hw1 as <- <-.
    destruct (_ <? _); [|apply ret_ok in Hrun as [<- <-]; split; [reflexivity|by left]].
    apply bind_ok in Hrun as (u & w1 & Hw & Hrun).
    destruct (Hwait (with_tick (S (w_tick w)) w) Hn) as [He Ht]. rewrite Hw in He, Ht. cbn in He, Ht.
    apply bind_ok in Hrun as (t1 & w2 & Hget & Hrun).
    apply GetOutboxTask_ok in Hget as (Hdb & Htx & Hid & Hst). rewrite <- Hdb in He.
    apply IH in Hrun as [He' Hcase]; [|congruence]. split; [by etrans|]. right.
    destruct Hcase as [[-> ->]|[Hid' ?]]; [done|]. split; [congruence|done].
Qed.

(** The task that [QueueSingleMessage] returns is the one of the sender's client id: it
    is stored as the answer says, and its payload is a message like the request, with
    the same addressee and content; a new one is the request itself. *)
Definition task_for (m : MsgData) (d : Database) (t : OutboxTask) (d' : Database) : Prop :=
  ∃ r stored, t_im_outbox d' !! tk_id t = Some r ∧ same_key 1 (message_key m) (tk_id t) r = true ∧
    o_payload r = tk_payload t ∧ msg_of_json (o_payload r) = Some stored ∧
    recvID stored = recvID m ∧ content stored = content m ∧
    contentType stored = contentType m ∧ sessionType stored = sessionType m ∧
    (t = task_of (tk_id t) r ∧ t_im_outbox d !! tk_id t = Some r ∨
     tk_stage t = 0 ∧ t_im_outbox d !! tk_id t = None ∧ stored = m).

Lemma queued_task `{!JsonOk} m w t w' :
  outbox_ok (w_db w) → QueueSingleMessage m w = (inr t, w') → task_for m (w_db w) t (w_db w').
Proof.
  intros Hok (_ & _ & [(k & r & Hk & Hkey & -> & (_ & original & Hj & ? & ? & ? & ? & _) & Hd)|
    (payload & _ & Hp & Hpl & _ & Hsg & Hnew & Hd)])%queue_single_message_spec; [| |done].
  - exists r, original. cbn [tk_id task_of tk_payload]. rewrite Hd. split_and!; auto.
  - eexists _, m. rewrite Hd, lookup_insert_eq. apply msg_json in Hp as [Hj _].
    split; [done|]. split; [unfold same_key; cbn; by rewrite bool_decide_eq_true_2|].
    cbn. rewrite Hpl. split_and!; auto.
Qed.

(** C34: the sender is told success ("0") only for its own message, and only when its
    task is past its first phase.  The outbox then holds the single task of the sender
    and its client id, of stage 1 and not cancelled; the message in the answer is its
    payload, has the request's addressee, content and types, and is either the request
    itself, under the server id drawn for it, in a row that this call has made, or the
    message of an earlier send under that client id.  This holds whatever the rest of the
    system does to the outbox, through its operations, while the handler sleeps. *)
Theorem send_reports_persisted `{!JsonOk} fuel msg w info w'
    (Hok : outbox_ok (w_db w)) (Hn : w_txn w = None) (Hwait : outbox_only wait)
    (Hrun : send_one wait fuel msg w = (inr info, w'))
    (Hcode : si_errorCode info = "0") :
  ∃ id r stored, t_im_outbox (w_db w') !! id = Some r ∧
    same_key 1 (message_key msg) id r = true ∧
    (∀ id' r', t_im_outbox (w_db w') !! id' = Some r' → same_key 1 (message_key msg) id' r' = true → id' = id) ∧
    o_stage r = 1 ∧ o_state r ≠ 3 ∧
    msg_of_json (o_payload r) = Some stored ∧ si_msg info = Some stored ∧
    recvID stored = recvID msg ∧ content stored = content msg ∧
    contentType stored = contentType msg ∧ sessionType stored = sessionType msg ∧
    ((∃ r0, t_im_outbox (w_db w) !! id = Some r0 ∧ row_evolves r0 r) ∨
     t_im_outbox (w_db w) !! id = None ∧ ∃ sq time,
       stored = with_ids (conversation_id (sendID msg) (recvID msg)) (w_uuid w (w_uuids w)) sq time msg).
Proof.
  unfold send_one in Hrun. destruct (isGroupMsg msg).
  { apply ret_ok in Hrun as [<- _]. done. }
  apply bind_ok in Hrun as (id & w1 & Hid & Hrun). injection Hid as <- <-.
  apply bind_ok in Hrun as (sq & w2 & Hsq & Hrun).
  assert (H2 : w_db w2 = w_db w ∧ w_txn w2 = None).
  { unfold snowflake_nextId in Hsq. destruct (nextId _ _ _ _) as [[[] ?] ?]; [|done|done].
    by injection Hsq as _ <-. }
  destruct H2 as [Hdb2 Hn2].
  apply bind_ok in Hrun as (time & w3 & Ht & Hrun). injection Ht as <- <-.
  apply bind_ok in Hrun as (r & w4 & Hs%catch_ok & Hrun). apply ret_ok in Hrun as [<- <-].
  destruct r as [e|i]; [by destruct e|]. unfold submit in Hs.
  set (m := with_ids _ _ _ _ msg) in Hs. set (w2' := with_tick _ w2) in Hs.
  apply bind_ok in Hs as (t & w5 & Hq & Hs). apply bind_ok in Hs as (n & w6 & Hw6 & Hs).
  injection Hw6 as <- <-. apply bind_ok in Hs as (t' & w7 & Hp & Hs).
  destruct (msg_of_json (tk_payload t')) as [stored|] eqn:Ej; [|done].
  apply ret_ok in Hs as [<- <-].
  destruct (tk_state t' =? 3) eqn:E3; [done|]. destruct (tk_stage t' =? 0) eqn:E0; [done|].
  assert (Hok2 : outbox_ok (w_db w2')) by (cbn; by rewrite Hdb2).
  pose proof (OE_QueueSingleMessage m w2' Hn2) as [Hev5 Hn5]. rewrite Hq in Hev5, Hn5. cbn in Hev5, Hn5.
  pose proof (queued_task m w2' t w5 Hok2 Hq) as (r5 & st5 & Hr5 & Hkey & Hpl & Hj5 & ? & ? & ? & ? & Horig).
  apply poll_ok in Hp as [Hev7 Hcase]; [|done..]. cbn in Hev7, Hcase.
  destruct (Hev5 Hok2) as [Hok5 _]. destruct (Hev7 Hok5) as [Hok7 Hkeep].
  destruct (Hkeep _ _ Hr5) as (r7 & Hr7 & Hre).
  assert (Hst : t' = task_of (tk_id t) r7).
  { destruct Hcase as [[-> Hdb]|[Hid (r & Hr & Heq)]].
    - rewrite Hdb, Hr5 in Hr7. injection Hr7 as <-.
      destruct Horig as [[? _]|[Hz _]]; [done|]. by rewrite Hz in E0.
    - rewrite Hid in Hr, Heq. rewrite Hr7 in Hr. by injection Hr as <-. }
  rewrite Hst in E3, E0, Ej. cbn in E3, E0, Ej. pose proof (oo_row _ Hok7 _ _ Hr7) as [_ Hrst Hrsg].
  rewrite to_int32_small in E3 by done. rewrite to_int32_small in E0 by lia. bool_to_prop.
  assert (Hpay : o_payload r7 = o_payload r5) by (destruct (re_payload _ _ Hre) as [?|[_ ?]]; [done|lia]).
  rewrite Hpay, Hj5 in Ej. injection Ej as ->.
  assert (Hkey7 : same_key 1 (message_key msg) (tk_id t) r7 = true).
  { revert Hkey. unfold same_key. by rewrite (re_operation _ _ Hre), (re_key _ _ Hre). }
  exists (tk_id t), r7, stored. split_and!; try done; [|lia|by rewrite Hpay|].
  - intros id' r' Hr' Hk'. unfold same_key in Hkey7, Hk'. bool_to_prop.
    apply (oo_unique _ Hok7 _ _ _ _ Hr' Hr7); congruence.
  - cbn in Horig. rewrite Hdb2 in Horig. destruct Horig as [[_ Hold]|(_ & Hnew & ->)]; [left; eauto|right].
    split; [done|]. by eexists _, _.
Qed.

(** When a friend deletion cancels a message while its sender waits, the
    cancellation also empties the stored payload, so neither the reply nor the
    push says NOT_FRIEND: the reply is the generic storage error and the worker
    sends nothing.  ([msg_of_json] rejects the empty text, which is no JSON.) *)
Theorem cancellation_not_reported fuel msg w t w1 id r w2
    (Hjson : msg_of_json "" = None)
    (Hqueue : QueueSingleMessage msg w = (inr t, w1))
    (Hpoll : poll wait fuel (w_clock w1 (w_tick w1) + 8000) t (with_tick (S (w_tick w1)) w1) =
             (inr (task_of id (cancelled r)), w2)) :
  submit wait fuel msg w = (inl (RuntimeError "Invalid stored message"), w2) ∧
  notifySender (task_of id (cancelled r)) = None.
Proof.
  split.
  - unfold submit. erewrite bind_run by exact Hqueue. erewrite bind_run by reflexivity.
    erewrite bind_run by exact Hpoll. cbn [tk_payload task_of o_payload cancelled]. by rewrite Hjson.
  - unfold notifySender. cbn [tk_payload task_of o_payload cancelled]. rewrite Hjson.
    by destruct (_ || _).
Qed.

(** ** The wait ends *)

#[export] Instance EndsE_outboxRow p : EndsE (outboxRow (outbox_columns p)).
Proof. destruct p as [id r]. unfold EndsE. rewrite outboxRow_columns. by destruct (0 <=? _). Qed.

Lemma Ends_conversationTransaction {A} (action : M A) :
  Ends action → Ends (conversationTransaction action).
Proof.
  intros Ha. unfold conversationTransaction. apply Ends_bind; [apply _|]. intros _.
  apply Ends_catch_bind; [unfold committed; apply _|apply _|].
  intros e He. apply Ends_bind; [apply _|]. intros _. by apply Ends_throw.
Qed.

#[export] Instance EndsE_unsigned f c : EndsE (unsigned_field f c).
Proof. destruct f; cbn; try done. by destruct (0 <=? z). Qed.

#[export] Instance Ends_friendAllows a b s : Ends (friendAllows a b s).
Proof. unfold friendAllows. apply _. Qed.

#[export] Instance EndsE_outboxMessage t : EndsE (outboxMessage t).
Proof. unfold outboxMessage. by destruct (msg_of_json _). Qed.

#[export] Instance Ends_QueueSingleMessage m : Ends (QueueSingleMessage m).
Proof.
  unfold QueueSingleMessage. destruct (negb _); [apply _|]. apply Ends_with_connection.
  apply Ends_conversationTransaction. unfold queue_message, lockPair, requeue.
  apply Ends_bind; [apply _|]. intros _. apply Ends_bind; [apply _|]. intros ok.
  destruct (negb ok); [apply _|]. apply Ends_bind; [apply _|]. intros [p|]; [apply _|].
  destruct (msg_to_json m); [|apply _]. apply Ends_bind; [|apply _].
  apply Ends_execute. intros d. unfold insert_outbox. by destruct (select_one _ _).
Qed.

#[export] Instance Ends_GetOutboxTask id : Ends (GetOutboxTask id).
Proof. unfold GetOutboxTask. apply _. Qed.

(** The clock and the number of its readings. *)
Definition same_time (w w' : World) : Prop := w_clock w' = w_clock w ∧ w_tick w' = w_tick w.

#[export] Instance same_time_preorder : PreOrder same_time.
Proof. split; [done|]. intros w1 w2 w3 [A B] [A' B']. unfold same_time. by rewrite A', B'. Qed.

Lemma GetOutboxTask_time id w : same_time w (GetOutboxTask id w).2.
Proof.
  assert (Hq : Step same_time (async_get_connection;;
    row ← query (λ d, t_im_outbox d !! id);
    match row with
    | None => throw (RuntimeError "Outbox task missing")
    | Some r => lift (outboxRow (outbox_columns (id, r)))
    end)).
  { assert (Hr : ∀ {A} (q : Database → A), Step same_time (query q)).
    { intros A q. apply Step_remote; [apply _|done|]. by intros x a x' [= _ <-]. }
    apply Step_bind; [apply _| |apply _]. apply Step_remote; [apply _|done|].
    by intros x a x' [= _ <-]. }
  specialize (Hq (with_txn None w)). unfold GetOutboxTask, with_connection, connected.
  by destruct ((async_get_connection;; _) (with_txn None w)) as [r w1].
Qed.

(** Between the readings before and after a sleep at least 200 ms pass. *)
Definition sleeps (w : World) : Prop :=
  (wait w).1 ≠ inl OutOfFuel ∧ w_clock (wait w).2 = w_clock w ∧
  ∀ i, S i = w_tick w → w_clock w i + 200 <= w_clock w (w_tick (wait w).2).

Lemma poll_ends fuel deadline clock t w :
  (∀ w, w_clock w = clock → sleeps w) → w_clock w = clock →
  deadline <= clock (w_tick w) + 200 * Z.of_nat fuel →
  (poll wait fuel deadline t w).1 ≠ inl OutOfFuel.
Proof.
  intros Hwait. revert t w. induction fuel as [|fuel IH]; intros t w Hw Hd; cbn [poll];
    (destruct (_ && _); [|done]); unfold mbind, M_bind, now; rewrite Hw.
  - rewrite (proj2 (Z.ltb_ge _ deadline)) by lia. done.
  - destruct (_ <? deadline); [|done]. set (w1 := with_tick _ w).
    destruct (Hwait w1 Hw) as (Hf & Hc & Hs). specialize (Hs (w_tick w) eq_refl).
    change (w_clock w1) with (w_clock w) in Hc, Hs. rewrite Hw in Hc, Hs.
    destruct (wait w1) as [[e|u] w2]; cbn in *; [congruence|].
    destruct (GetOutboxTask_time (tk_id t) w2) as (Hgc & Hgt).
    pose proof (Ends_GetOutboxTask (tk_id t) w2) as Hgf.
    destruct (GetOutboxTask (tk_id t) w2) as [[e|t1] w3]; cbn in *; [congruence|].
    apply IH; [congruence|]. rewrite Hgt. lia.
Qed.

Definition same_clock (w w' : World) : Prop := w_clock w' = w_clock w.

#[export] Instance same_clock_preorder : PreOrder same_clock.
Proof. split; [done|]. intros w1 w2 w3. unfold same_clock. congruence. Qed.

#[export] Instance clock_execute {A} (op : Database → exn + (A * Database)) : Step same_clock (execute op).
Proof.
  apply Step_remote; [apply _|done|]. intros w a w'. destruct (op _) as [|[]]; [done|].
  intros [= _ <-]. apply clock_put.
Qed.
#[export] Instance clock_update {A} (u : Database → A * Database) : Step same_clock (update u).
Proof. apply clock_execute. Qed.
#[export] Instance clock_query {A} (q : Database → A) : Step same_clock (query q).
Proof. apply Step_remote; [apply _|done|]. by intros w a w' [= _ <-]. Qed.
#[export] Instance clock_start : Step same_clock start_transaction.
Proof. apply Step_remote; [apply _|done|]. by intros w a w' [= _ <-]. Qed.
#[export] Instance clock_commit : Step same_clock commit.
Proof. apply Step_remote; [apply _|done|]. by intros w a w' [= _ <-]. Qed.
#[export] Instance clock_rollback : Step same_clock rollback.
Proof.
  intros w. unfold rollback, remote. by destruct (w_faults w) as [|[] ?].
Qed.
#[export] Instance clock_connection {A} (m : M A) : Step same_clock m → Step same_clock (with_connection m).
Proof.
  intros Hm w. unfold with_connection, connected.
  assert (Hs : Step same_clock (async_get_connection;; m)).
  { apply Step_bind; [apply _| |done]. apply Step_remote; [apply _|done|]. by intros x a x' [= _ <-]. }
  specialize (Hs (with_txn None w)). by destruct ((async_get_connection;; m) (with_txn None w)) as [r w1].
Qed.
#[export] Instance clock_queue m : Step same_clock (QueueSingleMessage m).
Proof.
  unfold QueueSingleMessage, conversationTransaction, committed, queue_message, lockPair,
    friendAllows, requeue, friendAllows. apply _.
Qed.

(** C35: the wait for persistence is bounded: when every sleep takes its 200 ms and
    the clock does not run backwards, 40 sleeps are enough for the eight-second
    deadline: [submit] ends. *)
Theorem submit_terminates fuel msg w
    (Hfuel : (40 <= fuel)%nat)
    (Hwait : ∀ w', w_clock w' = w_clock w → sleeps w')
    (Hmono : ∀ i, w_clock w i <= w_clock w (S i)) :
  (submit wait fuel msg w).1 ≠ inl OutOfFuel.
Proof.
  pose proof (clock_queue msg w) as Hc. pose proof (Ends_QueueSingleMessage msg w) as Hq.
  unfold submit, mbind, M_bind, now.
  destruct (QueueSingleMessage msg w) as [[e|t] w1]; cbn in Hc, Hq.
  { cbn. intros [= ->]. by apply Hq. }
  unfold same_clock in Hc. cbn in Hc. rewrite Hc.
  pose proof (poll_ends fuel (w_clock w (w_tick w1) + 8000) (w_clock w) t
    (with_tick (S (w_tick w1)) w1) Hwait Hc) as Hp.
  destruct (poll _ _ _ _ _) as [[e|t'] w2]; cbn.
  - intros [= ->]. apply Hp; [|done]. specialize (Hmono (w_tick w1)).
    change (w_tick (with_tick (S (w_tick w1)) w1)) with (S (w_tick w1)). lia.
  - by destruct (msg_of_json _).
Qed.
End theorems.

(** * Witnesses *)

(** While the sender sleeps, the worker makes one pass. *)
Definition wait_worker : M unit := worker_pass (λ _, "");; mret tt.
Definition sent_w : World := (send_one wait_worker 3 sample_message send_w1).2.

Definition same_txn (w w' : World) : Prop := w_txn w' = w_txn w.

#[export] Instance same_txn_preorder : PreOrder same_txn.
Proof. split; [done|]. intros w1 w2 w3. unfold same_txn. congruence. Qed.

Lemma with_connection_txn {A} (m : M A) : Step same_txn (with_connection m).
Proof.
  intros w. destruct (with_connection m w) as [r w'] eqn:E.
  by apply with_connection_run in E as (w1 & _ & ->).
Qed.

(** A pass of the worker is an operation on the outbox. *)
Lemma wait_worker_ok : outbox_only wait_worker.
Proof.
  intros w Hn. unfold wait_worker, mbind, M_bind.
  pose proof (worker_pass_evolves (λ _, "") w Hn) as He.
  assert (Ht : Step same_txn (worker_pass (λ _, ""))).
  { pose proof (λ A m, with_connection_txn (A:=A) m) as Hw. unfold worker_pass, ClaimOutboxTask.
    assert (∀ t, Step same_txn (ProcessOutboxTask t)) by (intros; apply Hw).
    assert (∀ t e, Step same_txn (RetryOutboxTask t e)) by (intros; apply Hw).
    assert (∀ i, Step same_txn (GetOutboxTask i)) by (intros; apply Hw). apply _. }
  specialize (Ht w). unfold same_txn in Ht. rewrite Hn in Ht.
  destruct (worker_pass _ w) as [[e|x] w1]; by split.
Qed.

Lemma send_reports_persisted_witness :
  ∃ id r, t_im_outbox (w_db sent_w) !! id = Some r ∧ o_stage r = 1 ∧
    same_key 1 (message_key sample_message) id r = true.
Proof.
  destruct (send_reports_persisted wait_worker 3 sample_message send_w1
    (mkSendInfo (Some sample_message) "0" "") sent_w) as (id & r & m & Hr & Hk & _ & Hs & _);
    [exact send_w1_ok|vm_compute; reflexivity|exact wait_worker_ok|vm_compute; reflexivity|reflexivity|].
  exists id, r. split; [exact Hr|]. split; [exact Hs|exact Hk].
Defined.

(** While the sender sleeps, the friendship is removed: [cleanup_chat] cancels
    the queued messages of the pair. *)
Definition wait_deletion : M unit :=
  update (set_rows (λ _ r, o_state r =? 0) cancelled).
Definition sent_row : OutboxRow :=
  default (new_outbox_row 0 "" 0 0 "" "" 0 "") (t_im_outbox (w_db send_w1) !! 1).
Definition cancelled_w : World :=
  (poll wait_deletion 3 (w_clock send_w1 (w_tick send_w1) + 8000) sent_task
    (with_tick (S (w_tick send_w1)) send_w1)).2.

Lemma cancellation_not_reported_witness :
  submit wait_deletion 3 sample_message send_w0 =
    (inl (RuntimeError "Invalid stored message"), cancelled_w).
Proof.
  apply (cancellation_not_reported wait_deletion 3 sample_message send_w0 sent_task send_w1 1 sent_row
    cancelled_w).
  - reflexivity.
  - exact send_run.
  - vm_compute. reflexivity.
Defined.

(** The system is idle while the sender sleeps. *)
Definition wait_idle : M unit := now;; mret tt.
Definition slow_world : World :=
  mkWorld friends_db None ∅ (mkRedisStore ∅ ∅) [] (mkGateway ∅ ∅ 0) (λ n, 200 * Z.of_nat n) 0 sample_uuid 0
    (new_Snowflake 1 1) 100 sample_now [].

Lemma submit_terminates_witness :
  (submit wait_idle 40 sample_message slow_world).1 ≠ inl OutOfFuel.
Proof.
  apply (submit_terminates wait_idle 40 sample_message slow_world).
  - apply le_n.
  - intros w' Hw. split; [done|]. split; [done|].
    intros i Hi. change (w_tick (wait_idle w').2) with (S (w_tick w')).
    rewrite Hw. cbn -[Z.mul Z.of_nat]. lia.
  - intros i. cbn. lia.
Defined.
