(* ===== verification/Replies.v ===== *)
(** A monad for handlers that fill in a reply while they run: an exception keeps
    what has been written to the reply ([src/storage/mysqlhandler.cpp],
    [ExecuteFriendCommand] and [ExecuteGroupCommand] pass [reply] by reference). *)
From S2P Require Import Prelude Table Snowflake Schema Effects.

(** A loop that has not ended ([OutOfFuel]) has no outcome, so no reply either. *)
Definition R (S A : Type) : Type := S → M (S * (exn + A)).

#[global] Instance R_ret {S} : MRet (R S) := λ A a s, mret (s, inr a).
#[global] Instance R_bind {S} : MBind (R S) := λ A B f m s,
  r ← m s;
  match r with
  | (s', inr a) => f a s'
  | (s', inl e) => mret (s', inl e)
  end.

(** Code that does not touch the reply. *)
Definition up {S A} (m : M A) : R S A := λ s, r ← catch m; mret (s, r).

Definition set_reply {S} (f : S → S) : R S unit := λ s, mret (f s, inr tt).

Definition rthrow {S A} (e : exn) : R S A := λ s, mret (s, inl e).

(** [try { m } catch (...)] *)
Definition rcatch {S A} (m : R S A) : R S (exn + A) := λ s, r ← m s; mret (r.1, inr r.2).

(** The scope of a pooled connection. *)
Definition rconnected {S A} (m : R S A) : R S A := λ s,
  r ← catch (with_connection (m s));
  match r with
  | inr x => mret x
  | inl e => mret (s, inl e)
  end.

(** * Relations between the worlds *)

Class RStep (Q : relation World) {S A} (m : R S A) : Prop := rstep : ∀ s, Step Q (m s).

Section rstep.
#[local] Set Default Proof Using "All".
Context (Q : relation World) `{!PreOrder Q} {S : Type}.

#[global] Instance RStep_ret {A} (a : A) : RStep Q (S:=S) (mret a).
Proof. intros s. apply (Step_ret Q). Qed.
#[global] Instance RStep_throw {A} e : RStep Q (S:=S) (A:=A) (rthrow e).
Proof. intros s. apply (Step_ret Q). Qed.
#[global] Instance RStep_set f : RStep Q (S:=S) (set_reply f).
Proof. intros s. apply (Step_ret Q). Qed.
#[global] Instance RStep_up {A} (m : M A) : Step Q m → RStep Q (S:=S) (up m).
Proof. intros Hm s. unfold up. apply _. Qed.
#[global] Instance RStep_bind {A B} (m : R S A) (f : A → R S B) :
  RStep Q m → (∀ a, RStep Q (f a)) → RStep Q (m ≫= f).
Proof.
  intros Hm Hf s. apply Step_bind; [done|apply Hm|].
  intros [s' [e|a]]; [apply (Step_ret Q)|apply Hf].
Qed.
#[global] Instance RStep_catch {A} (m : R S A) : RStep Q m → RStep Q (rcatch m).
Proof. intros Hm s. apply Step_bind; [done|apply Hm|]. intros r. apply (Step_ret Q). Qed.
End rstep.

#[export] Hint Extern 2 (RStep _ (match ?x with _ => _ end)) => destruct x : typeclass_instances.

(** * Runs *)

Lemma rbind_run {S A B} (m : R S A) (f : A → R S B) s w :
  (m ≫= f) s w = match m s w with
                 | (inl e, w') => (inl e, w')
                 | (inr (s', inl e), w') => (inr (s', inl e), w')
                 | (inr (s', inr a), w') => f a s' w'
                 end.
Proof.
  change ((m ≫= f) s w) with ((m s ≫= λ r : S * (exn + A),
    match r with (s', inr a) => f a s' | (s', inl e) => mret (s', inl e) end) w).
  unfold mbind, M_bind. by destruct (m s w) as [[e|[s' [e|a]]] w'].
Qed.

Lemma up_run {S A} (m : M A) (s : S) w :
  up m s w = match m w with
             | (inl OutOfFuel, w') => (inl OutOfFuel, w')
             | (r, w') => (inr (s, r), w')
             end.
Proof.
  unfold up, mbind, M_bind, catch. by destruct (m w) as [[[]|a] w'].
Qed.

Lemma rbind_cases {S A B} (m : R S A) (f : A → R S B) s w r w' :
  (m ≫= f) s w = (inr r, w') →
  (∃ e, m s w = (inr (r.1, inl e), w') ∧ r.2 = inl e) ∨
  ∃ s1 a w1, m s w = (inr (s1, inr a), w1) ∧ f a s1 w1 = (inr r, w').
Proof.
  intros H. apply bind_ok in H as ([s1 [e|a]] & w1 & Hm & H); [|eauto 10].
  injection H as <- <-. eauto.
Qed.

Lemma up_cases {S A} (m : M A) (s : S) w r w' :
  up m s w = (inr r, w') → r.1 = s ∧ m w = (r.2, w').
Proof.
  intros H. apply bind_ok in H as (x & w1 & Hc%catch_ok & H). injection H as <- <-. done.
Qed.

(** ** What a computation does to the reply *)

Class RFrame {S} (P : relation S) {A} (m : R S A) : Prop :=
  rframe : ∀ s w s' r w', m s w = (inr (s', r), w') → P s s'.

Section rframe.
#[local] Set Default Proof Using "All".
Context {S : Type} (P : relation S) `{!PreOrder P}.

#[global] Instance RFrame_ret {A} (a : A) : RFrame P (mret a).
Proof. intros s w s' r w' [= <- _ _]. reflexivity. Qed.
#[global] Instance RFrame_throw {A} e : RFrame P (A:=A) (rthrow e).
Proof. intros s w s' r w' [= <- _ _]. reflexivity. Qed.
#[global] Instance RFrame_up {A} (m : M A) : RFrame P (up m).
Proof. intros s w s' r w' [Hs _]%up_cases. cbn in Hs. rewrite Hs. reflexivity. Qed.
Lemma RFrame_set f : (∀ s, P s (f s)) → RFrame P (set_reply f).
Proof. intros Hf s w s' r w' [= <- _ _]. apply Hf. Qed.
#[global] Instance RFrame_bind {A B} (m : R S A) (f : A → R S B) :
  RFrame P m → (∀ a, RFrame P (f a)) → RFrame P (m ≫= f).
Proof.
  intros Hm Hf s w s' r w' [(e & Hrun & _)|(s1 & a & w1 & Hrun & H)]%rbind_cases.
  - by eapply Hm.
  - etrans; [by eapply Hm|by eapply Hf].
Qed.
#[global] Instance RFrame_catch {A} (m : R S A) : RFrame P m → RFrame P (rcatch m).
Proof.
  intros Hm s w s' r w' H. apply bind_ok in H as ([s1 x] & w1 & Hrun & H).
  apply ret_ok in H as [[= <- _] _]. by eapply Hm.
Qed.
End rframe.

#[export] Hint Extern 2 (RFrame _ (match ?x with _ => _ end)) => destruct x : typeclass_instances.

(** * A transaction in the reply monad *)

(** The action and COMMIT: the database is the old one, or the final view of a
    completed action. *)
Lemma rcommitted_cases {S} (action : R S unit) `{!∀ s, InTx (action s)} s w d0 x w' :
  w_txn w = Some d0 → (action;; up commit) s w = (x, w') →
  (w_db w' = w_db w ∧ ∀ s1, x ≠ inr (s1, inr tt)) ∨
  ∃ s1 w1 d, action s w = (inr (s1, inr tt), w1) ∧ w_txn w1 = Some d ∧ w_db w' = d ∧
    ∀ s2, x = inr (s2, inr tt) → s2 = s1 ∧ ∃ fs, w' = with_faults fs (with_txn None (with_db d w1)).
Proof.
  intros Ht Hrun. apply bind_cases in Hrun as [(e & He & ->)|([s1 r] & w1 & Ha & Hrun)].
  { left. destruct (in_tx_run _ _ _ _ _ Ht He) as [-> _]. done. }
  destruct (in_tx_run _ _ _ _ _ Ht Ha) as (Hdb & d & Hd).
  destruct r as [e|[]]; [left; apply ret_cases in Hrun as [-> ->]; split; [done|by intros s2 [=]]|].
  apply bind_cases in Hrun as [(e & He & ->)|(y & w2 & Hc & Hrun)].
  { apply catch_err in He as [He _]. exfalso. by apply (Ends_commit w1); rewrite He. }
  apply catch_ok in Hc. apply ret_cases in Hrun as [-> ->]. destruct y as [e|[]].
  - destruct (commit_err _ _ _ _ Hd Hc) as [_ [->|[? _]]]; [left; split; [done|by intros s2 [=]]|].
    right. exists s1, w1, d. split; [done|]. split; [done|]. split; [done|]. by intros s2 [=].
  - destruct (commit_ok _ _ _ _ Hd Hc) as [fs ->]. right. exists s1, w1, d.
    split; [done|]. split; [done|]. split; [done|]. intros s2 [= ->]. split; [done|by exists fs].
Qed.

(** Code on one connection, as [Conn]. *)
Class RConn (Q : relation Database) {S A} (m : R S A) : Prop :=
  rconn : ∀ s w, w_txn w = None →
    Q (w_db w) (w_db (m s w).2) ∧ ∀ s' a, (m s w).1 = inr (s', inr a) → w_txn (m s w).2 = None.

(** The transaction of [mutate]: rollback, repair of the reply, rethrow. *)
Definition rtransaction {S} (action : R S unit) (repair finish : S → S) : R S unit :=
  up start_transaction;;
  r ← rcatch (action;; up commit);
  match r with
  | inl failure => up rollback;; set_reply repair;; rthrow failure
  | inr _ => set_reply finish
  end.

(** When it succeeds the final view of the action is committed. *)
Lemma rtransaction_ok {S} (action : R S unit) repair finish `{!∀ s, InTx (action s)} s w s' w' :
  w_txn w = None → rtransaction action repair finish s w = (inr (s', inr tt), w') →
  ∃ fs s1 w1, action s (tx_start fs w) = (inr (s1, inr tt), w1) ∧ w_txn w1 = Some (w_db w') ∧
    w_txn w' = None ∧ s' = finish s1.
Proof.
  intros Hn [(e & He & [=])|(s1 & u & w1 & Hs & Hrun)]%rbind_cases.
  apply up_cases in Hs as [Hs1 Hs]. cbn in Hs1, Hs. subst s1.
  apply start_transaction_ok in Hs as [fs ->]; [|done].
  apply rbind_cases in Hrun as [(e & He & [=])|(s2 & r & w2 & Hc & Hrun)].
  apply bind_ok in Hc as ([s3 y] & w3 & Hc & Hr). apply ret_ok in Hr as [[= <- <-] <-].
  destruct y as [e|[]].
  { exfalso. apply rbind_cases in Hrun as [(e' & He & [=])|(s4 & b & w4 & _ & Hrun)].
    by apply rbind_cases in Hrun as [(e' & He & [=])|(s5 & b' & w5 & _ & [=])]. }
  injection Hrun as <- <-.
  eapply (rcommitted_cases action) in Hc; [|done]. destruct Hc as [[_ Hno]|(s4 & w4 & d & Ha & Hd & Hdb & Hw)];
    [by destruct (Hno s3)|]. destruct (Hw s3 eq_refl) as (-> & fs' & ->). eauto 10.
Qed.

(** When it fails the reply is the action's, repaired. *)
Lemma rtransaction_err {S} (P : relation S) `{!PreOrder P} (action : R S unit) repair finish
    `{!RFrame P action} s w s' e w' :
  (∀ s, P s (repair s)) → rtransaction action repair finish s w = (inr (s', inl e), w') → P s s'.
Proof.
  intros Hrep [(e1 & He & _)|(s1 & u & w1 & Hs & Hrun)]%rbind_cases; [by eapply (RFrame_up P)|].
  apply up_cases in Hs as [Hs _]. cbn in Hs. subst s1.
  assert (Hfr : RFrame P (rcatch (action;; up commit))) by apply _.
  apply rbind_cases in Hrun as [(e1 & He & _)|(s2 & r & w2 & Hc & Hrun)]; [by eapply Hfr|].
  etrans; [by eapply Hfr|]. destruct r as [f|]; [|done].
  assert (Hf : RFrame P (up rollback;; set_reply repair;; rthrow (A:=unit) f)).
  { pose proof (RFrame_set P repair Hrep). apply _. }
  eapply Hf. exact Hrun.
Qed.

Section rconn.
#[local] Set Default Proof Using "All".
Context (Q : relation Database) `{!PreOrder Q} {S : Type}.

Lemma RConn_stmt {A} (m : R S A) : RStep (stmt_step Q) m → RConn Q m.
Proof.
  intros Hm s w Hn. destruct (Conn_stmt Q (m s) (Hm s) w Hn) as [? Ht]. split; [done|]. eauto.
Qed.

Lemma RConn_bind {A B} (m : R S A) (f : A → R S B) :
  RConn Q m → (∀ a, RConn Q (f a)) → RConn Q (m ≫= f).
Proof.
  intros Hm Hf s w Hn. destruct (Hm s w Hn) as [HR Ht]. rewrite rbind_run.
  destruct (m s w) as [[e|[s1 [e|a]]] w1]; [done|done|].
  cbn in *. destruct (Hf a s1 w1 (Ht s1 a eq_refl)) as [HR' ?]. split; [by etrans|done].
Qed.

(** A computation whose result satisfies [P]. *)
Lemma RConn_up_bind {A B} (P : A → Prop) (m : M A) (f : A → R S B) :
  Conn Q m → (∀ w a w', m w = (inr a, w') → P a) → (∀ a, P a → RConn Q (f a)) →
  RConn Q (up m ≫= f).
Proof.
  intros Hm HP Hf s w Hn. destruct (Hm w Hn) as [HR Ht]. rewrite rbind_run, up_run.
  destruct (m w) as [[e|a] w1] eqn:E; cbn in *; [by destruct e|].
  destruct (Hf a (HP _ _ _ E) s w1 (Ht a eq_refl)) as [HR' ?]. split; [by etrans|done].
Qed.

Lemma RConn_up {A} (m : M A) : Conn Q m → RConn Q (S:=S) (up m).
Proof.
  intros Hm s w Hn. destruct (Hm w Hn) as [HR Ht]. rewrite up_run.
  destruct (m w) as [[[]|a] w1]; cbn in *; (split; [done|]); try done. eauto.
Qed.

(** [connection]'s scope. *)
Lemma Step_rconnected {A} (m : R S A) s : RConn Q m → Step (db_step Q) (rconnected m s).
Proof.
  intros Hm w Hn.
  assert (Hc : db_step Q w (with_connection (m s) w).2).
  { intros _. split.
    - destruct (with_connection (m s) w) as [[e|x] w'] eqn:E; cbn.
      + apply with_connection_err in E as [(_ & -> & _)|(fs & w1 & E & ->)]; [reflexivity|].
        destruct (Hm s (with_faults fs (with_txn None w)) eq_refl) as [HR _]. by rewrite E in HR.
      + apply with_connection_ok in E as (fs & w1 & E & ->).
        destruct (Hm s (with_faults fs (with_txn None w)) eq_refl) as [HR _]. by rewrite E in HR.
    - unfold with_connection, connected.
      destruct ((async_get_connection;; m s) (with_txn None w)) as [r w1]. done. }
  specialize (Hc Hn). unfold rconnected, mbind, M_bind, catch.
  destruct (with_connection (m s) w) as [[[]|x] w']; done.
Qed.

Lemma RConn_rtransaction (action : R S unit) (repair finish : S → S) :
  (∀ s w d0 s1 w1 d, w_txn w = Some d0 → action s w = (inr (s1, inr tt), w1) →
     w_txn w1 = Some d → Q d0 d) →
  (∀ s, InTx (action s)) → RConn Q (rtransaction action repair finish).
Proof.
  intros Ha Hin s w Hn. destruct (rtransaction _ _ _ s w) as [r w'] eqn:E. cbn.
  apply bind_cases in E as [(e & He & ->)|([s1 x] & w1 & Hs & E)].
  { apply bind_cases in He as [(e' & He & ->)|(y & w1 & _ & He)]; [|by apply ret_cases in He as [? _]].
    apply catch_err in He as [He _]. by destruct (start_transaction_err _ _ _ He) as [-> _]. }
  apply up_cases in Hs as [Hs1 Hs]. cbn in Hs1, Hs. subst s1.
  destruct x as [e|u].
  { apply ret_cases in E as [-> ->]. by destruct (start_transaction_err _ _ _ Hs) as [-> _]. }
  apply start_transaction_ok in Hs as [fs ->]; [|done].
  pose proof (λ x w', rcommitted_cases action s (tx_start fs w) (w_db w) x w' eq_refl) as Hcases.
  apply bind_cases in E as [(e & He & ->)|([s1 x] & w1 & Hc & E)].
  { split; [|done]. apply bind_cases in He as [(e2 & He & _)|(y & w1 & _ & He)]; [|by apply ret_cases in He as [? _]].
    destruct (Hcases _ _ He) as [[-> _]|(s1 & w1 & d & Hrun & Hd & -> & _)].
    - reflexivity.
    - by eapply (Ha s (tx_start fs w)). }
  apply bind_cases in Hc as [(e & He & [=])|([s2 y] & w2 & Hc & Hr)].
  apply ret_cases in Hr as [[= -> ->] ->].
  assert (HQ : Q (w_db w) (w_db w2)).
  { destruct (Hcases _ _ Hc) as [[-> _]|(s3 & w3 & d & Hrun & Hd & -> & _)].
    - reflexivity.
    - by eapply (Ha s (tx_start fs w)). }
  destruct y as [e|[]].
  - assert (Hdb : w_db w' = w_db w2 ∧ ∀ s' a, r ≠ inr (s', inr a)).
    { apply bind_cases in E as [(e' & He & ->)|([s3 x] & w3 & Hrb & E)].
      - apply bind_cases in He as [(e2 & He & _)|(b & w3 & Hb & He)]; [|by apply ret_cases in He as [? _]].
        pose proof (rollback_db w2) as Hr. apply catch_err in He as [He _]. by rewrite He in Hr.
      - apply up_cases in Hrb as [_ Hrb]. cbn in Hrb. pose proof (rollback_db w2) as Hw. rewrite Hrb in Hw.
        destruct x; apply ret_cases in E as [-> ->]; done. }
    destruct Hdb as [-> Hne]. split; [done|]. intros s' a Hr. by apply Hne in Hr.
  - apply ret_cases in E as [-> ->]. split; [done|].
    destruct (Hcases _ _ Hc) as [[_ Hno]|(s3 & w3 & d & Hrun & Hd & _ & Hw)].
    + by destruct (Hno s2).
    + destruct (Hw s2 eq_refl) as (_ & fs' & ->). done.
Qed.
End rconn.
