(* ===== verification/Friends.v ===== *)
(** Friendships ([src/storage/mysqlhandler.cpp], lines 642-936, and
    [src/services/friend_service/server.cpp]): looking users up, applying,
    handling applications, deleting friends, the two paged lists. *)
From S2P Require Import Prelude Table Snowflake Schema Effects Users Stores Conversations Friendship Outbox Replies.

(** ** Messages of [friend.proto] *)

(** [Operation] *)
Definition LookupUser : Z := 0.
Definition Apply : Z := 1.
Definition ListFriends : Z := 2.
Definition ListApplications : Z := 3.
Definition HandleApplication : Z := 4.
Definition DeleteFriend : Z := 5.

(** [ApplicationStatus] *)
Definition Pending : Z := 0.
Definition Accepted : Z := 1.
Definition Rejected : Z := 2.

Record Command := mkCommand {
  cmd_actor : Z; cmd_operation : Z; cmd_target : Z; cmd_applicationID : Z;
  cmd_message : string; cmd_accept : bool; cmd_after : Z; cmd_limit : Z; cmd_snapshot : Z;
}.

Record PublicUserInfo := mkPublicUserInfo { pu_userID : Z; pu_nickname : string }.

Record Application := mkApplication {
  ap_id : Z; ap_sender : PublicUserInfo; ap_recipient : PublicUserInfo;
  ap_message : string; ap_status : Z; ap_createdTime : Z; ap_handledTime : Z;
}.

Record FriendInfo := mkFriendInfo {
  fi_ownerUserID : Z; fi_remark : string; fi_createTime : Z; fi_friendUser : PublicUserInfo;
}.

Record ClearedConversation := mkCleared { cl_peer : Z; cl_deletedTime : Z; cl_deletedSeq : Z }.

Record Reply := mkReply {
  rp_errorCode : string; rp_errorMessage : string; rp_user : option PublicUserInfo;
  rp_friends : list FriendInfo; rp_applications : list Application;
  rp_hasMore : bool; rp_cursor : Z; rp_snapshot : Z;
  rp_changedAccounts : list Z; rp_cleared : list ClearedConversation;
}.

Definition empty_reply : Reply := mkReply "" "" None [] [] false 0 0 [] [].

Definition with_error (code msg : string) (p : Reply) : Reply :=
  mkReply code msg (rp_user p) (rp_friends p) (rp_applications p) (rp_hasMore p) (rp_cursor p)
    (rp_snapshot p) (rp_changedAccounts p) (rp_cleared p).
Definition with_code (code : string) (p : Reply) : Reply := with_error code (rp_errorMessage p) p.
Definition with_user (u : PublicUserInfo) (p : Reply) : Reply :=
  mkReply (rp_errorCode p) (rp_errorMessage p) (Some u) (rp_friends p) (rp_applications p)
    (rp_hasMore p) (rp_cursor p) (rp_snapshot p) (rp_changedAccounts p) (rp_cleared p).
Definition with_friends (f : list FriendInfo → list FriendInfo) (p : Reply) : Reply :=
  mkReply (rp_errorCode p) (rp_errorMessage p) (rp_user p) (f (rp_friends p)) (rp_applications p)
    (rp_hasMore p) (rp_cursor p) (rp_snapshot p) (rp_changedAccounts p) (rp_cleared p).
Definition with_applications (f : list Application → list Application) (p : Reply) : Reply :=
  mkReply (rp_errorCode p) (rp_errorMessage p) (rp_user p) (rp_friends p) (f (rp_applications p))
    (rp_hasMore p) (rp_cursor p) (rp_snapshot p) (rp_changedAccounts p) (rp_cleared p).
Definition with_hasMore (b : bool) (p : Reply) : Reply :=
  mkReply (rp_errorCode p) (rp_errorMessage p) (rp_user p) (rp_friends p) (rp_applications p)
    b (rp_cursor p) (rp_snapshot p) (rp_changedAccounts p) (rp_cleared p).
Definition with_cursor (c : Z) (p : Reply) : Reply :=
  mkReply (rp_errorCode p) (rp_errorMessage p) (rp_user p) (rp_friends p) (rp_applications p)
    (rp_hasMore p) c (rp_snapshot p) (rp_changedAccounts p) (rp_cleared p).
Definition with_snapshot (s : Z) (p : Reply) : Reply :=
  mkReply (rp_errorCode p) (rp_errorMessage p) (rp_user p) (rp_friends p) (rp_applications p)
    (rp_hasMore p) (rp_cursor p) s (rp_changedAccounts p) (rp_cleared p).
Definition with_changed (l : list Z) (p : Reply) : Reply :=
  mkReply (rp_errorCode p) (rp_errorMessage p) (rp_user p) (rp_friends p) (rp_applications p)
    (rp_hasMore p) (rp_cursor p) (rp_snapshot p) (rp_changedAccounts p ++ l) (rp_cleared p).
Definition with_cleared (c : ClearedConversation) (p : Reply) : Reply :=
  mkReply (rp_errorCode p) (rp_errorMessage p) (rp_user p) (rp_friends p) (rp_applications p)
    (rp_hasMore p) (rp_cursor p) (rp_snapshot p) (rp_changedAccounts p) (rp_cleared p ++ [c]).

Definition FriendError (code message : string) : exn := CodedError code message.

Definition number (value : field_view) (column : string) : E Z := unsigned_field value column.
Definition friend_number (value : field_view) : E Z := number value "friend record integer".

(** ** Reading *)

Definition user (account : Z) : M PublicUserInfo :=
  found ← find_user account true true;
  match found with
  | None => throw (FriendError "USER_NOT_FOUND" "User does not exist")
  | Some u => mret (mkPublicUserInfo (Schema.account u) (nickname u))
  end.

Definition application_columns (id : Z) (r : FriendApplicationRow) : list field_view :=
  [FUint64 id; FUint64 (fa_from r); FUint64 (fa_to r); FString (fa_message r);
   FInt64 (fa_status r); FInt64 (fa_created_time r); FInt64 (fa_handled_time r)].

Definition application (id : Z) : M Application :=
  row ← query (λ d, application_columns id <$> t_friend_applications d !! id);
  match row with
  | None => throw (FriendError "APPLICATION_NOT_FOUND" "Application does not exist")
  | Some row =>
      f ← lift (at_ row 0); aid ← lift (friend_number f);
      f ← lift (at_ row 1); from ← lift (friend_number f); sender ← user from;
      f ← lift (at_ row 2); to ← lift (friend_number f); recipient ← user to;
      f ← lift (at_ row 3); message ← lift (as_string f);
      f ← lift (at_ row 4); status ← lift (friend_number f);
      f ← lift (at_ row 5); created ← lift (friend_number f);
      f ← lift (at_ row 6); handled ← lift (friend_number f);
      mret (mkApplication aid sender recipient message status (to_int64 created) (to_int64 handled))
  end.

(** The deletion marks of an owner; the order is not specified.  (An entry or a
    friend whose columns do not decode is added to the reply half filled by the
    code before the exception; here it is left out of the error reply.) *)
Definition deletions_of (owner : Z) (d : Database) : list (list field_view) :=
  (λ p : Z * Z * DeletionRow, [FUint64 p.1.2; FInt64 (d_time p.2); FInt64 (d_seq p.2)]) <$>
    filter (λ p, p.1.1 = owner) (map_to_list (t_friend_chat_deletions d)).

Fixpoint add_cleared (rows : list (list field_view)) : R Reply unit :=
  match rows with
  | [] => mret tt
  | row :: rows =>
      c ← up (lift (
        f ← at_ row 0; peer ← unsigned_field f "friend_chat_deletions.peer_account";
        f ← at_ row 1; time ← unsigned_field f "friend_chat_deletions.deleted_time";
        f ← at_ row 2; sq ← unsigned_field f "friend_chat_deletions.deleted_seq";
        mret (mkCleared peer (to_int64 time) (to_int64 sq))));
      set_reply (with_cleared c);;
      add_cleared rows
  end.

Definition clearedConversations (owner : Z) : R Reply unit :=
  rows ← up (query (deletions_of owner)); add_cleared rows.

(** ** The statements that change rows *)

(** WHERE owner_account={} AND friend_account={} *)
Definition friend_row (a b : Z) (_ : Z) (r : FriendRow) : bool :=
  (f_owner r =? a) && (f_friend r =? b).

(** WHERE from_account={} AND to_account={} AND status=0 *)
Definition pending_row (a b : Z) (_ : Z) (r : FriendApplicationRow) : bool :=
  (fa_from r =? a) && (fa_to r =? b) && (fa_status r =? Pending).

Definition insert_application (from to : Z) (message : string) (time : Z) (d : Database)
    : Z * Database :=
  let id := t_friend_applications_next d in
  (id, set_friend_applications_next (λ n, n + 1)
         (set_friend_applications <[id := mkFriendApplicationRow from to message Pending time 0]> d)).

(** DELETE FROM friends; the result is [affected_rows]. *)
Definition delete_friends (a b : Z) (d : Database) : Z * Database :=
  (count (pair_rows a b) (t_friends d),
   set_friends (filter (λ p, pair_rows a b p.1 p.2 = false)) d).

Definition mark_deleted (a b time sq : Z) (d : Database) : unit * Database :=
  (tt, set_friend_chat_deletions (λ m, <[(b, a) := mkDeletionRow time sq]>
         (<[(a, b) := mkDeletionRow time sq]> m)) d).

Definition settled (status time : Z) (r : FriendApplicationRow) : FriendApplicationRow :=
  mkFriendApplicationRow (fa_from r) (fa_to r) (fa_message r) status (fa_created_time r) time.

Definition reject_pending (a b time : Z) (d : Database) : unit * Database :=
  (tt, set_friend_applications
         (update_where (λ k r, pending_row a b k r || pending_row b a k r) (settled Rejected time)) d).

(** UPDATE friend_applications SET ... WHERE id={} AND status=0 *)
Definition settle_application (status time id : Z) (d : Database) : unit * Database :=
  (tt, set_friend_applications
         (update_where (λ k r, (k =? id) && (fa_status r =? Pending)) (settled status time)) d).

(** INSERT INTO friends ... ON DUPLICATE KEY UPDATE without effect, for one row. *)
Definition insert_friend (owner friend time : Z) (d : Database) : Database :=
  match select_one (friend_row owner friend) (t_friends d) with
  | Some _ => d
  | None =>
      set_friends_next (λ n, n + 1)
        (set_friends <[t_friends_next d := mkFriendRow owner friend "" time]> d)
  end.

Definition insert_friends (a b time : Z) (d : Database) : unit * Database :=
  (tt, insert_friend b a time (insert_friend a b time d)).

(** ** Operations in the transaction *)

(** The branch of [Apply]; the result is the application's id. *)
Definition apply_friend (actor target : Z) (message : string) : M Z :=
  rows ← query (λ d, select_one (friend_row actor target) (t_friends d));
  match rows with
  | Some _ => throw (FriendError "ALREADY_FRIEND" "Already friends")
  | None =>
      pending ← query (λ d, select_one (pending_row actor target) (t_friend_applications d));
      match pending with
      | Some p => lift (friend_number (FUint64 p.1))
      | None => t ← now; update (insert_application actor target message t)
      end
  end.

(** The branch of [DeleteFriend]. *)
Definition delete_friend (actor target : Z) : M unit :=
  affected ← update (delete_friends actor target);
  when (0 <? affected) (
    deletedTime ← now;
    deletedSeq ← snowflake_nextId;
    update (mark_deleted actor target deletedTime deletedSeq);;
    t ← now;
    update (reject_pending actor target t));;
  row ← query (deleted_seq actor target);
  match row with
  | None => mret tt
  | Some s =>
      cutoff ← lift (friend_number (FInt64 s));
      DeleteConversationPair (conversation_id actor target);;
      QueueConversationCleanup actor target (to_int64 cutoff)
  end.

(** The branch of [HandleApplication]. *)
Definition handle_application (actor target id : Z) (accept : bool) : M unit :=
  row ← query (λ d, FInt64 ∘ fa_status <$> t_friend_applications d !! id);
  match row with
  | None => throw (FriendError "APPLICATION_NOT_FOUND" "Application does not exist")
  | Some f =>
      status ← lift (friend_number f);
      let wanted := if accept then Accepted else Rejected in
      if negb (status =? Pending) && negb (status =? wanted)
      then throw (FriendError "ALREADY_HANDLED" "Application was already handled differently")
      else
        when (status =? Pending) (
          time ← now;
          update (settle_application wanted time id);;
          when accept (update (insert_friends actor target time)))
  end.

Definition add_application (id : Z) : R Reply unit :=
  a ← up (application id); set_reply (with_applications (λ l, l ++ [a])).

Definition mutate_action (c : Command) (target : Z) : R Reply unit :=
  up (lockPair (cmd_actor c) target);;
  if cmd_operation c =? Apply then
    id ← up (apply_friend (cmd_actor c) target (cmd_message c)); add_application id
  else if cmd_operation c =? DeleteFriend then up (delete_friend (cmd_actor c) target)
  else
    up (handle_application (cmd_actor c) target (cmd_applicationID c) (cmd_accept c));;
    add_application (cmd_applicationID c).

(** The try block of [mutate]. *)
Definition mutate_body (c : Command) (target : Z) : R Reply unit :=
  mutate_action c target;; up commit.

(** The other party of the operation. *)
Definition mutate_target (c : Command) : M Z :=
  target ← (if cmd_operation c =? HandleApplication then
              existing ← application (cmd_applicationID c);
              if negb (pu_userID (ap_recipient existing) =? cmd_actor c)
              then throw (FriendError "FORBIDDEN" "Only the recipient may handle this application")
              else mret (pu_userID (ap_sender existing))
            else mret (cmd_target c));
  if (target =? 0) || (target =? cmd_actor c)
  then throw (FriendError "INVALID_TARGET" "Cannot add yourself")
  else user target;; mret target.

Definition mutate (c : Command) : R Reply unit :=
  target ← up (mutate_target c);
  up set_session;;
  up start_transaction;;
  r ← rcatch (mutate_body c target);
  match r with
  | inl failure =>
      up rollback;;
      set_reply (with_applications (λ _, []));;
      rthrow failure
  | inr _ => set_reply (with_changed [cmd_actor c; target])
  end.

(** ** Lists *)

Definition list_limit (c : Command) : Z := clamp (cmd_limit c) 1 100.

Definition applied_row (actor : Z) (_ : Z) (r : FriendApplicationRow) : bool :=
  (fa_from r =? actor) || (fa_to r =? actor).

Definition list_snapshot (c : Command) : M Z :=
  if cmd_snapshot c =? 0 then
    f ← query (λ d, FUint64 (if cmd_operation c =? ListFriends
          then max_key (λ _ r, f_owner r =? cmd_actor c) (t_friends d)
          else max_key (applied_row (cmd_actor c)) (t_friend_applications d)));
    lift (number f "friend list snapshot")
  else mret (cmd_snapshot c).

Definition window (c : Command) (snapshot id : Z) : bool := (cmd_after c <? id) && (id <=? snapshot).

(** The user of a friend row, found by the JOIN on the unique account. *)
Definition friend_columns (d : Database) (p : Z * FriendRow) : option (list field_view) :=
  (λ u : Z * UserRow, [FUint64 p.1; FUint64 (f_friend p.2); FString (f_remark p.2);
     FInt64 (f_created_time p.2); FString (u_nickname u.2)]) <$>
  select_one (user_match (f_friend p.2) true) (t_users d).

Definition friend_page (c : Command) (snapshot : Z) (d : Database) : list (list field_view) :=
  take (Z.to_nat (list_limit c + 1)) (omap (friend_columns d)
    (select (λ k r, (f_owner r =? cmd_actor c) && window c snapshot k) (t_friends d))).

Definition read_friend (actor : Z) (row : list field_view) : E (FriendInfo * Z) :=
  f ← at_ row 2; remark ← as_string f;
  f ← at_ row 3; created ← number f "friends.created_time";
  f ← at_ row 1; friend ← number f "friends.friend_account";
  f ← at_ row 4; nick ← as_string f;
  f ← at_ row 0; id ← number f "friends.id";
  mret (mkFriendInfo actor remark (to_int64 created) (mkPublicUserInfo friend nick), id).

Fixpoint add_friends (actor : Z) (rows : list (list field_view)) : R Reply unit :=
  match rows with
  | [] => mret tt
  | row :: rows =>
      f ← up (lift (read_friend actor row));
      set_reply (with_friends (λ l, l ++ [f.1]));;
      set_reply (with_cursor f.2);;
      add_friends actor rows
  end.

Definition application_page (c : Command) (snapshot : Z) (d : Database) : list field_view :=
  (λ p, FUint64 p.1) <$> take (Z.to_nat (list_limit c + 1))
    (select (λ k r, applied_row (cmd_actor c) k r && window c snapshot k) (t_friend_applications d)).

Fixpoint numbers (column : string) (fs : list field_view) : E (list Z) :=
  match fs with
  | [] => mret []
  | f :: fs => n ← number f column; l ← numbers column fs; mret (n :: l)
  end.

Fixpoint add_applications (ids : list Z) : R Reply unit :=
  match ids with
  | [] => mret tt
  | id :: ids => add_application id;; set_reply (with_cursor id);; add_applications ids
  end.

Definition list_command (c : Command) : R Reply unit :=
  let limit := list_limit c in
  snapshot ← up (list_snapshot c);
  set_reply (with_snapshot snapshot);;
  if cmd_operation c =? ListFriends then
    rows ← up (query (friend_page c snapshot));
    set_reply (with_hasMore (limit <? Z.of_nat (length rows)));;
    add_friends (cmd_actor c) (take (Z.to_nat limit) rows)
  else
    fs ← up (query (application_page c snapshot));
    ids ← up (lift (numbers "friend_applications.id" fs));
    set_reply (with_hasMore (limit <? Z.of_nat (length ids)));;
    add_applications (take (Z.to_nat limit) ids).

(** ** The command *)

(** What runs on the connection. *)
Definition run_command (c : Command) : R Reply unit :=
  up initialize;;
  up (user (cmd_actor c));;
  (if cmd_operation c =? LookupUser then
     if cmd_target c =? 0 then rthrow (FriendError "INVALID_TARGET" "Invalid account")
     else u ← up (user (cmd_target c)); set_reply (with_user u)
   else if (cmd_operation c =? Apply) || (cmd_operation c =? HandleApplication) ||
           (cmd_operation c =? DeleteFriend)
   then mutate c
   else list_command c);;
  (if (cmd_operation c =? ListFriends) || (cmd_operation c =? DeleteFriend)
   then clearedConversations (cmd_actor c) else mret tt);;
  set_reply (with_code "0").

Definition checked_command (c : Command) : R Reply unit :=
  if (cmd_actor c =? 0) || (cmd_operation c <? LookupUser) || (DeleteFriend <? cmd_operation c)
  then rthrow (FriendError "INVALID_PARAM" "Invalid friend operation")
  else if 512 <? size_of (cmd_message c)
  then rthrow (FriendError "INVALID_PARAM" "Application message is too long")
  else rconnected (run_command c).

Definition ExecuteFriendCommand (c : Command) : M Reply :=
  r ← checked_command c empty_reply;
  mret (match r with
        | (reply, inr _) => reply
        | (reply, inl (CodedError code what)) => with_error code what reply
        | (reply, inl _) => with_error "DB_ERROR" "Friend data is temporarily unavailable" reply
        end).

(** [FriendServiceImpl::Execute] *)
Definition Execute (c : Command) : M (grpc_status * option Reply) :=
  handle (Status "INTERNAL" "Friend service unavailable")
    (reply ← ExecuteFriendCommand c; mret (Status_OK, Some reply)) None.
