(* ===== verification/FriendProofs.v ===== *)
(** Friendships: the invariant of their tables, and that every statement and
    every command preserves it under any failures. *)
From S2P Require Import Prelude Table Snowflake Schema Effects Users Stores Conversations Friendship Outbox Replies Friends.

(** Friendship is symmetric, irreflexive and stored once per direction; at most
    one application is pending from one user to another; the deletion marks of a
    chat are the same for both sides. *)
Record friends_ok (d : Database) : Prop := mkFriendsOk {
  fo_next id r : t_friends d !! id = Some r → id < t_friends_next d;
  fo_self id r : t_friends d !! id = Some r → f_owner r ≠ f_friend r;
  fo_sym id r : t_friends d !! id = Some r →
    ∃ id' r', t_friends d !! id' = Some r' ∧ f_owner r' = f_friend r ∧ f_friend r' = f_owner r;
  fo_unique i j r r' : t_friends d !! i = Some r → t_friends d !! j = Some r' →
    f_owner r = f_owner r' → f_friend r = f_friend r' → i = j;
  fo_app_next id r : t_friend_applications d !! id = Some r → id < t_friend_applications_next d;
  fo_pending i j r r' : t_friend_applications d !! i = Some r →
    t_friend_applications d !! j = Some r' → fa_status r = Pending → fa_status r' = Pending →
    fa_from r = fa_from r' → fa_to r = fa_to r' → i = j;
  fo_marks a b : t_friend_chat_deletions d !! (a, b) = t_friend_chat_deletions d !! (b, a);
}.

Definition friends_kept (d d' : Database) : Prop := friends_ok d → friends_ok d'.

#[export] Instance friends_kept_preorder : PreOrder friends_kept.
Proof. split; [by intros d H|]. intros d1 d2 d3 H1 H2 H. auto. Qed.

Lemma friends_same d d' :
  t_friends d' = t_friends d → t_friends_next d' = t_friends_next d →
  t_friend_applications d' = t_friend_applications d →
  t_friend_applications_next d' = t_friend_applications_next d →
  t_friend_chat_deletions d' = t_friend_chat_deletions d → friends_kept d d'.
Proof. intros E1 E2 E3 E4 E5 []. split; rewrite ?E1, ?E2, ?E3, ?E4, ?E5; eauto. Qed.

(** ** Statements *)

Lemma elem_friend_row a b k r : friend_row a b k r = true ↔ f_owner r = a ∧ f_friend r = b.
Proof. unfold friend_row. rewrite andb_true_iff, !Z.eqb_eq. done. Qed.

Lemma elem_pair_rows a b k r :
  pair_rows a b k r = true ↔ (f_owner r = a ∧ f_friend r = b) ∨ (f_owner r = b ∧ f_friend r = a).
Proof. unfold pair_rows. rewrite orb_true_iff, !andb_true_iff, !Z.eqb_eq. done. Qed.

Lemma no_friend_row a b (m : gmap Z FriendRow) :
  select_one (friend_row a b) m = None →
  ∀ k r, m !! k = Some r → ¬ (f_owner r = a ∧ f_friend r = b).
Proof.
  rewrite select_one_None. intros Hall k r Hk Hp%(elem_friend_row a b k r).
  by rewrite (Hall k r Hk) in Hp.
Qed.

(** Two users are friends: the row of one direction (by symmetry, both). *)
Definition friend_of (d : Database) (a b : Z) : Prop :=
  ∃ k r, t_friends d !! k = Some r ∧ f_owner r = a ∧ f_friend r = b.

Lemma insert_friend_of a b time d :
  (∀ k r, t_friends d !! k = Some r → k < t_friends_next d) →
  let d' := insert_friend a b time d in
  friend_of d' a b ∧ (∀ x y, friend_of d x y → friend_of d' x y) ∧
  (∀ x y, friend_of d' x y → friend_of d x y ∨ (x = a ∧ y = b)) ∧
  (∀ k r, t_friends d' !! k = Some r → k < t_friends_next d').
Proof.
  intros Hnext. unfold insert_friend. destruct (select_one _ _) as [[k r]|] eqn:E.
  - apply select_one_Some in E as (Hk & Hp%elem_friend_row & _). cbn. split; [by exists k, r|]. eauto.
  - cbn zeta. assert (Hfresh : t_friends d !! t_friends_next d = None).
    { destruct (t_friends d !! t_friends_next d) eqn:En; [|done]. apply Hnext in En. lia. }
    unfold friend_of. db_simpl. split.
    { exists (t_friends_next d), (mkFriendRow a b "" time). by rewrite lookup_insert_eq. }
    split.
    { intros x y (k & r & Hk & Ho). exists k, r. rewrite lookup_insert_ne by congruence. done. }
    split.
    + intros x y (k & r & [[<- <-]|[Hne Hk]]%lookup_insert_Some & <- & <-); [by right|left; eauto].
    + intros k r [[<- _]|[_ Hk]]%lookup_insert_Some; [lia|]. apply Hnext in Hk. lia.
Qed.

Lemma insert_friend_unique a b time d :
  (∀ k r, t_friends d !! k = Some r → k < t_friends_next d) →
  (∀ i j r r', t_friends d !! i = Some r → t_friends d !! j = Some r' →
     f_owner r = f_owner r' → f_friend r = f_friend r' → i = j) →
  ∀ i j r r', t_friends (insert_friend a b time d) !! i = Some r →
    t_friends (insert_friend a b time d) !! j = Some r' →
    f_owner r = f_owner r' → f_friend r = f_friend r' → i = j.
Proof.
  intros Hnext Hu i j r r'. unfold insert_friend. destruct (select_one _ _) eqn:E; [apply Hu|].
  pose proof (no_friend_row _ _ _ E) as Hno. db_simpl.
  intros [[<- <-]|[_ Hi]]%lookup_insert_Some [[<- <-]|[_ Hj]]%lookup_insert_Some; cbn;
    intros Ho Hf; [done| | |by eapply Hu]; exfalso.
  - apply (Hno j r' Hj). done.
  - apply (Hno i r Hi). done.
Qed.

Lemma insert_friend_other a b time d :
  t_friend_applications (insert_friend a b time d) = t_friend_applications d ∧
  t_friend_applications_next (insert_friend a b time d) = t_friend_applications_next d ∧
  t_friend_chat_deletions (insert_friend a b time d) = t_friend_chat_deletions d.
Proof. unfold insert_friend. by destruct (select_one _ _). Qed.

Lemma insert_friends_of a b time d :
  friends_ok d → let d' := (insert_friends a b time d).2 in
  ∀ x y, friend_of d' x y ↔ friend_of d x y ∨ (x = a ∧ y = b) ∨ (x = b ∧ y = a).
Proof.
  intros Hok. cbn.
  destruct (insert_friend_of a b time d (fo_next _ Hok)) as (H1 & H2 & H3 & H4).
  destruct (insert_friend_of b a time _ H4) as (K1 & K2 & K3 & _).
  intros x y. split.
  - intros [Hf|?]%K3; [|tauto]. apply H3 in Hf. tauto.
  - intros [Hf|[[-> ->]|[-> ->]]]; [auto|auto|done].
Qed.

Lemma insert_friends_kept a b time d : a ≠ b → friends_kept d (insert_friends a b time d).2.
Proof.
  intros Hab Hok. pose proof Hok as [F1 F2 F3 F4 F5 F6 F7].
  pose proof (insert_friends_of a b time d Hok) as Hof. cbn in *.
  destruct (insert_friend_of a b time d F1) as (_ & _ & _ & G1).
  destruct (insert_friend_of b a time _ G1) as (_ & _ & _ & G2).
  pose proof (insert_friend_unique b a time _ G1 (insert_friend_unique a b time d F1 F4)) as Gu.
  destruct (insert_friend_other a b time d) as (A1 & A2 & A3).
  destruct (insert_friend_other b a time (insert_friend a b time d)) as (B1 & B2 & B3).
  assert (Hfo : ∀ k r, t_friends (insert_friend b a time (insert_friend a b time d)) !! k = Some r →
    friend_of d (f_owner r) (f_friend r) ∨ (f_owner r = a ∧ f_friend r = b) ∨
      (f_owner r = b ∧ f_friend r = a)).
  { intros k r Hk. apply Hof. exists k, r. done. }
  split; rewrite ?B1, ?B2, ?B3, ?A1, ?A2, ?A3; auto.
  - intros k r Hk. destruct (Hfo k r Hk) as [(k' & r' & Hk' & <- & <-)|[[-> ->]|[-> ->]]]; eauto.
  - intros k r Hk. enough (friend_of (insert_friend b a time (insert_friend a b time d))
      (f_friend r) (f_owner r)) as (k' & r' & ? & ? & ?) by eauto.
    apply Hof. destruct (Hfo k r Hk) as [(k' & r' & Hk' & <- & <-)|[[-> ->]|[-> ->]]]; [|tauto..].
    left. destruct (F3 k' r' Hk') as (k2 & r2 & ? & ? & ?). by exists k2, r2.
Qed.

Lemma delete_friends_of a b d :
  let d' := (delete_friends a b d).2 in
  ∀ x y, friend_of d' x y ↔
    friend_of d x y ∧ ¬ ((x = a ∧ y = b) ∨ (x = b ∧ y = a)).
Proof.
  cbn. intros x y. unfold friend_of. db_simpl. split.
  - intros (k & r & [Hk Hp]%map_lookup_filter_Some & <- & <-). cbn in Hp. split; [eauto|].
    intros Hc. rewrite <- elem_pair_rows in Hc. by erewrite Hc in Hp.
  - intros [(k & r & Hk & <- & <-) Hne]. exists k, r. rewrite map_lookup_filter_Some. cbn.
    split; [|done]. split; [done|]. apply not_true_iff_false. by rewrite elem_pair_rows.
Qed.

Lemma delete_friends_kept a b d : friends_kept d (delete_friends a b d).2.
Proof.
  intros [F1 F2 F3 F4 F5 F6 F7]. unfold delete_friends. cbn [snd].
  split; db_simpl; auto.
  - intros k r [Hk _]%map_lookup_filter_Some. eauto.
  - intros k r [Hk _]%map_lookup_filter_Some. eauto.
  - intros k r [Hk Hp]%map_lookup_filter_Some. cbn in Hp.
    destruct (F3 k r Hk) as (k' & r' & Hk' & Ho & Hf). exists k', r'.
    rewrite map_lookup_filter_Some. split; [|done]. split; [done|]. cbn.
    apply not_true_iff_false. rewrite elem_pair_rows, Ho, Hf.
    apply not_true_iff_false in Hp. rewrite elem_pair_rows in Hp. tauto.
  - intros i j r r' [Hi _]%map_lookup_filter_Some [Hj _]%map_lookup_filter_Some. eauto.
Qed.

Lemma mark_deleted_kept a b time sq d : friends_kept d (mark_deleted a b time sq d).2.
Proof.
  intros [F1 F2 F3 F4 F5 F6 F7]. unfold mark_deleted. cbn [snd]. split; db_simpl; auto.
  intros x y. rewrite !lookup_insert. repeat case_decide; simplify_eq; auto.
Qed.

(** Settling applications. *)
Lemma settle_kept P status time d :
  status ≠ Pending →
  friends_kept d (set_friend_applications (update_where P (settled status time)) d).
Proof.
  intros Hst [F1 F2 F3 F4 F5 F6 F7]. split; db_simpl; auto.
  - intros k r. rewrite lookup_update_where.
    destruct (t_friend_applications d !! k) eqn:E; [|done]. intros _. eauto.
  - intros i j r r'. rewrite !lookup_update_where.
    destruct (t_friend_applications d !! i) as [ri|] eqn:Ei; [|done].
    destruct (t_friend_applications d !! j) as [rj|] eqn:Ej; [|done].
    intros [= <-] [= <-]. destruct (P i ri), (P j rj); cbn; try done. eauto.
Qed.

Lemma insert_application_kept a b msg time d :
  select_one (pending_row a b) (t_friend_applications d) = None →
  friends_kept d (insert_application a b msg time d).2.
Proof.
  rewrite select_one_None. intros Hno [F1 F2 F3 F4 F5 F6 F7]. unfold insert_application.
  cbn [snd]. split; db_simpl; auto.
  - intros k r [[<- _]|[_ Hk]]%lookup_insert_Some; [lia|]. apply F5 in Hk. lia.
  - assert (Hnew : ∀ k r, t_friend_applications d !! k = Some r →
      ¬ (fa_from r = a ∧ fa_to r = b ∧ fa_status r = Pending)).
    { intros k r Hk (H1 & H2 & H3). specialize (Hno k r Hk). unfold pending_row in Hno.
      by rewrite H1, H2, H3, !Z.eqb_refl in Hno. }
    intros i j r r' [[<- <-]|[_ Hi]]%lookup_insert_Some [[<- <-]|[_ Hj]]%lookup_insert_Some; cbn;
      intros; [done| | |by eapply F6]; exfalso.
    + by apply (Hnew j r' Hj).
    + by apply (Hnew i r Hi).
Qed.

(** ** Operations *)

(** Statements on tables of other components. *)
Lemma Step_other_tables {A} (u : Database → A * Database) :
  (∀ d, db_friend (u d).2 = db_friend d) → Step (stmt_step friends_kept) (update u).
Proof.
  intros Hu. apply Step_update; [apply _|]. intros d. specialize (Hu d).
  apply friends_same; unfold t_friends, t_friends_next, t_friend_applications,
    t_friend_applications_next, t_friend_chat_deletions; by rewrite Hu.
Qed.

#[export] Instance FK_lockPair a b : Step (stmt_step friends_kept) (lockPair a b).
Proof. apply Step_update; [apply _|]. intros d. by apply friends_same. Qed.

#[export] Instance FK_DeleteConversationPair id :
  Step (stmt_step friends_kept) (DeleteConversationPair id).
Proof. by apply Step_other_tables. Qed.

#[export] Instance FK_cleanup a b c : Step (stmt_step friends_kept) (QueueConversationCleanup a b c).
Proof.
  unfold QueueConversationCleanup. apply Step_bind; [apply _| |intros _]; apply Step_other_tables.
  - intros d. unfold insert_once. by destruct (select_one _ _).
  - done.
Qed.

Section quiet.
Context (Q : relation Database) `{!PreOrder Q}.
#[local] Set Default Proof Using "All".

#[global] Instance Step_user a : Step (stmt_step Q) (user a).
Proof. unfold user, find_user. apply _. Qed.
#[global] Instance Step_application id : Step (stmt_step Q) (application id).
Proof. unfold application. apply _. Qed.
#[global] Instance Step_mutate_target c : Step (stmt_step Q) (mutate_target c).
Proof. unfold mutate_target. apply _. Qed.
#[global] Instance RStep_add_application id : RStep (stmt_step Q) (add_application id).
Proof. unfold add_application. apply _. Qed.
#[global] Instance RStep_add_applications ids : RStep (stmt_step Q) (add_applications ids).
Proof. induction ids; cbn; apply _. Qed.
#[global] Instance RStep_add_friends a rows : RStep (stmt_step Q) (add_friends a rows).
Proof. induction rows; cbn; apply _. Qed.
#[global] Instance RStep_list_command c : RStep (stmt_step Q) (list_command c).
Proof. unfold list_command, list_snapshot. apply _. Qed.
#[global] Instance RStep_add_cleared rows : RStep (stmt_step Q) (add_cleared rows).
Proof. induction rows; cbn; apply _. Qed.
#[global] Instance RStep_cleared a : RStep (stmt_step Q) (clearedConversations a).
Proof. unfold clearedConversations. apply _. Qed.
#[global] Instance Step_initialize : Step (stmt_step Q) initialize.
Proof. unfold initialize. apply _. Qed.
End quiet.

(** The pending application is inserted only when there is none. *)
#[export] Instance FK_apply_friend a b msg : Step (stmt_step friends_kept) (apply_friend a b msg).
Proof.
  unfold apply_friend. apply Step_bind; [apply _..|]. intros [x|]; [apply _|].
  intros w. destruct ((query _ ≫= _) w) as [r w'] eqn:E. cbn.
  apply bind_cases in E as [(e & He & ->)|(row & w1 & Hq & E)].
  { pose proof (Step_query friends_kept (λ d, select_one (pending_row a b) (t_friend_applications d)) w) as H.
    by rewrite He in H. }
  apply query_ok in Hq as (-> & fs & ->).
  destruct (select_one _ _) as [p|] eqn:Es.
  { assert (Hs : Step (stmt_step friends_kept) (lift (A:=Z) (friend_number (FUint64 p.1)))) by apply _.
    specialize (Hs (with_faults fs w)). by rewrite E in Hs. }
  apply bind_cases in E as [(e & [=] & _)|(t & w1 & [= <- <-] & E)].
  set (w1 := with_tick _ _) in *. change (view w) with (view w1) in Es.
  change (stmt_step friends_kept w1 w').
  destruct r as [e|id].
  - apply update_err in E as (fs1 & [->| ->]); [apply stmt_step_same; [apply _|done|done]|].
    apply stmt_step_put; [apply _|]. by apply insert_application_kept.
  - apply update_ok in E as (fs1 & _ & ->). apply stmt_step_put; [apply _|].
    by apply insert_application_kept.
Qed.

#[export] Instance FK_delete_friend a b : Step (stmt_step friends_kept) (delete_friend a b).
Proof.
  unfold delete_friend. apply Step_bind; [apply _| |].
  { apply Step_update; [apply _|]. apply delete_friends_kept. }
  intros n. apply Step_bind; [apply _| |apply _]. apply Step_when; [apply _|].
  apply Step_bind; [apply _..|]. intros t. apply Step_bind; [apply _..|]. intros sq.
  apply Step_bind; [apply _| |intros _; apply Step_bind; [apply _..|intros t2]].
  - apply Step_update; [apply _|]. intros d. apply mark_deleted_kept.
  - apply Step_update; [apply _|]. intros d. by apply settle_kept.
Qed.

Lemma FK_handle_application a b id accept :
  a ≠ b → Step (stmt_step friends_kept) (handle_application a b id accept).
Proof.
  intros Hab. unfold handle_application. apply Step_bind; [apply _..|]. intros [f|]; [|apply _].
  apply Step_bind; [apply _..|]. intros st. destruct (_ && _); [apply _|].
  apply Step_when; [apply _|]. apply Step_bind; [apply _..|]. intros t.
  apply Step_bind; [apply _| |intros _; apply Step_when; [apply _|]].
  - apply Step_update; [apply _|]. intros d. apply settle_kept. by destruct accept.
  - apply Step_update; [apply _|]. intros d. by apply insert_friends_kept.
Qed.

Lemma FK_mutate_action c target :
  target ≠ cmd_actor c → RStep (stmt_step friends_kept) (mutate_action c target).
Proof.
  intros Hne. pose proof (FK_handle_application (cmd_actor c) target (cmd_applicationID c)
    (cmd_accept c) (not_eq_sym Hne)). unfold mutate_action. apply _.
Qed.

(** ** The command *)

Lemma user_ok a w u w' : user a w = (inr u, w') → pu_userID u = a ∧ ∃ fs, w' = with_faults fs w.
Proof.
  unfold user. intros (found & w1 & [-> [fs ->]]%find_user_ok & H)%bind_ok.
  destruct (select_one _ _) as [[k r]|] eqn:E; [|done]. cbn in H.
  apply ret_ok in H as [<- <-]. apply select_one_Some in E as (_ & Hm & _).
  unfold user_match in Hm. apply Z.eqb_eq in Hm. cbn. eauto.
Qed.

(** The stored application. *)
Lemma application_ok id w ap w' :
  application id w = (inr ap, w') →
  (∃ r, t_friend_applications (view w) !! id = Some r ∧ ap_id ap = id ∧
     pu_userID (ap_sender ap) = fa_from r ∧ pu_userID (ap_recipient ap) = fa_to r ∧
     ap_message ap = fa_message r ∧ ap_status ap = fa_status r) ∧ ∃ fs, w' = with_faults fs w.
Proof.
  unfold application. intros (row & w1 & [-> [fs ->]]%query_ok & H)%bind_ok.
  destruct (t_friend_applications (view w) !! id) as [r|] eqn:E; [|done]. cbn in H.
  run_ok H. simplify_eq.
  repeat match goal with H : user _ _ = (inr _, _) |- _ => apply user_ok in H as [? [? ->]] end.
  unfold friend_number, number, unsigned_field in *. cbn in *.
  repeat match goal with
  | H : (if ?b then _ else _) = inr _ |- _ => destruct b; [|done]
  end. simplify_eq. split; [|eauto]. exists r. cbn. done.
Qed.

(** Whom the command concerns besides the actor. *)
Definition target_of (c : Command) (d : Database) (t : Z) : Prop :=
  if cmd_operation c =? HandleApplication then
    ∃ r, t_friend_applications d !! cmd_applicationID c = Some r ∧ fa_to r = cmd_actor c ∧
      fa_from r = t
  else t = cmd_target c.

Lemma mutate_target_ok c w t w' :
  mutate_target c w = (inr t, w') → target_of c (view w) t ∧ t ≠ 0 ∧ t ≠ cmd_actor c.
Proof.
  unfold mutate_target, target_of. intros (t1 & w1 & H1 & H)%bind_ok.
  destruct (_ || _) eqn:E; [done|]. bool_to_prop.
  apply bind_ok in H as (u & w2 & _ & [<- <-]%ret_ok). split; [|done].
  destruct (cmd_operation c =? HandleApplication); [|by apply ret_ok in H1 as [<- _]].
  apply bind_ok in H1 as (ap & w3 & [(r & Hr & _ & Hs & Ht & _) _]%application_ok & H1).
  destruct (negb _) eqn:E; [done|]. bool_to_prop. apply ret_ok in H1 as [<- _].
  exists r. split; [done|]. split; congruence.
Qed.

Lemma mutate_target_ne c w t w' : mutate_target c w = (inr t, w') → t ≠ 0 ∧ t ≠ cmd_actor c.
Proof. by intros [_ ?]%mutate_target_ok. Qed.

Lemma RStep_InTx {S A} (m : R S A) : RStep (stmt_step friends_kept) m → ∀ s, InTx (m s).
Proof. intros Hm s. apply (Step_InTx friends_kept), Hm. Qed.

Lemma FK_mutate c : RConn friends_kept (mutate c).
Proof.
  unfold mutate. apply (RConn_up_bind friends_kept (λ t, t ≠ 0 ∧ t ≠ cmd_actor c)).
  - apply Conn_stmt; apply _.
  - intros w t w'. apply mutate_target_ne.
  - intros t [_ Hne]. pose proof (FK_mutate_action c t Hne) as Ha.
    apply RConn_bind; [apply _|apply RConn_stmt; unfold set_session; apply _|]. intros _.
    apply (RConn_rtransaction friends_kept (mutate_action c t)); [|by apply RStep_InTx].
    intros s w d0 s1 w1 d Ht Hrun Hd. destruct (Ha s w) as [HR _]. rewrite Hrun in HR. cbn in HR.
    by rewrite (view_txn d0), (view_txn d) in HR.
Qed.

#[export] Instance FK_ExecuteFriendCommand c :
  Step (db_step friends_kept) (ExecuteFriendCommand c).
Proof.
  unfold ExecuteFriendCommand. apply Step_bind; [apply _| |].
  2: { intros [reply [[]|[]]]; apply (Step_ret (db_step friends_kept)). }
  unfold checked_command. destruct (_ || _); [apply (Step_ret (db_step friends_kept))|].
  destruct (_ <? _); [apply (Step_ret (db_step friends_kept))|].
  apply Step_rconnected; [apply _|]. unfold run_command.
  apply RConn_bind; [apply _|apply RConn_stmt; apply _|]. intros _.
  apply RConn_bind; [apply _|apply RConn_stmt; apply _|]. intros _.
  apply RConn_bind; [apply _| |].
  - destruct (_ =? _); [apply RConn_stmt; apply _|].
    destruct (_ || _); [apply FK_mutate|apply RConn_stmt; apply _].
  - intros _. apply RConn_stmt; [apply _|]. apply RStep_bind; [apply _..|].
    intros _. apply _.
Qed.

(** * What the operations do *)

Lemma delete_count a b d :
  friends_ok d → 0 < count (pair_rows a b) (t_friends d) ↔ friend_of d a b.
Proof.
  intros Hok. split.
  - intros Hc. destruct (select (pair_rows a b) (t_friends d)) as [|[k r] l] eqn:E.
    { unfold count in Hc. rewrite E in Hc. cbn in Hc. lia. }
    assert (Hin : (k, r) ∈ select (pair_rows a b) (t_friends d)) by (rewrite E; constructor).
    apply elem_of_select in Hin as [Hk [Hp|[Ho Hf]]%elem_pair_rows]; [by exists k, r|].
    destruct (fo_sym d Hok k r Hk) as (k' & r' & ? & ? & ?). exists k', r'. split; [done|]. split; congruence.
  - intros (k & r & Hk & Ho & Hf).
    assert (Hz : count (pair_rows a b) (t_friends d) ≠ 0).
    { rewrite count_zero. intros Hall. specialize (Hall k r Hk).
      assert (pair_rows a b k r = true) by (apply elem_pair_rows; auto). congruence. }
    pose proof (count_nonneg (pair_rows a b) (t_friends d)). lia.
Qed.

Definition cleanup_db (a b cutoff : Z) (d : Database) : Database :=
  let id := conversation_id a b in
  (set_rows (open_message id cutoff) cancelled
     (insert_once (new_outbox_row 2 (id +:+ ":" +:+ show_int cutoff) a b id "" cutoff "")
        (delete_pair id d).2).2).2.

(** The rows of friends and marks after the first part of the deletion. *)
Definition removed (a b : Z) (d d1 : Database) : Prop :=
  (friend_of d a b ∧ ∃ time sq time2,
     d1 = (reject_pending a b time2 (mark_deleted a b time sq (delete_friends a b d).2).2).2) ∨
  (¬ friend_of d a b ∧ d1 = (delete_friends a b d).2).

Lemma delete_friend_ok a b w w' :
  friends_ok (view w) → delete_friend a b w = (inr tt, w') →
  ∃ d1, removed a b (view w) d1 ∧
    match t_friend_chat_deletions d1 !! (a, b) with
    | None => view w' = d1
    | Some m => view w' = cleanup_db a b (to_int64 (d_seq m)) d1
    end.
Proof.
  intros Hok H. unfold delete_friend in H.
  apply bind_ok in H as (n & w1 & (fs & -> & ->)%update_ok & H).
  pose proof (delete_count a b (view w) Hok) as Hcount. cbn [fst snd delete_friends] in H.
  apply bind_ok in H as (u & w2 & Hw & H).
  assert (Hd1 : removed a b (view w) (view w2)).
  { destruct (0 <? _) eqn:E; cbn [when] in Hw; bool_to_prop.
    - left. split; [tauto|].
      apply bind_ok in Hw as (t & w3 & [= <- <-] & Hw). apply bind_ok in Hw as (sq & w4 & Hs & Hw).
      assert (Hv : view w4 = (delete_friends a b (view w)).2).
      { unfold snowflake_nextId in Hs. destruct (nextId _ _ _ _) as [[[] ?] ?]; [|done|done].
        injection Hs as _ <-. rewrite view_snow, !view_tick. by rewrite view_put. }
      apply bind_ok in Hw as (u1 & w5 & (fs1 & _ & ->)%update_ok & Hw).
      apply bind_ok in Hw as (t2 & w6 & [= <- <-] & Hw).
      apply update_ok in Hw as (fs2 & _ & ->). rewrite Hv.
      eexists _, _, _. rewrite view_put, view_tick, view_put. done.
    - right. split; [rewrite <- Hcount; lia|]. apply ret_ok in Hw as [_ <-]. by rewrite view_put. }
  exists (view w2). split; [done|]. clear Hd1 Hw Hcount.
  apply bind_ok in H as (row & w3 & (-> & fs1 & ->)%query_ok & H). unfold deleted_seq in H.
  destruct (t_friend_chat_deletions (view w2) !! (a, b)) as [m|]; cbn [fmap option_fmap option_map] in H.
  - apply bind_ok in H as (cutoff & w4 & [Hc ->]%lift_ok & H).
    unfold friend_number, number, unsigned_field in Hc. destruct (0 <=? d_seq m); [|done].
    injection Hc as <-. unfold DeleteConversationPair, QueueConversationCleanup in H.
    apply bind_ok in H as (u1 & w5 & (fs2 & _ & ->)%update_ok & H).
    apply bind_ok in H as (u2 & w6 & (fs3 & _ & ->)%update_ok & H).
    apply update_ok in H as (fs4 & _ & ->). world_simpl. by rewrite ?view_put.
  - apply ret_ok in H as [_ <-]. done.
Qed.

Lemma insert_once_friend row d : db_friend (insert_once row d).2 = db_friend d.
Proof. unfold insert_once. by destruct (select_one _ _). Qed.

Lemma cleanup_friend a b cutoff d : db_friend (cleanup_db a b cutoff d) = db_friend d.
Proof. exact (insert_once_friend _ (delete_pair (conversation_id a b) d).2). Qed.

Lemma removed_friends a b d d1 :
  removed a b d d1 → ∀ x y, friend_of d1 x y ↔
    friend_of d x y ∧ ¬ ((x = a ∧ y = b) ∨ (x = b ∧ y = a)).
Proof.
  intros [(_ & t & sq & t2 & ->)|(_ & ->)]; [|apply delete_friends_of].
  apply (delete_friends_of a b d).
Qed.

(** A deletion that removes rows marks the chat and settles the applications. *)
Lemma removed_marks a b d d1 :
  removed a b d d1 → friend_of d a b →
  (∃ m, t_friend_chat_deletions d1 !! (a, b) = Some m ∧ t_friend_chat_deletions d1 !! (b, a) = Some m) ∧
  ∀ k r, t_friend_applications d1 !! k = Some r → fa_status r = Pending →
    ¬ ((fa_from r = a ∧ fa_to r = b) ∨ (fa_from r = b ∧ fa_to r = a)).
Proof.
  intros [(_ & t & sq & t2 & ->)|(Hn & _)] Hf; [|done]. unfold reject_pending, mark_deleted. cbn [snd].
  split.
  - exists (mkDeletionRow t sq). db_simpl. rewrite !lookup_insert. repeat case_decide; simplify_eq; done.
  - intros k r. db_simpl. rewrite lookup_update_where.
    change (t_friend_applications (delete_friends a b d).2) with (t_friend_applications d).
    destruct (t_friend_applications d !! k) as [r0|]; [|done]. cbn [fmap option_fmap option_map].
    destruct (_ || _) eqn:E; intros [= <-] Hp Hc; [done|].
    unfold pending_row in E. rewrite Hp in E.
    destruct Hc as [[H1 H2]|[H1 H2]]; rewrite H1, H2, !Z.eqb_refl in E; [done|].
    by rewrite orb_true_r in E.
Qed.

Lemma set_rows_lookup P f d k r' :
  t_im_outbox (set_rows P f d).2 !! k = Some r' ↔
  ∃ r, t_im_outbox d !! k = Some r ∧ r' = if P k r then f r else r.
Proof.
  unfold set_rows. db_simpl. rewrite lookup_update_where.
  destruct (t_im_outbox d !! k) as [r|]; cbn; [|by split; [|intros (? & ? & _)]].
  split; [intros [= <-]; eauto|by intros (r0 & [= <-] & ->)].
Qed.

(** What the clean-up leaves: no summary of the chat, no message of it that may
    still be delivered, and the task that will clear the other stores. *)
Lemma cleanup_effect a b cutoff d :
  let id := conversation_id a b in let d' := cleanup_db a b cutoff d in
  (∀ owner, t_im_conversations d' !! (owner, id) = None) ∧
  (∀ k r, t_im_outbox d' !! k = Some r → o_operation r = 1 → o_conversation r = id →
     o_seq r <= cutoff → o_state r ≠ 0 ∧ o_state r ≠ 1) ∧
  (∃ k r, t_im_outbox d' !! k = Some r ∧ o_operation r = 2 ∧
     o_dedupe_key r = id +:+ ":" +:+ show_int cutoff).
Proof.
  cbn zeta. unfold cleanup_db. set (row := new_outbox_row _ _ _ _ _ _ _ _).
  set (d0 := (delete_pair _ d).2). split; [|split].
  - intros owner. unfold set_rows. cbn [snd].
    change (t_im_conversations (insert_once row d0).2 !! (owner, conversation_id a b) = None).
    assert (He : t_im_conversations (insert_once row d0).2 = t_im_conversations d0)
      by (unfold insert_once; by destruct (select_one _ _)).
    rewrite He. subst d0. unfold delete_pair. db_simpl.
    apply map_lookup_filter_None. right. intros r _ Hne. by apply Hne.
  - intros k r' (r & Hr & ->)%set_rows_lookup. destruct (open_message _ _ k r) eqn:E; [done|].
    intros Ho Hc Hs. unfold open_message in E.
    rewrite Ho, Hc, bool_decide_eq_true_2 in E by done. rewrite (proj2 (Z.leb_le _ _) Hs) in E.
    cbn in E. apply orb_false_iff in E as [?%Z.eqb_neq ?%Z.eqb_neq]. done.
  - assert (Hex : ∃ k r, t_im_outbox (insert_once row d0).2 !! k = Some r ∧ o_operation r = 2 ∧
      o_dedupe_key r = conversation_id a b +:+ ":" +:+ show_int cutoff).
    { unfold insert_once. destruct (select_one _ _) as [[k r]|] eqn:E.
      - apply select_one_Some in E as (Hk & Hp & _). exists k, r. split; [done|].
        unfold same_key in Hp. by apply andb_true_iff in Hp as [?%Z.eqb_eq ?%bool_decide_eq_true].
      - exists (t_im_outbox_next d0), row. unfold insert_row. db_simpl. by rewrite lookup_insert_eq. }
    destruct Hex as (k & r & Hk & Ho & Hkey).
    exists k, (if open_message (conversation_id a b) cutoff k r then cancelled r else r).
    rewrite set_rows_lookup. split; [by exists r|]. by destruct (open_message _ _ k r).
Qed.
