(* ===== verification/FriendTheorems.v ===== *)
(** The theorems on friendships. *)
From S2P Require Import Prelude Table Snowflake Schema Effects Users Stores Conversations Samples Friendship Outbox Replies Friends FriendProofs.

(** * The invariant over any history of commands *)

(** One command in any world around the database: any failures, clock, identifiers. *)
Definition friend_step (d d' : Database) : Prop :=
  ∃ c w, w_db w = d ∧ w_txn w = None ∧ d' = w_db (ExecuteFriendCommand c w).2.

(** C37: in every database that friend commands can reach, whatever fails on the
    way, friendship is symmetric, irreflexive and stored once per direction, at
    most one application is pending from one user to another, and the deletion
    marks of a chat agree for both sides. *)
Theorem friend_tables_invariant d d'
    (Hreach : rtc friend_step d d') (Hok : friends_ok d) :
  friends_ok d'.
Proof.
  induction Hreach as [|d1 d2 d3 (c & w & <- & Hn & ->) _ IH]; [done|].
  apply IH. apply (FK_ExecuteFriendCommand c w Hn). exact Hok.
Qed.

(** * What a command that reports changed accounts has committed *)

Definition same_changed (p q : Reply) : Prop := rp_changedAccounts q = rp_changedAccounts p.

#[export] Instance same_changed_preorder : PreOrder same_changed.
Proof. split; [done|]. intros p q r H1 H2. unfold same_changed in *. congruence. Qed.

Ltac frame_set := apply RFrame_set; [apply _|]; by intros.

#[export] Instance SC_user u : RFrame same_changed (set_reply (with_user u)).
Proof. frame_set. Qed.
#[export] Instance SC_apps f : RFrame same_changed (set_reply (with_applications f)).
Proof. frame_set. Qed.
#[export] Instance SC_code s : RFrame same_changed (set_reply (with_code s)).
Proof. frame_set. Qed.
#[export] Instance SC_cleared s : RFrame same_changed (set_reply (with_cleared s)).
Proof. frame_set. Qed.

#[export] Instance SC_add_cleared rows : RFrame same_changed (add_cleared rows).
Proof. induction rows; cbn; apply _. Qed.
#[export] Instance SC_clearedConversations a : RFrame same_changed (clearedConversations a).
Proof. unfold clearedConversations. apply _. Qed.
#[export] Instance SC_mutate_action c t : RFrame same_changed (mutate_action c t).
Proof. unfold mutate_action, add_application. apply _. Qed.

(** The operations that change rows. *)
Definition is_mutation (c : Command) : Prop :=
  cmd_operation c = Apply ∨ cmd_operation c = HandleApplication ∨ cmd_operation c = DeleteFriend.

(** The committed action of a command. *)
Definition committed_action (c : Command) (w : World) (target : Z) (d : Database) : Prop :=
  target_of c (w_db w) target ∧ target ≠ cmd_actor c ∧
  ∃ s w0 s1 w1, w_txn w0 = Some (w_db w) ∧
    mutate_action c target s w0 = (inr (s1, inr tt), w1) ∧ w_txn w1 = Some d.

Lemma mutate_cases c s w s' x w' :
  w_txn w = None → mutate c s w = (inr (s', x), w') →
  same_changed s s' ∨
  x = inr tt ∧ w_txn w' = None ∧ ∃ t, committed_action c w t (w_db w') ∧
    rp_changedAccounts s' = rp_changedAccounts s ++ [cmd_actor c; t].
Proof.
  intros Hn [(e & He & _)|(s1 & t & w1 & Ht & Hrun)]%rbind_cases;
    [left; exact (RFrame_up same_changed _ _ _ _ _ _ He)|].
  apply up_cases in Ht as [Hs Ht]. cbn in Hs, Ht. subst s1.
  destruct (mutate_target_ok _ _ _ _ Ht) as (Hof & _ & Hne). unfold view in Hof. rewrite Hn in Hof.
  pose proof (Conn_stmt eq (mutate_target c) _ w Hn) as [Hdb Hn1]. rewrite Ht in Hdb, Hn1. cbn in *.
  specialize (Hn1 t eq_refl).
  apply rbind_cases in Hrun as [(e & He & _)|(s1 & u & w2 & Hs & Hrun)];
    [left; exact (RFrame_up same_changed _ _ _ _ _ _ He)|].
  apply up_cases in Hs as [Hs1 Hs]. cbn in Hs1, Hs. subst s1.
  unfold set_session in Hs. apply query_ok in Hs as (_ & fs & ->).
  change (rtransaction (mutate_action c t) (with_applications (λ _, [])) (with_changed [cmd_actor c; t])
    s (with_faults fs w1) = (inr (s', x), w')) in Hrun.
  destruct x as [e|[]].
  { left. refine (rtransaction_err same_changed (mutate_action c t) (with_applications (λ _, [])) _ _ _ _ _ _ _ Hrun).
    by intros p. }
  right. assert (Hin : ∀ s, InTx (mutate_action c t s)) by (apply RStep_InTx, FK_mutate_action; done).
  apply rtransaction_ok in Hrun as (fs2 & s1 & w2 & Ha & Hd & Hn2 & ->); [|done|done].
  split; [done|]. split; [done|]. exists t. split.
  - split; [done|]. split; [done|]. exists s, (tx_start fs2 (with_faults fs w1)), s1, w2.
    split; [|done]. by rewrite Hdb.
  - cbn. f_equal. exact (SC_mutate_action c t _ _ _ _ _ Ha).
Qed.

(** The same of the command's body, on a connection without a transaction. *)
Lemma run_command_changed c p x w w' :
  is_mutation c → w_txn w = None → run_command c empty_reply w = (inr (p, x), w') →
  rp_changedAccounts p ≠ [] →
  ∃ t, committed_action c w t (w_db w') ∧ rp_changedAccounts p = [cmd_actor c; t].
Proof.
  intros Hm Hna Hrun Hp.
  unfold run_command in Hrun.
  apply rbind_cases in Hrun as [(e & He & _)|(s1 & u & w3 & Hi & Hrun)];
    [by apply up_cases in He as [Hs _]; cbn in Hs; subst p|].
  apply up_cases in Hi as [Hs1 Hi]. cbn in Hs1, Hi. subst s1.
  pose proof (Conn_stmt eq initialize _ w Hna) as [Hdb Hn3]. rewrite Hi in Hdb, Hn3. cbn in Hdb, Hn3.
  specialize (Hn3 u eq_refl).
  apply rbind_cases in Hrun as [(e & He & _)|(s1 & u1 & w4 & Hu & Hrun)];
    [by apply up_cases in He as [Hs _]; cbn in Hs; subst p|].
  apply up_cases in Hu as [Hs1 Hu]. cbn in Hs1, Hu. subst s1.
  pose proof (Conn_stmt eq (user (cmd_actor c)) _ w3 Hn3) as [Hdb4 Hn4]. rewrite Hu in Hdb4, Hn4.
  cbn in Hdb4, Hn4. specialize (Hn4 u1 eq_refl).
  assert (Hbr : (if cmd_operation c =? LookupUser then
     if cmd_target c =? 0 then rthrow (FriendError "INVALID_TARGET" "Invalid account")
     else u ← up (user (cmd_target c)); set_reply (with_user u)
   else if (cmd_operation c =? Apply) || (cmd_operation c =? HandleApplication) ||
           (cmd_operation c =? DeleteFriend)
   then mutate c else list_command c) = mutate c) by by destruct Hm as [-> | [-> | ->]].
  rewrite Hbr in Hrun. clear Hbr.
  assert (Hfr : RFrame same_changed ((if (cmd_operation c =? ListFriends) || (cmd_operation c =? DeleteFriend)
    then clearedConversations (cmd_actor c) else mret tt);; set_reply (with_code "0"))) by apply _.
  apply rbind_cases in Hrun as [(e & He & _)|(s1 & [] & w5 & Hmut & Hrun)].
  { apply mutate_cases in He as [He|(Hx & _)]; [|done|done].
    unfold same_changed in He. cbn in He. by rewrite He in Hp. }
  apply mutate_cases in Hmut as [Hs|(_ & Hn5 & t & Hc & Ht)]; [| |done].
  { apply Hfr in Hrun. unfold same_changed in *. cbn in *. by rewrite Hrun, Hs in Hp. }
  exists t. pose proof (Hfr _ _ _ _ _ Hrun) as Hsame.
  rewrite Hsame, Ht. split; [|done].
  assert (Hq : RStep (stmt_step eq) ((if (cmd_operation c =? ListFriends) || (cmd_operation c =? DeleteFriend)
    then clearedConversations (cmd_actor c) else mret tt);; set_reply (with_code "0"))).
  { apply RStep_bind; [apply _..|]. intros _. apply _. }
  pose proof (RConn_stmt eq _ Hq s1 w5 Hn5) as [Hdb5 _]. rewrite Hrun in Hdb5. cbn in Hdb5.
  unfold committed_action in *. rewrite <- Hdb5, Hdb, Hdb4. exact Hc.
Qed.

(** A mutation whose reply names changed accounts has been committed, even when
    what follows failed. *)
Lemma changed_committed c w reply w' :
  w_txn w = None → is_mutation c → ExecuteFriendCommand c w = (inr reply, w') →
  rp_changedAccounts reply ≠ [] →
  ∃ t, committed_action c w t (w_db w') ∧ rp_changedAccounts reply = [cmd_actor c; t].
Proof.
  intros Hn Hm Hrun Hch. unfold ExecuteFriendCommand in Hrun.
  apply bind_ok in Hrun as ([p x] & w1 & Hrun & [= <- <-]).
  assert (Hp : rp_changedAccounts p ≠ []) by by destruct x as [[]|[]].
  enough (∃ t, committed_action c w t (w_db w1) ∧ rp_changedAccounts p = [cmd_actor c; t])
    as (t & ? & ?) by (exists t; split; [done|]; by destruct x as [[]|[]]).
  clear Hch. unfold checked_command in Hrun.
  destruct (_ || _); [by injection Hrun as <- _ _|]. destruct (_ <? _); [by injection Hrun as <- _ _|].
  apply bind_ok in Hrun as (r & w2 & Hc%catch_ok & Hrun).
  destruct r as [e|px]; [by injection Hrun as <- _ _|]. apply ret_ok in Hrun as [-> ->].
  apply with_connection_ok in Hc as (fs & w2 & Hrun & ->). cbn [w_db with_txn].
  set (wa := with_faults _ _) in *. assert (Hna : w_txn wa = None) by done.
  change (w_db w) with (w_db wa) in *. assert (Hca : committed_action c w = committed_action c wa) by done.
  rewrite Hca. by eapply run_command_changed.
Qed.

(** * Deleting a friend *)

Lemma friend_of_same d d' : db_friend d' = db_friend d → ∀ x y, friend_of d' x y ↔ friend_of d x y.
Proof. intros He x y. unfold friend_of, t_friends. by rewrite He. Qed.

(** The state after a deletion between [a] and [b]. *)
Definition unfriended_state (a b : Z) (d d' : Database) : Prop :=
  (∀ x y, friend_of d' x y ↔ friend_of d x y ∧ ¬ ((x = a ∧ y = b) ∨ (x = b ∧ y = a))) ∧
  (friend_of d a b →
     is_Some (t_friend_chat_deletions d' !! (a, b)) ∧
     t_friend_chat_deletions d' !! (b, a) = t_friend_chat_deletions d' !! (a, b) ∧
     ∀ k r, t_friend_applications d' !! k = Some r → fa_status r = Pending →
       ¬ ((fa_from r = a ∧ fa_to r = b) ∨ (fa_from r = b ∧ fa_to r = a))) ∧
  ∀ m, t_friend_chat_deletions d' !! (a, b) = Some m →
    (∀ owner, t_im_conversations d' !! (owner, conversation_id a b) = None) ∧
    (∀ k r, t_im_outbox d' !! k = Some r → o_operation r = 1 → o_conversation r = conversation_id a b →
       o_seq r <= to_int64 (d_seq m) → o_state r ≠ 0 ∧ o_state r ≠ 1) ∧
    ∃ k r, t_im_outbox d' !! k = Some r ∧ o_operation r = 2 ∧
      o_dedupe_key r = conversation_id a b +:+ ":" +:+ show_int (to_int64 (d_seq m)).

Lemma removed_unfriended a b d d1 d' :
  removed a b d d1 →
  match t_friend_chat_deletions d1 !! (a, b) with
  | None => d' = d1
  | Some m => d' = cleanup_db a b (to_int64 (d_seq m)) d1
  end → unfriended_state a b d d'.
Proof.
  intros Hrem Hd'. assert (Hf : db_friend d' = db_friend d1).
  { destruct (t_friend_chat_deletions d1 !! (a, b)); rewrite Hd'; [apply cleanup_friend|done]. }
  split; [|split].
  - intros x y. rewrite (friend_of_same d1 d' Hf). by apply removed_friends.
  - intros Hfr. destruct (removed_marks a b d d1 Hrem Hfr) as [(m & H1 & H2) H3].
    unfold t_friend_chat_deletions, t_friend_applications in *. rewrite Hf, H1, H2. split; [by eexists|done].
  - intros m Hm. assert (Hm1 : t_friend_chat_deletions d1 !! (a, b) = Some m).
    { unfold t_friend_chat_deletions in *. by rewrite <- Hf. }
    rewrite Hm1 in Hd'. rewrite Hd'. apply cleanup_effect.
Qed.

Lemma not_friend_may_exchange d a b sq :
  friends_ok d → ¬ friend_of d a b → ¬ may_exchange d a b sq.
Proof.
  intros Hok Hno (_ & Hc & _). apply Hno, (delete_count a b d Hok). lia.
Qed.

Lemma delete_action_ok c t s w0 s1 w1 d d0 :
  cmd_operation c = DeleteFriend → w_txn w0 = Some d0 → friends_ok d0 →
  mutate_action c t s w0 = (inr (s1, inr tt), w1) → w_txn w1 = Some d →
  unfriended_state (cmd_actor c) t d0 d.
Proof.
  intros Hop H0 Hok Hrun Hd. unfold mutate_action in Hrun.
  apply rbind_cases in Hrun as [(e & He & Hx)|(s2 & u & w2 & Hl & Hrun)]; [done|].
  apply up_cases in Hl as [Hs Hl]. cbn in Hs, Hl. subst s2.
  apply lockPair_ok in Hl as [fs ->]. rewrite Hop in Hrun.
  change (DeleteFriend =? Apply) with false in Hrun. change (DeleteFriend =? DeleteFriend) with true in Hrun.
  cbn iota in Hrun. apply up_cases in Hrun as [_ Hrun]. cbn in Hrun.
  set (wl := put _ _) in *. assert (Hv : view wl = lock_row (cmd_actor c) t d0).
  { unfold wl. by rewrite view_put, (view_txn d0). }
  apply delete_friend_ok in Hrun as (d1 & Hrem & Hd1).
  2: { rewrite Hv. eapply (friends_same d0); done. }
  rewrite Hv, (view_txn d) in * by done.
  destruct (removed_unfriended (cmd_actor c) t _ d1 d Hrem Hd1) as (K1 & K2 & K3). done.
Qed.

(** A deletion that reports its accounts is complete: the friendship is gone in
    both directions and no other changed; if there was one, the chat is marked for
    both sides and no application is pending between them; whenever the chat is
    marked, its summaries are gone, no message up to the mark can still be
    delivered, and the task that clears the other stores is queued; until they are
    friends again no message between them is admitted. *)
Theorem delete_friend_spec c w reply w'
    (Hn : w_txn w = None) (Hok : friends_ok (w_db w)) (Hop : cmd_operation c = DeleteFriend)
    (Hrun : ExecuteFriendCommand c w = (inr reply, w')) (Hch : rp_changedAccounts reply ≠ []) :
  let a := cmd_actor c in let b := cmd_target c in
  rp_changedAccounts reply = [a; b] ∧ unfriended_state a b (w_db w) (w_db w') ∧
  ∀ sq, ¬ may_exchange (w_db w') a b sq.
Proof.
  cbn zeta. assert (Hm : is_mutation c) by (right; by right).
  destruct (changed_committed c w reply w' Hn Hm Hrun Hch)
    as (t & (Hof & Hne & s & w0 & s1 & w1 & H0 & Hact & Hd) & Hacc).
  unfold target_of in Hof. rewrite Hop in Hof. cbn in Hof. subst t.
  pose proof (delete_action_ok c _ _ _ _ _ _ _ Hop H0 Hok Hact Hd) as Hst.
  split; [done|]. split; [done|]. intros sq. apply not_friend_may_exchange.
  - assert (Hk : friends_kept (w_db w) (w_db w')).
    { pose proof (FK_ExecuteFriendCommand c w Hn) as [Hk _]. by rewrite Hrun in Hk. }
    by apply Hk.
  - rewrite (proj1 Hst). tauto.
Qed.

(** * Handling an application *)

Definition wanted (c : Command) : Z := if cmd_accept c then Accepted else Rejected.

(** The state after the recipient [a] has settled the application [id], row [r]. *)
Definition settled_state (c : Command) (r : FriendApplicationRow) (d d' : Database) : Prop :=
  (fa_status r = Pending →
     (∃ time, t_friend_applications d' =
        <[cmd_applicationID c := settled (wanted c) time r]> (t_friend_applications d)) ∧
     ∀ x y, friend_of d' x y ↔ friend_of d x y ∨ (cmd_accept c = true ∧
       ((x = fa_from r ∧ y = fa_to r) ∨ (x = fa_to r ∧ y = fa_from r)))) ∧
  (fa_status r ≠ Pending → fa_status r = wanted c ∧
     t_friend_applications d' = t_friend_applications d ∧ t_friends d' = t_friends d).

Lemma settle_application_db status time id d r :
  t_friend_applications d !! id = Some r → fa_status r = Pending →
  t_friend_applications (settle_application status time id d).2 =
    <[id := settled status time r]> (t_friend_applications d).
Proof.
  intros Hr Hp. unfold settle_application. db_simpl. apply map_eq. intros k.
  rewrite lookup_update_where. destruct (decide (k = id)) as [->|Hne].
  - rewrite Hr, lookup_insert_eq. cbn. by rewrite Z.eqb_refl, Hp.
  - rewrite lookup_insert_ne by done. destruct (t_friend_applications d !! k); [|done]. cbn.
    by rewrite (proj2 (Z.eqb_neq k id)).
Qed.

Lemma handle_application_ok c a b w w' :
  friends_ok (view w) →
  handle_application a b (cmd_applicationID c) (cmd_accept c) w = (inr tt, w') →
  ∃ r, t_friend_applications (view w) !! cmd_applicationID c = Some r ∧
    (fa_from r = b → fa_to r = a → settled_state c r (view w) (view w')).
Proof.
  intros Hok H. unfold handle_application in H.
  apply bind_ok in H as (row & w1 & (-> & fs & ->)%query_ok & H).
  destruct (t_friend_applications (view w) !! cmd_applicationID c) as [r|] eqn:Er; [|done].
  exists r. split; [done|]. intros <- <-. cbn [fmap option_fmap option_map compose] in H.
  apply bind_ok in H as (st & w1 & [Hs ->]%lift_ok & H).
  unfold friend_number, number, unsigned_field in Hs. cbn in Hs.
  destruct (0 <=? fa_status r); [|done]. injection Hs as <-. fold (wanted c) in H.
  destruct (negb _ && _) eqn:E1; [done|].
  destruct (fa_status r =? Pending) eqn:E2; cbn [when] in H; bool_to_prop.
  - split; [|done]. intros _. apply bind_ok in H as (time & w1 & [= <- <-] & H).
    apply bind_ok in H as (u & w2 & (fs1 & _ & ->)%update_ok & H).
    rewrite view_tick, view_faults in H. set (time := w_clock _ _) in *.
    set (d1 := (settle_application (wanted c) time (cmd_applicationID c) (view w)).2) in *.
    assert (Hd1 : t_friend_applications d1 = <[cmd_applicationID c := settled (wanted c) time r]>
      (t_friend_applications (view w))) by by apply settle_application_db.
    assert (Hk1 : friends_ok d1) by (apply settle_kept; [by destruct c as [? ? ? ? ? []]|done]).
    destruct (cmd_accept c) eqn:Ea; cbn [when] in H.
    + apply update_ok in H as (fs2 & _ & ->). rewrite !view_put. split.
      * exists time. unfold insert_friends. cbn [snd].
        rewrite (proj1 (insert_friend_other _ _ _ _)), (proj1 (insert_friend_other _ _ _ _)). done.
      * intros x y. rewrite insert_friends_of by done.
        assert (Hf : friend_of d1 x y ↔ friend_of (view w) x y) by done. rewrite Hf. tauto.
    + apply ret_ok in H as [_ <-]. rewrite view_put. split; [by exists time|].
      intros x y. split; [by left|]. by intros [?|[? _]].
  - split; [done|]. intros _. apply ret_ok in H as [_ <-].
    apply andb_false_iff in E1 as [E1|E1]; apply negb_false_iff in E1; [done|].
    by apply Z.eqb_eq in E1.
Qed.

(** Only the recipient settles an application.  A pending one gets the wanted
    status and, when accepted, the two users become friends, no friendship being
    lost; one that was settled the same way before is left alone with every
    friendship (so a repeated acceptance does not bring a deleted friend back), and
    one settled the other way never reports changed accounts. *)
Theorem handle_application_spec c w reply w'
    (Hn : w_txn w = None) (Hok : friends_ok (w_db w)) (Hop : cmd_operation c = HandleApplication)
    (Hrun : ExecuteFriendCommand c w = (inr reply, w')) (Hch : rp_changedAccounts reply ≠ []) :
  ∃ r, t_friend_applications (w_db w) !! cmd_applicationID c = Some r ∧
    fa_to r = cmd_actor c ∧ rp_changedAccounts reply = [cmd_actor c; fa_from r] ∧
    settled_state c r (w_db w) (w_db w').
Proof.
  assert (Hm : is_mutation c) by (right; by left).
  destruct (changed_committed c w reply w' Hn Hm Hrun Hch)
    as (t & (Hof & Hne & s & w0 & s1 & w1 & H0 & Hact & Hd) & Hacc).
  unfold target_of in Hof. rewrite Hop in Hof. destruct Hof as (r & Hr & Hto & <-).
  exists r. split; [done|]. split; [done|]. split; [done|].
  unfold mutate_action in Hact.
  apply rbind_cases in Hact as [(e & He & Hx)|(s2 & u & w2 & Hl & Hact)]; [done|].
  apply up_cases in Hl as [Hs Hl]. cbn in Hs, Hl. subst s2.
  apply lockPair_ok in Hl as [fs ->]. rewrite Hop in Hact.
  change (HandleApplication =? Apply) with false in Hact.
  change (HandleApplication =? DeleteFriend) with false in Hact. cbn iota in Hact.
  apply rbind_cases in Hact as [(e & He & Hx)|(s3 & u2 & w2 & Hh & Hact)]; [done|].
  apply up_cases in Hh as [_ Hh]. cbn in Hh. destruct u2.
  set (wl := put _ _) in *. assert (Hv : view wl = lock_row (cmd_actor c) (fa_from r) (w_db w)).
  { unfold wl. by rewrite view_put, (view_txn (w_db w)). }
  apply handle_application_ok in Hh as (r' & Hr' & Hst).
  2: { rewrite Hv. eapply (friends_same (w_db w)); done. }
  rewrite Hv in Hr', Hst.
  change (t_friend_applications (lock_row (cmd_actor c) (fa_from r) (w_db w)))
    with (t_friend_applications (w_db w)) in Hr'. rewrite Hr in Hr'. injection Hr' as <-.
  specialize (Hst eq_refl Hto).
  assert (Hq : RStep (stmt_step eq) (add_application (cmd_applicationID c))) by apply _.
  destruct (Hq s3 w2) as [Hv2 _]. rewrite Hact in Hv2. cbn in Hv2.
  rewrite (view_txn (w_db w') w1) in Hv2 by done. rewrite Hv2 in Hst. exact Hst.
Qed.

(** * Witnesses *)

Definition sample_user (account : Z) (nickname : string) : UserRow :=
  mkUserRow account nickname "" "" "" sample_now sample_now None.
Definition users_db : Database :=
  set_users (λ _, <[1 := sample_user 7 "ann"]> (<[2 := sample_user 9 "bob"]> ∅)) empty_db.

Lemma users_db_ok : friends_ok users_db.
Proof.
  split; intros; change (t_friends users_db) with (∅ : gmap Z FriendRow) in *;
    change (t_friend_applications users_db) with (∅ : gmap Z FriendApplicationRow) in *;
    try (by rewrite lookup_empty in *).
  all: change (t_friend_chat_deletions users_db) with (∅ : gmap (Z * Z) DeletionRow).
  by rewrite !lookup_empty.
Qed.

Definition apply_cmd : Command := mkCommand 7 Apply 9 0 "hello" false 0 0 0.
Definition accept_cmd : Command := mkCommand 9 HandleApplication 0 1 "" true 0 0 0.
Definition delete_cmd : Command := mkCommand 7 DeleteFriend 9 0 "" false 0 0 0.

(** 7 applies, 9 accepts, 7 deletes. *)
Definition friend_w0 : World := sample_world users_db [].
Definition friend_w1 : World := (ExecuteFriendCommand apply_cmd friend_w0).2.
Definition friend_w2 : World := (ExecuteFriendCommand accept_cmd friend_w1).2.
Definition friend_w3 : World := (ExecuteFriendCommand delete_cmd friend_w2).2.

Lemma friend_w1_ok : friends_ok (w_db friend_w1).
Proof. exact (proj1 (FK_ExecuteFriendCommand apply_cmd friend_w0 eq_refl) users_db_ok). Qed.
Lemma friend_w1_txn : w_txn friend_w1 = None.
Proof. exact (proj2 (FK_ExecuteFriendCommand apply_cmd friend_w0 eq_refl)). Qed.
Lemma friend_w2_ok : friends_ok (w_db friend_w2).
Proof. exact (proj1 (FK_ExecuteFriendCommand accept_cmd friend_w1 friend_w1_txn) friend_w1_ok). Qed.
Lemma friend_w2_txn : w_txn friend_w2 = None.
Proof. exact (proj2 (FK_ExecuteFriendCommand accept_cmd friend_w1 friend_w1_txn)). Qed.

Lemma friend_tables_invariant_witness : friends_ok (w_db friend_w3).
Proof.
  apply (friend_tables_invariant users_db); [|exact users_db_ok].
  eapply rtc_l; [by exists apply_cmd, friend_w0|].
  eapply rtc_l; [exists accept_cmd, friend_w1; split; [reflexivity|split; [exact friend_w1_txn|reflexivity]]|].
  eapply rtc_l; [|apply rtc_refl].
  exists delete_cmd, friend_w2. split; [reflexivity|split; [exact friend_w2_txn|reflexivity]].
Defined.

Definition accept_reply : Reply :=
  match (ExecuteFriendCommand accept_cmd friend_w1).1 with inr r => r | inl _ => empty_reply end.
Definition delete_reply : Reply :=
  match (ExecuteFriendCommand delete_cmd friend_w2).1 with inr r => r | inl _ => empty_reply end.

Lemma handle_application_spec_witness :
  ∃ r, t_friend_applications (w_db friend_w1) !! 1 = Some r ∧
    settled_state accept_cmd r (w_db friend_w1) (w_db friend_w2).
Proof.
  destruct (handle_application_spec accept_cmd friend_w1 accept_reply friend_w2)
    as (r & Hr & _ & _ & Hst).
  - exact friend_w1_txn.
  - exact friend_w1_ok.
  - reflexivity.
  - vm_compute. reflexivity.
  - vm_compute. discriminate.
  - exists r. split; [exact Hr|exact Hst].
Defined.

Lemma delete_friend_spec_witness : unfriended_state 7 9 (w_db friend_w2) (w_db friend_w3).
Proof.
  apply (delete_friend_spec delete_cmd friend_w2 delete_reply friend_w3).
  - exact friend_w2_txn.
  - exact friend_w2_ok.
  - reflexivity.
  - vm_compute. reflexivity.
  - vm_compute. discriminate.
Defined.
