(* ===== verification/PairLocks.v ===== *)
(** The pair lock ([lockPair], [WithFriendMessage], [mutate],
    [src/storage/mysqlhandler.cpp] 736-743, 767-868 and 938-992) between transactions
    that run at once.

    [Friendship] and [Friends] run a transaction alone.  Here the transactions that take
    the lock of a pair are threads: one that waits for the lock does not move, one that
    has it keeps it until COMMIT or ROLLBACK.  The point of the lock: while the action
    of [WithFriendMessage] runs, for as long as it takes, the two are friends, and the
    message is younger than the last deletion of their chat.  The check is one step (of
    its statements, the two on friendships read rows that only the lock's holder
    changes); a [mutate] is its effect when it commits. *)
From S2P Require Import Prelude Table Snowflake Schema Effects Users Stores Conversations Friendship Outbox Replies Friends FriendProofs Samples FriendTheorems.

(** * The state *)

Inductive pair_pc :=
| Guarding (m : MsgData) (undelivered : bool)   (* has the lock, checks next *)
| Acting (m : MsgData)                          (* the action runs, then COMMIT *)
| Mutating (actor target : Z).                  (* [mutate], between the lock and COMMIT *)

Record Pairs := mkPairs {
  database : Database;          (* committed *)
  threads : gmap nat pair_pc;
}.

(** The pair whose lock the thread has. *)
Definition pair_of (pc : pair_pc) : Z * Z :=
  match pc with
  | Guarding m _ | Acting m => pair_key (sendID m) (recvID m)
  | Mutating actor target => pair_key actor target
  end.

Definition unlocked (s : Pairs) (p : Z * Z) : Prop :=
  ∀ t pc, threads s !! t = Some pc → pair_of pc ≠ p.

Definition set_pc (t : nat) (pc : pair_pc) (s : Pairs) : Pairs :=
  mkPairs (database s) (<[t := pc]> (threads s)).

Definition release (t : nat) (d : Database) (s : Pairs) : Pairs := mkPairs d (delete t (threads s)).

(** What the check of [WithFriendMessage] decides. *)
Definition after_check (t : nat) (m : MsgData) (r : exn + bool) (s : Pairs) : Pairs :=
  match r with
  | inr true => set_pc t (Acting m) s
  | _ => release t (database s) s
  end.

(** * Changes of friendships *)

(** Nothing about another pair changes. *)
Definition keeps_pair (x y : Z) (d d' : Database) : Prop :=
  (friend_of d' x y ↔ friend_of d x y) ∧ deleted_seq x y d' = deleted_seq x y d.

Definition pair_only (p : Z * Z) (d d' : Database) : Prop :=
  friends_ok d → friends_ok d' ∧ ∀ x y, pair_key x y ≠ p → keeps_pair x y d d'.

(** Everything but [mutate] leaves the friendships and the deletions alone. *)
Definition no_pair (d d' : Database) : Prop :=
  friends_ok d → friends_ok d' ∧ ∀ x y, keeps_pair x y d d'.

(** * Steps *)

Inductive pair_step (s : Pairs) : Pairs → Prop :=
| pair_guard t m undelivered :
    threads s !! t = None → unlocked s (pair_key (sendID m) (recvID m)) →
    pair_step s (set_pc t (Guarding m undelivered) s)
| pair_check t m undelivered w :
    threads s !! t = Some (Guarding m undelivered) →
    view w = lock_row (sendID m) (recvID m) (database s) →
    pair_step s (after_check t m (message_allowed m undelivered w).1 s)
| pair_acted t m :
    threads s !! t = Some (Acting m) →
    pair_step s (release t (lock_row (sendID m) (recvID m) (database s)) s)
| pair_mutate t actor target :
    threads s !! t = None → unlocked s (pair_key actor target) →
    pair_step s (set_pc t (Mutating actor target) s)
| pair_mutated t actor target d :
    threads s !! t = Some (Mutating actor target) →
    pair_only (pair_key actor target) (database s) d → pair_step s (release t d s)
| pair_rollback t pc : threads s !! t = Some pc → pair_step s (release t (database s) s)
| pair_others d : no_pair (database s) d → pair_step s (mkPairs d (threads s)).

(** * The guarantee *)

Definition guarded (d : Database) (m : MsgData) : Prop :=
  sendID m ≠ recvID m ∧ friend_of d (sendID m) (recvID m) ∧ friend_of d (recvID m) (sendID m) ∧
  ∀ s, deleted_seq (sendID m) (recvID m) d = Some s → s < to_uint64 (seq m).

Lemma pair_key_sym a b : pair_key a b = pair_key b a.
Proof. unfold pair_key. by rewrite Z.min_comm, Z.max_comm. Qed.

Lemma guarded_kept d d' m :
  keeps_pair (sendID m) (recvID m) d d' → keeps_pair (recvID m) (sendID m) d d' →
  guarded d m → guarded d' m.
Proof.
  intros [F1 D1] [F2 _] (Hne & Hf & Hf' & Hd). split; [done|]. rewrite F1, F2, D1. done.
Qed.

(** Two rows of a pair: the friendship in both directions. *)
Lemma counted_friends d a b :
  friends_ok d → count (pair_rows a b) (t_friends d) = 2 → friend_of d a b ∧ friend_of d b a.
Proof.
  intros Hok Hc.
  assert (Hone : friend_of d a b ∨ friend_of d b a).
  { destruct (decide (count (pair_rows a b) (t_friends d) = 0)) as [|Hn]; [lia|].
    unfold count in Hc. destruct (select (pair_rows a b) (t_friends d)) as [|[k r] l] eqn:E; [done|].
    assert (Hin : (k, r) ∈ select (pair_rows a b) (t_friends d)) by (rewrite E; by left).
    apply elem_of_select in Hin as [Hk Hp]. apply elem_pair_rows in Hp as [[? ?]|[? ?]]; [left|right]; by exists k, r. }
  assert (Hsym : ∀ x y, friend_of d x y → friend_of d y x).
  { intros x y (k & r & Hk & <- & <-). destruct (fo_sym _ Hok k r Hk) as (k' & r' & ? & ? & ?). by exists k', r'. }
  destruct Hone; auto.
Qed.

Lemma message_allowed_guards m b w w' :
  friends_ok (view w) → message_allowed m b w = (inr true, w') → guarded (view w) m.
Proof.
  intros Hok. unfold message_allowed. intros Hrun.
  apply bind_ok in Hrun as (n & w1 & (-> & fs & ->)%query_ok & Hrun).
  apply bind_ok in Hrun as (n & w1 & [Hn ->]%lift_ok & Hrun).
  unfold count_pair, unsigned_field in Hn. rewrite (proj2 (Z.leb_le 0 _)) in Hn by apply count_nonneg.
  injection Hn as <-. destruct (_ || _) eqn:E; [done|]. bool_to_prop.
  apply bind_ok in Hrun as (row & w1 & (-> & fs1 & ->)%query_ok & Hrun). rewrite view_faults in Hrun.
  apply bind_ok in Hrun as (newer & w1 & Hnew & Hrun).
  assert (newer = true) as ->.
  { destruct newer; [done|]. cbn in Hrun. by apply ret_ok in Hrun as [? _]. }
  destruct (counted_friends (view w) (sendID m) (recvID m)) as [Hf Hf']; [done|done|].
  split_and!; [done|done|done|]. intros s Hs. rewrite Hs in Hnew.
  apply bind_ok in Hnew as (s' & w2 & [Hu ->]%lift_ok & Hnew).
  unfold unsigned_field in Hu. destruct (0 <=? s); [|done]. injection Hu as <-.
  apply ret_ok in Hnew as [Hnew _]. by apply Z.ltb_lt.
Qed.

(** * The invariant *)

Record pairs_inv (s : Pairs) : Prop := {
  pa_friends : friends_ok (database s);
  pa_apart t1 t2 pc1 pc2 : t1 ≠ t2 → threads s !! t1 = Some pc1 → threads s !! t2 = Some pc2 →
    pair_of pc1 ≠ pair_of pc2;
  pa_acting t m : threads s !! t = Some (Acting m) → guarded (database s) m;
}.

Lemma pairs_init d : friends_ok d → pairs_inv (mkPairs d ∅).
Proof. by split. Qed.

(** A thread that takes a step with its lock. *)
Lemma inv_set_pc s t pc :
  pairs_inv s → (∀ t' pc', t' ≠ t → threads s !! t' = Some pc' → pair_of pc' ≠ pair_of pc) →
  (∀ m, pc = Acting m → guarded (database s) m) → pairs_inv (set_pc t pc s).
Proof.
  intros [Hf Ha Hg] Hp Hact. split; cbn; [done|..].
  - intros t1 t2 pc1 pc2 Hne [(<- & <-)|(N1 & H1)]%lookup_insert_Some [(<- & <-)|(N2 & H2)]%lookup_insert_Some.
    + done.
    + apply not_eq_sym. by eapply Hp.
    + by eapply Hp.
    + exact (Ha t1 t2 _ _ Hne H1 H2).
  - intros t' m [(<- & ->)|(_ & H)]%lookup_insert_Some; [by apply Hact|by eapply Hg].
Qed.

(** The tables change; what the acting threads rely on stays. *)
Lemma inv_release s t d :
  pairs_inv s → friends_ok d →
  (∀ t' m, t' ≠ t → threads s !! t' = Some (Acting m) → guarded d m) → pairs_inv (release t d s).
Proof.
  intros [Hf Ha Hg] Hd Hk. split; cbn; [done|..].
  - intros t1 t2 pc1 pc2 Hne [_ H1]%lookup_delete_Some [_ H2]%lookup_delete_Some. exact (Ha t1 t2 _ _ Hne H1 H2).
  - intros t' m [Hne H]%lookup_delete_Some. by apply (Hk t').
Qed.

Lemma lock_row_ok a b d : friends_ok d → friends_ok (lock_row a b d).
Proof. intros []. by split. Qed.

Lemma lock_row_keeps a b d m : guarded d m → guarded (lock_row a b d) m.
Proof. done. Qed.

Lemma pairs_inv_step s s' : pairs_inv s → pair_step s s' → pairs_inv s'.
Proof.
  intros Hs. pose proof Hs as [Hf Ha Hg].
  intros [t m b Ht Hfree|t m b w Ht Hv|t m Ht|t a b Ht Hfree|t a b d Ht Hd|t pc Ht|d Hd].
  - apply inv_set_pc; [done| |done]. intros t' pc' _ Hpc. exact (Hfree t' pc' Hpc).
  - unfold after_check. destruct (message_allowed m b w) as [[e|[]] w'] eqn:E; cbn.
    + apply inv_release; [done|done|]. intros t' m' _. apply Hg.
    + apply inv_set_pc; [done|..].
      * intros t' pc' Hne Hpc. exact (Ha t' t pc' _ Hne Hpc Ht).
      * intros ? [= <-]. apply message_allowed_guards in E; [|rewrite Hv; by apply lock_row_ok].
        by rewrite Hv in E.
    + apply inv_release; [done|done|]. intros t' m' _. apply Hg.
  - apply inv_release; [done|by apply lock_row_ok|]. intros t' m' _ Hx. apply lock_row_keeps. by eapply Hg.
  - apply inv_set_pc; [done| |done]. intros t' pc' _ Hpc. exact (Hfree t' pc' Hpc).
  - destruct (Hd Hf) as [Hd' Hk]. apply inv_release; [done|done|]. intros t' m Hne Hx.
    pose proof (Ha t' t _ _ Hne Hx Ht) as Hp. cbn in Hp.
    apply (guarded_kept (database s)); [by apply Hk|apply Hk; by rewrite pair_key_sym|by eapply Hg].
  - apply inv_release; [done|done|]. intros t' m' _. apply Hg.
  - destruct (Hd Hf) as [Hd' Hk]. split; cbn; [done|done|]. intros t m Hx.
    apply (guarded_kept (database s)); [apply Hk|apply Hk|by eapply Hg].
Qed.

(** C36: the pair lock keeps the guard: whatever transactions on friends and messages run
    at once, while a thread runs the action of [WithFriendMessage] for a message, its
    sender and its receiver are friends in both directions and the message is younger
    than the last deletion of their chat, at every moment until that transaction ends;
    and no other transaction has the lock of the same two. *)
Theorem acting_while_guarded d s t m (Hok : friends_ok d) (Hrun : rtc pair_step (mkPairs d ∅) s)
    (Hacting : threads s !! t = Some (Acting m)) :
  guarded (database s) m ∧
  ∀ t' pc, t' ≠ t → threads s !! t' = Some pc → pair_of pc ≠ pair_key (sendID m) (recvID m).
Proof.
  assert (Hs : pairs_inv s).
  { pose proof (pairs_init d Hok) as Hi. clear -Hrun Hi.
    induction Hrun; eauto using pairs_inv_step. }
  split; [by eapply (pa_acting _ Hs)|]. intros t' pc Hne Hpc. exact (pa_apart _ Hs t' t pc _ Hne Hpc Hacting).
Qed.

(** * What [mutate] changes *)

#[export] Instance pair_only_preorder p : PreOrder (pair_only p).
Proof.
  split.
  - by intros d Hd.
  - intros d1 d2 d3 H12 H23 H1. destruct (H12 H1) as [H2 K12]. destruct (H23 H2) as [H3 K23].
    split; [done|]. intros x y Hne. destruct (K12 x y Hne) as [F D]. destruct (K23 x y Hne) as [F' D'].
    split; [by rewrite F'|by rewrite D'].
Qed.

(** A statement that keeps [friends_ok], with what it does to the other pairs. *)
Lemma pair_only_intro p d d' :
  friends_kept d d' → (friends_ok d → ∀ x y, pair_key x y ≠ p → keeps_pair x y d d') → pair_only p d d'.
Proof. intros Hk Hp Hd. split; [by apply Hk|by apply Hp]. Qed.

Lemma keeps_same x y d d' :
  t_friends d' = t_friends d → t_friend_chat_deletions d' = t_friend_chat_deletions d → keeps_pair x y d d'.
Proof. intros E1 E2. unfold keeps_pair, friend_of, deleted_seq. by rewrite E1, E2. Qed.

Lemma other_pair x y a b : pair_key x y ≠ pair_key a b → ¬ ((x = a ∧ y = b) ∨ (x = b ∧ y = a)).
Proof. intros Hne [[-> ->]|[-> ->]]; [done|]. by rewrite pair_key_sym in Hne. Qed.

Lemma delete_friends_pair a b d : pair_only (pair_key a b) d (delete_friends a b d).2.
Proof.
  apply pair_only_intro; [apply delete_friends_kept|]. intros _ x y Hne. split; [|done].
  rewrite delete_friends_of. pose proof (other_pair _ _ _ _ Hne). tauto.
Qed.

Lemma insert_friends_pair a b time d : a ≠ b → pair_only (pair_key a b) d (insert_friends a b time d).2.
Proof.
  intros Hab. apply pair_only_intro; [by apply insert_friends_kept|]. intros Hok x y Hne. split.
  - rewrite (insert_friends_of a b time d Hok). pose proof (other_pair _ _ _ _ Hne). tauto.
  - unfold deleted_seq, insert_friends. cbn [snd].
    destruct (insert_friend_other a b time d) as (_ & _ & <-).
    by destruct (insert_friend_other b a time (insert_friend a b time d)) as (_ & _ & ->).
Qed.

Lemma mark_deleted_pair a b time sq d : pair_only (pair_key a b) d (mark_deleted a b time sq d).2.
Proof.
  apply pair_only_intro; [apply mark_deleted_kept|]. intros _ x y Hne. split; [done|].
  pose proof (other_pair _ _ _ _ Hne) as Hn. unfold deleted_seq, mark_deleted. cbn [snd]. db_simpl.
  rewrite !lookup_insert_ne; [done|intros [= -> ->]; tauto|intros [= -> ->]; tauto].
Qed.

Lemma applications_pair p d d' :
  friends_kept d d' → t_friends d' = t_friends d →
  t_friend_chat_deletions d' = t_friend_chat_deletions d → pair_only p d d'.
Proof. intros Hk E1 E2. apply pair_only_intro; [done|]. intros _ x y _. by apply keeps_same. Qed.

Lemma Step_other_pair {A} p (u : Database → A * Database) :
  (∀ d, db_friend (u d).2 = db_friend d) → Step (stmt_step (pair_only p)) (update u).
Proof.
  intros Hu. apply Step_update; [apply _|]. intros d. specialize (Hu d).
  apply applications_pair; [apply friends_same|..]; unfold t_friends, t_friends_next, t_friend_applications,
    t_friend_applications_next, t_friend_chat_deletions; by rewrite Hu.
Qed.

#[export] Instance PO_lockPair p a b : Step (stmt_step (pair_only p)) (lockPair a b).
Proof. apply Step_update; [apply _|]. intros d. apply applications_pair; [by apply friends_same|done|done]. Qed.

#[export] Instance PO_delete_friend a b : Step (stmt_step (pair_only (pair_key a b))) (delete_friend a b).
Proof.
  assert (∀ id, Step (stmt_step (pair_only (pair_key a b))) (DeleteConversationPair id))
    by (intros; by apply Step_other_pair).
  assert (∀ x y c, Step (stmt_step (pair_only (pair_key a b))) (QueueConversationCleanup x y c)).
  { intros x y c. unfold QueueConversationCleanup. apply Step_bind; [apply _| |intros _]; apply Step_other_pair; [|done].
    intros d. unfold insert_once. by destruct (select_one _ _). }
  unfold delete_friend. apply Step_bind; [apply _| |].
  { apply Step_update; [apply _|]. apply delete_friends_pair. }
  intros n. apply Step_bind; [apply _| |apply _]. apply Step_when; [apply _|].
  apply Step_bind; [apply _..|]. intros t. apply Step_bind; [apply _..|]. intros sq.
  apply Step_bind; [apply _| |intros _; apply Step_bind; [apply _..|intros t2]].
  - apply Step_update; [apply _|]. intros d. apply mark_deleted_pair.
  - apply Step_update; [apply _|]. intros d. by apply applications_pair; [apply settle_kept|..].
Qed.

Lemma PO_handle_application a b id accept :
  a ≠ b → Step (stmt_step (pair_only (pair_key a b))) (handle_application a b id accept).
Proof.
  intros Hab. unfold handle_application. apply Step_bind; [apply _..|]. intros [f|]; [|apply _].
  apply Step_bind; [apply _..|]. intros st. destruct (_ && _); [apply _|].
  apply Step_when; [apply _|]. apply Step_bind; [apply _..|]. intros t.
  apply Step_bind; [apply _| |intros _; apply Step_when; [apply _|]].
  - apply Step_update; [apply _|]. intros d. apply applications_pair; [apply settle_kept; by destruct accept|done|done].
  - apply Step_update; [apply _|]. intros d. by apply insert_friends_pair.
Qed.

(** Neither friendships nor deletions change. *)
Definition same_pairs (d d' : Database) : Prop :=
  t_friends d' = t_friends d ∧ t_friend_chat_deletions d' = t_friend_chat_deletions d.

#[export] Instance same_pairs_preorder : PreOrder same_pairs.
Proof. split; [done|]. intros d1 d2 d3 [A B] [A' B']. unfold same_pairs. by rewrite A', B'. Qed.

Lemma Step_both {A} p (m : M A) :
  Step (stmt_step friends_kept) m → Step (stmt_step same_pairs) m → Step (stmt_step (pair_only p)) m.
Proof.
  intros H1 H2 w. destruct (H1 w) as [K1 T]. destruct (H2 w) as [[E1 E2] _].
  split; [by apply applications_pair|done].
Qed.

#[export] Instance PO_apply_friend p a b msg : Step (stmt_step (pair_only p)) (apply_friend a b msg).
Proof.
  apply Step_both; [apply _|]. unfold apply_friend. apply Step_bind; [apply _..|]. intros [x|]; [apply _|].
  apply Step_bind; [apply _..|]. intros [q|]; [apply _|]. apply Step_bind; [apply _..|]. intros t.
  by apply Step_update; [apply _|].
Qed.

(** [mutate] holds the lock of the only pair it changes: every statement of its
    transaction keeps the friendships and the deletions of all other pairs. *)
Lemma mutate_own_pair c target (Hne : target ≠ cmd_actor c) :
  RStep (stmt_step (pair_only (pair_key (cmd_actor c) target))) (mutate_action c target).
Proof.
  pose proof (PO_handle_application (cmd_actor c) target (cmd_applicationID c)
    (cmd_accept c) (not_eq_sym Hne)). unfold mutate_action. apply _.
Qed.

(** The transaction as a whole is what [pair_mutated] commits. *)
Lemma mutate_commits_own_pair c target reply w :
  target ≠ cmd_actor c →
  pair_only (pair_key (cmd_actor c) target) (view w) (view (mutate_action c target reply w).2).
Proof. intros Hne. by destruct (mutate_own_pair c target Hne reply w). Qed.

(** * An instance *)

(** 7 and 9 are friends; a message between them is being delivered while a command on 7
    and 8 holds another lock. *)
Definition friends_now : Database := w_db friend_w2.
Definition checking : World := with_db (lock_row 7 9 friends_now) friend_w2.
Definition delivering : Pairs := set_pc 0 (Acting sample_message) (set_pc 0 (Guarding sample_message false) (mkPairs friends_now ∅)).
Definition with_another : Pairs := set_pc 1 (Mutating 7 8) delivering.

Lemma with_another_reached : rtc pair_step (mkPairs friends_now ∅) with_another.
Proof.
  eapply rtc_l; [by apply (pair_guard _ 0 sample_message false)|].
  apply (rtc_l _ _ delivering).
  { replace delivering with (after_check 0 sample_message (message_allowed sample_message false checking).1
      (set_pc 0 (Guarding sample_message false) (mkPairs friends_now ∅))) by (vm_compute; reflexivity).
    apply pair_check; [done|vm_compute; reflexivity]. }
  apply rtc_once, pair_mutate; [done|]. intros t pc Hpc. cbn in Hpc.
  apply lookup_insert_Some in Hpc as [[_ <-]|[? Hpc]]; [vm_compute; discriminate|].
  apply lookup_insert_Some in Hpc as [[? _]|[_ Hpc]]; [done|by rewrite lookup_empty in Hpc].
Qed.

Lemma acting_while_guarded_witness : guarded (database with_another) sample_message.
Proof.
  apply (acting_while_guarded friends_now with_another 0 sample_message);
    [apply friend_w2_ok|apply with_another_reached|reflexivity].
Defined.
