(* ===== verification/Groups.v ===== *)
(** Group chat ([src/storage/mysqlhandler.cpp], lines 1741-2115, and
    [src/services/group_service/server.cpp]): groups, members, applications,
    the message log of a group, the request cache that makes commands
    idempotent, and the delivery batches.

    The integer columns are read with [number]; where a SELECT names one or two
    of them the model reads the row's value, which is what [number] returns on a
    column of type BIGINT UNSIGNED. *)
From S2P Require Import Prelude Table Snowflake Schema Effects Users Registration Stores Conversations Replies.

(** ** Messages of [groupchat.proto] *)

(** [Operation] *)
Definition List : Z := 0.
Definition Create : Z := 1.
Definition Search : Z := 2.
Definition Apply : Z := 3.
Definition Applications : Z := 4.
Definition Review : Z := 5.
Definition Members : Z := 6.
Definition Rename : Z := 7.
Definition Leave : Z := 8.
Definition Kick : Z := 9.
Definition Dismiss : Z := 10.
Definition Send : Z := 11.
Definition Pull : Z := 12.
Definition Ack : Z := 13.
Definition Read : Z := 14.
Definition MyApplications : Z := 15.

Record Group := mkGroup {
  gp_id : string; gp_name : string; gp_owner : Z; gp_memberCount : Z; gp_dismissed : bool;
  gp_joined : bool; gp_joinSeq : Z; gp_lastSeq : Z; gp_readSeq : Z; gp_unread : Z;
  gp_large : bool; gp_epoch : Z; gp_number : string;
}.

Record Member := mkMember { mb_account : Z; mb_nickname : string; mb_owner : bool }.

Record Application := mkApplication {
  ga_id : Z; ga_groupID : string; ga_user : Z; ga_nickname : string; ga_why : string;
  ga_state : Z; ga_time : Z; ga_groupName : string; ga_groupNumber : string;
}.

Record Message := mkMessage {
  ms_id : string; ms_clientID : string; ms_groupID : string; ms_sender : Z; ms_nickname : string;
  ms_text : string; ms_seq : Z; ms_time : Z;
}.

Record Command := mkCommand {
  operation : Z; actor : Z; groupID : string; text : string; target : Z; applicationID : Z;
  accept : bool; after : Z; limit : Z; snapshot : Z; clientID : string; epoch : Z;
}.

Record Reply := mkReply {
  re_errorCode : string; re_errorMessage : string; re_groups : list Group;
  re_members : list Member; re_applications : list Application; re_messages : list Message;
  re_cursor : Z; re_hasMore : bool; re_snapshot : Z; re_groupID : string; re_epoch : Z;
}.

Record Notice := mkNotice {
  nt_groupID : string; nt_lastSeq : Z; nt_messages : list Message; nt_refresh : bool; nt_epoch : Z;
}.

(** Protocol Buffers encoding of commands and replies: generated code. *)
Class GroupProto := {
  serialize_command : Command → string;
  serialize_reply : Reply → string;
  parse_reply : string → option Reply;
}.

(** Decoding is inverse to encoding, and no two commands have the same bytes. *)
Class GroupProtoOk `{GroupProto} : Prop := {
  parse_serialize r : parse_reply (serialize_reply r) = Some r;
  serialize_command_inj c c' : serialize_command c = serialize_command c' → c = c';
  serialize_reply_nonempty r : re_errorCode r = "0" → serialize_reply r ≠ "";
}.

Definition Error (code message : string) : exn := CodedError code message.

(** ** Small functions *)

Definition number (f : field_view) : E Z :=
  match f with
  | FUint64 z => inr z
  | FInt64 z => inr (to_uint64 z)
  | _ => inl (RuntimeError "bad field access")
  end.

Definition hex_char (n : Z) : ascii := if n <? 10 then byte_chr (48 + n) else byte_chr (87 + n).

Fixpoint hex (bytes : string) : string :=
  match bytes with
  | EmptyString => ""
  | String c s =>
      String (hex_char (Z.shiftr (byte_val c) 4)) (String (hex_char (Z.land (byte_val c) 15)) (hex s))
  end.

(** A [char] is signed. *)
Definition signed_char (c : ascii) : Z :=
  if byte_val c <? 128 then byte_val c else byte_val c - 256.
Definition digit (c : ascii) : Z :=
  if signed_char c <=? 57 then signed_char c - 48 else signed_char c - 97 + 10.

Fixpoint unhex_pairs (s : string) : string :=
  match s with
  | String c (String d s) => String (byte_chr ((digit c * 16 + digit d) mod 256)) (unhex_pairs s)
  | _ => ""
  end.

Definition unhex (s : string) : E string :=
  if negb (size_of s mod 2 =? 0) then inl (Error "CACHE_ERROR" "Invalid saved request")
  else inr (unhex_pairs s).

Definition group_columns (id : Z) (r : GroupRow) : list field_view :=
  [FUint64 id; FString (g_name r); FUint64 (g_owner r); FUint64 (g_member_count r);
   FInt64 (g_dismissed r); FUint64 (g_last_seq r)].

Definition groupRow (row : list field_view) : E Group :=
  f0 ← at_ row 0; id ← number f0;
  f1 ← at_ row 1; name ← as_string f1;
  f2 ← at_ row 2; owner ← number f2;
  f3 ← at_ row 3; members ← number f3;
  f4 ← at_ row 4; dismissed ← number f4;
  f5 ← at_ row 5; lastSeq ← number f5;
  mret (mkGroup (to_string id) name owner members (negb (dismissed =? 0)) false 0 lastSeq 0 0
          (200 <? members) 0 "").

Definition message_columns (k : Z * Z) (r : GroupMessageRow) : list field_view :=
  [FUint64 k.1; FUint64 k.2; FString (gm_id r); FString (gm_client_id r); FUint64 (gm_sender r);
   FString (gm_nickname r); FString (gm_text r); FInt64 (gm_created_time r)].

Definition messageRow (row : list field_view) : E Message :=
  f0 ← at_ row 0; gid ← number f0;
  f1 ← at_ row 1; sq ← number f1;
  f2 ← at_ row 2; id ← as_string f2;
  f3 ← at_ row 3; client ← as_string f3;
  f4 ← at_ row 4; sender ← number f4;
  f5 ← at_ row 5; nick ← as_string f5;
  f6 ← at_ row 6; txt ← as_string f6;
  f7 ← at_ row 7; time ← number f7;
  mret (mkMessage id client (to_string gid) sender nick txt sq (to_int64 time)).

Definition groupId (s : string) : E Z :=
  let error := Error "INVALID_GROUP" "请输入有效的数字群号" in
  if str_empty s || (20 <? size_of s) || negb (all_of is_digit s) then inl error
  else match stoull s with
       | inr id => if id =? 0 then inl error else inr id
       | inl _ => inl error
       end.

(** ** Rows of one group, rows of one account *)

(** The entries of a two-column primary key with the first column fixed, in the
    order of the second. *)
Definition slice {A} (g : Z) (m : gmap (Z * Z) A) : gmap Z A :=
  list_to_map (omap (λ p : Z * Z * A, if p.1.1 =? g then Some (p.1.2, p.2) else None) (map_to_list m)).

Definition is_active (r : MemberRow) : bool := negb (m_active r =? 0).

(** SELECT COUNT of the active members of a group. *)
Definition active_count (g : Z) (d : Database) : Z :=
  count (λ _ r, m_active r =? 1) (slice g (t_im_group_members d)).

(** The public number, then the actor's membership. *)
Definition with_number (n : string) (g : Group) : Group :=
  mkGroup (gp_id g) (gp_name g) (gp_owner g) (gp_memberCount g) (gp_dismissed g) (gp_joined g)
    (gp_joinSeq g) (gp_lastSeq g) (gp_readSeq g) (gp_unread g) (gp_large g) (gp_epoch g) n.
Definition with_member (r : MemberRow) (g : Group) : Group :=
  mkGroup (gp_id g) (gp_name g) (gp_owner g) (gp_memberCount g) (gp_dismissed g)
    (is_active r && negb (gp_dismissed g)) (m_join_seq r) (gp_lastSeq g) (m_read_seq r)
    (gp_unread g) (gp_large g) (m_epoch r) (gp_number g).
Definition with_unread (n : Z) (g : Group) : Group :=
  mkGroup (gp_id g) (gp_name g) (gp_owner g) (gp_memberCount g) (gp_dismissed g) (gp_joined g)
    (gp_joinSeq g) (gp_lastSeq g) (gp_readSeq g) n (gp_large g) (gp_epoch g) (gp_number g).

Definition unread_count (gid first account : Z) (d : Database) : Z :=
  count (λ sq m, (first <? sq) && negb (gm_sender m =? account)) (slice gid (t_im_group_messages d)).

Definition memberState (g : Group) (account : Z) : M Group :=
  gid ← lift (groupId (gp_id g));
  n ← query (λ d, t_im_group_numbers d !! gid);
  let g := match n with Some n => with_number (to_string n) g | None => g end in
  row ← query (λ d, t_im_group_members d !! (gid, account));
  match row with
  | None => mret g
  | Some r =>
      let g := with_member r g in
      if gp_joined g then
        n ← query (unread_count gid (Z.max (gp_joinSeq g) (gp_readSeq g)) account);
        mret (with_unread n g)
      else mret g
  end.

(** FOR UPDATE of the cursor row (created with the tables). *)
Definition insert_number (id value : Z) (d : Database) : exn + (unit * Database) :=
  if bool_decide (t_im_group_numbers d !! id ≠ None) ||
     existsb (λ p : Z * Z, p.2 =? value) (map_to_list (t_im_group_numbers d))
  then inl (SqlError 1062)
  else inr (tt, set_im_group_numbers <[id := value]> d).

Definition allocateGroupNumber (id : Z) : M Z :=
  cursor ← query t_im_group_number_cursor;
  match cursor with
  | None => throw (RuntimeError "out of range")
  | Some value =>
      if kMaxAccount <? value then throw (Error "GROUP_NUMBER_EXHAUSTED" "群号已用尽")
      else
        execute (insert_number id value);;
        update (λ d, (tt, set_im_group_number_cursor (λ _, Some (value + 1)) d));;
        mret value
  end.

(** ** Statements that change rows *)

Definition insert_group (id : Z) (name : string) (owner : Z) (d : Database) : exn + (unit * Database) :=
  match t_im_groups d !! id with
  | Some _ => inl (SqlError 1062)
  | None => inr (tt, set_im_groups <[id := mkGroupRow name owner 1 0 0]> d)
  end.

Definition insert_member (id account : Z) (d : Database) : exn + (unit * Database) :=
  match t_im_group_members d !! (id, account) with
  | Some _ => inl (SqlError 1062)
  | None => inr (tt, set_im_group_members <[(id, account) := mkMemberRow 1 1 0 0 0]> d)
  end.

Definition insert_group_application (id account : Z) (reason : string) (time : Z) (d : Database)
    : unit * Database :=
  (tt, set_im_group_applications_next (λ n, n + 1)
         (set_im_group_applications
            <[t_im_group_applications_next d := mkGroupApplicationRow id account reason 0 time]> d)).

(** INSERT ... ON DUPLICATE KEY UPDATE: an inactive membership starts again. *)
Definition join_member (sq : Z) (old : option MemberRow) : MemberRow :=
  match old with
  | None => mkMemberRow 1 1 sq sq sq
  | Some r => if m_active r =? 0 then mkMemberRow 1 (m_epoch r + 1) sq sq sq
              else mkMemberRow 1 (m_epoch r) (m_join_seq r) (m_ack_seq r) (m_read_seq r)
  end.

Definition join (id account sq : Z) (d : Database) : unit * Database :=
  (tt, set_im_group_members (λ m, <[(id, account) := join_member sq (m !! (id, account))]> m) d).

Definition set_group (f : GroupRow → GroupRow) (id : Z) (d : Database) : unit * Database :=
  (tt, set_im_groups (alter f id) d).

Definition renamed (name : string) (r : GroupRow) : GroupRow :=
  mkGroupRow name (g_owner r) (g_member_count r) (g_dismissed r) (g_last_seq r).
Definition counted (n : Z) (r : GroupRow) : GroupRow :=
  mkGroupRow (g_name r) (g_owner r) n (g_dismissed r) (g_last_seq r).
Definition dismissed (r : GroupRow) : GroupRow :=
  mkGroupRow (g_name r) (g_owner r) (g_member_count r) 1 (g_last_seq r).
Definition advanced (sq : Z) (r : GroupRow) : GroupRow :=
  mkGroupRow (g_name r) (g_owner r) (g_member_count r) (g_dismissed r) sq.

(** UPDATE im_groups SET member_count=(SELECT COUNT ...) *)
Definition recount (id : Z) (d : Database) : unit * Database :=
  set_group (counted (active_count id d)) id d.

Definition set_member (f : MemberRow → MemberRow) (id account : Z) (d : Database) : unit * Database :=
  (tt, set_im_group_members (alter f (id, account)) d).

Definition deactivated (r : MemberRow) : MemberRow :=
  mkMemberRow 0 (m_epoch r) (m_join_seq r) (m_ack_seq r) (m_read_seq r).
Definition acked (sq : Z) (r : MemberRow) : MemberRow :=
  mkMemberRow (m_active r) (m_epoch r) (m_join_seq r) (Z.max (m_ack_seq r) sq) (m_read_seq r).
Definition seen (sq : Z) (r : MemberRow) : MemberRow :=
  mkMemberRow (m_active r) (m_epoch r) (m_join_seq r) (m_ack_seq r) (Z.max (m_read_seq r) sq).

Definition with_status (status : Z) (r : GroupApplicationRow) : GroupApplicationRow :=
  mkGroupApplicationRow (ga_group r) (ga_account r) (ga_reason r) status (ga_created_time r).

Definition settle (status id : Z) (d : Database) : unit * Database :=
  (tt, set_im_group_applications (alter (with_status status) id) d).

Definition close_pending (id : Z) (d : Database) : unit * Database :=
  (tt, set_im_group_applications
         (update_where (λ _ r, (ga_group r =? id) && (ga_status r =? 0)) (with_status 3)) d).

(** The constraints of [im_group_messages]: the primary key, the unique id and
    the unique (group, sender, client id). *)
Definition message_conflict (gid sq : Z) (r : GroupMessageRow) (d : Database) : bool :=
  bool_decide (t_im_group_messages d !! (gid, sq) ≠ None) ||
  existsb (λ p : Z * Z * GroupMessageRow,
    bool_decide (gm_id p.2 = gm_id r) ||
    ((p.1.1 =? gid) && (gm_sender p.2 =? gm_sender r) &&
     bool_decide (gm_client_id p.2 = gm_client_id r))) (map_to_list (t_im_group_messages d)).

Definition insert_message (gid sq : Z) (r : GroupMessageRow) (d : Database) : exn + (unit * Database) :=
  if message_conflict gid sq r d then inl (SqlError 1062)
  else inr (tt, set_im_group_messages <[(gid, sq) := r]> d).

(** ** Replies *)

Definition base_reply (c : Command) : Reply := mkReply "0" "" [] [] [] [] 0 false 0 (groupID c) 0.

Definition re_with_groups (gs : list Group) (p : Reply) : Reply :=
  mkReply (re_errorCode p) (re_errorMessage p) gs (re_members p) (re_applications p)
    (re_messages p) (re_cursor p) (re_hasMore p) (re_snapshot p) (re_groupID p) (re_epoch p).
Definition re_with_id (id : string) (p : Reply) : Reply :=
  mkReply (re_errorCode p) (re_errorMessage p) (re_groups p) (re_members p) (re_applications p)
    (re_messages p) (re_cursor p) (re_hasMore p) (re_snapshot p) id (re_epoch p).
Definition re_with_epoch (e : Z) (p : Reply) : Reply :=
  mkReply (re_errorCode p) (re_errorMessage p) (re_groups p) (re_members p) (re_applications p)
    (re_messages p) (re_cursor p) (re_hasMore p) (re_snapshot p) (re_groupID p) e.
Definition re_with_page (c : Z) (more : bool) (p : Reply) : Reply :=
  mkReply (re_errorCode p) (re_errorMessage p) (re_groups p) (re_members p) (re_applications p)
    (re_messages p) c more (re_snapshot p) (re_groupID p) (re_epoch p).
Definition re_with_members (l : list Member) (p : Reply) : Reply :=
  mkReply (re_errorCode p) (re_errorMessage p) (re_groups p) l (re_applications p)
    (re_messages p) (re_cursor p) (re_hasMore p) (re_snapshot p) (re_groupID p) (re_epoch p).
Definition re_with_applications (l : list Application) (p : Reply) : Reply :=
  mkReply (re_errorCode p) (re_errorMessage p) (re_groups p) (re_members p) l
    (re_messages p) (re_cursor p) (re_hasMore p) (re_snapshot p) (re_groupID p) (re_epoch p).
Definition re_with_messages (l : list Message) (p : Reply) : Reply :=
  mkReply (re_errorCode p) (re_errorMessage p) (re_groups p) (re_members p) (re_applications p)
    l (re_cursor p) (re_hasMore p) (re_snapshot p) (re_groupID p) (re_epoch p).
Definition re_with_snapshot (s : Z) (p : Reply) : Reply :=
  mkReply (re_errorCode p) (re_errorMessage p) (re_groups p) (re_members p) (re_applications p)
    (re_messages p) (re_cursor p) (re_hasMore p) s (re_groupID p) (re_epoch p).

(** ** Operations that need no group *)

Definition page_limit (c : Command) : Z :=
  clamp (limit c) 1 (if operation c =? Pull then 50 else 100).

Definition name_of (account : Z) (d : Database) : option string :=
  (λ p : Z * UserRow, u_nickname p.2) <$> select_one (user_match account true) (t_users d).

Definition bad_name (s : string) : bool := str_empty s || (256 <? size_of s).
Definition invalid_name : exn := Error "INVALID_NAME" "群名不能为空且不能超过256字节".

(** The row of an application joined with its group and the group's number. *)
Definition my_application (account : Z) (nickname : string) (d : Database)
    (p : Z * GroupApplicationRow) : option Application :=
  g ← t_im_groups d !! ga_group p.2;
  n ← t_im_group_numbers d !! ga_group p.2;
  Some (mkApplication p.1 (to_string (ga_group p.2)) account nickname (ga_reason p.2)
          (ga_status p.2) (ga_created_time p.2) (g_name g) (to_string n)).

Definition my_applications (c : Command) (nickname : string) : M Reply :=
  rows ← query (λ d, take (Z.to_nat (page_limit c + 1))
    (omap (my_application (actor c) nickname d)
       (select (λ k r, (ga_account r =? actor c) && (after c <? k)) (t_im_group_applications d))));
  let page := take (Z.to_nat (page_limit c)) rows in
  mret (re_with_applications page
    (re_with_page (match last page with Some a => ga_id a | None => 0 end)
       (page_limit c <? Z.of_nat (length rows)) (base_reply c))).

(** The groups of a page with the actor's state in each, and the cursor. *)
Fixpoint member_states (rows : list (list field_view)) (account cursor : Z) : M (list Group * Z) :=
  match rows with
  | [] => mret ([], cursor)
  | row :: rows =>
      g ← lift (groupRow row);
      g ← memberState g account;
      cursor ← lift (groupId (gp_id g));
      rest ← member_states rows account cursor;
      mret (g :: rest.1, rest.2)
  end.

Definition list_groups (c : Command) : M Reply :=
  rows ← query (λ d, (λ p, group_columns p.1 p.2) <$> take (Z.to_nat (page_limit c + 1))
    (select (λ k _, bool_decide (t_im_group_members d !! (k, actor c) ≠ None) && (after c <? k))
       (t_im_groups d)));
  gs ← member_states (take (Z.to_nat (page_limit c)) rows) (actor c) 0;
  mret (re_with_groups gs.1
    (re_with_page gs.2 (page_limit c <? Z.of_nat (length rows)) (base_reply c))).

Definition create_group (c : Command) : M Reply :=
  if bad_name (text c) then throw invalid_name
  else
    id ← snowflake_nextId;
    let id := to_uint64 id in
    execute (insert_group id (text c) (actor c));;
    allocateGroupNumber id;;
    execute (insert_member id (actor c));;
    row ← query (λ d, group_columns id <$> t_im_groups d !! id);
    match row with
    | None => throw (RuntimeError "out of range")
    | Some row =>
        g ← lift (groupRow row);
        g ← memberState g (actor c);
        mret (re_with_id (gp_id g) (re_with_groups [g] (base_reply c)))
    end.

(** ** Operations on a group whose row is locked *)

Definition apply_group (c : Command) (id : Z) (g : Group) (p : Reply) : M Reply :=
  if gp_joined g then throw (Error "ALREADY_JOINED" "你已在群内")
  else
    pending ← query (λ d, select (λ _ r, (ga_group r =? id) && (ga_account r =? actor c) &&
                                         (ga_status r =? 0)) (t_im_group_applications d));
    match pending with
    | [] => t ← now; update (insert_group_application id (actor c) (text c) t);; mret p
    | _ => mret p
    end.

Definition list_members (c : Command) (id : Z) (g : Group) (p : Reply) : M Reply :=
  rows ← query (λ d, take (Z.to_nat (page_limit c + 1)) (omap (λ q : Z * MemberRow,
      (λ n, mkMember q.1 n (q.1 =? gp_owner g)) <$> name_of q.1 d)
    (select (λ k r, (m_active r =? 1) && (after c <? k)) (slice id (t_im_group_members d)))));
  let page := take (Z.to_nat (page_limit c)) rows in
  mret (re_with_members page
    (re_with_page (match last page with Some m => mb_account m | None => 0 end)
       (page_limit c <? Z.of_nat (length rows)) p)).

Definition list_applications (c : Command) (id : Z) (g : Group) (p : Reply) : M Reply :=
  rows ← query (λ d, take (Z.to_nat (page_limit c + 1)) (omap (λ q : Z * GroupApplicationRow,
      (λ n, mkApplication q.1 (gp_id g) (ga_account q.2) n (ga_reason q.2) (ga_status q.2)
              (ga_created_time q.2) "" "") <$> name_of (ga_account q.2) d)
    (select (λ k r, (ga_group r =? id) && (after c <? k) && (ga_status r =? 0))
       (t_im_group_applications d))));
  let page := take (Z.to_nat (page_limit c)) rows in
  mret (re_with_applications page
    (re_with_page (match last page with Some a => ga_id a | None => 0 end)
       (page_limit c <? Z.of_nat (length rows)) p)).

Definition review (c : Command) (id : Z) (g : Group) (p : Reply) : M Reply :=
  row ← query (λ d, r ← t_im_group_applications d !! applicationID c;
                    if ga_group r =? id then Some r else None);
  match row with
  | None => throw (Error "APPLICATION_NOT_FOUND" "申请不存在")
  | Some r =>
      let wanted := if accept c then 1 else 2 in
      if negb (ga_status r =? 0) && negb (ga_status r =? wanted)
      then throw (Error "APPLICATION_HANDLED" "申请已处理")
      else
        when (ga_status r =? 0) (
          when (accept c) (
            update (join id (ga_account r) (gp_lastSeq g));;
            update (recount id));;
          update (settle wanted (applicationID c)));;
        mret p
  end.

Definition rename (c : Command) (id : Z) (g : Group) (p : Reply) : M Reply :=
  if bad_name (text c) then throw invalid_name
  else if bool_decide (text c = gp_name g)
  then throw (Error "NAME_UNCHANGED" "新群名称不能与当前名称相同")
  else update (set_group (renamed (text c)) id);; mret p.

Definition remove_member (c : Command) (id : Z) (g : Group) (p : Reply) : M Reply :=
  let whom := if operation c =? Leave then actor c else target c in
  if whom =? gp_owner g
  then throw (Error "OWNER_CANNOT_LEAVE" "群主不能退出或被踢出，请解散群")
  else
    update (set_member deactivated id whom);;
    update (recount id);;
    mret p.

Definition dismiss (c : Command) (id : Z) (p : Reply) : M Reply :=
  update (set_group dismissed id);;
  update (close_pending id);;
  mret p.

Definition find_message (gid sender : Z) (client : string) (d : Database)
    : option (Z * GroupMessageRow) :=
  select_one (λ _ r, (gm_sender r =? sender) && bool_decide (gm_client_id r = client))
    (slice gid (t_im_group_messages d)).

Definition send (c : Command) (nickname : string) (id : Z) (g : Group) (p : Reply) : M Reply :=
  if str_empty (text c) then throw (Error "EMPTY_MESSAGE" "消息不能为空")
  else
    old ← query (find_message id (actor c) (clientID c));
    match old with
    | Some (sq, r) =>
        m ← lift (messageRow (message_columns (id, sq) r));
        if negb (bool_decide (ms_text m = text c))
        then throw (Error "IDEMPOTENCY_CONFLICT" "消息标识重复且内容不同")
        else mret (re_with_messages [m] p)
    | None =>
        let sq := to_uint64 (gp_lastSeq g + 1) in
        serverId ← newone_str;
        time ← now;
        execute (insert_message id sq (mkGroupMessageRow serverId (clientID c) (actor c) nickname
                   (text c) time));;
        update (set_group (advanced sq) id);;
        mret (re_with_messages [mkMessage serverId (clientID c) (gp_id g) (actor c) nickname
                (text c) sq time] p)
    end.

Fixpoint messageRows (rows : list (list field_view)) : E (list Message) :=
  match rows with
  | [] => mret []
  | row :: rows => m ← messageRow row; l ← messageRows rows; mret (m :: l)
  end.

Definition log_rows (gid : Z) (P : Z → bool) (n : Z) (d : Database) : list (list field_view) :=
  (λ q, message_columns (gid, q.1) q.2) <$>
    take (Z.to_nat n) (select (λ k _, P k) (slice gid (t_im_group_messages d))).

Definition pull (c : Command) (id : Z) (g : Group) (p : Reply) : M Reply :=
  let snap := if snapshot c =? 0 then gp_lastSeq g else Z.min (snapshot c) (gp_lastSeq g) in
  let from := Z.max (after c) (gp_joinSeq g) in
  rows ← query (log_rows id (λ k, (from <? k) && (k <=? snap)) (page_limit c + 1));
  ms ← lift (messageRows (take (Z.to_nat (page_limit c)) rows));
  mret (re_with_messages ms (re_with_snapshot snap
    (re_with_page (match last ms with Some m => ms_seq m | None => from end)
       (page_limit c <? Z.of_nat (length rows)) p))).

Definition progress (c : Command) (id : Z) (g : Group) (p : Reply) : M Reply :=
  if gp_lastSeq g <? after c then throw (Error "INVALID_SEQ" "无效消息进度")
  else
    let sq := Z.max (after c) (gp_joinSeq g) in
    update (set_member (if operation c =? Ack then acked sq else seen sq) id (actor c));;
    mret p.

Definition owner_only (op : Z) : bool :=
  (op =? Applications) || (op =? Review) || (op =? Rename) || (op =? Kick) || (op =? Dismiss).

(** The operations of a member. *)
Definition member_operation (c : Command) (nickname : string) (id : Z) (g : Group) (p : Reply) : M Reply :=
  if negb (epoch c =? 0) && negb (epoch c =? gp_epoch g)
  then throw (Error "MEMBERSHIP_CHANGED" "成员身份已变化，请刷新")
  else if owner_only (operation c) && negb (gp_owner g =? actor c)
  then throw (Error "OWNER_REQUIRED" "仅群主可以执行此操作")
  else if operation c =? Members then list_members c id g p
  else if operation c =? Applications then list_applications c id g p
  else if operation c =? Review then review c id g p
  else if operation c =? Rename then rename c id g p
  else if (operation c =? Leave) || (operation c =? Kick) then remove_member c id g p
  else if operation c =? Dismiss then dismiss c id p
  else if operation c =? Send then send c nickname id g p
  else if operation c =? Pull then pull c id g p
  else if (operation c =? Ack) || (operation c =? Read) then progress c id g p
  else mret p.

(** The operations on a group, after its row has been read and locked. *)
Definition locked_operation (c : Command) (nickname : string) (id : Z) (g : Group) (p : Reply) : M Reply :=
  if operation c =? Search then mret (re_with_groups [g] (re_with_id (gp_id g) p))
  else if gp_dismissed g then
    if (operation c =? Dismiss) && (gp_owner g =? actor c) then mret p
    else throw (Error "GROUP_DISMISSED" "群已解散")
  else if operation c =? Apply then apply_group c id g p
  else if negb (gp_joined g) then
    if operation c =? Leave then mret p else throw (Error "NOT_MEMBER" "你已不在群内")
  else member_operation c nickname id g p.

(** A search by public number; longer identifiers are group ids. *)
Definition resolve (c : Command) (id : Z) : M Z :=
  if operation c =? Search then
    found ← query (λ d, select_one (λ _ n, n =? id) (t_im_group_numbers d));
    match found with
    | Some p => mret p.1
    | None => if size_of (groupID c) <=? 10 then throw (Error "GROUP_NOT_FOUND" "未找到该群号")
              else mret id
    end
  else mret id.

Definition group_operation (c : Command) (nickname : string) : M Reply :=
  id ← lift (groupId (groupID c));
  id ← resolve c id;
  row ← query (λ d, group_columns id <$> t_im_groups d !! id);
  match row with
  | None => throw (Error "GROUP_NOT_FOUND" "群不存在")
  | Some row =>
      g ← lift (groupRow row);
      g ← memberState g (actor c);
      locked_operation c nickname id g (re_with_epoch (gp_epoch g) (base_reply c))
  end.

Definition perform (c : Command) : M Reply :=
  if (actor c =? 0) || (operation c <? List) || (MyApplications <? operation c)
  then throw (Error "INVALID_PARAM" "无效群操作")
  else if (if operation c =? Send then 65536 else 512) <? size_of (text c)
  then throw (Error "INVALID_PARAM" "内容过长")
  else
    user ← query (name_of (actor c));
    match user with
    | None => throw (Error "INVALID_ACCOUNT" "账号不存在")
    | Some nickname =>
        if operation c =? MyApplications then my_applications c nickname
        else if operation c =? List then list_groups c
        else if operation c =? Create then create_group c
        else group_operation c nickname
    end.

(** ** The command: request cache and transaction *)

Definition mutation (c : Command) : bool :=
  (operation c =? Create) || (operation c =? Apply) || (operation c =? Review) ||
  (operation c =? Rename) || (operation c =? Leave) || (operation c =? Kick) ||
  (operation c =? Dismiss) || (operation c =? Send).

(** INSERT ... ON DUPLICATE KEY UPDATE without effect. *)
Definition insert_request (account : Z) (client payload : string) (d : Database) : unit * Database :=
  (tt, set_im_group_requests (λ m,
     match m !! (account, client) with
     | Some _ => m
     | None => <[(account, client) := mkGroupRequestRow payload ""]> m
     end) d).

Definition save_reply (account : Z) (client reply : string) (d : Database) : unit * Database :=
  (tt, set_im_group_requests (alter (λ r, mkGroupRequestRow (gr_payload r) reply) (account, client)) d).

(** ROLLBACK without [redirect_error]: it may throw instead. *)
Definition rollback_or_throw : M unit := remote SqlError (λ w, inr (tt, with_txn None w)).

Section commands.
Context `{GroupProto}.

(** The saved reply of the request, if it has been answered. *)
Definition replay (c : Command) : M (option Reply) :=
  if (actor c =? 0) || str_empty (clientID c) || (64 <? size_of (clientID c))
  then throw (Error "INVALID_REQUEST_ID" "缺少有效请求标识")
  else
    let payload := hex (serialize_command c) in
    update (insert_request (actor c) (clientID c) payload);;
    old ← query (λ d, t_im_group_requests d !! (actor c, clientID c));
    match old with
    | None => throw (RuntimeError "out of range")
    | Some r =>
        if negb (bool_decide (gr_payload r = payload))
        then throw (Error "IDEMPOTENCY_CONFLICT" "请求标识重复且内容不同")
        else if str_empty (gr_reply r) then mret None
        else
          bytes ← lift (unhex (gr_reply r));
          match parse_reply bytes with
          | None => throw (Error "CACHE_ERROR" "无法恢复请求结果")
          | Some reply => mret (Some reply)
          end
    end.

(** The try block. *)
Definition answer (c : Command) : M Reply :=
  saved ← (if mutation c then replay c else mret None);
  match saved with
  | Some reply => commit;; mret reply
  | None =>
      reply ← perform c;
      when (mutation c) (update (save_reply (actor c) (clientID c) (hex (serialize_reply reply))));;
      commit;;
      mret reply
  end.

Definition executeOnPool (c : Command) : M Reply :=
  with_connection (
    set_session;;
    start_transaction;;
    r ← catch (answer c);
    match r with
    | inr reply => mret reply
    | inl failure => rollback_or_throw;; throw failure
    end).

Definition error_reply (code message : string) : Reply := mkReply code message [] [] [] [] 0 false 0 "" 0.

Definition ExecuteGroupCommand (c : Command) : M Reply :=
  r ← catch (executeOnPool c);
  mret (match r with
        | inr reply => reply
        | inl (CodedError code what) => error_reply code what
        | inl _ => error_reply "DB_ERROR" "群服务暂时不可用，请稍后重试"
        end).
End commands.

(** ** Delivery *)

(** [ORDER BY seq LIMIT 20] after the acknowledged position; large groups pull. *)
Definition buildDelivery (account id : Z) : M Notice :=
  let none := mkNotice "" 0 [] false 0 in
  state ← query (λ d, g ← t_im_groups d !! id; m ← t_im_group_members d !! (id, account);
                      if (m_active m =? 1) && (g_dismissed g =? 0) then Some (g, m) else None);
  match state with
  | None => mret none
  | Some (g, m) =>
      messages ← (if g_member_count g <=? 200 then
                    rows ← query (log_rows id (λ k, m_ack_seq m <? k) 20);
                    lift (messageRows rows)
                  else mret []);
      mret (mkNotice (to_string id) (g_last_seq g) messages false (m_epoch m))
  end.

(** What has been pushed to sessions, oldest first.  A push is made before COMMIT
    and stays made when COMMIT fails. *)
Definition Pushed : Type := list (Z * Notice).

(** The try block. *)
Definition deliver_body (account : Z) (group : string) (push : bool) : R Pushed Notice :=
  id ← up (lift (groupId group));
  notice ← up (buildDelivery account id);
  (if push && negb (str_empty (nt_groupID notice))
   then set_reply (λ l, l ++ [(account, notice)]) else mret tt);;
  up commit;;
  mret notice.

(** [push] is whether there is an action. *)
Definition WithGroupDelivery (account : Z) (group : string) (push : bool) : R Pushed Notice :=
  rconnected (
    up start_transaction;;
    r ← rcatch (deliver_body account group push);
    match r with
    | inr notice => mret notice
    | inl failure => up rollback_or_throw;; rthrow failure
    end).

Definition GroupDeliveryBatch (account : Z) (group : string) : M Notice :=
  r ← WithGroupDelivery account group false [];
  match r.2 with inr notice => mret notice | inl e => throw e end.

(** Members, present and past, and the owner; without an order. *)
Definition accounts_of (id : Z) (d : Database) : list Z :=
  remove_dups ((fst <$> rows (slice id (t_im_group_members d))) ++
               (match t_im_groups d !! id with Some g => [g_owner g] | None => [] end)).

Definition GroupNotificationAccounts (group : string) : M (list Z) :=
  with_connection (
    id ← lift (groupId group);
    query (accounts_of id)).

Definition pending_groups (account : Z) (d : Database) : list string :=
  (λ p : Z * GroupRow, to_string p.1) <$>
    select (λ k g, match t_im_group_members d !! (k, account) with
                   | Some m => (m_active m =? 1) && (g_dismissed g =? 0) && (m_ack_seq m <? g_last_seq g)
                   | None => false
                   end) (t_im_groups d).

Definition PendingGroupsForDelivery (account : Z) : M (list string) :=
  with_connection (query (pending_groups account)).

(** One group of [EnsureGroupNumbers]. *)
Definition number_group (id : Z) : M unit :=
  set_session;;
  start_transaction;;
  r ← catch (
    query t_im_group_number_cursor;;
    exists_ ← query (λ d, t_im_group_numbers d !! id);
    (match exists_ with
     | Some _ => mret tt
     | None => allocateGroupNumber id;; mret tt
     end);;
    commit);
  match r with
  | inr _ => mret tt
  | inl failure => rollback_or_throw;; throw failure
  end.

Fixpoint number_groups (ids : list Z) : M unit :=
  match ids with
  | [] => mret tt
  | id :: ids => number_group id;; number_groups ids
  end.

Definition unnumbered (d : Database) : list Z :=
  fst <$> select (λ k _, bool_decide (t_im_group_numbers d !! k = None)) (t_im_groups d).

Definition EnsureGroupNumbers : M unit :=
  with_connection (ids ← query unnumbered; number_groups ids).

(** The tables exist; INSERT IGNORE of the cursor row. *)
Definition insert_cursor (d : Database) : unit * Database :=
  (tt, set_im_group_number_cursor
         (λ c, match c with Some v => Some v | None => Some 1000000000 end) d).

Definition InitializeGroups : M unit :=
  with_connection (set_session;; update insert_cursor);;
  EnsureGroupNumbers.

(** ** The service *)

Section service.
Context `{GroupProto}.
(** Which accounts have a session at the gateway. *)
Context (hasSession : Z → bool).

(** The accounts told to refresh. *)
Definition Notify (id : string) : M (list Z) :=
  if str_empty id then mret []
  else
    r ← catch (GroupNotificationAccounts id);
    mret (match r with inr accounts => filter (λ a, hasSession a = true) accounts | inl _ => [] end).

Definition notifies (c : Command) : bool :=
  (Create <=? operation c) && (operation c <=? Dismiss) && negb (operation c =? Search) &&
  negb (operation c =? Applications) && negb (operation c =? Members).

Definition Execute (c : Command) : M (grpc_status * option (Reply * list Z)) :=
  handle (Status "INTERNAL" "Group service unavailable")
    (reply ← ExecuteGroupCommand c;
     told ← (if bool_decide (re_errorCode reply = "0") && notifies c then Notify (re_groupID reply)
             else mret []);
     mret (Status_OK, Some (reply, told))) None.

(** One pass of [Deliver] over the accounts online. *)
Fixpoint deliver_groups (account : Z) (ids : list string) : R Pushed unit :=
  match ids with
  | [] => mret tt
  | id :: ids => WithGroupDelivery account id true;; deliver_groups account ids
  end.

Fixpoint deliver_pass (online : list Z) : R Pushed unit :=
  match online with
  | [] => mret tt
  | account :: online =>
      ids ← up (PendingGroupsForDelivery account);
      deliver_groups account ids;;
      deliver_pass online
  end.

(** The loop's body: an exception ends the pass, the pushes are made. *)
Definition Deliver_once (online : list Z) : M Pushed :=
  r ← deliver_pass online []; mret r.1.
End service.
