(* ===== verification/GroupProofs.v ===== *)
(** Group chat: slices and counts, the invariant of the tables, and what each
    completed command does to them. *)
From S2P Require Import Prelude Table Snowflake Schema Effects Users Registration Stores Conversations Replies Groups.

(** * Slices and counts *)

Lemma lookup_slice {A} (g : Z) (m : gmap (Z * Z) A) (k : Z) : slice g m !! k = m !! (g, k).
Proof.
  unfold slice. set (f := λ p : Z * Z * A, if p.1.1 =? g then Some (p.1.2, p.2) else None).
  assert (Hin : ∀ k x, (k, x) ∈ omap f (map_to_list m) ↔ m !! (g, k) = Some x).
  { intros k' x. rewrite list_elem_of_omap. split.
    - intros ([[a b] y] & Hm & Hf). unfold f in Hf. cbn in Hf.
      destruct (a =? g) eqn:E; [|done]. apply Z.eqb_eq in E as ->. injection Hf as -> ->.
      by apply elem_of_map_to_list in Hm.
    - intros Hm. exists (g, k', x). split; [by apply elem_of_map_to_list|].
      unfold f. cbn. by rewrite Z.eqb_refl. }
  apply option_eq. intros x. rewrite <- Hin. symmetry. apply elem_of_list_to_map'.
  intros y H1%Hin H2%Hin. congruence.
Qed.

(** The active members of a group. *)
Definition active_of (d : Database) (g : Z) : gset Z :=
  keys (λ _ r, m_active r =? 1) (slice g (t_im_group_members d)).

Lemma elem_of_active d g a :
  a ∈ active_of d g ↔ ∃ r, t_im_group_members d !! (g, a) = Some r ∧ m_active r = 1.
Proof.
  unfold active_of. rewrite elem_of_keys. setoid_rewrite lookup_slice.
  setoid_rewrite Z.eqb_eq. done.
Qed.

Lemma active_count_size g d : active_count g d = Z.of_nat (size (active_of d g)).
Proof. apply count_keys. Qed.

(** * The invariant *)

Record group_ok (d : Database) : Prop := mkGroupOk {
  go_id g r : t_im_groups d !! g = Some r → is_uint64 g ∧ g ≠ 0;
  go_count g r : t_im_groups d !! g = Some r → g_member_count r = active_count g d;
  go_owner g r : t_im_groups d !! g = Some r → g_owner r ∈ active_of d g;
  go_member g a m : t_im_group_members d !! (g, a) = Some m →
    (m_active m = 0 ∨ m_active m = 1) ∧ ∃ r, t_im_groups d !! g = Some r ∧
      0 <= m_join_seq m ∧ m_join_seq m <= m_ack_seq m <= g_last_seq r ∧
      m_join_seq m <= m_read_seq m <= g_last_seq r;
  go_last g r : t_im_groups d !! g = Some r → 0 <= g_last_seq r;
  go_log g k x : t_im_group_messages d !! (g, k) = Some x →
    ∃ r, t_im_groups d !! g = Some r ∧ 1 <= k <= g_last_seq r;
  go_full g r k : t_im_groups d !! g = Some r → 1 <= k <= g_last_seq r →
    is_Some (t_im_group_messages d !! (g, k));
  go_client g k k' x x' : t_im_group_messages d !! (g, k) = Some x →
    t_im_group_messages d !! (g, k') = Some x' → gm_sender x = gm_sender x' →
    gm_client_id x = gm_client_id x' → k = k';
  go_app i x : t_im_group_applications d !! i = Some x →
    i < t_im_group_applications_next d ∧ ∃ r, t_im_groups d !! ga_group x = Some r ∧
      (ga_status x = 0 → g_dismissed r = 0);
  go_flag g r : t_im_groups d !! g = Some r → g_dismissed r = 0 ∨ g_dismissed r = 1;
}.

(** The tables the invariant reads are unchanged. *)
Lemma group_same d d' :
  t_im_groups d' = t_im_groups d → t_im_group_members d' = t_im_group_members d →
  t_im_group_messages d' = t_im_group_messages d →
  t_im_group_applications d' = t_im_group_applications d →
  t_im_group_applications_next d' = t_im_group_applications_next d → group_ok d → group_ok d'.
Proof.
  intros E1 E2 E3 E4 E5 [H1 H2 H3 H4 H5 H6 H7 H8 H9 H10].
  assert (Ha : ∀ g, active_of d' g = active_of d g) by (intros g; unfold active_of; by rewrite E2).
  split; rewrite ?E1, ?E2, ?E3, ?E4, ?E5; try done.
  - intros g r Hr. rewrite active_count_size, Ha, <- active_count_size. eauto.
  - intros g r Hr. rewrite Ha. eauto.
Qed.

(** ** Changes *)

(** A change of a group's row that keeps what the invariant reads. *)
Lemma set_group_ok f g d :
  (∀ r, t_im_groups d !! g = Some r →
     g_owner (f r) = g_owner r ∧ g_member_count (f r) = g_member_count r ∧
     g_last_seq (f r) = g_last_seq r ∧ g_dismissed (f r) = g_dismissed r) →
  group_ok d → group_ok (set_group f g d).2.
Proof.
  intros Hf [H1 H2 H3 H4 H5 H6 H7 H8 H9 H10]. unfold set_group. cbn [snd].
  assert (Hr : ∀ k r', alter f g (t_im_groups d) !! k = Some r' → ∃ r, t_im_groups d !! k = Some r ∧
    g_owner r' = g_owner r ∧ g_member_count r' = g_member_count r ∧ g_last_seq r' = g_last_seq r ∧
    g_dismissed r' = g_dismissed r).
  { intros k r'. rewrite lookup_alter_Some. intros [(<- & r & Hr & ->)|[_ Hr]]; [|eauto 10].
    exists r. split; [done|]. by apply Hf. }
  assert (Hk : ∀ k r, t_im_groups d !! k = Some r → ∃ r', alter f g (t_im_groups d) !! k = Some r' ∧
    g_last_seq r' = g_last_seq r ∧ g_dismissed r' = g_dismissed r).
  { intros k r Hk. destruct (decide (g = k)) as [<-|Hne].
    - exists (f r). rewrite lookup_alter_eq, Hk. destruct (Hf r Hk) as (_ & _ & ? & ?). done.
    - exists r. by rewrite lookup_alter_ne. }
  split; db_simpl; try done.
  - intros k r' (r & Hr' & _)%Hr. eauto.
  - intros k r' (r & Hr' & _ & -> & _)%Hr. by apply (H2 k r).
  - intros k r' (r & Hr' & -> & _)%Hr. by apply (H3 k r).
  - intros k a m Hm. destruct (H4 k a m Hm) as (? & r & Hg & ?). split; [done|].
    destruct (Hk k r Hg) as (r' & ? & E & _). exists r'. by rewrite E.
  - intros k r' (r & Hr' & _ & _ & -> & _)%Hr. eauto.
  - intros k i x Hx. destruct (H6 k i x Hx) as (r & Hg & ?). destruct (Hk k r Hg) as (r' & ? & E & _). exists r'. by rewrite E.
  - intros k r' i (r & Hr' & _ & _ & -> & _)%Hr. eauto.
  - intros i x Hx. destruct (H9 i x Hx) as (? & r & Hg & ?). split; [done|].
    destruct (Hk _ r Hg) as (r' & ? & _ & E). exists r'. by rewrite E.
  - intros k r' (r & Hr' & _ & _ & _ & ->)%Hr. eauto.
Qed.

Definition put_member (g a : Z) (x : MemberRow) (d : Database) : Database :=
  set_im_group_members <[(g, a) := x]> d.

Lemma active_put_member g a x d g' a' :
  a' ∈ active_of (put_member g a x d) g' ↔
  (g' = g ∧ a' = a ∧ m_active x = 1) ∨ ((g', a') ≠ (g, a) ∧ a' ∈ active_of d g').
Proof.
  rewrite !elem_of_active. unfold put_member. db_simpl. split.
  - intros (r & [[[= <- <-] <-]|[Hne Hr]]%lookup_insert_Some & Ha); [by left|].
    right. split; [congruence|eauto].
  - intros [(-> & -> & Ha)|(Hne & r & Hr & Ha)].
    + exists x. by rewrite lookup_insert_eq.
    + exists r. rewrite lookup_insert_ne by congruence. done.
Qed.

Lemma active_put_other g a x d g' : g' ≠ g → active_of (put_member g a x d) g' = active_of d g'.
Proof.
  intros Hne. apply set_eq. intros a'. rewrite active_put_member.
  split; [intros [[? _]|[_ ?]]; done|]. intros Ha. right. split; [congruence|done].
Qed.

(** A membership is written and the members of its group are counted again. *)
Lemma put_member_recount_ok g a x r d :
  group_ok d → t_im_groups d !! g = Some r → (m_active x = 0 ∨ m_active x = 1) →
  0 <= m_join_seq x → m_join_seq x <= m_ack_seq x <= g_last_seq r →
  m_join_seq x <= m_read_seq x <= g_last_seq r → (a = g_owner r → m_active x = 1) →
  group_ok (recount g (put_member g a x d)).2.
Proof.
  intros [H1 H2 H3 H4 H5 H6 H7 H8 H9 H10] Hg Hx B1 B2 B3 Ho. unfold recount, set_group. cbn [snd].
  set (n := active_count g (put_member g a x d)). set (d' := put_member g a x d) in *.
  assert (Hact : ∀ k, active_of (set_im_groups (alter (counted n) g) d') k = active_of d' k) by done.
  assert (Hr : ∀ k r', alter (counted n) g (t_im_groups d) !! k = Some r' →
    ∃ r0, t_im_groups d !! k = Some r0 ∧ r' = if decide (k = g) then counted n r0 else r0).
  { intros k r'. rewrite lookup_alter_Some.
    intros [(<- & r0 & Hr & ->)|[Hne Hr]]; eexists; (split; [exact Hr|]); case_decide; congruence. }
  assert (Hk : ∀ k r0, t_im_groups d !! k = Some r0 → ∃ r',
    alter (counted n) g (t_im_groups d) !! k = Some r' ∧ g_last_seq r' = g_last_seq r0 ∧
    g_dismissed r' = g_dismissed r0).
  { intros k r0 Hk. destruct (decide (g = k)) as [<-|Hne].
    - exists (counted n r0). by rewrite lookup_alter_eq, Hk.
    - exists r0. by rewrite lookup_alter_ne. }
  split; try setoid_rewrite Hact; unfold d', put_member; db_simpl; try done.
  - intros k r' (r0 & Hr0 & _)%Hr. eauto.
  - intros k r' (r0 & Hr0 & ->)%Hr. rewrite active_count_size, Hact.
    case_decide as E; [subst k; unfold n; by rewrite active_count_size|].
    unfold d'. rewrite active_put_other by done. rewrite <- active_count_size. eauto.
  - intros k r' (r0 & Hr0 & ->)%Hr.
    change (active_of _ k) with (active_of (put_member g a x d) k).
    assert (Heq : g_owner (if decide (k = g) then counted n r0 else r0) = g_owner r0)
      by by case_decide. rewrite Heq.
    destruct (decide (k = g)) as [->|Hne]; [|rewrite active_put_other by done; eauto].
    rewrite Hg in Hr0. injection Hr0 as <-. rewrite active_put_member.
    destruct (decide (a = g_owner r)) as [->|Hne]; [left; auto|].
    right. split; [congruence|eauto].
  - intros k b m [[[= <- <-] <-]|[Hne Hm]]%lookup_insert_Some.
    + split; [done|]. destruct (Hk g r Hg) as (r' & ? & E & _). exists r'. by rewrite E.
    + destruct (H4 k b m Hm) as (? & r0 & Hr0 & ?). split; [done|].
      destruct (Hk k r0 Hr0) as (r' & ? & E & _). exists r'. by rewrite E.
  - intros k r' (r0 & Hr0 & ->)%Hr. case_decide; cbn; eauto.
  - intros k i y Hy. destruct (H6 k i y Hy) as (r0 & Hr0 & ?).
    destruct (Hk k r0 Hr0) as (r' & ? & E & _). exists r'. by rewrite E.
  - intros k r' i (r0 & Hr0 & ->)%Hr. case_decide; cbn; eauto.
  - intros i y Hy. destruct (H9 i y Hy) as (? & r0 & Hr0 & ?). split; [done|].
    destruct (Hk _ r0 Hr0) as (r' & ? & _ & E). exists r'. by rewrite E.
  - intros k r' (r0 & Hr0 & ->)%Hr. case_decide; cbn; eauto.
Qed.

(** Progress of a member. *)
Lemma put_member_ok g a x m r d :
  group_ok d → t_im_groups d !! g = Some r → t_im_group_members d !! (g, a) = Some m →
  m_active x = m_active m → 0 <= m_join_seq x → m_join_seq x <= m_ack_seq x <= g_last_seq r →
  m_join_seq x <= m_read_seq x <= g_last_seq r → group_ok (put_member g a x d).
Proof.
  intros [H1 H2 H3 H4 H5 H6 H7 H8 H9 H10] Hg Hm Hx B1 B2 B3.
  assert (Hact : ∀ k, active_of (put_member g a x d) k = active_of d k).
  { intros k. apply set_eq. intros b. rewrite active_put_member. split.
    - intros [(-> & -> & Ha)|[_ ?]]; [|done]. apply elem_of_active. exists m. split; congruence.
    - intros Hb. destruct (decide ((k, b) = (g, a))) as [[= -> ->]|Hne]; [|by right].
      left. apply elem_of_active in Hb as (m' & Hm' & ?). repeat split; congruence. }
  split; try setoid_rewrite Hact; unfold put_member; db_simpl; try done.
  - intros k r0 Hr0. rewrite active_count_size.
    change (active_of (set_im_group_members <[(g, a) := x]> d)) with (active_of (put_member g a x d)).
    rewrite Hact, <- active_count_size. eauto.
  - intros k b y [[[= <- <-] <-]|[Hne Hy]]%lookup_insert_Some; [|eauto].
    split; [rewrite Hx; by apply (H4 g a m)|]. eauto 10.
Qed.

(** Statuses of applications. *)
Lemma settle_group_ok st i d : st ≠ 0 → group_ok d → group_ok (settle st i d).2.
Proof.
  intros Hst [H1 H2 H3 H4 H5 H6 H7 H8 H9 H10]. unfold settle. cbn [snd].
  split; try done. db_simpl. intros j y. rewrite lookup_alter_Some.
  intros [(<- & y0 & Hy & ->)|[_ Hy]]; [|eauto].
  destruct (H9 i y0 Hy) as (? & r & ? & ?). split; [done|]. exists r. split; [done|]. done.
Qed.

Lemma dismiss_ok g d : group_ok d → group_ok (close_pending g (set_group dismissed g d).2).2.
Proof.
  intros [H1 H2 H3 H4 H5 H6 H7 H8 H9 H10]. unfold close_pending, set_group. cbn [snd].
  set (d' := set_im_group_applications _ _).
  assert (Hact : ∀ k, active_of d' k = active_of d k) by done.
  assert (Hr : ∀ k r', alter dismissed g (t_im_groups d) !! k = Some r' →
    ∃ r0, t_im_groups d !! k = Some r0 ∧ r' = if decide (k = g) then dismissed r0 else r0).
  { intros k r'. rewrite lookup_alter_Some.
    intros [(<- & r0 & Hr & ->)|[Hne Hr]]; eexists; (split; [exact Hr|]); case_decide; congruence. }
  assert (Hk : ∀ k r0, t_im_groups d !! k = Some r0 → ∃ r',
    alter dismissed g (t_im_groups d) !! k = Some r' ∧ g_last_seq r' = g_last_seq r0 ∧
    (k ≠ g → g_dismissed r' = g_dismissed r0)).
  { intros k r0 Hk. destruct (decide (g = k)) as [<-|Hne].
    - exists (dismissed r0). by rewrite lookup_alter_eq, Hk.
    - exists r0. by rewrite lookup_alter_ne. }
  split; try setoid_rewrite Hact; unfold d'; db_simpl; try done.
  - intros k r' (r0 & Hr0 & _)%Hr. eauto.
  - intros k r' (r0 & Hr0 & ->)%Hr. change (active_count k _) with (active_count k d).
    case_decide; cbn; eauto.
  - intros k r' (r0 & Hr0 & ->)%Hr. change (active_of _ k) with (active_of d k).
    case_decide; cbn; eauto.
  - intros k b m Hm. destruct (H4 k b m Hm) as (? & r0 & Hr0 & ?). split; [done|].
    destruct (Hk k r0 Hr0) as (r' & ? & E & _). exists r'. by rewrite E.
  - intros k r' (r0 & Hr0 & ->)%Hr. case_decide; cbn; eauto.
  - intros k i y Hy. destruct (H6 k i y Hy) as (r0 & Hr0 & ?).
    destruct (Hk k r0 Hr0) as (r' & ? & E & _). exists r'. by rewrite E.
  - intros k r' i (r0 & Hr0 & ->)%Hr. case_decide; cbn; eauto.
  - intros i y. rewrite lookup_update_where.
    destruct (t_im_group_applications d !! i) as [y0|] eqn:Ey; [|done]. intros [= <-].
    destruct (H9 i y0 Ey) as (Hlt & r0 & Hr0 & Hd). split; [done|].
    assert (Hgr : ga_group (if (ga_group y0 =? g) && (ga_status y0 =? 0) then with_status 3 y0 else y0)
      = ga_group y0) by by destruct (_ && _). rewrite Hgr.
    destruct (Hk _ r0 Hr0) as (r' & ? & _ & E). exists r'. split; [done|].
    destruct (ga_group y0 =? g) eqn:E1, (ga_status y0 =? 0) eqn:E2; cbn [andb]; bool_to_prop; try done.
    intros Hz. rewrite E by done. by apply Hd.
  - intros k r' (r0 & Hr0 & ->)%Hr. case_decide; cbn; [by right|eauto].
Qed.

Lemma no_conflict g sq x d :
  message_conflict g sq x d = false →
  t_im_group_messages d !! (g, sq) = None ∧
  ∀ k y, t_im_group_messages d !! (g, k) = Some y →
    ¬ (gm_sender y = gm_sender x ∧ gm_client_id y = gm_client_id x).
Proof.
  unfold message_conflict. rewrite orb_false_iff. intros [H1%bool_decide_eq_false H2].
  split; [by destruct (t_im_group_messages d !! (g, sq)); [destruct H1|]|].
  intros k y Hy [Hs Hc]. assert (Hx : existsb (λ p : Z * Z * GroupMessageRow,
    bool_decide (gm_id p.2 = gm_id x) || ((p.1.1 =? g) && (gm_sender p.2 =? gm_sender x) &&
     bool_decide (gm_client_id p.2 = gm_client_id x))) (map_to_list (t_im_group_messages d)) = true).
  { apply existsb_exists. exists (g, k, y). split; [by apply list_elem_of_In, elem_of_map_to_list|].
    cbn. rewrite Hs, Hc, !Z.eqb_refl, (bool_decide_eq_true_2 (gm_client_id x = gm_client_id x)) by done.
    by rewrite orb_true_r. }
  congruence.
Qed.

(** The next message of the log. *)
Definition append_db (g sq : Z) (x : GroupMessageRow) (d : Database) : Database :=
  (set_group (advanced sq) g (set_im_group_messages <[(g, sq) := x]> d)).2.

(** The rows after the sequence of one group advanced: where they come from and where
    the old ones are. *)
Lemma advanced_from g sq d k r' :
  alter (advanced sq) g (t_im_groups d) !! k = Some r' →
  ∃ r0, t_im_groups d !! k = Some r0 ∧ r' = if decide (k = g) then advanced sq r0 else r0.
Proof.
  rewrite lookup_alter_Some.
  intros [(<- & r0 & Hr & ->)|[Hne Hr]]; eexists; (split; [exact Hr|]); case_decide; congruence.
Qed.

Lemma advanced_to g sq r d :
  t_im_groups d !! g = Some r → g_last_seq r <= sq →
  ∀ k r0, t_im_groups d !! k = Some r0 → ∃ r',
    alter (advanced sq) g (t_im_groups d) !! k = Some r' ∧ g_last_seq r0 <= g_last_seq r' ∧
    g_dismissed r' = g_dismissed r0 ∧ (k = g → g_last_seq r' = sq).
Proof.
  intros Hg Hle k r0 Hk. destruct (decide (g = k)) as [<-|Hne].
  - exists (advanced sq r0). rewrite lookup_alter_eq, Hk. cbn. rewrite Hg in Hk. injection Hk as <-.
    split; [done|]. split; [lia|]. done.
  - exists r0. rewrite lookup_alter_ne by done. split; [done|]. split; [lia|]. split; [done|congruence].
Qed.

Lemma append_ok g x r d :
  group_ok d → t_im_groups d !! g = Some r → message_conflict g (g_last_seq r + 1) x d = false →
  group_ok (append_db g (g_last_seq r + 1) x d).
Proof.
  intros [H1 H2 H3 H4 H5 H6 H7 H8 H9 H10] Hg Hno. apply no_conflict in Hno as [Hn Hc].
  unfold append_db, set_group. cbn [snd]. set (sq := g_last_seq r + 1) in *.
  set (d' := set_im_groups _ _). assert (Hact : ∀ k, active_of d' k = active_of d k) by done.
  assert (Hle : g_last_seq r <= sq) by lia.
  pose proof (advanced_from g sq d) as Hr. pose proof (advanced_to g sq r d Hg Hle) as Hk.
  split; try setoid_rewrite Hact; unfold d'; db_simpl; try done.
  - intros k r' (r0 & Hr0 & _)%Hr. eauto.
  - intros k r' (r0 & Hr0 & ->)%Hr. change (active_count k _) with (active_count k d).
    case_decide; cbn; eauto.
  - intros k r' (r0 & Hr0 & ->)%Hr. change (active_of _ k) with (active_of d k).
    case_decide; cbn; eauto.
  - intros k b m Hm. destruct (H4 k b m Hm) as (? & r0 & Hr0 & ?). split; [done|].
    destruct (Hk k r0 Hr0) as (r' & ? & E & _). exists r'. split; [done|]. lia.
  - intros k r' (r0 & Hr0 & ->)%Hr. pose proof (H5 g r Hg). case_decide; cbn; [lia|eauto].
  - intros k i y [[[= <- <-] <-]|[Hne Hy]]%lookup_insert_Some.
    + destruct (Hk g r Hg) as (r' & ? & _ & _ & E). exists r'. split; [done|].
      rewrite E by done. specialize (H5 g r Hg). lia.
    + destruct (H6 k i y Hy) as (r0 & Hr0 & ?). destruct (Hk k r0 Hr0) as (r' & ? & E & _).
      exists r'. split; [done|]. lia.
  - intros k r' i (r0 & Hr0 & ->)%Hr. case_decide as E; cbn; intros Hi.
    + subst k. rewrite Hg in Hr0. injection Hr0 as <-.
      destruct (decide (i = sq)) as [->|Hne]; [rewrite lookup_insert_eq; by eexists|].
      rewrite lookup_insert_ne by congruence. apply (H7 g r i Hg). lia.
    + rewrite lookup_insert_ne by congruence. eauto.
  - intros k i j y y' [[Ei <-]|[Hi Hy]]%lookup_insert_Some [[Ej <-]|[Hj Hy']]%lookup_insert_Some;
      intros Hs Hcl; simplify_eq; [done| | |by eapply H8]; exfalso.
    + by apply (Hc j y' Hy').
    + by apply (Hc i y Hy).
  - intros i y Hy. destruct (H9 i y Hy) as (? & r0 & Hr0 & ?). split; [done|].
    destruct (Hk _ r0 Hr0) as (r' & ? & _ & E & _). exists r'. by rewrite E.
  - intros k r' (r0 & Hr0 & ->)%Hr. case_decide; cbn; eauto.
Qed.

(** A new group with its owner. *)
Definition create_db (g : Z) (name : string) (owner : Z) (d : Database) : Database :=
  set_im_group_members <[(g, owner) := mkMemberRow 1 1 0 0 0]>
    (set_im_groups <[g := mkGroupRow name owner 1 0 0]> d).

Lemma create_ok g name owner d :
  group_ok d → t_im_groups d !! g = None → is_uint64 g → g ≠ 0 → group_ok (create_db g name owner d).
Proof.
  intros [H1 H2 H3 H4 H5 H6 H7 H8 H9 H10] Hg Hu Hz. set (x := mkMemberRow 1 1 0 0 0).
  assert (Hact : ∀ k, k ≠ g → active_of (create_db g name owner d) k = active_of d k).
  { intros k Hne. exact (active_put_other g owner x (set_im_groups _ d) k Hne). }
  assert (Hnew : active_of (create_db g name owner d) g = {[owner]}).
  { apply set_eq. intros a. rewrite elem_of_singleton.
    change (create_db g name owner d) with (put_member g owner x (set_im_groups
      <[g := mkGroupRow name owner 1 0 0]> d)). rewrite active_put_member. split.
    - intros [(_ & -> & _)|[_ (m & Hm & _)%elem_of_active]]; [done|].
      change (t_im_group_members d !! (g, a) = Some m) in Hm.
      destruct (H4 g a m Hm) as (_ & r & Hr & _). congruence.
    - intros ->. by left. }
  split; unfold create_db; db_simpl.
  - intros k r [[<- _]|[_ Hr]]%lookup_insert_Some; [done|eauto].
  - intros k r [[<- <-]|[Hne Hr]]%lookup_insert_Some; rewrite active_count_size;
      change (active_of _ ?h) with (active_of (create_db g name owner d) h).
    + by rewrite Hnew, size_singleton.
    + rewrite Hact, <- active_count_size by done. eauto.
  - intros k r [[<- <-]|[Hne Hr]]%lookup_insert_Some;
      change (active_of _ ?h) with (active_of (create_db g name owner d) h).
    + rewrite Hnew. set_solver.
    + rewrite Hact by done. eauto.
  - intros k a m [[[= <- <-] <-]|[Hne Hm]]%lookup_insert_Some.
    + split; [by right|]. exists (mkGroupRow name owner 1 0 0). rewrite lookup_insert_eq.
      split; [done|]. cbn. lia.
    + destruct (H4 k a m Hm) as (? & r & Hr & ?). split; [done|]. exists r.
      rewrite lookup_insert_ne by congruence. done.
  - intros k r [[<- <-]|[_ Hr]]%lookup_insert_Some; [cbn; lia|eauto].
  - intros k i y Hy. destruct (H6 k i y Hy) as (r & Hr & ?). exists r.
    rewrite lookup_insert_ne by congruence. done.
  - intros k r i [[<- <-]|[_ Hr]]%lookup_insert_Some; [cbn; lia|eauto].
  - eauto.
  - intros i y Hy. destruct (H9 i y Hy) as (? & r & Hr & ?). split; [done|]. exists r.
    rewrite lookup_insert_ne by congruence. done.
  - intros k r [[<- <-]|[_ Hr]]%lookup_insert_Some; [by left|eauto].
Qed.

Lemma apply_ok g a reason t r d :
  group_ok d → t_im_groups d !! g = Some r → g_dismissed r = 0 →
  group_ok (insert_group_application g a reason t d).2.
Proof.
  intros [H1 H2 H3 H4 H5 H6 H7 H8 H9 H10] Hg Hd. unfold insert_group_application. cbn [snd].
  split; try done. db_simpl. intros i y [[<- <-]|[_ Hy]]%lookup_insert_Some.
  - split; [lia|]. by exists r.
  - destruct (H9 i y Hy) as [? ?]. split; [lia|done].
Qed.

(** * Reading rows *)

Definition group_of (id : Z) (r : GroupRow) : Group :=
  mkGroup (to_string id) (g_name r) (g_owner r) (g_member_count r)
    (negb (to_uint64 (g_dismissed r) =? 0)) false 0 (g_last_seq r) 0 0 (200 <? g_member_count r) 0 "".

Lemma groupRow_columns id r : groupRow (group_columns id r) = inr (group_of id r).
Proof. done. Qed.

Definition message_of (k : Z * Z) (r : GroupMessageRow) : Message :=
  mkMessage (gm_id r) (gm_client_id r) (to_string k.1) (gm_sender r) (gm_nickname r) (gm_text r) k.2
    (to_int64 (to_uint64 (gm_created_time r))).

Lemma messageRow_columns k r : messageRow (message_columns k r) = inr (message_of k r).
Proof. done. Qed.

Lemma groupId_to_string n : is_uint64 n → n ≠ 0 → groupId (to_string n) = inr n.
Proof.
  intros Hn Hz. unfold groupId. rewrite stoull_to_string by done.
  rewrite (proj2 (Z.eqb_neq n 0)) by done.
  rewrite (to_string_digits n) by apply Hn.
  assert (Hl : (String.length (to_string n) <= 20)%nat) by (etrans; [apply dec_digits_length|done]).
  assert (He : str_empty (to_string n) = false).
  { pose proof (to_string_nonempty n). by destruct (to_string n). }
  rewrite He. unfold size_of. rewrite (proj2 (Z.ltb_ge 20 _)) by lia. done.
Qed.

Lemma stoull_digits s :
  all_of is_digit s = true → s ≠ "" →
  stoull s = if uint64_max <? dec_value 0 s then inl true else inr (dec_value 0 s).
Proof.
  destruct s as [|c s]; [done|]. intros Hd _. unfold stoull.
  pose proof (digit_prefix_all _ Hd) as Hp. pose proof Hd as Hd'. cbn [all_of] in Hd'. bool_to_prop.
  assert (Hc : is_space c = false ∧ c ≠ "-"%char ∧ c ≠ "+"%char).
  { unfold is_digit in H. bool_to_prop. unfold is_space. split; [|split].
    - apply orb_false_intro; [apply Z.eqb_neq; lia|]. apply andb_false_intro2, Z.leb_gt. lia.
    - intros ->. by vm_compute in H.
    - intros ->. by vm_compute in H. }
  destruct Hc as (Hs & Hm & Hpl). cbn [skip_space]. rewrite Hs.
  assert (Hsign : match String c s with
    | String "-" t => (true, t) | String "+" t => (false, t) | _ => (false, String c s)
    end = (false, String c s)) by (clear -Hm Hpl; by destruct c as [[] [] [] [] [] [] [] []]).
  rewrite Hsign, Hp. done.
Qed.

Lemma dec_value_nonneg s acc : 0 <= acc → all_of is_digit s = true → 0 <= dec_value acc s.
Proof.
  revert acc. induction s as [|c s IH]; intros acc Ha Hu; cbn in *; [done|]. bool_to_prop.
  apply IH; [|done]. unfold digit_val. unfold is_digit in H. bool_to_prop. lia.
Qed.

Lemma groupId_ok s id : groupId s = inr id → is_uint64 id ∧ id ≠ 0.
Proof.
  unfold groupId. destruct (_ || _) eqn:E1; [done|]. bool_to_prop.
  rewrite stoull_digits by (done || by intros ->).
  destruct (uint64_max <? _) eqn:Em; [done|]. destruct (_ =? 0) eqn:Ez; [done|].
  intros [= <-]. bool_to_prop. split; [|done]. split; [by apply dec_value_nonneg|done].
Qed.

(** What [memberState] adds to a group. *)
Lemma memberState_ok g a w g' w' :
  memberState g a w = (inr g', w') →
  (∃ fs, w' = with_faults fs w) ∧ gp_id g' = gp_id g ∧ gp_name g' = gp_name g ∧
  gp_owner g' = gp_owner g ∧ gp_dismissed g' = gp_dismissed g ∧ gp_lastSeq g' = gp_lastSeq g ∧
  ∃ gid, groupId (gp_id g) = inr gid ∧
    match t_im_group_members (view w) !! (gid, a) with
    | None => gp_joined g' = gp_joined g
    | Some m => gp_joined g' = is_active m && negb (gp_dismissed g) ∧
                gp_joinSeq g' = m_join_seq m ∧ gp_epoch g' = m_epoch m
    end.
Proof.
  unfold memberState. intros (gid & w1 & [Hgid ->]%lift_ok & H)%bind_ok.
  apply bind_ok in H as (n & w1 & (-> & fs & ->)%query_ok & H).
  apply bind_ok in H as (row & w1 & (-> & fs1 & ->)%query_ok & H).
  world_simpl. destruct (t_im_group_members (view w) !! (gid, a)) as [m|] eqn:Em.
  - set (g1 := match t_im_group_numbers (view w) !! gid with Some n => _ | None => g end) in *.
    assert (H1 : gp_id g1 = gp_id g ∧ gp_name g1 = gp_name g ∧ gp_owner g1 = gp_owner g ∧
      gp_dismissed g1 = gp_dismissed g ∧ gp_lastSeq g1 = gp_lastSeq g).
    { unfold g1. by destruct (t_im_group_numbers _ !! _). }
    destruct H1 as (E1 & E2 & E3 & E4 & E5). clearbody g1.
    destruct (gp_joined (with_member m g1)) eqn:Ej.
    + apply bind_ok in H as (k & w1 & (-> & fs2 & ->)%query_ok & H). apply ret_ok in H as [<- <-].
      split; [eauto|]. cbn. rewrite E4. repeat (split; [done|]). exists gid. rewrite Em. done.
    + apply ret_ok in H as [<- <-]. split; [eauto|]. cbn. rewrite E4. repeat (split; [done|]).
      exists gid. rewrite Em. done.
  - apply ret_ok in H as [<- <-]. split; [eauto|].
    destruct (t_im_group_numbers (view w) !! gid); repeat (split; [done|]); exists gid; by rewrite Em.
Qed.

(** * What a completed command does to the tables *)

(** The row of a group that is not dismissed. *)
Definition open_group (d : Database) (g : Z) (r : GroupRow) : Prop :=
  t_im_groups d !! g = Some r ∧ g_dismissed r = 0.

(** The group of a command. *)
Definition names (c : Command) (g : Z) : Prop := groupId (groupID c) = inr g.

(** The branches that complete without changing rows. *)
Inductive no_effect (c : Command) (d : Database) : Prop :=
| ne_query : mutation c = false → no_effect c d
| ne_apply g i x :
    operation c = Apply → names c g → t_im_group_applications d !! i = Some x → ga_group x = g →
    ga_account x = actor c → ga_status x = 0 → no_effect c d
| ne_review g r x :
    operation c = Review → names c g → open_group d g r → g_owner r = actor c →
    t_im_group_applications d !! applicationID c = Some x → ga_group x = g → ga_status x ≠ 0 →
    no_effect c d
| ne_leave g r :
    operation c = Leave → names c g → open_group d g r → actor c ∉ active_of d g → no_effect c d
| ne_dismiss g r :
    operation c = Dismiss → names c g → t_im_groups d !! g = Some r → g_dismissed r ≠ 0 →
    g_owner r = actor c → no_effect c d
| ne_send g r k x :
    operation c = Send → names c g → open_group d g r → actor c ∈ active_of d g →
    t_im_group_messages d !! (g, k) = Some x → gm_sender x = actor c →
    gm_client_id x = clientID c → gm_text x = text c → no_effect c d.

(** One constructor per branch that changes rows, with the guards it has passed. *)
Inductive group_change (c : Command) (d : Database) : Database → Prop :=
| gc_none : no_effect c d → group_change c d d
| gc_create g v :
    operation c = Create → t_im_groups d !! g = None → is_uint64 g → g ≠ 0 →
    bad_name (text c) = false → t_im_group_number_cursor d = Some v → v <= kMaxAccount →
    group_change c d (set_im_group_members <[(g, actor c) := mkMemberRow 1 1 0 0 0]>
      (set_im_group_number_cursor (λ _, Some (v + 1)) (set_im_group_numbers <[g := v]>
        (set_im_groups <[g := mkGroupRow (text c) (actor c) 1 0 0]> d))))
| gc_apply g r time :
    operation c = Apply → names c g → open_group d g r → actor c ∉ active_of d g →
    group_change c d (insert_group_application g (actor c) (text c) time d).2
| gc_join g r x :
    operation c = Review → accept c = true → names c g → open_group d g r → g_owner r = actor c →
    t_im_group_applications d !! applicationID c = Some x → ga_group x = g → ga_status x = 0 →
    group_change c d (settle 1 (applicationID c) (recount g (join g (ga_account x) (g_last_seq r) d).2).2).2
| gc_reject g r x :
    operation c = Review → accept c = false → names c g → open_group d g r → g_owner r = actor c →
    t_im_group_applications d !! applicationID c = Some x → ga_group x = g → ga_status x = 0 →
    group_change c d (settle 2 (applicationID c) d).2
| gc_rename g r :
    operation c = Rename → names c g → open_group d g r → g_owner r = actor c → bad_name (text c) = false →
    group_change c d (set_group (renamed (text c)) g d).2
| gc_remove g r whom :
    names c g → open_group d g r → actor c ∈ active_of d g → whom ≠ g_owner r →
    (operation c = Leave ∧ whom = actor c ∨
     operation c = Kick ∧ whom = target c ∧ g_owner r = actor c) →
    group_change c d (recount g (set_member deactivated g whom d).2).2
| gc_dismiss g r :
    operation c = Dismiss → names c g → open_group d g r → g_owner r = actor c →
    group_change c d (close_pending g (set_group dismissed g d).2).2
| gc_send g r x :
    operation c = Send → names c g → open_group d g r → actor c ∈ active_of d g →
    gm_sender x = actor c → gm_text x = text c → gm_client_id x = clientID c → text c ≠ "" →
    message_conflict g (to_uint64 (g_last_seq r + 1)) x d = false →
    group_change c d (append_db g (to_uint64 (g_last_seq r + 1)) x d)
| gc_progress g r m :
    operation c = Ack ∨ operation c = Read → names c g → open_group d g r →
    t_im_group_members d !! (g, actor c) = Some m → m_active m = 1 → after c <= g_last_seq r →
    group_change c d (set_member
      (if operation c =? Ack then acked (Z.max (after c) (m_join_seq m))
       else seen (Z.max (after c) (m_join_seq m))) g (actor c) d).2.

(** What a locked operation knows of the group. *)
Record sees (c : Command) (d : Database) (id : Z) (r : GroupRow) (g : Group) : Prop := mkSees {
  se_row : t_im_groups d !! id = Some r;
  se_id : gp_id g = to_string id;
  se_owner : gp_owner g = g_owner r;
  se_last : gp_lastSeq g = g_last_seq r;
  se_open : gp_dismissed g = false → g_dismissed r = 0;
  se_closed : gp_dismissed g = true → g_dismissed r ≠ 0;
  se_names : operation c ≠ Search → names c id;
  se_joined : gp_joined g = true → ∃ m, t_im_group_members d !! (id, actor c) = Some m ∧
    m_active m = 1 ∧ gp_joinSeq g = m_join_seq m ∧ gp_epoch g = m_epoch m ∧ g_dismissed r = 0;
  se_out : gp_joined g = false → gp_dismissed g = false → actor c ∉ active_of d id;
}.

Lemma memberState_sees c id r w g w' :
  group_ok (view w) → t_im_groups (view w) !! id = Some r → (operation c ≠ Search → names c id) →
  memberState (group_of id r) (actor c) w = (inr g, w') →
  sees c (view w) id r g ∧ ∃ fs, w' = with_faults fs w.
Proof.
  intros Hok Hr Hnm H. apply memberState_ok in H as (Hfs & E1 & _ & E2 & E3 & E4 & gid & Hgid & Hm).
  destruct (go_id _ Hok id r Hr) as [Hu Hz]. cbn in Hgid, E1, E2, E3, E4.
  rewrite groupId_to_string in Hgid by done. injection Hgid as <-. split; [|done].
  assert (Hd : negb (to_uint64 (g_dismissed r) =? 0) = false → g_dismissed r = 0).
  { destruct (go_flag _ Hok id r Hr) as [E|E]; rewrite E; done. }
  split; try done.
  - rewrite E3. exact Hd.
  - rewrite E3. intros Hc Hr0. cbn in Hc. by rewrite Hr0 in Hc.
  - intros Hj. destruct (t_im_group_members (view w) !! (id, actor c)) as [m|] eqn:Em.
    + destruct Hm as (Hj' & Hs & He). exists m. split; [done|]. rewrite Hj in Hj'. symmetry in Hj'.
      apply andb_true_iff in Hj' as [Ha Hdis%negb_true_iff]. cbn in Hdis.
      apply Hd in Hdis. unfold is_active in Ha. bool_to_prop. destruct (go_member _ Hok _ _ _ Em) as ([?|?] & _); [done|].
      done.
    + rewrite Hm in Hj. done.
  - intros Hj Hdis (m & Em & Ha)%elem_of_active. rewrite Em in Hm. destruct Hm as (Hj' & _).
    rewrite Hj in Hj'. rewrite E3 in Hdis. cbn in Hj'. rewrite Hdis in Hj'.
    unfold is_active in Hj'. by rewrite Ha in Hj'.
Qed.

(** Queries alone. *)
Lemma quiet_change c {A} (m : M A) `{!Quiet m} w a w' :
  mutation c = false → m w = (inr a, w') → group_change c (view w) (view w').
Proof. intros Hq H. destruct (quiet_run m w _ _ H) as [-> _]. by apply gc_none, ne_query. Qed.

#[export] Instance Quiet_memberState g a : Quiet (memberState g a).
Proof. unfold memberState. apply _. Qed.
#[export] Instance Quiet_member_states rows a cu : Quiet (member_states rows a cu).
Proof. revert cu. induction rows; intros cu; cbn; apply _. Qed.

Section branches.
Context (c : Command) (nickname : string) (id : Z) (r : GroupRow) (g : Group) (p : Reply).
#[local] Set Default Proof Using "All".

Lemma apply_change w reply w' :
  sees c (view w) id r g → gp_dismissed g = false → operation c = Apply →
  apply_group c id g p w = (inr reply, w') → group_change c (view w) (view w').
Proof.
  intros [S1 S2 S3 S4 S5 S8 S9 S6 S7] Hd Hop H. unfold apply_group in H.
  destruct (gp_joined g) eqn:Ej; [done|].
  apply bind_ok in H as (pend & w1 & (-> & fs & ->)%query_ok & H).
  assert (Hn : names c id) by (apply S9; by rewrite Hop).
  destruct (select _ _) as [|[i x] l] eqn:Es.
  - run_ok H. world_simpl. eapply gc_apply; [done|done|split; [exact S1|by apply S5]|by apply S7].
  - apply ret_ok in H as [_ <-]. apply gc_none.
    assert (Hin : (i, x) ∈ select (λ _ r, (ga_group r =? id) && (ga_account r =? actor c) &&
      (ga_status r =? 0)) (t_im_group_applications (view w))) by (rewrite Es; apply list_elem_of_here).
    apply elem_of_select in Hin as [Hi Hx]. bool_to_prop. by eapply ne_apply.
Qed.

Lemma review_change w reply w' :
  sees c (view w) id r g → gp_joined g = true → gp_owner g = actor c → operation c = Review →
  review c id g p w = (inr reply, w') → group_change c (view w) (view w').
Proof.
  intros [S1 S2 S3 S4 S5 S8 S9 S6 S7] Hj Ho Hop H. destruct (S6 Hj) as (m & _ & _ & _ & _ & Hd0).
  unfold review in H. apply bind_ok in H as (row & w1 & (-> & fs & ->)%query_ok & H).
  destruct (t_im_group_applications (view w) !! applicationID c) as [x|] eqn:Ex; [|done]. cbn in H.
  destruct (ga_group x =? id) eqn:Eg; [|done]. bool_to_prop.
  destruct (negb _ && _); [done|].
  assert (Hopen : open_group (view w) id r) by done.
  assert (Hn : names c id) by (apply S9; by rewrite Hop).
  destruct (ga_status x =? 0) eqn:Es; cbn [when] in H.
  - bool_to_prop. destruct (accept c) eqn:Ea; cbn [when] in H; run_ok H; world_simpl.
    + rewrite S4. eapply gc_join; [done..|congruence|done|done|done].
    + eapply gc_reject; [done..|congruence|done|done|done].
  - run_ok H. apply gc_none. bool_to_prop. eapply ne_review; [done..|congruence|done|done|done].
Qed.

Lemma rename_change w reply w' :
  sees c (view w) id r g → gp_joined g = true → gp_owner g = actor c → operation c = Rename →
  rename c id g p w = (inr reply, w') → group_change c (view w) (view w').
Proof.
  intros [S1 S2 S3 S4 S5 S8 S9 S6 S7] Hj Ho Hop H. destruct (S6 Hj) as (m & _ & _ & _ & _ & Hd0).
  unfold rename in H. destruct (bad_name _) eqn:Eb; [done|]. destruct (bool_decide _); [done|].
  run_ok H. world_simpl. eapply gc_rename; [done|apply S9; by rewrite Hop|split; done|congruence|done].
Qed.

Lemma remove_change w reply w' :
  sees c (view w) id r g → gp_joined g = true →
  operation c = Leave ∨ operation c = Kick ∧ gp_owner g = actor c →
  remove_member c id g p w = (inr reply, w') → group_change c (view w) (view w').
Proof.
  intros [S1 S2 S3 S4 S5 S8 S9 S6 S7] Hj Hop H. destruct (S6 Hj) as (m & Hm & Ha & _ & _ & Hd0).
  unfold remove_member in H. set (whom := if operation c =? Leave then actor c else target c) in *.
  destruct (whom =? gp_owner g) eqn:Ew; [done|]. bool_to_prop. run_ok H. world_simpl.
  assert (Hn : names c id) by (apply S9; by destruct Hop as [->|[-> _]]).
  eapply (gc_remove c _ id r whom); [done|split; done|by apply elem_of_active; eauto|congruence|].
  unfold whom. destruct Hop as [->|[-> Ho]]; [by left|right]. split; [done|]. split; [done|congruence].
Qed.

Lemma dismiss_change w reply w' :
  sees c (view w) id r g → gp_joined g = true → gp_owner g = actor c → operation c = Dismiss →
  dismiss c id p w = (inr reply, w') → group_change c (view w) (view w').
Proof.
  intros [S1 S2 S3 S4 S5 S8 S9 S6 S7] Hj Ho Hop H. destruct (S6 Hj) as (m & _ & _ & _ & _ & Hd0).
  unfold dismiss in H. run_ok H. world_simpl. eapply gc_dismiss; [done|apply S9; by rewrite Hop|split; done|congruence].
Qed.

Lemma send_change w reply w' :
  sees c (view w) id r g → gp_joined g = true → operation c = Send →
  send c nickname id g p w = (inr reply, w') → group_change c (view w) (view w').
Proof.
  intros [S1 S2 S3 S4 S5 S8 S9 S6 S7] Hj Hop H. destruct (S6 Hj) as (m & Hm & Ha & _ & _ & Hd0).
  unfold send in H. destruct (str_empty (text c)) eqn:Et; [done|].
  apply bind_ok in H as (old & w1 & (-> & fs & ->)%query_ok & H).
  assert (Hn : names c id) by (apply S9; by rewrite Hop).
  destruct (find_message _ _ _ _) as [[sq x]|] eqn:Ef.
  { rewrite messageRow_columns in H. apply bind_ok in H as (msg & w1 & [[= <-] ->]%lift_ok & H).
    destruct (negb _) eqn:Etx; [done|]. apply ret_ok in H as [_ <-].
    apply negb_false_iff, bool_decide_eq_true in Etx. apply gc_none.
    unfold find_message in Ef. apply select_one_Some in Ef as (Hx & Hp & _). rewrite lookup_slice in Hx.
    apply andb_true_iff in Hp as [Hp1%Z.eqb_eq Hp2%bool_decide_eq_true].
    eapply ne_send; [done|done|split; done|by apply elem_of_active; eauto|exact Hx|done..]. }
  rewrite S4 in H. run_ok H. world_simpl.
  match goal with H : insert_message _ _ _ _ = inr _ |- _ => unfold insert_message in H;
    destruct (message_conflict _ _ _ _) eqn:Ec in H; [done|]; injection H as <- <- end.
  eapply (gc_send c _ id r); [done|done|split; done|by apply elem_of_active; eauto|..|exact Ec]; try done.
  by intros E; rewrite E in Et.
Qed.

Lemma progress_change w reply w' :
  sees c (view w) id r g → gp_joined g = true → operation c = Ack ∨ operation c = Read →
  progress c id g p w = (inr reply, w') → group_change c (view w) (view w').
Proof.
  intros [S1 S2 S3 S4 S5 S8 S9 S6 S7] Hj Hop H. destruct (S6 Hj) as (m & Hm & Ha & Hs & _ & Hd0).
  unfold progress in H. destruct (_ <? _) eqn:El; [done|]. bool_to_prop. rewrite Hs in H.
  run_ok H. world_simpl. eapply gc_progress; [done|apply S9; by destruct Hop as [->| ->]|split; done|done|done|lia].
Qed.
End branches.

#[export] Instance Quiet_my_applications c n : Quiet (my_applications c n).
Proof. unfold my_applications. apply _. Qed.
#[export] Instance Quiet_list_groups c : Quiet (list_groups c).
Proof. unfold list_groups. apply _. Qed.

(** ** The whole command *)

Section composed.
Context (c : Command) (nickname : string).
#[local] Set Default Proof Using "All".

#[local] Instance Quiet_list_members id g p : Quiet (list_members c id g p).
Proof using c. unfold list_members. apply _. Qed.
#[local] Instance Quiet_list_applications id g p : Quiet (list_applications c id g p).
Proof using c. unfold list_applications. apply _. Qed.
#[local] Instance Quiet_pull id g p : Quiet (pull c id g p).
Proof using c. unfold pull. apply _. Qed.

Lemma not_mutation :
  operation c ≠ Create → operation c ≠ Apply → operation c ≠ Review → operation c ≠ Rename →
  operation c ≠ Leave → operation c ≠ Kick → operation c ≠ Dismiss → operation c ≠ Send →
  mutation c = false.
Proof using c. intros. unfold mutation. repeat (apply orb_false_intro; [|by apply Z.eqb_neq]). by apply Z.eqb_neq. Qed.

Ltac quiet_op :=
  first [by apply not_mutation
        |unfold mutation; match goal with E : operation c = _ |- _ => rewrite E end; done].

Lemma member_operation_change id r g p w reply w' :
  sees c (view w) id r g → gp_joined g = true → operation c ≠ Create → operation c ≠ Apply →
  member_operation c nickname id g p w = (inr reply, w') → group_change c (view w) (view w').
Proof.
  intros Hs Hj Hnc Hna H. unfold member_operation in H. destruct (_ && _); [done|].
  destruct (owner_only (operation c) && _) eqn:Eo; [done|].
  assert (Ho : owner_only (operation c) = true → gp_owner g = actor c).
  { intros E. rewrite E in Eo. cbn in Eo. by bool_to_prop. }
  repeat (destruct (operation c =? _) eqn:? in H; bool_to_prop; cbn [orb] in H);
    repeat match goal with E : operation c = _ |- _ => rewrite E in Ho; specialize (Ho eq_refl) end;
    try by (apply (quiet_change c) in H; [exact H|apply _|quiet_op]).
  all: first [eapply review_change; eauto; fail|eapply rename_change; eauto; fail
    |eapply dismiss_change; eauto; fail|eapply send_change; eauto; fail|idtac].
  - eapply remove_change; eauto.
  - eapply remove_change; eauto.
  - eapply progress_change; eauto.
  - eapply progress_change; eauto.
Qed.

Lemma locked_operation_change id r g p w reply w' :
  sees c (view w) id r g → operation c ≠ Create →
  locked_operation c nickname id g p w = (inr reply, w') → group_change c (view w) (view w').
Proof.
  intros Hs Hnc H. unfold locked_operation in H. pose proof Hs as [S1 S2 S3 S4 S5 S8 S9 S6 S7].
  destruct (operation c =? Search) eqn:Ese; bool_to_prop.
  { apply ret_ok in H as [_ <-]. apply gc_none, ne_query. unfold mutation. by rewrite Ese. }
  destruct (gp_dismissed g) eqn:Ed.
  { destruct (_ && _) eqn:E; [|done]. apply ret_ok in H as [_ <-]. bool_to_prop.
    apply gc_none. eapply ne_dismiss; [done|by apply S9|done|by apply S8|congruence]. }
  destruct (operation c =? Apply) eqn:Ea; bool_to_prop; [by eapply apply_change; eauto|].
  destruct (gp_joined g) eqn:Ej; cbn [negb] in H; [by eapply member_operation_change; eauto|].
  destruct (operation c =? Leave) eqn:El; [|done]. apply ret_ok in H as [_ <-]. bool_to_prop.
  apply gc_none. eapply ne_leave; [done|by apply S9|split; [done|by apply S5]|by apply S7].
Qed.

Lemma resolve_ok id w id' w' :
  resolve c id w = (inr id', w') → (operation c ≠ Search → id' = id) ∧ ∃ fs, w' = with_faults fs w.
Proof using c.
  unfold resolve. destruct (_ =? Search) eqn:Es; bool_to_prop.
  - intros (f & w1 & (-> & fs & ->)%query_ok & H)%bind_ok. split; [done|]. exists fs.
    destruct (select_one _ _); [by apply ret_ok in H as [_ <-]|].
    destruct (_ <=? _); [done|by apply ret_ok in H as [_ <-]].
  - intros [<- <-]%ret_ok. split; [done|]. exists (w_faults w). by destruct w.
Qed.

Lemma group_operation_change w reply w' :
  group_ok (view w) → operation c ≠ Create → group_operation c nickname w = (inr reply, w') →
  group_change c (view w) (view w').
Proof.
  intros Hok Hnc H. unfold group_operation in H.
  apply bind_ok in H as (gid & w1 & [Hgid ->]%lift_ok & H).
  apply bind_ok in H as (id & w1 & [Hid [fs ->]]%resolve_ok & H).
  apply bind_ok in H as (row & w1 & (-> & fs1 & ->)%query_ok & H). world_simpl.
  destruct (t_im_groups (view w) !! id) as [r|] eqn:Er; cbn in H; [|done].
  apply bind_ok in H as (g & w1 & [[= <-] ->]%lift_ok & H).
  apply bind_ok in H as (g & w1 & Hg & H).
  apply (memberState_sees c id r) in Hg as (Hs & fs2 & ->);
    [|world_simpl..|]; [|done|done|intros Hse; by rewrite (Hid Hse)].
  eapply locked_operation_change in H; [|world_simpl; exact Hs|done]. by world_simpl.
Qed.

Lemma create_change w reply w' :
  operation c = Create → create_group c w = (inr reply, w') → group_change c (view w) (view w').
Proof using c.
  intros Hop H. unfold create_group in H. destruct (bad_name _) eqn:Eb; [done|].
  apply bind_ok in H as (id0 & w1 & Hid & H).
  assert (Hv : view w1 = view w).
  { by apply (quiet_run snowflake_nextId) in Hid as [? _]. }
  set (id := to_uint64 id0) in *.
  apply bind_ok in H as (u & w2 & Hg & H).
  apply execute_ok in Hg as (d1 & fs1 & Hg & ->). unfold insert_group in Hg.
  destruct (t_im_groups (view w1) !! id) eqn:Er; [done|]. injection Hg as <- <-.
  apply bind_ok in H as (v & w3 & Hn & H). unfold allocateGroupNumber in Hn.
  apply bind_ok in Hn as (cur & w2 & (-> & fs2 & ->)%query_ok & Hn). world_simpl.
  cbn [t_im_group_number_cursor] in Hn. db_simpl.
  destruct (t_im_group_number_cursor (view w1)) as [value|] eqn:Ec; [|done].
  destruct (kMaxAccount <? value) eqn:Emax; [done|].
  apply bind_ok in Hn as (u & w2 & Hnum & Hn).
  apply execute_ok in Hnum as (d1 & fs3 & Hnum & ->). unfold insert_number in Hnum.
  destruct (_ || _); [done|]. injection Hnum as <- <-.
  run_ok Hn. world_simpl.
  apply bind_ok in H as (u & w2 & Hm & H).
  apply execute_ok in Hm as (d1 & fs4 & Hm & ->). unfold insert_member in Hm.
  destruct (_ !! (id, actor c)) eqn:Em; [done|]. injection Hm as <- <-.
  apply bind_ok in H as (row & w2 & (-> & fs5 & ->)%query_ok & H). world_simpl. db_simpl.
  rewrite lookup_insert_eq in H. cbn in H.
  apply bind_ok in H as (g & w2 & [[= <-] ->]%lift_ok & H).
  apply bind_ok in H as (g & w2 & Hg & H).
  apply memberState_ok in Hg as ((fs6 & ->) & _ & _ & _ & _ & _ & gid & Hgid & _).
  apply ret_ok in H as [_ <-]. world_simpl. rewrite Hv in *.
  assert (Hu : is_uint64 id) by apply to_uint64_range.
  assert (Hz : id ≠ 0). { intros Ez. rewrite Ez in Hgid. done. }
  bool_to_prop. by apply (gc_create c _ id v).
Qed.

End composed.

(** Every change a command makes, whatever its operation. *)
Lemma perform_change c w reply w' :
  group_ok (view w) → perform c w = (inr reply, w') → group_change c (view w) (view w').
Proof.
  intros Hok H. unfold perform in H. destruct (_ || _); [done|]. destruct (_ <? _); [done|].
  apply bind_ok in H as (user & w1 & (-> & fs & ->)%query_ok & H).
  destruct (name_of _ _) as [nick|]; [|done].
  destruct (operation c =? MyApplications) eqn:E1; bool_to_prop.
  { apply (quiet_change c (my_applications c nick)) in H; [by world_simpl|unfold mutation; by rewrite E1]. }
  destruct (operation c =? List) eqn:E2; bool_to_prop.
  { apply (quiet_change c (list_groups c)) in H; [by world_simpl|unfold mutation; by rewrite E2]. }
  destruct (operation c =? Create) eqn:Ec; bool_to_prop.
  - apply create_change in H; [by rewrite view_faults in H|done].
  - apply group_operation_change in H; [by rewrite view_faults in H|by rewrite view_faults|done].
Qed.

(** ** The changes keep the invariant *)

(** No sequence number of a group is the last of its column. *)
Definition room (d : Database) : Prop := ∀ g r, t_im_groups d !! g = Some r → g_last_seq r < uint64_max.

Lemma room_next d g r :
  group_ok d → room d → t_im_groups d !! g = Some r → to_uint64 (g_last_seq r + 1) = g_last_seq r + 1.
Proof.
  intros Hok Hr Hg. apply to_uint64_id. specialize (Hr g r Hg). pose proof (go_last _ Hok g r Hg).
  split; lia.
Qed.

Lemma join_row d g a r :
  group_ok d → t_im_groups d !! g = Some r →
  let x := join_member (g_last_seq r) (t_im_group_members d !! (g, a)) in
  m_active x = 1 ∧ 0 <= m_join_seq x ∧ m_join_seq x <= m_ack_seq x <= g_last_seq r ∧
  m_join_seq x <= m_read_seq x <= g_last_seq r.
Proof.
  intros Hok Hg. pose proof (go_last _ Hok g r Hg). cbn.
  destruct (t_im_group_members d !! (g, a)) as [m|] eqn:Em; cbn; [|lia].
  destruct (go_member _ Hok g a m Em) as (Ha & r0 & Hr0 & ?). rewrite Hg in Hr0. injection Hr0 as <-.
  destruct (m_active m =? 0); cbn; split; lia.
Qed.

Lemma join_ok d g a r :
  group_ok d → t_im_groups d !! g = Some r → group_ok (recount g (join g a (g_last_seq r) d).2).2.
Proof.
  intros Hok Hg. destruct (join_row d g a r Hok Hg) as (Ha & ? & ? & ?).
  eapply (put_member_recount_ok g a); eauto.
Qed.

Lemma set_member_put f g a d m :
  t_im_group_members d !! (g, a) = Some m → (set_member f g a d).2 = put_member g a (f m) d.
Proof.
  unfold set_member, put_member, set_im_group_members, on_group, t_im_group_members. cbn [snd].
  intros Hm. by rewrite (alter_alt_Some _ _ _ _ Hm).
Qed.

Lemma recount_ok g d : group_ok d → group_ok (recount g d).2.
Proof.
  intros Hok. apply set_group_ok; [|done]. intros r Hg. by rewrite (go_count _ Hok g r Hg).
Qed.

Lemma set_member_none f g a d : t_im_group_members d !! (g, a) = None → (set_member f g a d).2 = d.
Proof.
  unfold set_member, set_im_group_members, on_group, t_im_group_members. cbn [snd].
  intros Hm. rewrite (alter_id' _ _ _ Hm). destruct d as [? ? ? ? []]. done.
Qed.

Lemma removed_ok g whom r d :
  group_ok d → t_im_groups d !! g = Some r → whom ≠ g_owner r →
  group_ok (recount g (set_member deactivated g whom d).2).2.
Proof.
  intros Hok Hg Hw. destruct (t_im_group_members d !! (g, whom)) as [m|] eqn:Em.
  - rewrite (set_member_put _ _ _ _ _ Em). destruct (go_member _ Hok g whom m Em) as (? & r0 & Hr0 & ?).
    rewrite Hg in Hr0. injection Hr0 as <-. eapply put_member_recount_ok; try done; [by left|cbn; lia..].
  - rewrite set_member_none by done. by apply recount_ok.
Qed.

Lemma change_ok c d d' : room d → group_change c d d' → group_ok d → group_ok d'.
Proof.
  intros Hroom Hc Hok.
  destruct Hc as [_|g v Hop Hg Hu Hz Hn _ _|g r t Hop _ [Hg Hd] Ha|g r x Hop Hacc _ [Hg Hd] Ho Hx <- Hs
    |g r x Hop Hacc _ [Hg Hd] Ho Hx <- Hs|g r Hop _ [Hg Hd] Ho Hn|g r whom _ [Hg Hd] Ha Hw _
    |g r Hop _ [Hg Hd] Ho|g r x Hop _ [Hg Hd] Ha Hs Ht Hcl Hne Hc|g r m Hop _ [Hg Hd] Hm Ha Hle].
  - done.
  - eapply (group_same (create_db g (text c) (actor c) d)); [done..|]. by apply create_ok.
  - by eapply apply_ok.
  - apply settle_group_ok; [done|]. by apply join_ok.
  - by apply settle_group_ok.
  - apply set_group_ok; [|done]. by intros.
  - by eapply removed_ok.
  - by apply dismiss_ok.
  - rewrite (room_next d g r) in * by done. by apply append_ok.
  - rewrite (set_member_put _ _ _ _ _ Hm). destruct (go_member _ Hok _ _ _ Hm) as (? & r0 & Hr0 & ?).
    rewrite Hg in Hr0. injection Hr0 as <-.
    destruct (_ =? Ack); (eapply put_member_ok; [done|done|done|done|cbn; lia..]).
Qed.
