(* ===== verification/GroupSpec.v ===== *)
(** Group chat seen from outside: an abstract group is a name, an owner, a set of
    members, a log of messages and whether it has been dismissed.  The abstraction of
    the tables, the steps the commands promise, and the proof that each change of
    the tables is such a step. *)
From S2P Require Import Prelude Table Snowflake Schema Effects Users Registration Stores Conversations Replies Groups GroupProofs.

(** * The specification *)

(** Sender, client id and text of a message. *)
Definition Entry : Type := Z * string * string.

Record Room := mkRoom {
  rm_name : string; rm_owner : Z; rm_members : gset Z; rm_log : list Entry; rm_closed : bool;
}.

(** The groups, and the group and the applicant of each pending application. *)
Record Spec := mkSpec { sp_rooms : gmap Z Room; sp_pending : gmap Z (Z * Z) }.

Definition put_room (g : Z) (r : Room) (s : Spec) : Spec := mkSpec (<[g := r]> (sp_rooms s)) (sp_pending s).
Definition set_pending (f : gmap Z (Z * Z) → gmap Z (Z * Z)) (s : Spec) : Spec :=
  mkSpec (sp_rooms s) (f (sp_pending s)).

Definition named (n : string) (r : Room) : Room := mkRoom n (rm_owner r) (rm_members r) (rm_log r) (rm_closed r).
Definition peopled (m : gset Z) (r : Room) : Room := mkRoom (rm_name r) (rm_owner r) m (rm_log r) (rm_closed r).
Definition posted (e : Entry) (r : Room) : Room :=
  mkRoom (rm_name r) (rm_owner r) (rm_members r) (rm_log r ++ [e]) (rm_closed r).
Definition closed (r : Room) : Room := mkRoom (rm_name r) (rm_owner r) (rm_members r) (rm_log r) true.

Definition open_room (s : Spec) (g : Z) (r : Room) : Prop := sp_rooms s !! g = Some r ∧ rm_closed r = false.

(** What a command finds already done, or has nothing to do for. *)
Inductive settled (c : Command) (s : Spec) : Prop :=
| st_query : mutation c = false → settled c s
| st_apply g i :
    operation c = Apply → names c g → sp_pending s !! i = Some (g, actor c) → settled c s
| st_review g r :
    operation c = Review → names c g → open_room s g r → rm_owner r = actor c →
    sp_pending s !! applicationID c = None → settled c s
| st_leave g r :
    operation c = Leave → names c g → open_room s g r → actor c ∉ rm_members r → settled c s
| st_dismiss g r :
    operation c = Dismiss → names c g → sp_rooms s !! g = Some r → rm_closed r = true →
    rm_owner r = actor c → settled c s
| st_send g r :
    operation c = Send → names c g → open_room s g r → actor c ∈ rm_members r →
    (actor c, clientID c, text c) ∈ rm_log r → settled c s.

(** What a command that succeeds does. *)
Inductive spec (c : Command) (s : Spec) : Spec → Prop :=
| sp_settled : settled c s → spec c s s
| sp_create g :
    operation c = Create → sp_rooms s !! g = None →
    spec c s (put_room g (mkRoom (text c) (actor c) {[actor c]} [] false) s)
| sp_apply g r i :
    operation c = Apply → names c g → open_room s g r → actor c ∉ rm_members r →
    sp_pending s !! i = None → spec c s (set_pending <[i := (g, actor c)]> s)
| sp_accept g r a :
    operation c = Review → accept c = true → names c g → open_room s g r → rm_owner r = actor c →
    sp_pending s !! applicationID c = Some (g, a) →
    spec c s (put_room g (peopled ({[a]} ∪ rm_members r) r) (set_pending (delete (applicationID c)) s))
| sp_reject g r a :
    operation c = Review → accept c = false → names c g → open_room s g r → rm_owner r = actor c →
    sp_pending s !! applicationID c = Some (g, a) → spec c s (set_pending (delete (applicationID c)) s)
| sp_rename g r :
    operation c = Rename → names c g → open_room s g r → rm_owner r = actor c →
    spec c s (put_room g (named (text c) r) s)
| sp_remove g r a :
    names c g → open_room s g r → actor c ∈ rm_members r → a ≠ rm_owner r →
    (operation c = Leave ∧ a = actor c ∨ operation c = Kick ∧ a = target c ∧ rm_owner r = actor c) →
    spec c s (put_room g (peopled (rm_members r ∖ {[a]}) r) s)
| sp_dismiss g r :
    operation c = Dismiss → names c g → open_room s g r → rm_owner r = actor c →
    spec c s (put_room g (closed r) (set_pending (filter (λ p, p.2.1 ≠ g)) s))
| sp_send g r :
    operation c = Send → names c g → open_room s g r → actor c ∈ rm_members r → text c ≠ "" →
    (∀ t, (actor c, clientID c, t) ∉ rm_log r) →
    spec c s (put_room g (posted (actor c, clientID c, text c) r) s).

(** * The abstraction of the tables *)

Definition entry_of (x : GroupMessageRow) : Entry := (gm_sender x, gm_client_id x, gm_text x).

Definition log_of (d : Database) (g n : Z) : list Entry :=
  omap (λ k, entry_of <$> t_im_group_messages d !! (g, k)) (seqZ 1 n).

Definition room_of (d : Database) (g : Z) (r : GroupRow) : Room :=
  mkRoom (g_name r) (g_owner r) (active_of d g) (log_of d g (g_last_seq r)) (negb (g_dismissed r =? 0)).

Definition pending_of (x : GroupApplicationRow) : option (Z * Z) :=
  if ga_status x =? 0 then Some (ga_group x, ga_account x) else None.

Definition abs (d : Database) : Spec :=
  mkSpec (map_imap (λ g r, Some (room_of d g r)) (t_im_groups d))
         (omap pending_of (t_im_group_applications d)).

Lemma abs_room d g : sp_rooms (abs d) !! g = room_of d g <$> t_im_groups d !! g.
Proof. cbn. rewrite map_lookup_imap. by destruct (t_im_groups d !! g). Qed.

Lemma abs_pending d i : sp_pending (abs d) !! i = t_im_group_applications d !! i ≫= pending_of.
Proof. cbn. by rewrite lookup_omap. Qed.

Lemma abs_open d g r : open_group d g r → open_room (abs d) g (room_of d g r).
Proof. intros [Hg Hd]. split; [by rewrite abs_room, Hg|]. cbn. by rewrite Hd. Qed.

(** Two databases that agree on the rows of a group. *)
Definition agree (d d' : Database) (k : Z) : Prop :=
  t_im_groups d' !! k = t_im_groups d !! k ∧ active_of d' k = active_of d k ∧
  ∀ i, t_im_group_messages d' !! (k, i) = t_im_group_messages d !! (k, i).

Lemma log_agree d d' g n :
  (∀ i, i ∈ seqZ 1 n → t_im_group_messages d' !! (g, i) = t_im_group_messages d !! (g, i)) →
  log_of d' g n = log_of d g n.
Proof.
  intros H. unfold log_of. induction (seqZ 1 n) as [|k l IH]; [done|]. cbn [omap list_omap].
  rewrite H by apply list_elem_of_here. by rewrite IH by (intros i Hi; by apply H, list_elem_of_further).
Qed.

Lemma room_agree d d' g r :
  active_of d' g = active_of d g → (∀ i, t_im_group_messages d' !! (g, i) = t_im_group_messages d !! (g, i)) →
  room_of d' g r = room_of d g r.
Proof. intros Ha Hm. unfold room_of. by rewrite Ha, (log_agree d d'). Qed.

Lemma rooms_same d d' : (∀ k, agree d d' k) → sp_rooms (abs d') = sp_rooms (abs d).
Proof.
  intros H. apply map_eq. intros k. rewrite !abs_room. rewrite (proj1 (H k)).
  destruct (t_im_groups d !! k); [|done]. cbn. by rewrite (room_agree d d') by apply H.
Qed.

Lemma rooms_insert d d' g r' :
  t_im_groups d' !! g = Some r' → (∀ k, k ≠ g → agree d d' k) →
  sp_rooms (abs d') = <[g := room_of d' g r']> (sp_rooms (abs d)).
Proof.
  intros Hg H. apply map_eq. intros k. destruct (decide (k = g)) as [->|Hne].
  - by rewrite lookup_insert_eq, abs_room, Hg.
  - rewrite lookup_insert_ne, !abs_room, (proj1 (H k Hne)) by done.
    destruct (t_im_groups d !! k); [|done]. cbn. by rewrite (room_agree d d') by by apply H.
Qed.

(** * Each change of the tables is a step *)

(** The log is complete: entries and messages correspond. *)
Lemma elem_of_log d g r e :
  group_ok d → t_im_groups d !! g = Some r →
  e ∈ log_of d g (g_last_seq r) ↔ ∃ k x, t_im_group_messages d !! (g, k) = Some x ∧ entry_of x = e.
Proof.
  intros Hok Hg. unfold log_of. rewrite list_elem_of_omap. split.
  - intros (k & Hk & He). destruct (t_im_group_messages d !! (g, k)) as [x|] eqn:Ex; [|done].
    injection He as <-. eauto.
  - intros (k & x & Hx & <-). exists k. rewrite Hx. split; [|done]. apply elem_of_seqZ.
    destruct (go_log _ Hok g k x Hx) as (r' & Hr' & ?). rewrite Hg in Hr'. injection Hr' as <-. lia.
Qed.

Lemma settled_abs c d : group_ok d → no_effect c d → settled c (abs d).
Proof.
  intros Hok [Hq|g i x Hop Hn Hx Hgx Hax Hs|g r x Hop Hn Ho Hr Hx Hgx Hs|g r Hop Hn Ho Ha
    |g r Hop Hn Hg Hd Hr|g r k x Hop Hn Ho Ha Hx Hs Hc Ht].
  - by apply st_query.
  - apply (st_apply _ _ g i); [done..|]. rewrite abs_pending, Hx. cbn. unfold pending_of.
    by rewrite Hs, Hgx, Hax.
  - apply (st_review _ _ g (room_of d g r)); [done|done|by apply abs_open|done|].
    rewrite abs_pending, Hx. cbn. unfold pending_of. by rewrite (proj2 (Z.eqb_neq _ _) Hs).
  - apply (st_leave _ _ g (room_of d g r)); [done|done|by apply abs_open|done].
  - apply (st_dismiss _ _ g (room_of d g r)); [done|done|by rewrite abs_room, Hg| |done].
    cbn. by rewrite (proj2 (Z.eqb_neq _ _) Hd).
  - apply (st_send _ _ g (room_of d g r)); [done|done|by apply abs_open|done|].
    apply elem_of_log; [done|apply Ho|]. exists k, x. split; [done|]. unfold entry_of. congruence.
Qed.

Lemma pending_same d d' :
  t_im_group_applications d' = t_im_group_applications d → sp_pending (abs d') = sp_pending (abs d).
Proof. intros E. cbn. by rewrite E. Qed.

Lemma spec_eq s s' : sp_rooms s = sp_rooms s' → sp_pending s = sp_pending s' → s = s'.
Proof. destruct s, s'. cbn. congruence. Qed.

Lemma pending_settle d st i :
  st ≠ 0 → sp_pending (abs (settle st i d).2) = delete i (sp_pending (abs d)).
Proof.
  intros Hst. apply map_eq. intros j. rewrite abs_pending. unfold settle. cbn [snd]. db_simpl.
  destruct (decide (j = i)) as [->|Hne].
  - rewrite lookup_delete_eq, lookup_alter_eq. destruct (t_im_group_applications d !! i); [|done].
    cbn. unfold pending_of. cbn. by rewrite (proj2 (Z.eqb_neq _ _) Hst).
  - by rewrite lookup_delete_ne, lookup_alter_ne, abs_pending.
Qed.

Lemma pending_some d i x :
  t_im_group_applications d !! i = Some x → ga_status x = 0 →
  sp_pending (abs d) !! i = Some (ga_group x, ga_account x).
Proof. intros Hx Hs. rewrite abs_pending, Hx. cbn. unfold pending_of. by rewrite Hs. Qed.

Lemma abs_set_group f g r d :
  t_im_groups d !! g = Some r →
  sp_rooms (abs (set_group f g d).2) = <[g := room_of d g (f r)]> (sp_rooms (abs d)).
Proof.
  intros Hg. rewrite (rooms_insert d _ g (f r)).
  - by rewrite (room_agree d).
  - unfold set_group. cbn [snd]. db_simpl. by rewrite lookup_alter_eq, Hg.
  - intros k Hk. unfold agree, set_group. cbn [snd]. db_simpl. by rewrite lookup_alter_ne.
Qed.

Lemma log_append d g r x :
  group_ok d → t_im_groups d !! g = Some r →
  log_of (append_db g (g_last_seq r + 1) x d) g (g_last_seq r + 1) =
  log_of d g (g_last_seq r) ++ [entry_of x].
Proof.
  intros Hok Hg. pose proof (go_last _ Hok g r Hg). set (d' := append_db _ _ _ _).
  assert (Hm : t_im_group_messages d' = <[(g, g_last_seq r + 1) := x]> (t_im_group_messages d)) by done.
  rewrite <- (log_agree d d').
  - unfold log_of. rewrite seqZ_app, omap_app by lia. f_equal.
    assert (Hone : seqZ (1 + g_last_seq r) 1 = [g_last_seq r + 1]).
    { rewrite seqZ_cons, seqZ_nil by lia. f_equal. lia. }
    rewrite Hone. cbn [omap list_omap]. by rewrite Hm, lookup_insert_eq.
  - intros i Hi%elem_of_seqZ. rewrite Hm, lookup_insert_ne; [done|]. intros [=]. lia.
Qed.

(** Membership. *)
Lemma active_recount g d k : active_of (recount g d).2 k = active_of d k.
Proof. done. Qed.

Lemma abs_recount_put g a x r d :
  t_im_groups d !! g = Some r →
  sp_rooms (abs (recount g (put_member g a x d)).2) =
  <[g := peopled (active_of (put_member g a x d) g) (room_of d g r)]> (sp_rooms (abs d)).
Proof.
  intros Hg. set (d1 := put_member g a x d). assert (Hg1 : t_im_groups d1 !! g = Some r) by done.
  unfold recount. rewrite (abs_set_group _ _ r) by done.
  assert (Hr : room_of d1 g (counted (active_count g d1) r) = peopled (active_of d1 g) (room_of d g r)) by done.
  rewrite Hr. apply map_eq. intros k. destruct (decide (k = g)) as [->|Hne]; [by rewrite !lookup_insert_eq|].
  rewrite !lookup_insert_ne, !abs_room by done. change (t_im_groups d1) with (t_im_groups d).
  destruct (t_im_groups d !! k); [|done]. cbn. f_equal. apply room_agree; [|done].
  by apply active_put_other.
Qed.

Lemma active_join g a x d :
  m_active x = 1 → active_of (put_member g a x d) g = {[a]} ∪ active_of d g.
Proof.
  intros Ha. apply set_eq. intros b. rewrite active_put_member, elem_of_union, elem_of_singleton.
  destruct (decide (b = a)) as [->|Hne]; [by split; left|].
  split; [intros [(_ & ? & _)|[_ ?]]; [done|by right]|]. intros [?|?]; [done|right]. split; [congruence|done].
Qed.

Lemma active_leave g a x d :
  m_active x ≠ 1 → active_of (put_member g a x d) g = active_of d g ∖ {[a]}.
Proof.
  intros Ha. apply set_eq. intros b. rewrite active_put_member, elem_of_difference, elem_of_singleton.
  destruct (decide (b = a)) as [->|Hne].
  - split; [intros [(_ & _ & ?)|[? _]]; [done|congruence]|by intros [_ ?]].
  - split; [intros [(_ & ? & _)|[_ ?]]; [done|done]|]. intros [? _]. right. split; [congruence|done].
Qed.

(** ** The abstraction after each change *)

Lemma abs_create g name owner v v' d :
  group_ok d → t_im_groups d !! g = None →
  abs (set_im_group_members <[(g, owner) := mkMemberRow 1 1 0 0 0]>
    (set_im_group_number_cursor (λ _, Some v') (set_im_group_numbers <[g := v]>
      (set_im_groups <[g := mkGroupRow name owner 1 0 0]> d)))) =
  put_room g (mkRoom name owner {[owner]} [] false) (abs d).
Proof.
  intros Hok Hg. set (x := mkMemberRow 1 1 0 0 0). set (d1 := set_im_group_number_cursor _ _).
  apply spec_eq; [|done]. change (set_im_group_members _ d1) with (put_member g owner x d1).
  rewrite (rooms_insert d _ g (mkGroupRow name owner 1 0 0)).
  - unfold room_of. cbn [g_name g_owner g_last_seq g_dismissed].
    rewrite active_join by done. change (active_of d1 g) with (active_of d g).
    assert (He : active_of d g = ∅); [|by rewrite He, union_empty_r_L].
    apply elem_of_equiv_empty_L. intros a (m & Hm & _)%elem_of_active.
    destruct (go_member _ Hok g a m Hm) as (_ & r & Hr & _). congruence.
  - unfold put_member, d1. db_simpl. by rewrite lookup_insert_eq.
  - intros k Hk. split; [|split; [exact (active_put_other g owner x d1 k Hk)|done]].
    unfold put_member, d1. db_simpl. by rewrite lookup_insert_ne.
Qed.

Lemma abs_apply g a why t d :
  abs (insert_group_application g a why t d).2 =
  set_pending <[t_im_group_applications_next d := (g, a)]> (abs d).
Proof.
  apply spec_eq; [by apply rooms_same|]. cbn [sp_pending set_pending]. apply map_eq. intros i.
  rewrite abs_pending. unfold insert_group_application. cbn [snd]. db_simpl.
  destruct (decide (i = t_im_group_applications_next d)) as [->|Hne].
  - by rewrite !lookup_insert_eq.
  - by rewrite !lookup_insert_ne, abs_pending.
Qed.

Lemma abs_settle st i d : st ≠ 0 → abs (settle st i d).2 = set_pending (delete i) (abs d).
Proof. intros Hst. apply spec_eq; [by apply rooms_same|by apply pending_settle]. Qed.

Lemma abs_join g a r d :
  group_ok d → t_im_groups d !! g = Some r →
  abs (recount g (join g a (g_last_seq r) d).2).2 =
  put_room g (peopled ({[a]} ∪ active_of d g) (room_of d g r)) (abs d).
Proof.
  intros Hok Hg. destruct (join_row d g a r Hok Hg) as (Ha & _).
  apply spec_eq; [|done]. change (join g a (g_last_seq r) d).2 with
    (put_member g a (join_member (g_last_seq r) (t_im_group_members d !! (g, a))) d).
  by rewrite (abs_recount_put g a _ r), active_join.
Qed.

Lemma abs_rename g r name d :
  t_im_groups d !! g = Some r →
  abs (set_group (renamed name) g d).2 = put_room g (named name (room_of d g r)) (abs d).
Proof. intros Hg. apply spec_eq; [|done]. by rewrite (abs_set_group _ _ r). Qed.

Lemma abs_remove g a r d :
  t_im_groups d !! g = Some r →
  abs (recount g (set_member deactivated g a d).2).2 =
  put_room g (peopled (active_of d g ∖ {[a]}) (room_of d g r)) (abs d).
Proof.
  intros Hg. apply spec_eq; [|done].
  destruct (t_im_group_members d !! (g, a)) as [m|] eqn:Em.
  - rewrite (set_member_put _ _ _ _ _ Em), (abs_recount_put g a _ r), active_leave by done. done.
  - rewrite set_member_none by done. unfold recount. rewrite (abs_set_group _ _ r) by done.
    assert (Ha : active_of d g ∖ {[a]} = active_of d g).
    { apply difference_disjoint_L, disjoint_singleton_r. intros (m & Hm & _)%elem_of_active. congruence. }
    by rewrite Ha.
Qed.

Lemma abs_dismiss g r d :
  t_im_groups d !! g = Some r →
  abs (close_pending g (set_group dismissed g d).2).2 =
  put_room g (closed (room_of d g r)) (set_pending (filter (λ p, p.2.1 ≠ g)) (abs d)).
Proof.
  intros Hg. apply spec_eq.
  - change (sp_rooms (abs (close_pending g (set_group dismissed g d).2).2)) with
      (sp_rooms (abs (set_group dismissed g d).2)). by rewrite (abs_set_group _ _ r).
  - cbn [sp_pending put_room set_pending]. apply map_eq. intros i. rewrite abs_pending.
    unfold close_pending, set_group. cbn [snd]. db_simpl. rewrite lookup_update_where, map_lookup_filter, abs_pending.
    destruct (t_im_group_applications d !! i) as [x|]; [|done]. cbn. unfold pending_of.
    destruct (ga_group x =? g) eqn:E1, (ga_status x =? 0) eqn:E2; cbn; rewrite ?E2; bool_to_prop; try done.
    + by rewrite option_guard_False by auto.
    + by rewrite option_guard_True.
Qed.

Lemma abs_send g r x d :
  group_ok d → t_im_groups d !! g = Some r →
  abs (append_db g (g_last_seq r + 1) x d) = put_room g (posted (entry_of x) (room_of d g r)) (abs d).
Proof.
  intros Hok Hg. apply spec_eq; [|done]. rewrite (rooms_insert d _ g (advanced (g_last_seq r + 1) r)).
  - f_equal. unfold room_of. cbn [g_name g_owner g_last_seq g_dismissed advanced].
    by rewrite log_append.
  - unfold append_db, set_group. cbn [snd]. db_simpl. by rewrite lookup_alter_eq, Hg.
  - intros k Hk. unfold agree, append_db, set_group. cbn [snd]. db_simpl.
    rewrite lookup_alter_ne by done. split; [done|]. split; [done|]. intros i.
    by rewrite lookup_insert_ne by congruence.
Qed.

Lemma abs_progress f g a d :
  (∀ m, m_active (f m) = m_active m) → abs (set_member f g a d).2 = abs d.
Proof.
  intros Hf. apply spec_eq; [|done]. apply rooms_same. intros k. split; [done|]. split; [|done].
  apply set_eq. intros b. rewrite !elem_of_active. unfold set_member. cbn [snd]. db_simpl.
  setoid_rewrite lookup_alter_Some. split.
  - intros (m & [([= <- <-] & m0 & Hm & ->)|[_ Hm]] & Ha); [rewrite Hf in Ha|]; eauto.
  - intros (m & Hm & Ha). destruct (decide ((g, a) = (k, b))) as [E|Hne]; [|eauto].
    exists (f m). rewrite Hf. split; [left; eauto|done].
Qed.

(** Every change of the tables is a step of the specification. *)
Lemma change_spec c d d' : room d → group_ok d → group_change c d d' → spec c (abs d) (abs d').
Proof.
  intros Hroom Hok Hc.
  destruct Hc as [Hn|g v Hop Hg Hu Hz Hn _ _|g r t Hop Hn Ho Ha|g r x Hop Hacc Hn Ho Hr Hx Hgx Hs
    |g r x Hop Hacc Hn Ho Hr Hx Hgx Hs|g r Hop Hn Ho Hr Hb|g r whom Hn Ho Ha Hw Hop
    |g r Hop Hn Ho Hr|g r x Hop Hn Ho Ha Hs Ht Hcl Hne Hc|g r m Hop Hn Ho Hm Ha Hle];
    try (pose proof (abs_open d g r Ho) as Ho'; destruct Ho as [Hg Hd]).
  - by apply sp_settled, settled_abs.
  - rewrite abs_create by done. apply sp_create; [done|].
    by rewrite abs_room, Hg.
  - rewrite abs_apply. eapply (sp_apply _ _ g (room_of d g r)); try done.
    rewrite abs_pending. destruct (t_im_group_applications d !! _) as [x|] eqn:Ex; [|done].
    destruct (go_app _ Hok _ _ Ex). lia.
  - rewrite abs_settle, (abs_join g _ r) by done.
    change (set_pending ?f (put_room ?h ?q ?s)) with (put_room h q (set_pending f s)).
    apply (sp_accept _ _ g (room_of d g r) (ga_account x)); try done.
    by rewrite <- Hgx; apply pending_some.
  - rewrite abs_settle by done. apply (sp_reject _ _ g (room_of d g r) (ga_account x)); try done.
    by rewrite <- Hgx; apply pending_some.
  - rewrite (abs_rename g r) by done. by apply sp_rename.
  - rewrite (abs_remove g _ r) by done. by apply (sp_remove _ _ g (room_of d g r) whom).
  - rewrite (abs_dismiss g r) by done. by apply sp_dismiss.
  - rewrite (room_next d g r) in * by done. rewrite abs_send by done.
    assert (He : entry_of x = (actor c, clientID c, text c)) by (unfold entry_of; congruence).
    rewrite He. apply sp_send; try done.
    intros t (k & y & Hy & [= E1 E2 _])%elem_of_log; [|done|done].
    apply no_conflict in Hc as [_ Hc]. apply (Hc k y Hy). split; congruence.
  - rewrite abs_progress by (intros m'; by destruct (_ =? Ack)). apply sp_settled, st_query.
    unfold mutation. by destruct Hop as [-> | ->].
Qed.
