(* ===== verification/GroupSamples.v ===== *)
(** A concrete encoding of group commands and replies, with its laws, and a small
    history of commands on which the theorems of group chat are evaluated. *)
From S2P Require Import Prelude Table Snowflake Schema Effects Users Registration Stores Conversations Samples Replies Groups GroupProofs GroupSpec.

(** * Trees of fields *)

Definition tree : Type := gen_tree (Z + string).

Definition tz (z : Z) : tree := GenLeaf (inl z).
Definition ts (s : string) : tree := GenLeaf (inr s).
Definition tb (b : bool) : tree := tz (if b then 1 else 0).

Definition un_z (t : tree) : option Z := match t with GenLeaf (inl z) => Some z | _ => None end.
Definition un_s (t : tree) : option string := match t with GenLeaf (inr s) => Some s | _ => None end.
Definition un_b (t : tree) : option bool := z ← un_z t; Some (z =? 1).

Definition tree_command (c : Command) : tree :=
  GenNode 0 [tz (operation c); tz (actor c); ts (groupID c); ts (text c); tz (target c);
    tz (applicationID c); tb (accept c); tz (after c); tz (limit c); tz (snapshot c);
    ts (clientID c); tz (epoch c)].

Definition tree_group (g : Group) : tree :=
  GenNode 0 [ts (gp_id g); ts (gp_name g); tz (gp_owner g); tz (gp_memberCount g); tb (gp_dismissed g);
    tb (gp_joined g); tz (gp_joinSeq g); tz (gp_lastSeq g); tz (gp_readSeq g); tz (gp_unread g);
    tb (gp_large g); tz (gp_epoch g); ts (gp_number g)].
Definition group_tree (t : tree) : option Group :=
  match t with
  | GenNode _ [a; b; c; d; e; f; g; h; i; j; k; l; m] =>
      a ← un_s a; b ← un_s b; c ← un_z c; d ← un_z d; e ← un_b e; f ← un_b f; g ← un_z g; h ← un_z h;
      i ← un_z i; j ← un_z j; k ← un_b k; l ← un_z l; m ← un_s m;
      Some (mkGroup a b c d e f g h i j k l m)
  | _ => None
  end.

Definition tree_member (m : Member) : tree :=
  GenNode 0 [tz (mb_account m); ts (mb_nickname m); tb (mb_owner m)].
Definition member_tree (t : tree) : option Member :=
  match t with
  | GenNode _ [a; b; c] => a ← un_z a; b ← un_s b; c ← un_b c; Some (mkMember a b c)
  | _ => None
  end.

Definition tree_application (a : Application) : tree :=
  GenNode 0 [tz (ga_id a); ts (ga_groupID a); tz (ga_user a); ts (ga_nickname a); ts (ga_why a);
    tz (ga_state a); tz (ga_time a); ts (ga_groupName a); ts (ga_groupNumber a)].
Definition application_tree (t : tree) : option Application :=
  match t with
  | GenNode _ [a; b; c; d; e; f; g; h; i] =>
      a ← un_z a; b ← un_s b; c ← un_z c; d ← un_s d; e ← un_s e; f ← un_z f; g ← un_z g; h ← un_s h;
      i ← un_s i; Some (mkApplication a b c d e f g h i)
  | _ => None
  end.

Definition tree_message (m : Message) : tree :=
  GenNode 0 [ts (ms_id m); ts (ms_clientID m); ts (ms_groupID m); tz (ms_sender m); ts (ms_nickname m);
    ts (ms_text m); tz (ms_seq m); tz (ms_time m)].
Definition message_tree (t : tree) : option Message :=
  match t with
  | GenNode _ [a; b; c; d; e; f; g; h] =>
      a ← un_s a; b ← un_s b; c ← un_s c; d ← un_z d; e ← un_s e; f ← un_s f; g ← un_z g; h ← un_z h;
      Some (mkMessage a b c d e f g h)
  | _ => None
  end.

Definition tree_list {A} (f : A → tree) (l : list A) : tree := GenNode 1 (f <$> l).
Definition list_tree {A} (f : tree → option A) (t : tree) : option (list A) :=
  match t with GenNode _ l => mapM f l | _ => None end.

Definition tree_reply (r : Reply) : tree :=
  GenNode 0 [ts (re_errorCode r); ts (re_errorMessage r); tree_list tree_group (re_groups r);
    tree_list tree_member (re_members r); tree_list tree_application (re_applications r);
    tree_list tree_message (re_messages r); tz (re_cursor r); tb (re_hasMore r); tz (re_snapshot r);
    ts (re_groupID r); tz (re_epoch r)].
Definition reply_tree (t : tree) : option Reply :=
  match t with
  | GenNode _ [a; b; c; d; e; f; g; h; i; j; k] =>
      a ← un_s a; b ← un_s b; c ← list_tree group_tree c; d ← list_tree member_tree d;
      e ← list_tree application_tree e; f ← list_tree message_tree f; g ← un_z g; h ← un_b h;
      i ← un_z i; j ← un_s j; k ← un_z k; Some (mkReply a b c d e f g h i j k)
  | _ => None
  end.

Lemma un_b_tb b : un_b (tb b) = Some b.
Proof. by destruct b. Qed.

Lemma list_tree_list {A} (f : A → tree) (g : tree → option A) l :
  (∀ x, g (f x) = Some x) → list_tree g (tree_list f l) = Some l.
Proof.
  intros Hgf. cbn. induction l as [|x l IH]; [done|]. cbn. rewrite Hgf. cbn.
  by rewrite IH.
Qed.

Lemma reply_tree_reply r : reply_tree (tree_reply r) = Some r.
Proof.
  unfold tree_reply, reply_tree. rewrite !un_b_tb.
  rewrite !list_tree_list; [by destruct r|..].
  - intros []. unfold tree_group, group_tree. by rewrite !un_b_tb.
  - intros []. unfold tree_member, member_tree. by rewrite un_b_tb.
  - by intros [].
  - by intros [].
Qed.

Lemma tree_command_inj c c' : tree_command c = tree_command c' → c = c'.
Proof.
  assert (Hb : ∀ b b', tb b = tb b' → b = b') by by intros [] [].
  destruct c, c'. unfold tree_command. cbn. intros [=].
  f_equal; try done. apply Hb. unfold tb. by f_equal.
Qed.

(** * Strings of bits *)

Fixpoint bits (p : positive) : string :=
  match p with xH => "" | xO p => String "0" (bits p) | xI p => String "1" (bits p) end.
Fixpoint unbits (s : string) : positive :=
  match s with
  | EmptyString => xH
  | String c s => if bool_decide (c = "1"%char) then xI (unbits s) else xO (unbits s)
  end.

Lemma unbits_bits p : unbits (bits p) = p.
Proof. induction p as [p IH|p IH|]; cbn; by rewrite ?IH. Qed.

#[export] Instance sample_group_proto : GroupProto := {|
  serialize_command c := bits (encode (tree_command c));
  serialize_reply r := String "#" (bits (encode (tree_reply r)));
  parse_reply s := match s with String _ s => decode (unbits s) ≫= reply_tree | "" => None end;
|}.

#[export] Instance sample_group_proto_ok : GroupProtoOk.
Proof.
  split.
  - intros r. cbn. rewrite unbits_bits, decode_encode. cbn. apply reply_tree_reply.
  - intros c c' E. cbn in E. apply tree_command_inj, (inj encode).
    by rewrite <- (unbits_bits (encode (tree_command c))), E, unbits_bits.
  - done.
Qed.

(** * A history *)

Definition group_user (account : Z) (nickname : string) : UserRow :=
  mkUserRow account nickname "" "" "" sample_now sample_now None.
Definition group_db : Database :=
  set_im_group_number_cursor (λ _, Some 1000000000)
    (set_users (λ _, <[1 := group_user 7 "ann"]> (<[2 := group_user 9 "bob"]> ∅)) empty_db).

Definition cmd (op account : Z) (group txt : string) (arg : Z) (client : string) : Command :=
  mkCommand op account group txt 0 arg true 0 1 0 client 0.

(** The identifier that the first group gets. *)
Definition group_name_id : string :=
  match (executeOnPool (cmd Create 7 "" "team" 0 "k1") (sample_world group_db [])).1 with
  | inr reply => re_groupID reply
  | inl _ => ""
  end.

(** 7 creates a group, 9 applies, 7 accepts, both write. *)
Definition create_cmd : Command := cmd Create 7 "" "team" 0 "k1".
Definition apply_cmd : Command := cmd Apply 9 group_name_id "please" 0 "k2".
Definition review_cmd : Command := cmd Review 7 group_name_id "" 1 "k3".
Definition send_cmd : Command := cmd Send 7 group_name_id "hello" 0 "k4".
Definition send_cmd2 : Command := cmd Send 9 group_name_id "hi" 0 "k5".
Definition pull_cmd : Command := cmd Pull 9 group_name_id "" 0 "".

Definition group_w0 : World := sample_world group_db [].
Definition group_w1 : World := (executeOnPool create_cmd group_w0).2.
Definition group_w2 : World := (executeOnPool apply_cmd group_w1).2.
Definition group_w3 : World := (executeOnPool review_cmd group_w2).2.
Definition group_w4 : World := (executeOnPool send_cmd group_w3).2.
Definition group_w5 : World := (executeOnPool send_cmd2 group_w4).2.

Definition reply_of (c : Command) (w : World) : Reply :=
  match (executeOnPool c w).1 with inr r => r | inl _ => base_reply c end.

Lemma group_db_ok : group_ok group_db.
Proof.
  split; intros; change (t_im_groups group_db) with (∅ : gmap Z GroupRow) in *;
    change (t_im_group_members group_db) with (∅ : gmap (Z * Z) MemberRow) in *;
    change (t_im_group_messages group_db) with (∅ : gmap (Z * Z) GroupMessageRow) in *;
    change (t_im_group_applications group_db) with (∅ : gmap Z GroupApplicationRow) in *;
    by rewrite lookup_empty in *.
Qed.

(** [room] is decided by looking at the groups. *)
Definition room_b (d : Database) : bool :=
  forallb (λ p : Z * GroupRow, g_last_seq p.2 <? uint64_max) (map_to_list (t_im_groups d)).

Lemma room_decided d : room_b d = true → room d.
Proof.
  unfold room_b. rewrite forallb_forall. intros Hall g r Hg.
  apply Z.ltb_lt, (Hall (g, r)), list_elem_of_In. by apply elem_of_map_to_list.
Qed.
