(* ===== verification/GroupTheorems.v ===== *)
(** The theorems on group chat: what one command commits, the invariant and the
    specification over any history, replays, and the pages of the log. *)
From S2P Require Import Prelude Table Snowflake Schema Effects Users Registration Stores Conversations Samples Replies Groups GroupProofs GroupSpec GroupSamples.

(** * The transaction of a command *)

(** A database in which only saved requests and public numbers differ. *)
Definition same_groups (d d' : Database) : Prop :=
  t_im_groups d' = t_im_groups d ∧ t_im_group_members d' = t_im_group_members d ∧
  t_im_group_messages d' = t_im_group_messages d ∧
  t_im_group_applications d' = t_im_group_applications d ∧
  t_im_group_applications_next d' = t_im_group_applications_next d.

Lemma same_groups_requests f d : same_groups d (set_im_group_requests f d).
Proof. by repeat split. Qed.

#[export] Hint Resolve same_groups_requests : core.

Lemma same_groups_ok d d' : same_groups d d' → group_ok d → group_ok d'.
Proof. intros (? & ? & ? & ? & ?). by apply group_same. Qed.

Lemma same_groups_room d d' : same_groups d d' → room d → room d'.
Proof. intros (E & _) H g r. rewrite E. apply H. Qed.

Lemma same_groups_abs d d' : same_groups d d' → abs d' = abs d.
Proof.
  intros (E1 & E2 & E3 & E4 & _). apply spec_eq.
  - apply rooms_same. intros k. unfold agree, active_of. by rewrite E1, E2, E3.
  - by apply pending_same.
Qed.

#[export] Instance InTx_quiet {A} (m : M A) : Quiet m → InTx m | 10.
Proof. apply Step_InTx. apply _. Qed.

Ltac in_tx := apply _.

#[export] Instance InTx_allocate id : InTx (allocateGroupNumber id).
Proof. unfold allocateGroupNumber. in_tx. Qed.
#[export] Instance InTx_create c : InTx (create_group c).
Proof. unfold create_group. in_tx. Qed.
#[export] Instance InTx_review c id g p : InTx (review c id g p).
Proof. unfold review. in_tx. Qed.
#[export] Instance InTx_send c n id g p : InTx (send c n id g p).
Proof. unfold send. in_tx. Qed.
#[export] Instance InTx_member c n id g p : InTx (member_operation c n id g p).
Proof.
  unfold member_operation, list_members, list_applications, rename, remove_member, dismiss, pull, progress.
  in_tx.
Qed.
#[export] Instance InTx_group c n : InTx (group_operation c n).
Proof. unfold group_operation, resolve, locked_operation, apply_group. in_tx. Qed.
#[export] Instance InTx_perform c : InTx (perform c).
Proof. unfold perform. in_tx. Qed.

Section transactions.
Context `{GroupProto}.

(** The command without its COMMIT. *)
Definition answer_action (c : Command) : M Reply :=
  saved ← (if mutation c then replay c else mret None);
  match saved with
  | Some reply => mret reply
  | None =>
      reply ← perform c;
      when (mutation c) (update (save_reply (actor c) (clientID c) (hex (serialize_reply reply))));;
      mret reply
  end.

Lemma answer_committed c w : answer c w = committed (answer_action c) w.
Proof.
  unfold answer, committed, answer_action. rewrite !bind_assoc. apply bind_ext. intros [reply|] w1.
  - by rewrite bind_ret_l.
  - rewrite !bind_assoc. apply bind_ext. intros reply w2. rewrite !bind_assoc. apply bind_ext.
    intros [] w3. by rewrite bind_ret_l.
Qed.

#[export] Instance InTx_answer c : InTx (answer_action c).
Proof. unfold answer_action, replay. in_tx. Qed.

Lemma rollback_or_throw_db w : w_db (rollback_or_throw w).2 = w_db w.
Proof. unfold rollback_or_throw, remote. by destruct (w_faults w) as [|[] fs]. Qed.

(** A command that returns a reply has committed its action. *)
Lemma executeOnPool_ok c w reply w' :
  w_txn w = None → executeOnPool c w = (inr reply, w') →
  w_txn w' = None ∧ ∃ w0 w1 d, w_txn w0 = Some (w_db w) ∧ answer_action c w0 = (inr reply, w1) ∧
    w_txn w1 = Some d ∧ w_db w' = d.
Proof.
  intros Hn Hrun. apply with_connection_ok in Hrun as (fs & w1 & Hrun & ->). split; [done|].
  apply bind_ok in Hrun as (u & w2 & (_ & fs1 & ->)%query_ok & Hrun).
  apply bind_ok in Hrun as (u1 & w2 & [fs2 ->]%start_transaction_ok & Hrun); [|done].
  apply bind_ok in Hrun as (r & w2 & Hr%catch_ok & Hrun). rewrite answer_committed in Hr.
  destruct r as [e|x]; [by apply bind_ok in Hrun as (? & ? & _ & ?)|].
  apply ret_ok in Hrun as [-> ->].
  apply (committed_ok _ _ (w_db w)) in Hr as (w3 & d & Ha & Hd & fs3 & ->); [|done].
  eexists _, w3, d. split; [|split; [exact Ha|done]]. done.
Qed.

(** One that throws has committed nothing, or lost the answer to its COMMIT. *)
Lemma executeOnPool_err c w e w' :
  w_txn w = None → executeOnPool c w = (inl e, w') →
  w_txn w' = None ∧ (w_db w' = w_db w ∨
    ∃ code reply w0 w1 d, e = SqlError code ∧ w_txn w0 = Some (w_db w) ∧
      answer_action c w0 = (inr reply, w1) ∧ w_txn w1 = Some d ∧ w_db w' = d).
Proof.
  intros Hn Hrun. assert (Hn' : w_txn w' = None).
  { pose proof (with_connection_run _ _ _ _ Hrun) as (w1 & _ & ->). done. }
  apply with_connection_err in Hrun as [(_ & -> & _)|(fs & w1 & Hrun & ->)].
  { split; [|by left]. exact Hn'. }
  split; [done|]. set (wa := with_faults fs _) in *. change (w_db w) with (w_db wa).
  assert (Hna : w_txn wa = None) by done. clearbody wa. cbn [w_db with_txn]. clear Hn Hn' w.
  apply bind_err in Hrun as [Hq|(u & w2 & (_ & fs1 & ->)%query_ok & Hrun)].
  { left. apply (quiet_run set_session) in Hq as [Hv Ht]. unfold view in Hv. rewrite Hna in Hv.
    by rewrite (proj2 Ht Hna) in Hv. }
  apply bind_err in Hrun as [[Hs _]%start_transaction_err|(u1 & w2 & [fs2 ->]%start_transaction_ok & Hrun)];
    [by left| |done].
  set (w0 := tx_start fs2 _) in *.
  assert (Hcase : ∃ w2 e2, committed (answer_action c) w0 = (inl e2, w2) ∧ w_db w1 = w_db w2 ∧
    (e = e2 ∨ ∃ code, e = SqlError code)).
  { apply bind_err in Hrun as [[Hc ->]%catch_err|(r & w2 & Hc%catch_ok & Hrun)].
    - rewrite answer_committed in Hc. eauto 10.
    - rewrite answer_committed in Hc. destruct r as [e1|x]; [|done].
      pose proof (rollback_or_throw_db w2) as Hdb.
      apply bind_err in Hrun as [Hr|(u2 & w3 & Hr & Ht)].
      + exists w2, e1. rewrite Hr in Hdb. split; [done|]. split; [done|]. right.
        apply remote_err in Hr as (fs3 & [[? _]|(code & -> & _)]); [done|eauto].
      + injection Ht as -> ->. exists w2, e. rewrite Hr in Hdb. eauto. }
  destruct Hcase as (w2 & e2 & Hc & -> & He).
  apply (committed_err _ _ (w_db wa)) in Hc as [Hdb|(code & x & w3 & d & -> & Ha & Hd & Hdb)];
    [by left|right|done].
  assert (Hcode : ∃ code', e = SqlError code') by (destruct He as [-> | He]; eauto).
  destruct Hcode as [code' ->]. exists code', x, w0, w3, d. done.
Qed.

(** * Saved requests *)

Lemma hex_char_range n : 0 <= n < 16 → digit (hex_char n) = n.
Proof.
  intros Hn. unfold hex_char, digit, signed_char.
  destruct (n <? 10) eqn:E; bool_to_prop; rewrite byte_val_chr by lia.
  - rewrite (proj2 (Z.ltb_lt _ 128)), (proj2 (Z.leb_le _ 57)) by lia. lia.
  - rewrite (proj2 (Z.ltb_lt _ 128)), (proj2 (Z.leb_gt _ 57)) by lia. lia.
Qed.

Lemma unhex_pairs_hex s : unhex_pairs (hex s) = s.
Proof.
  induction s as [|c s IH]; [done|]. cbn. rewrite IH. f_equal. pose proof (byte_val_range c).
  rewrite (Z.land_ones _ 4) by lia. rewrite Z.shiftr_div_pow2 by lia. change (2 ^ 4) with 16.
  rewrite !hex_char_range.
  2: { apply Z.mod_pos_bound. lia. }
  2: { split; [apply Z.div_pos; lia|]. apply Z.div_lt_upper_bound; lia. }
  rewrite (Z.mul_comm _ 16), <- Z.div_mod by lia. rewrite Z.mod_small by lia. apply byte_chr_val.
Qed.

Lemma hex_length s : String.length (hex s) = (2 * String.length s)%nat.
Proof. induction s as [|c s IH]; [done|]. cbn. rewrite IH. lia. Qed.

Lemma unhex_hex s : unhex (hex s) = inr s.
Proof.
  unfold unhex, size_of. rewrite hex_length, unhex_pairs_hex.
  replace (Z.of_nat (2 * String.length s)) with (Z.of_nat (String.length s) * 2) by lia.
  by rewrite Z.mod_mul.
Qed.

Lemma hex_inj s t : hex s = hex t → s = t.
Proof. intros E. rewrite <- (unhex_pairs_hex s), <- (unhex_pairs_hex t). by rewrite E. Qed.

Lemma hex_nonempty s : s ≠ "" → hex s ≠ "".
Proof. by destruct s. Qed.

Definition payload (c : Command) : string := hex (serialize_command c).

(** The request has been answered. *)
Definition saved_reply (c : Command) (d : Database) (row : GroupRequestRow) : Prop :=
  t_im_group_requests d !! (actor c, clientID c) = Some row ∧ gr_reply row ≠ "".

Definition valid_id (c : Command) : bool :=
  negb ((actor c =? 0) || str_empty (clientID c) || (64 <? size_of (clientID c))).

Lemma insert_request_old a k p d row :
  t_im_group_requests d !! (a, k) = Some row → (insert_request a k p d).2 = d.
Proof.
  unfold insert_request, set_im_group_requests, on_group, t_im_group_requests. cbn [snd].
  intros ->. by destruct d as [? ? ? ? []].
Qed.

Lemma group_request_lookup a k p d :
  t_im_group_requests (insert_request a k p d).2 !! (a, k) =
  Some (default (mkGroupRequestRow p "") (t_im_group_requests d !! (a, k))).
Proof.
  unfold insert_request. cbn [snd]. db_simpl.
  destruct (t_im_group_requests d !! (a, k)) as [row|] eqn:E; [done|]. by rewrite lookup_insert_eq.
Qed.

Lemma replay_ok c w saved w' :
  replay c w = (inr saved, w') →
  view w' = (insert_request (actor c) (clientID c) (payload c) (view w)).2 ∧
  match saved with
  | Some reply => ∃ row bytes, saved_reply c (view w) row ∧ gr_payload row = payload c ∧
      unhex (gr_reply row) = inr bytes ∧ parse_reply bytes = Some reply
  | None => (∀ row, ¬ saved_reply c (view w) row) ∧
      t_im_group_requests (view w') !! (actor c, clientID c) = Some (mkGroupRequestRow (payload c) "")
  end ∧ valid_id c = true.
Proof.
  intros Hrun. unfold replay in Hrun. unfold valid_id. destruct (_ || _); [done|]. fold (payload c) in Hrun.
  apply bind_ok in Hrun as (u & w1 & (fs & _ & ->)%update_ok & Hrun).
  apply bind_ok in Hrun as (old & w1 & (-> & fs1 & ->)%query_ok & Hrun). world_simpl.
  rewrite group_request_lookup in Hrun. unfold saved_reply.
  destruct (t_im_group_requests (view w) !! (actor c, clientID c)) as [row|] eqn:Er;
    cbn [default from_option id] in Hrun.
  - destruct (negb _) eqn:Ep; [done|]. apply negb_false_iff, bool_decide_eq_true in Ep.
    destruct (str_empty (gr_reply row)) eqn:Es.
    + apply ret_ok in Hrun as [<- <-]. world_simpl. split; [done|]. split; [|done]. split.
      * intros row' [[= <-] Hne]. by destruct (gr_reply row).
      * rewrite group_request_lookup, Er. destruct row as [p q]. cbn in *. subst p. by destruct q.
    + apply bind_ok in Hrun as (bytes & w1 & [Hb ->]%lift_ok & Hrun).
      destruct (parse_reply bytes) as [reply|] eqn:Epr; [|done]. apply ret_ok in Hrun as [<- <-].
      world_simpl. split; [done|]. split; [|done]. exists row, bytes. split; [|done]. split; [done|].
      by intros Hz; rewrite Hz in Es.
  - cbn in Hrun. rewrite bool_decide_eq_true_2 in Hrun by done. apply ret_ok in Hrun as [<- <-].
    world_simpl. split; [done|]. split; [|done]. split; [by intros row' [? _]|].
    db_simpl. by rewrite Er, lookup_insert_eq.
Qed.

Lemma change_requests c d d' : group_change c d d' → t_im_group_requests d' = t_im_group_requests d.
Proof. by intros []. Qed.

(** The size that the command's text may have. *)
Definition fits (c : Command) : Prop := size_of (text c) <= if operation c =? Send then 65536 else 512.

Lemma perform_fits c w reply w' : perform c w = (inr reply, w') → fits c.
Proof.
  intros Hp. unfold perform in Hp. destruct (_ || _); [done|]. destruct (_ <? _) eqn:E; [done|].
  unfold fits. by bool_to_prop.
Qed.

(** What a completed action has done. *)
Inductive acted (c : Command) (reply : Reply) (d d' : Database) : Prop :=
| ac_query : mutation c = false → fits c → group_change c d d' → acted c reply d d'
| ac_replay row bytes :
    mutation c = true → valid_id c = true → saved_reply c d row → gr_payload row = payload c →
    unhex (gr_reply row) = inr bytes → parse_reply bytes = Some reply → d' = d → acted c reply d d'
| ac_first d1 d2 :
    mutation c = true → valid_id c = true → fits c → (∀ row, ¬ saved_reply c d row) →
    t_im_group_requests d1 !! (actor c, clientID c) = Some (mkGroupRequestRow (payload c) "") →
    d1 = (insert_request (actor c) (clientID c) (payload c) d).2 → group_change c d1 d2 →
    d' = (save_reply (actor c) (clientID c) (hex (serialize_reply reply)) d2).2 → acted c reply d d'.

Lemma answer_action_ok c w reply w' :
  group_ok (view w) → answer_action c w = (inr reply, w') → acted c reply (view w) (view w').
Proof.
  intros Hok Hrun. unfold answer_action in Hrun. destruct (mutation c) eqn:Em.
  - apply bind_ok in Hrun as (saved & w1 & (Hv & Hs & Hid)%replay_ok & Hrun). destruct saved as [reply'|].
    + apply ret_ok in Hrun as [-> ->]. destruct Hs as (row & bytes & Hs & ? & ? & ?).
      eapply ac_replay; [done|done|exact Hs|done..|]. rewrite Hv. by eapply insert_request_old, Hs.
    + apply bind_ok in Hrun as (reply' & w2 & Hp & Hrun).
      pose proof (perform_fits _ _ _ _ Hp) as Hfits.
      apply perform_change in Hp; [|rewrite Hv; by apply (group_same (view w))].
      cbn [when] in Hrun. apply bind_ok in Hrun as (u & w3 & (fs & _ & ->)%update_ok & Hrun).
      apply ret_ok in Hrun as [-> <-]. world_simpl. rewrite Hv in Hp.
      destruct Hs as [Hs Hk]. rewrite Hv in Hk.
      eapply ac_first; [done|done|exact Hfits|exact Hs|exact Hk|reflexivity|exact Hp|reflexivity].
  - apply bind_ok in Hrun as (saved & w1 & [<- <-]%ret_ok & Hrun).
    apply bind_ok in Hrun as (reply' & w2 & Hp & Hrun). pose proof (perform_fits _ _ _ _ Hp) as Hfits.
    apply perform_change in Hp; [|done].
    cbn [when] in Hrun. apply bind_ok in Hrun as (u & w3 & [_ <-]%ret_ok & Hrun).
    apply ret_ok in Hrun as [-> <-]. by apply ac_query.
Qed.

(** What a command has committed, however it ends. *)
Lemma executeOnPool_acted c w x w' :
  w_txn w = None → group_ok (w_db w) → executeOnPool c w = (x, w') →
  w_txn w' = None ∧
  match x with
  | inr reply => acted c reply (w_db w) (w_db w')
  | inl e => w_db w' = w_db w ∨ ∃ code reply, e = SqlError code ∧ acted c reply (w_db w) (w_db w')
  end.
Proof.
  intros Hn Hok Hrun.
  assert (Hact : ∀ w0 reply w1 d, w_txn w0 = Some (w_db w) → answer_action c w0 = (inr reply, w1) →
    w_txn w1 = Some d → acted c reply (w_db w) d).
  { intros w0 reply w1 d H0 Ha Hd. rewrite <- (view_txn _ _ H0), <- (view_txn _ _ Hd).
    apply answer_action_ok; [by rewrite (view_txn _ _ H0)|done]. }
  destruct x as [e|reply].
  - apply executeOnPool_err in Hrun as [Ht [Hdb|(code & reply & w0 & w1 & d & -> & ? & ? & ? & ->)]];
      [by split; [|left]| |done]. split; [done|]. right. eauto 10.
  - apply executeOnPool_ok in Hrun as (Ht & w0 & w1 & d & ? & ? & ? & ->); [|done]. eauto.
Qed.
End transactions.

(** * The invariant *)

Section theorems.
Context `{GroupProto}.

(** One command in any world around the database, while no group has used up its
    sequence numbers. *)
Definition group_step (d d' : Database) : Prop :=
  ∃ c w, w_db w = d ∧ w_txn w = None ∧ room d ∧ d' = w_db (ExecuteGroupCommand c w).2.

Lemma ExecuteGroupCommand_db c w :
  w_db (ExecuteGroupCommand c w).2 = w_db (executeOnPool c w).2.
Proof.
  unfold ExecuteGroupCommand, catch, mbind, M_bind.
  by destruct (executeOnPool c w) as [[[]|a] w1].
Qed.

(** The tables that other components write are not touched. *)
Lemma acted_ok c reply d d' : room d → group_ok d → acted c reply d d' → group_ok d'.
Proof.
  intros Hr Hok [_ _ Hc|row bytes _ _ _ _ _ _ ->|d1 d2 _ _ _ _ _ -> Hc ->]; [by eapply change_ok|done|].
  eapply change_ok in Hc; [by apply (group_same d2)|by eapply (same_groups_room d), Hr; apply same_groups_requests|by apply (group_same d)].
Qed.

Lemma group_step_acted d d' :
  group_ok d → group_step d d' → d' = d ∨ ∃ c reply, acted c reply d d'.
Proof.
  intros Hok (c & w & <- & Hn & _ & ->). rewrite ExecuteGroupCommand_db.
  destruct (executeOnPool c w) as [x w'] eqn:E.
  destruct (executeOnPool_acted _ _ _ _ Hn Hok E) as [_ Hx].
  destruct x; [destruct Hx as [?|(? & ? & _ & ?)]|]; eauto.
Qed.

Lemma group_step_ok d d' : group_step d d' → group_ok d → group_ok d'.
Proof.
  intros Hs Hok. destruct (group_step_acted _ _ Hok Hs) as [->|(c & reply & Ha)]; [done|].
  destruct Hs as (_ & _ & _ & _ & Hr & _). by eapply acted_ok.
Qed.

(** C8: in every database that group commands can reach, whatever fails on the way:
    the stored member count is the number of active members, the owner is one of
    them, the log of a group has exactly the sequence numbers from 1 to the last
    one, no member sends two messages under one client id, the acknowledged and the
    read position lie between the position of joining and the end of the log, and
    no application is pending in a dismissed group. *)
Theorem group_tables_invariant d d'
    (Hreach : rtc group_step d d') (Hok : group_ok d) :
  group_ok d'.
Proof. induction Hreach as [|d1 d2 d3 Hs _ IH]; [done|]. apply IH. by eapply group_step_ok. Qed.

Lemma history_ok d d' : rtc group_step d d' → group_ok d → group_ok d'.
Proof. induction 1 as [|d1 d2 d3 Hs _ IH]; [done|]. intros Hok. apply IH. by eapply group_step_ok. Qed.

(** * Refinement *)

(** The saved reply of a command: its own payload, and bytes that decode to the reply. *)
Definition answered (c : Command) (reply : Reply) (d : Database) : Prop :=
  ∃ row bytes, saved_reply c d row ∧ gr_payload row = payload c ∧
    unhex (gr_reply row) = inr bytes ∧ parse_reply bytes = Some reply.

(** A first execution of a mutation leaves its reply, encoded, under the request. *)
Definition reply_saved (c : Command) (reply : Reply) (d : Database) : Prop :=
  t_im_group_requests d !! (actor c, clientID c) =
    Some (mkGroupRequestRow (payload c) (hex (serialize_reply reply))).

Lemma save_reply_lookup c p reply d :
  t_im_group_requests d !! (actor c, clientID c) = Some (mkGroupRequestRow p "") →
  t_im_group_requests (save_reply (actor c) (clientID c) reply d).2 !! (actor c, clientID c) =
    Some (mkGroupRequestRow p reply).
Proof. intros Hd. unfold save_reply. cbn [snd]. db_simpl. by rewrite lookup_alter_eq, Hd. Qed.

(** What a command that returns [reply] has done, in the terms of the specification: a
    query makes its step; a mutation that had not been answered makes its step and saves
    the reply; one that had been answered repeats the reply and changes nothing. *)
Definition command_spec (c : Command) (reply : Reply) (d d' : Database) : Prop :=
  if mutation c then
    (∀ row, ¬ saved_reply c d row) ∧ spec c (abs d) (abs d') ∧ reply_saved c reply d' ∨
    answered c reply d ∧ d' = d
  else spec c (abs d) (abs d') ∧ t_im_group_requests d' = t_im_group_requests d.

Lemma acted_spec c reply d d' :
  room d → group_ok d → acted c reply d d' → command_spec c reply d d'.
Proof.
  intros Hr Hok [Hm _ Hc|row bytes Hm _ Hs Hp Hb Hrep ->|d1 d2 Hm _ _ Hno Hk Hd1 Hc ->];
    unfold command_spec; rewrite Hm.
  - split; [by apply change_spec|by eapply change_requests].
  - right. split; [|done]. by exists row, bytes.
  - left. split; [done|]. split.
    + subst d1. apply change_spec in Hc; [|by apply (same_groups_room d)|by apply (group_same d)].
      rewrite (same_groups_abs d) in Hc by apply same_groups_requests.
      by rewrite (same_groups_abs d2 (save_reply _ _ _ d2).2) by apply same_groups_requests.
    + apply save_reply_lookup. by rewrite (change_requests _ _ _ Hc).
Qed.

(** C3: a command refines the specification, reply included.  A mutation that returns a
    reply has either made its step, atomically, with its reply saved under its actor and
    client id, where none was saved before; or it changes nothing and its reply is the
    one that was saved before, for the same payload.  A query makes its step and saves
    nothing.  A command that throws has changed nothing, unless what failed was the
    answer to COMMIT, and then all that was done, reply saved included. *)
Theorem group_command_refines c w x w'
    (Hn : w_txn w = None) (Hok : group_ok (w_db w)) (Hroom : room (w_db w))
    (Hrun : executeOnPool c w = (x, w')) :
  match x with
  | inr reply => command_spec c reply (w_db w) (w_db w')
  | inl e => w_db w' = w_db w ∨ ∃ code reply, e = SqlError code ∧ command_spec c reply (w_db w) (w_db w')
  end.
Proof.
  destruct (executeOnPool_acted _ _ _ _ Hn Hok Hrun) as [_ Hx]. destruct x as [e|reply].
  - destruct Hx as [?|(code & reply & -> & Ha)]; [by left|right].
    exists code, reply. split; [done|]. by apply acted_spec.
  - by apply acted_spec.
Qed.
End theorems.

(** * A mutation takes effect once *)

Section once.
Context `{GroupProtoOk}.
#[local] Set Default Proof Using "All".

Lemma acted_answered c reply d d' :
  mutation c = true → re_errorCode reply = "0" → acted c reply d d' →
  valid_id c = true ∧ answered c reply d'.
Proof.
  intros Hm Hcode [Hq _ _|row bytes _ Hid Hs Hp Hb Hr ->|d1 d2 _ Hid _ _ Hk _ Hc ->].
  - by rewrite Hq in Hm.
  - split; [done|]. by exists row, bytes.
  - split; [done|]. exists (mkGroupRequestRow (payload c) (hex (serialize_reply reply))), (serialize_reply reply).
    split; [split|]; cbn.
    + apply save_reply_lookup. by rewrite (change_requests _ _ _ Hc).
    + by apply hex_nonempty, serialize_reply_nonempty.
    + split; [done|]. split; [apply unhex_hex|apply parse_serialize].
Qed.

(** A saved reply stays. *)
Lemma acted_keeps c reply d d' k row :
  acted c reply d d' → t_im_group_requests d !! k = Some row → gr_reply row ≠ "" →
  t_im_group_requests d' !! k = Some row.
Proof.
  intros [_ _ Hc|row' bytes _ _ _ _ _ _ ->|d1 d2 _ _ _ Hno Hk -> Hc ->] Hd Hne.
  - by rewrite (change_requests _ _ _ Hc).
  - done.
  - assert (Hkey : k ≠ (actor c, clientID c)). { intros ->. by apply (Hno row). }
    unfold save_reply. cbn [snd]. db_simpl. rewrite lookup_alter_ne by congruence.
    rewrite (change_requests _ _ _ Hc). unfold insert_request. cbn [snd]. db_simpl.
    destruct (t_im_group_requests d !! (actor c, clientID c)); [done|].
    by rewrite lookup_insert_ne by congruence.
Qed.

Lemma history_answered c reply d d' :
  rtc group_step d d' → group_ok d → answered c reply d → answered c reply d'.
Proof.
  induction 1 as [|d1 d2 d3 Hs _ IH]; [done|]. intros Hok Ha. apply IH; [by eapply group_step_ok|].
  destruct (group_step_acted _ _ Hok Hs) as [->|(c' & reply' & Hact)]; [done|].
  destruct Ha as (row & bytes & [Hk Hne] & Hrest). exists row, bytes. split; [split; [|done]|done].
  by eapply acted_keeps.
Qed.

(** The same request again. *)
Lemma answered_again c c' reply r d d' :
  answered c reply d → mutation c' = true → actor c' = actor c → clientID c' = clientID c →
  acted c' r d d' → c' = c ∧ r = reply ∧ d' = d.
Proof.
  intros (row & bytes & [Hk Hne] & Hp & Hb & Hr) Hm Ea Ec
    [Hq _ _|row' bytes' _ _ [Hk' _] Hp' Hb' Hr' ->|d1 d2 _ _ _ Hno _ _ _ _].
  - by rewrite Hq in Hm.
  - rewrite Ea, Ec, Hk in Hk'. injection Hk' as <-. rewrite Hb in Hb'. injection Hb' as <-.
    rewrite Hr in Hr'. injection Hr' as <-. split; [|done].
    apply serialize_command_inj, hex_inj. unfold payload in *. congruence.
  - exfalso. apply (Hno row). split; [by rewrite Ea, Ec|done].
Qed.

Lemma with_connection_fst {A} (m : M A) w :
  w_faults w = [] → (with_connection m w).1 = (m (with_txn None w)).1.
Proof.
  intros Hf. destruct (m (with_txn None w)) as [r w1] eqn:E. by rewrite (with_connection_nofault m w r w1).
Qed.

(** Without failures the saved reply is returned. *)
Lemma replayed c reply w :
  w_faults w = [] → w_txn w = None → mutation c = true → valid_id c = true →
  answered c reply (w_db w) → (executeOnPool c w).1 = inr reply.
Proof.
  intros Hf Hn Hm Hid (row & bytes & [Hk Hne] & Hp & Hb & Hr).
  unfold executeOnPool. rewrite with_connection_fst by done.
  set (w1 := with_txn None w). assert (Hf1 : w_faults w1 = []) by done.
  unfold set_session. erewrite bind_run by by apply query_run.
  erewrite bind_run by by apply start_run.
  set (w2 := with_txn _ w1).
  assert (Hv : view w2 = w_db w) by done. assert (Hf2 : w_faults w2 = []) by done.
  assert (Hrep : ∃ w3, replay c w2 = (inr (Some reply), w3) ∧ w_faults w3 = []).
  { unfold replay. unfold valid_id in Hid. apply negb_true_iff in Hid. rewrite Hid. fold (payload c).
    erewrite bind_run by by apply update_run. set (w3 := put _ w2).
    assert (Hf3 : w_faults w3 = []) by (unfold w3; by world_simpl).
    erewrite bind_run by by apply query_run.
    assert (Hv3 : view w3 = w_db w) by (unfold w3; rewrite view_put, Hv; by eapply insert_request_old).
    rewrite Hv3, Hk, Hp, bool_decide_eq_true_2 by done. cbn [negb].
    destruct (str_empty (gr_reply row)) eqn:Es; [by destruct (gr_reply row)|].
    erewrite bind_run by (unfold lift; rewrite Hb; reflexivity). rewrite Hr. by exists w3. }
  destruct Hrep as (w3 & Hrep & Hf3).
  assert (Hans : answer c w2 = (inr reply, with_txn None (with_db (view w3) w3))).
  { unfold answer. rewrite Hm. erewrite bind_run by exact Hrep. cbn iota.
    by erewrite bind_run by by apply commit_run. }
  erewrite bind_run by (apply catch_run; exact Hans). reflexivity.
Qed.

(** C4: a mutation that was answered with success takes effect once: whatever
    commands follow, sending it again with the same client id leaves the
    database exactly as it is and returns nothing but the first reply, which is
    what it does return when nothing fails; and another command of the same actor
    under that client id is refused and changes nothing. *)
Theorem mutation_exactly_once c w reply w1 w2
    (Hn : w_txn w = None) (Hok : group_ok (w_db w)) (Hroom : room (w_db w)) (Hm : mutation c = true)
    (Hfirst : executeOnPool c w = (inr reply, w1)) (Hcode : re_errorCode reply = "0")
    (Hhist : rtc group_step (w_db w1) (w_db w2)) (Hn2 : w_txn w2 = None) :
  (∀ x w3, executeOnPool c w2 = (x, w3) → w_db w3 = w_db w2 ∧ ∀ r, x = inr r → r = reply) ∧
  (w_faults w2 = [] → (executeOnPool c w2).1 = inr reply) ∧
  ∀ c' x w3, mutation c' = true → actor c' = actor c → clientID c' = clientID c → c' ≠ c →
    executeOnPool c' w2 = (x, w3) → w_db w3 = w_db w2 ∧ ∃ e, x = inl e.
Proof.
  destruct (executeOnPool_acted _ _ _ _ Hn Hok Hfirst) as [_ Hact].
  destruct (acted_answered _ _ _ _ Hm Hcode Hact) as [Hid Ha].
  assert (Hok1 : group_ok (w_db w1)) by by eapply acted_ok.
  pose proof (history_ok _ _ Hhist Hok1) as Hok2.
  pose proof (history_answered _ _ _ _ Hhist Hok1 Ha) as Ha2. split; [|split].
  - intros x w3 Hrun. destruct (executeOnPool_acted _ _ _ _ Hn2 Hok2 Hrun) as [_ Hx].
    destruct x as [e|r].
    + split; [|done]. destruct Hx as [?|(code & r & _ & Hr)]; [done|]. by eapply answered_again in Hr as (_ & _ & ?).
    + eapply answered_again in Hx as (_ & -> & ->); [|done..]. split; [done|]. by intros r' [= ->].
  - intros Hf. by apply replayed.
  - intros c' x w3 Hm' Ea Ec Hne Hrun. destruct (executeOnPool_acted _ _ _ _ Hn2 Hok2 Hrun) as [_ Hx].
    destruct x as [e|r].
    + split; [|by eexists]. destruct Hx as [?|(code & r & _ & Hr)]; [done|].
      by eapply answered_again in Hr as (? & _).
    + by eapply answered_again in Hx as (? & _).
Qed.
End once.

(** * Witnesses *)

Lemma sample_step c w :
  w_txn w = None → room_b (w_db w) = true → group_step (w_db w) (w_db (executeOnPool c w).2).
Proof.
  intros Hn Hr. exists c, w. rewrite ExecuteGroupCommand_db. split; [done|]. split; [done|].
  split; [by apply room_decided|done].
Qed.

Lemma sample_txn c w : w_txn w = None → w_txn (executeOnPool c w).2 = None.
Proof.
  intros Hn. unfold executeOnPool. destruct (with_connection _ w) as [r w'] eqn:E.
  by apply with_connection_run in E as (w1 & _ & ->).
Qed.

Lemma group_w1_txn : w_txn group_w1 = None.
Proof. exact (sample_txn create_cmd group_w0 eq_refl). Qed.
Lemma group_w2_txn : w_txn group_w2 = None.
Proof. exact (sample_txn apply_cmd group_w1 group_w1_txn). Qed.
Lemma group_w3_txn : w_txn group_w3 = None.
Proof. exact (sample_txn review_cmd group_w2 group_w2_txn). Qed.
Lemma group_w4_txn : w_txn group_w4 = None.
Proof. exact (sample_txn send_cmd group_w3 group_w3_txn). Qed.
Lemma group_w5_txn : w_txn group_w5 = None.
Proof. exact (sample_txn send_cmd2 group_w4 group_w4_txn). Qed.

Lemma group_step1 : group_step (w_db group_w0) (w_db group_w1).
Proof. refine (sample_step create_cmd group_w0 eq_refl _). vm_compute. reflexivity. Qed.
Lemma group_step2 : group_step (w_db group_w1) (w_db group_w2).
Proof. refine (sample_step apply_cmd group_w1 group_w1_txn _). vm_compute. reflexivity. Qed.
Lemma group_step3 : group_step (w_db group_w2) (w_db group_w3).
Proof. refine (sample_step review_cmd group_w2 group_w2_txn _). vm_compute. reflexivity. Qed.
Lemma group_step4 : group_step (w_db group_w3) (w_db group_w4).
Proof. refine (sample_step send_cmd group_w3 group_w3_txn _). vm_compute. reflexivity. Qed.
Lemma group_step5 : group_step (w_db group_w4) (w_db group_w5).
Proof. refine (sample_step send_cmd2 group_w4 group_w4_txn _). vm_compute. reflexivity. Qed.

(** The history as steps. *)
Lemma sample_history : rtc group_step (w_db group_w0) (w_db group_w5).
Proof.
  eapply rtc_l; [exact group_step1|]. eapply rtc_l; [exact group_step2|].
  eapply rtc_l; [exact group_step3|]. eapply rtc_l; [exact group_step4|].
  apply rtc_once, group_step5.
Qed.

Lemma group_tables_invariant_witness : group_ok (w_db group_w5).
Proof.
  apply (group_tables_invariant (w_db group_w0)); [exact sample_history|exact group_db_ok].
Defined.

Definition create_reply : Reply := reply_of create_cmd group_w0.

Lemma group_command_refines_witness :
  command_spec create_cmd create_reply group_db (w_db group_w1).
Proof.
  apply (group_command_refines create_cmd group_w0 (inr create_reply) group_w1).
  - reflexivity.
  - exact group_db_ok.
  - apply room_decided. reflexivity.
  - vm_compute. reflexivity.
Defined.

Lemma mutation_exactly_once_witness :
  re_errorCode create_reply = "0" ∧ (executeOnPool create_cmd group_w2).1 = inr create_reply.
Proof.
  assert (Hcode : re_errorCode create_reply = "0") by (vm_compute; reflexivity).
  split; [exact Hcode|].
  apply (mutation_exactly_once create_cmd group_w0 create_reply group_w1 group_w2).
  - reflexivity.
  - exact group_db_ok.
  - apply room_decided. reflexivity.
  - reflexivity.
  - vm_compute. reflexivity.
  - exact Hcode.
  - exact (rtc_once _ _ group_step2).
  - exact group_w2_txn.
  - vm_compute. reflexivity.
Defined.
