(* ===== verification/GroupPages.v ===== *)
(** Group chat: the pages of a group's log.  What [Pull] and the delivery batches
    read is a gap-free run of sequence numbers. *)
From S2P Require Import Prelude Table Snowflake Schema Effects Users Registration Stores Conversations Samples Replies Groups GroupProofs GroupSpec GroupSamples GroupTheorems.

(** * Keys in order *)

#[local] Instance lt_antisymm : AntiSymm (=) Z.lt.
Proof. intros x y ??. lia. Qed.

Lemma sorted_lt_unique (l1 l2 : list Z) :
  StronglySorted Z.lt l1 → StronglySorted Z.lt l2 → (∀ k, k ∈ l1 ↔ k ∈ l2) → l1 = l2.
Proof.
  intros H1 H2 Heq. assert (Hnd : ∀ l, StronglySorted Z.lt l → NoDup l).
  { induction 1 as [|k l _ IH Hall]; constructor; [|done]. rewrite Forall_forall in Hall.
    intros Hin. specialize (Hall k Hin). lia. }
  apply (StronglySorted_unique Z.lt); [done|done|].
  apply NoDup_Permutation; auto.
Qed.

Lemma seqZ_sorted a n : StronglySorted Z.lt (seqZ a n).
Proof.
  unfold seqZ. generalize 0%nat. induction (Z.to_nat n) as [|k IH]; intros i; cbn; constructor; [done|].
  rewrite Forall_forall. intros x (j & -> & Hj)%list_elem_of_fmap. apply elem_of_seq in Hj. lia.
Qed.

Lemma sorted_fst {A} (l : list (Z * A)) :
  StronglySorted (λ p q : Z * A, p.1 < q.1) l → StronglySorted Z.lt l.*1.
Proof.
  induction 1 as [|p l _ IH Hall]; cbn; constructor; [done|].
  rewrite Forall_forall in Hall. apply Forall_forall. intros k (q & -> & Hq)%list_elem_of_fmap. by apply Hall.
Qed.

(** The keys an interval selects, when all of them are there. *)
Lemma select_interval {A} (m : gmap Z A) a b :
  (∀ k, a < k <= b → is_Some (m !! k)) →
  (select (λ k _, (a <? k) && (k <=? b)) m).*1 = seqZ (a + 1) (b - a).
Proof.
  intros Hfull. apply sorted_lt_unique; [apply sorted_fst, select_sorted|apply seqZ_sorted|].
  intros k. rewrite elem_of_seqZ, list_elem_of_fmap. split.
  - intros ([k' x] & -> & [_ Hk]%elem_of_select). cbn. bool_to_prop. lia.
  - intros Hk. destruct (Hfull k) as [x Hx]; [lia|]. exists (k, x). split; [done|].
    apply elem_of_select. split; [done|]. bool_to_prop. lia.
Qed.

Lemma take_seqZ a n k : 0 <= k → take (Z.to_nat k) (seqZ a n) = seqZ a (Z.min k n).
Proof. intros Hk. unfold seqZ. by rewrite <- fmap_take, take_seq, Z2Nat.inj_min. Qed.

Lemma last_seqZ a n : 0 < n → last (seqZ a n) = Some (a + n - 1).
Proof. intros Hn. rewrite last_lookup, length_seqZ. apply lookup_seqZ. split; lia. Qed.

(** * Pages *)

(** The messages of a group at the [n] positions after [from]. *)
Definition page (d : Database) (g from n : Z) (ms : list Message) : Prop :=
  Forall2 (λ k m, ∃ x, t_im_group_messages d !! (g, k) = Some x ∧ m = message_of (g, k) x)
    (seqZ (from + 1) n) ms.

Lemma messageRows_columns (g : Z) (l : list (Z * GroupMessageRow)) :
  messageRows ((λ q, message_columns (g, q.1) q.2) <$> l) = inr ((λ q, message_of (g, q.1) q.2) <$> l).
Proof. induction l as [|q l IH]; [done|]. cbn. unfold mbind, E_bind. by rewrite IH. Qed.

Lemma page_rows d g (l : list (Z * GroupMessageRow)) from n :
  l.*1 = seqZ (from + 1) n →
  (∀ k x, (k, x) ∈ l → t_im_group_messages d !! (g, k) = Some x) →
  page d g from n ((λ q, message_of (g, q.1) q.2) <$> l).
Proof.
  unfold page. intros <- Hin. induction l as [|[k x] l IH]; cbn; constructor.
  - exists x. split; [|done]. apply Hin, list_elem_of_here.
  - apply IH. intros k' x' H. by apply Hin, list_elem_of_further.
Qed.

Lemma page_seqs d g from n ms : page d g from n ms → ms_seq <$> ms = seqZ (from + 1) n.
Proof.
  unfold page. induction 1 as [|k m l ms (x & _ & ->) _ IH]; cbn; [done|]. by rewrite IH.
Qed.

(** The rows of a query over a complete interval of the log. *)
Lemma log_rows_ok d g from b n :
  0 <= n → (∀ k, from < k <= b → is_Some (t_im_group_messages d !! (g, k))) →
  ∃ l, log_rows g (λ k, (from <? k) && (k <=? b)) n d = (λ q, message_columns (g, q.1) q.2) <$> l ∧
    l.*1 = seqZ (from + 1) (Z.min n (b - from)) ∧
    ∀ k x, (k, x) ∈ l → t_im_group_messages d !! (g, k) = Some x.
Proof.
  intros Hn Hfull. set (P := λ k, (from <? k) && (k <=? b)).
  exists (take (Z.to_nat n) (select (λ k _, P k) (slice g (t_im_group_messages d)))).
  split; [done|]. split.
  - rewrite fmap_take. unfold P. rewrite (select_interval (slice g (t_im_group_messages d)) from b).
    + by apply take_seqZ.
    + intros k Hk. rewrite lookup_slice. by apply Hfull.
  - intros k x (i & Hi & _)%elem_of_take.
    apply list_elem_of_lookup_2, elem_of_select in Hi as [Hx _]. by rewrite lookup_slice in Hx.
Qed.

(** * Pull *)

Definition page_snapshot (c : Command) (r : GroupRow) : Z :=
  if snapshot c =? 0 then g_last_seq r else Z.min (snapshot c) (g_last_seq r).

(** What a [Pull] answers to a member [m] of the group [r]. *)
Definition pulled (c : Command) (d : Database) (g : Z) (r : GroupRow) (m : MemberRow) (reply : Reply) : Prop :=
  let from := Z.max (after c) (m_join_seq m) in
  let n := Z.max 0 (Z.min (page_limit c) (page_snapshot c r - from)) in
  page d g from n (re_messages reply) ∧ re_cursor reply = from + n ∧
  re_hasMore reply = (re_cursor reply <? page_snapshot c r) ∧
  re_snapshot reply = page_snapshot c r ∧ re_epoch reply = m_epoch m ∧ re_groupID reply = groupID c.

Lemma page_limit_pos c : 1 <= page_limit c.
Proof. unfold page_limit, clamp. destruct (_ =? Pull); repeat case_match; lia. Qed.

Lemma seqZ_max a n : seqZ a (Z.max 0 n) = seqZ a n.
Proof. unfold seqZ. by destruct n. Qed.

Lemma page_last d g from n ms :
  0 <= n → page d g from n ms →
  match last ms with Some m => ms_seq m | None => from end = from + n.
Proof.
  intros Hn Hp%page_seqs. assert (Hlast : last (ms_seq <$> ms) = ms_seq <$> last ms) by apply fmap_last.
  rewrite Hp in Hlast. destruct (decide (n = 0)) as [->|].
  - rewrite seqZ_nil in Hlast by lia. destruct (last ms); [done|]. lia.
  - rewrite last_seqZ in Hlast by lia. destruct (last ms); [|done]. injection Hlast as <-. lia.
Qed.

Lemma pull_ok c id r g m p w reply w' :
  group_ok (view w) → sees c (view w) id r g → t_im_group_members (view w) !! (id, actor c) = Some m →
  gp_joinSeq g = m_join_seq m → re_epoch p = m_epoch m → re_groupID p = groupID c →
  pull c id g p w = (inr reply, w') → pulled c (view w) id r m reply.
Proof.
  intros Hok Hs Hm Hj He Hg H. destruct Hs as [S1 S2 S3 S4 _ _ _ _ _].
  unfold pull in H. rewrite S4, Hj in H. fold (page_snapshot c r) in H.
  set (from := Z.max (after c) (m_join_seq m)) in *. set (snap := page_snapshot c r) in *.
  apply bind_ok in H as (rows & w1 & (-> & fs & ->)%query_ok & H).
  pose proof (page_limit_pos c) as Hl.
  destruct (go_member _ Hok id (actor c) m Hm) as (_ & r' & Hr' & Hj0 & _).
  rewrite S1 in Hr'. injection Hr' as <-.
  destruct (log_rows_ok (view w) id from snap (page_limit c + 1)) as (l & Hrows & Hkeys & Hin); [lia| |].
  { intros k Hk. apply (go_full _ Hok id r); [done|].
    assert (snap <= g_last_seq r) by (unfold snap, page_snapshot; destruct (_ =? 0); lia).
    unfold from in Hk. lia. }
  rewrite Hrows, <- fmap_take, messageRows_columns in H.
  apply bind_ok in H as (ms & w1 & [[= <-] ->]%lift_ok & [<- <-]%ret_ok).
  set (ms := _ <$> take _ l). set (n := Z.max 0 (Z.min (page_limit c) (snap - from))).
  assert (Hp : page (view w) id from n ms).
  { apply page_rows.
    - rewrite fmap_take, Hkeys, take_seqZ by lia. unfold n. rewrite seqZ_max. f_equal. lia.
    - intros k x (i & Hi & _)%elem_of_take. by apply Hin, list_elem_of_lookup_2 with i. }
  assert (Hlen : Z.of_nat (length l) = Z.max 0 (Z.min (page_limit c + 1) (snap - from))).
  { rewrite <- (length_fmap fst), Hkeys, length_seqZ. lia. }
  assert (Hlast : match last ms with Some m => ms_seq m | None => from end = from + n).
  { eapply page_last; [unfold n; lia|exact Hp]. }
  unfold pulled. cbn zeta. fold snap from n. cbn. split; [done|]. rewrite Hlast. split; [done|].
  split; [|done]. rewrite length_fmap, Hlen.
  destruct (_ <? _) eqn:E1, (_ <? snap) eqn:E2; bool_to_prop; try done; unfold n in *; lia.
Qed.

Lemma pull_perform c w reply w' :
  group_ok (view w) → operation c = Pull → perform c w = (inr reply, w') →
  ∃ g r m, names c g ∧ open_group (view w) g r ∧
    t_im_group_members (view w) !! (g, actor c) = Some m ∧ m_active m = 1 ∧
    (epoch c = 0 ∨ epoch c = m_epoch m) ∧ pulled c (view w) g r m reply.
Proof.
  intros Hok Hop H. unfold perform in H. destruct (_ || _); [done|]. destruct (_ <? _); [done|].
  apply bind_ok in H as (user & w1 & (-> & fs & ->)%query_ok & H).
  destruct (name_of _ _) as [nick|]; [|done]. rewrite Hop in H. cbn iota in H.
  unfold group_operation in H.
  apply bind_ok in H as (gid & w1 & [Hgid ->]%lift_ok & H).
  apply bind_ok in H as (id & w1 & [Hid [fs1 ->]]%resolve_ok & H).
  assert (Hns : operation c ≠ Search) by by rewrite Hop.
  rewrite (Hid Hns) in H. clear Hid id.
  apply bind_ok in H as (row & w1 & (-> & fs2 & ->)%query_ok & H). world_simpl.
  destruct (t_im_groups (view w) !! gid) as [r|] eqn:Er; cbn in H; [|done].
  apply bind_ok in H as (g & w1 & [[= <-] ->]%lift_ok & H).
  apply bind_ok in H as (g & w1 & Hg & H).
  apply (memberState_sees c gid r) in Hg as (Hs & fs3 & ->); [|by world_simpl..|done]. world_simpl.
  unfold locked_operation in H. rewrite Hop in H. cbn in H.
  destruct (gp_dismissed g) eqn:Ed; [done|].
  destruct (gp_joined g) eqn:Ej; cbn in H; [|done].
  destruct (se_joined _ _ _ _ _ Hs Ej) as (m & Hm & Ha & Hj & He & Hd0).
  unfold member_operation in H. rewrite Hop, He in H. cbn [Pull] in H.
  destruct (negb (epoch c =? 0) && _) eqn:Ee; [done|].
  change (owner_only Pull) with false in H. cbn in H.
  exists gid, r, m. split; [done|]. split; [split; [apply Hs|done]|]. split; [done|]. split; [done|]. split.
  { apply andb_false_iff in Ee as [Ee|Ee]; apply negb_false_iff, Z.eqb_eq in Ee; auto. }
  apply (pull_ok c gid r g m) in H; [by world_simpl|by world_simpl..].
Qed.

Lemma change_query c d d' : operation c = Pull → group_change c d d' → d' = d.
Proof.
  intros Hop Hc.
  assert (Hno : ∀ o, operation c = o → o = Pull) by (intros o <-; exact Hop).
  destruct Hc; [done|..]; exfalso;
    repeat match goal with
    | Ho : operation c = _ |- _ => by apply Hno in Ho
    | Ho : _ ∧ _ |- _ => destruct Ho
    | Ho : _ ∨ _ |- _ => destruct Ho
    end.
Qed.

(** A [Pull] changes nothing, is answered to members only (of the present
    membership when an epoch is given), and returns a gap-free page: the messages
    at the positions that follow the cursor or the position of joining, at most
    as many as the limit, none beyond the snapshot; the new cursor is the last
    position returned and more is announced exactly when the snapshot is not
    reached. *)
Theorem pull_page `{GroupProto} c w reply w'
    (Hn : w_txn w = None) (Hok : group_ok (w_db w)) (Hop : operation c = Pull)
    (Hrun : executeOnPool c w = (inr reply, w')) :
  w_db w' = w_db w ∧ ∃ g r m, names c g ∧ open_group (w_db w) g r ∧
    t_im_group_members (w_db w) !! (g, actor c) = Some m ∧ m_active m = 1 ∧
    (epoch c = 0 ∨ epoch c = m_epoch m) ∧ pulled c (w_db w) g r m reply.
Proof.
  assert (Hm : mutation c = false) by (unfold mutation; by rewrite Hop). split.
  - destruct (executeOnPool_acted _ _ _ _ Hn Hok Hrun) as [_ [_ _ Hc|? ? Hm' _ _ _ _ _ _|? ? Hm' _ _ _ _ _ _ _]];
      [|congruence..]. by apply (change_query c).
  - apply executeOnPool_ok in Hrun as (_ & w0 & w1 & d & H0 & Ha & _); [|done].
    unfold answer_action in Ha. rewrite Hm in Ha.
    apply bind_ok in Ha as (saved & w2 & [<- <-]%ret_ok & Ha).
    apply bind_ok in Ha as (reply' & w2 & Hp & Ha).
    apply bind_ok in Ha as (u & w3 & [_ <-]%ret_ok & [<- _]%ret_ok).
    rewrite <- (view_txn _ _ H0) in *. by eapply pull_perform.
Qed.

Lemma sample_history_ok : group_ok (w_db group_w5).
Proof. apply (history_ok (w_db group_w0)); [exact sample_history|exact group_db_ok]. Qed.

Lemma pull_page_witness :
  re_hasMore (reply_of pull_cmd group_w5) = true ∧
  ∃ g r m, names pull_cmd g ∧ pulled pull_cmd (w_db group_w5) g r m (reply_of pull_cmd group_w5).
Proof.
  split; [vm_compute; reflexivity|].
  destruct (pull_page pull_cmd group_w5 (reply_of pull_cmd group_w5) (executeOnPool pull_cmd group_w5).2)
    as (_ & g & r & m & Hg & _ & _ & _ & _ & Hp).
  - exact group_w5_txn.
  - exact sample_history_ok.
  - reflexivity.
  - vm_compute. reflexivity.
  - exists g, r, m. split; [exact Hg|exact Hp].
Defined.
