(* ===== verification/Visibility.v ===== *)
(** Two implementations of one question: the batch query that filters a page of
    history and the guard that a single message passes agree. *)
From S2P Require Import Prelude Table Snowflake Schema Effects Users Stores Conversations Samples Friendship Outbox Replies Friends FriendProofs FriendTheorems.

Lemma friend_count a b d :
  friends_ok d → friend_of d a b → count (pair_rows a b) (t_friends d) = 2.
Proof.
  intros Hok (i & r & Hi & Ho & Hf). destruct (fo_sym d Hok i r Hi) as (j & r' & Hj & Ho' & Hf').
  pose proof (fo_self d Hok i r Hi) as Hne. rewrite count_keys.
  assert (Hk : keys (pair_rows a b) (t_friends d) = {[i; j]}).
  { apply set_eq. intros k. rewrite elem_of_keys, elem_of_union, !elem_of_singleton. split.
    - intros (x & Hx & [[E1 E2]|[E1 E2]]%elem_pair_rows); [left|right];
        eapply (fo_unique d Hok); eauto; congruence.
    - intros [-> | ->]; eexists; (split; [eassumption|]); apply elem_pair_rows; [by left|].
      right. split; congruence. }
  rewrite Hk, size_union, !size_singleton; [done|]. apply disjoint_singleton_l, not_elem_of_singleton.
  intros ->. congruence.
Qed.

Lemma friends_both_of d a b : friends_both d a b = true ↔ friend_of d a b ∧ friend_of d b a.
Proof.
  assert (Hone : ∀ x y, bool_decide (select_one (λ _ r, (f_owner r =? x) && (f_friend r =? y))
    (t_friends d) ≠ None) = true ↔ friend_of d x y).
  { intros x y. rewrite bool_decide_eq_true. split.
    - destruct (select_one _ _) as [[k r]|] eqn:E; [|done]. intros _.
      apply select_one_Some in E as (Hk & Hp & _). bool_to_prop. by exists k, r.
    - intros (k & r & Hk & Ho & Hf) E. rewrite select_one_None in E. specialize (E k r Hk).
      by rewrite Ho, Hf, !Z.eqb_refl in E. }
  unfold friends_both. by rewrite andb_true_iff, !Hone.
Qed.

Lemma friends_both_count d a b :
  friends_ok d → friends_both d a b = negb (a =? b) && (count (pair_rows a b) (t_friends d) =? 2).
Proof.
  intros Hok. apply Bool.eq_iff_eq_true.
  rewrite friends_both_of, andb_true_iff, negb_true_iff, Z.eqb_neq, Z.eqb_eq. split.
  - intros [Hab _]. split; [|by apply friend_count]. destruct Hab as (i & r & Hi & <- & <-).
    by apply (fo_self d Hok i).
  - intros [_ Hc]. assert (Hab : friend_of d a b) by (apply delete_count; [done|lia]). split; [done|].
    destruct Hab as (i & r & Hi & Ho & Hf). destruct (fo_sym d Hok i r Hi) as (j & r' & Hj & ? & ?).
    exists j, r'. split; [done|]. split; congruence.
Qed.

(** The ranges of the columns the two queries compare, and one task per message. *)
Record visible_ranges (d : Database) : Prop := mkVisibleRanges {
  vr_mark a b x : t_friend_chat_deletions d !! (a, b) = Some x → 0 <= d_seq x;
  vr_task k r id : t_im_outbox d !! k = Some r → message_row id k r = true →
    0 <= o_stage r <= 1 ∧ 0 <= o_state r;
  vr_once id k k' r r' : t_im_outbox d !! k = Some r → t_im_outbox d !! k' = Some r' →
    message_row id k r = true → message_row id k' r' = true → k = k';
}.

(** At most one task, so the batch query looks at the one the guard reads. *)
Lemma message_tasks d id :
  visible_ranges d →
  select (message_row id) (t_im_outbox d) =
    match select_one (message_row id) (t_im_outbox d) with Some p => [p] | None => [] end.
Proof.
  intros Hr. unfold select_one. pose proof (select_sorted (message_row id) (t_im_outbox d)) as Hs.
  assert (Hin : ∀ p, p ∈ select (message_row id) (t_im_outbox d) →
    t_im_outbox d !! p.1 = Some p.2 ∧ message_row id p.1 p.2 = true).
  { intros [k r]. apply elem_of_select. }
  destruct (select _ _) as [|p [|q l]]; [done|done|]. exfalso.
  apply StronglySorted_inv in Hs as [_ Hall]. apply Forall_inv in Hall.
  destruct (Hin p) as [Hp Hp']; [apply list_elem_of_here|].
  destruct (Hin q) as [Hq Hq']; [apply list_elem_of_further, list_elem_of_here|].
  pose proof (vr_once d Hr id _ _ _ _ Hp Hq Hp' Hq'). lia.
Qed.

(** The guard, without failures. *)
Lemma message_allowed_run m w :
  w_faults w = [] → friends_ok (view w) → visible_ranges (view w) → serverMsgID m ≠ "" →
  is_uint64 (seq m) → message_allowed m false w = (inr (visible_row (view w) m), w).
Proof.
  intros Hf Hok Hr Hid Hseq. unfold message_allowed. erewrite bind_run by by apply query_run.
  unfold count_pair, unsigned_field. rewrite (proj2 (Z.leb_le 0 _)) by apply count_nonneg.
  erewrite bind_run by reflexivity. unfold visible_row. rewrite friends_both_count by done.
  destruct (sendID m =? recvID m); [done|]. cbn [orb negb andb].
  destruct (count _ _ =? 2); [|done]. cbn [negb andb].
  erewrite bind_run by by apply query_run.
  set (newer := match deleted_seq _ _ _ with Some s => s <? seq m | None => true end).
  assert (Hdel : (match deleted_seq (sendID m) (recvID m) (view w) with
      | None => mret true
      | Some s => s ← lift (unsigned_field (FInt64 s) "friend record integer");
                  mret (s <? to_uint64 (seq m))
      end : M bool) w = (inr newer, w)).
  { unfold newer, deleted_seq. destruct (t_friend_chat_deletions (view w) !! _) as [x|] eqn:Ex; [|done].
    cbn [fmap option_fmap option_map]. unfold unsigned_field.
    rewrite (proj2 (Z.leb_le 0 (d_seq x))) by by eapply vr_mark.
    erewrite bind_run by reflexivity. by rewrite to_uint64_id. }
  erewrite bind_run by exact Hdel. destruct newer; [|done].
  cbn [negb orb andb]. destruct (str_empty (serverMsgID m)) eqn:Es; [by destruct (serverMsgID m)|].
  erewrite bind_run by by apply query_run. rewrite message_tasks by done.
  destruct (select_one _ _) as [[k t]|] eqn:Et; cbn [fmap option_fmap option_map snd]; [|done].
  apply select_one_Some in Et as (Hk & Hp & _).
  destruct (vr_task _ Hr k t (serverMsgID m) Hk Hp) as [Hst Hs0]. unfold unsigned_field.
  erewrite bind_run by reflexivity. rewrite andb_false_r. cbn [existsb snd orb].
  rewrite orb_false_r. unfold mret, M_ret. do 3 f_equal.
  apply Bool.eq_iff_eq_true. rewrite Z.leb_le, Z.eqb_eq. lia.
Qed.

Lemma filter_ext_in {A} (P Q : A → Prop) `{∀ x, Decision (P x)} `{∀ x, Decision (Q x)} (l : list A) :
  (∀ x, x ∈ l → P x ↔ Q x) → filter P l = filter Q l.
Proof.
  induction l as [|x l IH]; intros Hpq; [done|]. rewrite !filter_cons.
  pose proof (Hpq x (list_elem_of_here _ _)) as Hx.
  rewrite IH by (intros y Hy; by apply Hpq, list_elem_of_further). by repeat case_decide; try tauto.
Qed.

Lemma id_unique (ms : list MsgData) m m' :
  NoDup (serverMsgID <$> ms) → m ∈ ms → m' ∈ ms → serverMsgID m = serverMsgID m' → m = m'.
Proof.
  intros Hnd (i & Hi)%list_elem_of_lookup (j & Hj)%list_elem_of_lookup E.
  assert (i = j); [|congruence].
  apply (NoDup_lookup _ i j (serverMsgID m) Hnd); rewrite list_lookup_fmap;
    [by rewrite Hi|by rewrite Hj, E].
Qed.

Lemma filter_visible_ok ms w shown w' :
  NoDup (serverMsgID <$> ms) → FilterVisibleMessages ms w = (inr shown, w') →
  shown = filter (λ m, visible_row (w_db w) m = true) ms ∧ w_db w' = w_db w.
Proof.
  intros Hnd Hrun. destruct ms as [|m0 ms0]; [by apply ret_ok in Hrun as [<- <-]|].
  apply with_connection_ok in Hrun as (fs & w1 & Hrun & ->). set (ms := m0 :: ms0) in *.
  apply bind_ok in Hrun as (ids & w2 & (-> & fs1 & ->)%query_ok & [<- <-]%ret_ok).
  split; [|done]. change (view _) with (w_db w). apply filter_ext_in. intros m Hm.
  unfold visible_ids. rewrite list_elem_of_fmap. setoid_rewrite list_elem_of_filter. split.
  - intros (m' & E & Hv & Hm'). by rewrite (id_unique ms m m').
  - intros Hv. by exists m.
Qed.

(** C38: the batch query over a page of history keeps, in order, exactly the
    messages that the guard of a single message admits: friends in both
    directions, after the last deletion of the chat, and published, not
    cancelled, when the message has a task.  It changes nothing. *)
Theorem filter_agrees_with_guard ms w shown w'
    (Hok : friends_ok (w_db w)) (Hr : visible_ranges (w_db w)) (Hids : NoDup (serverMsgID <$> ms))
    (Hms : ∀ m, m ∈ ms → serverMsgID m ≠ "" ∧ is_uint64 (seq m))
    (Hrun : FilterVisibleMessages ms w = (inr shown, w')) :
  w_db w' = w_db w ∧ shown `sublist_of` ms ∧
  ∀ m w1, m ∈ ms → w_faults w1 = [] → view w1 = w_db w →
    message_allowed m false w1 = (inr (bool_decide (m ∈ shown)), w1).
Proof.
  apply filter_visible_ok in Hrun as [-> Hdb]; [|done]. split; [done|].
  split; [apply sublist_filter|]. intros m w1 Hm Hf Hv. destruct (Hms m Hm) as [Hid Hseq].
  rewrite message_allowed_run by (by rewrite ?Hv). rewrite Hv. do 2 f_equal.
  apply Bool.eq_iff_eq_true. rewrite bool_decide_eq_true, list_elem_of_filter. tauto.
Qed.

(** Two friends, one message without a task, one to a stranger. *)
Definition other_message : MsgData :=
  mkMsgData 7 8 "7_8" "c2" "m2" 1 "ann" "" 1 0 101 "hello" 6 1750000000000 0
    false false false false false "".
Definition page_messages : list MsgData := [sample_message; other_message].

Lemma friend_w2_ranges : visible_ranges (w_db friend_w2).
Proof.
  assert (Ho : t_im_outbox (w_db friend_w2) = ∅) by (vm_compute; reflexivity).
  assert (Hd : t_friend_chat_deletions (w_db friend_w2) = ∅) by (vm_compute; reflexivity).
  split; intros *; rewrite ?Ho, ?Hd; by rewrite lookup_empty.
Qed.

Lemma filter_agrees_with_guard_witness :
  message_allowed sample_message false friend_w2 = (inr true, friend_w2) ∧
  message_allowed other_message false friend_w2 = (inr false, friend_w2).
Proof.
  destruct (filter_agrees_with_guard page_messages friend_w2 [sample_message]
    (FilterVisibleMessages page_messages friend_w2).2) as (_ & _ & Hg).
  - exact friend_w2_ok.
  - exact friend_w2_ranges.
  - apply (bool_decide_unpack _). vm_compute. exact I.
  - intros m Hm. cbv [page_messages] in Hm.
    apply elem_of_cons in Hm as [->|Hm]; [split; [discriminate|split; vm_compute; (discriminate || reflexivity)]|].
    apply list_elem_of_singleton in Hm as ->.
    split; [discriminate|split; vm_compute; (discriminate || reflexivity)].
  - vm_compute. reflexivity.
  - assert (Hv : view friend_w2 = w_db friend_w2) by (vm_compute; reflexivity).
    split.
    + rewrite (Hg sample_message friend_w2); [vm_compute; reflexivity|apply list_elem_of_here|vm_compute; reflexivity|exact Hv].
    + rewrite (Hg other_message friend_w2); [vm_compute; reflexivity|apply list_elem_of_further, list_elem_of_here|vm_compute; reflexivity|exact Hv].
Defined.
