(* ===== verification/GroupTypes.v ===== *)
(** Group chat: what commands store fits the columns of the tables.  Not covered: the
    membership epoch and the application's id, which only count up; times, nicknames and
    message ids, which come from the clock, the users table and the identifier generator;
    and the saved payload and reply, whose length is the encoder's. *)
From S2P Require Import Prelude Table Snowflake Schema Effects Users Registration Stores Conversations Samples Replies Groups GroupProofs GroupSpec GroupSamples GroupTheorems.

(** The declared columns: BIGINT UNSIGNED numbers, TINYINT flags and statuses,
    VARCHAR(256) names, VARCHAR(512) reasons, VARCHAR(64) client ids; texts are
    MEDIUMTEXT, of which a command uses at most 65536 bytes.  Public numbers have ten
    digits, and the cursor is at most one past the last of them. *)
Definition between_ (lo hi : Z) (s : string) : Prop := lo <= size_of s <= hi.

Record group_typed (d : Database) : Prop := mkGroupTyped {
  ty_group g r : t_im_groups d !! g = Some r → is_uint64 g ∧ between_ 1 256 (g_name r) ∧
    is_uint64 (g_owner r) ∧ (g_dismissed r = 0 ∨ g_dismissed r = 1) ∧ is_uint64 (g_last_seq r);
  ty_member g a m : t_im_group_members d !! (g, a) = Some m → is_uint64 g ∧ (is_uint64 a ∧ a ≠ 0) ∧
    (m_active m = 0 ∨ m_active m = 1) ∧ is_uint64 (m_join_seq m) ∧ is_uint64 (m_ack_seq m) ∧
    is_uint64 (m_read_seq m);
  ty_app i x : t_im_group_applications d !! i = Some x → is_uint64 (ga_group x) ∧
    (is_uint64 (ga_account x) ∧ ga_account x ≠ 0) ∧ between_ 0 512 (ga_reason x) ∧ 0 <= ga_status x <= 3;
  ty_message g k x : t_im_group_messages d !! (g, k) = Some x → is_uint64 g ∧ is_uint64 k ∧
    is_uint64 (gm_sender x) ∧ between_ 1 64 (gm_client_id x) ∧ between_ 1 65536 (gm_text x);
  ty_request a k x : t_im_group_requests d !! (a, k) = Some x → is_uint64 a ∧ between_ 1 64 k;
  ty_number g n : t_im_group_numbers d !! g = Some n → is_uint64 g ∧ kMinAccount <= n <= kMaxAccount;
  ty_cursor v : t_im_group_number_cursor d = Some v → kMinAccount <= v <= kMaxAccount + 1;
}.

(** A set of positive numbers is not larger than their range. *)
Lemma size_below (X : gset Z) n : 0 <= n → (∀ a, a ∈ X → 1 <= a <= n) → Z.of_nat (size X) <= n.
Proof.
  intros Hn HX. assert (Hsub : X ⊆ list_to_set (seqZ 1 n)).
  { intros a Ha. apply elem_of_list_to_set, elem_of_seqZ. specialize (HX a Ha). lia. }
  apply subseteq_size, inj_le in Hsub. rewrite size_list_to_set, length_seqZ in Hsub by apply NoDup_seqZ. lia.
Qed.

(** So the stored number of members fits its column. *)
Lemma member_count_typed d g r :
  group_ok d → group_typed d → t_im_groups d !! g = Some r → is_uint64 (g_member_count r).
Proof.
  intros Hok Ht Hr. rewrite (go_count _ Hok g r Hr), active_count_size. unfold is_uint64.
  split; [lia|]. apply size_below; [done|].
  intros a (m & Hm & _)%elem_of_active. destruct (ty_member _ Ht g a m Hm) as (_ & [Hu ?] & _).
  unfold is_uint64 in Hu. lia.
Qed.

Lemma size_nonneg s : 0 <= size_of s.
Proof. unfold size_of. lia. Qed.

Lemma nonempty_size s : str_empty s = false → 1 <= size_of s.
Proof. destruct s; [done|]. unfold size_of. cbn. lia. Qed.

Lemma valid_id_size c : valid_id c = true → between_ 1 64 (clientID c).
Proof.
  unfold valid_id. intros [H1 H2]%negb_true_iff%orb_false_iff. apply orb_false_iff in H1 as [_ H1].
  split; [by apply nonempty_size|]. by apply Z.ltb_ge.
Qed.

Lemma valid_id_actor c : valid_id c = true → actor c ≠ 0.
Proof.
  unfold valid_id. intros [H1 _]%negb_true_iff%orb_false_iff. apply orb_false_iff in H1 as [H1 _].
  by apply Z.eqb_neq.
Qed.

Lemma bad_name_size s : bad_name s = false → between_ 1 256 s.
Proof. unfold bad_name. intros [H1 H2]%orb_false_iff. split; [by apply nonempty_size|by apply Z.ltb_ge]. Qed.

(** A row of a group that only changes in other columns. *)
Definition keeps_types (f : GroupRow → GroupRow) : Prop := ∀ r,
  (between_ 1 256 (g_name r) → between_ 1 256 (g_name (f r))) ∧ g_owner (f r) = g_owner r ∧
  (g_dismissed (f r) = g_dismissed r ∨ g_dismissed (f r) = 1) ∧
  (is_uint64 (g_last_seq r) → is_uint64 (g_last_seq (f r))).

Lemma set_group_typed f g d : keeps_types f → group_typed d → group_typed (set_group f g d).2.
Proof.
  intros Hf [T1 T2 T3 T4 T5 T6 T7]. unfold set_group. cbn [snd]. split; try done. db_simpl.
  intros k r'. rewrite lookup_alter_Some. intros [(<- & r & Hr & ->)|[_ Hr]]; [|by apply T1].
  destruct (T1 g r Hr) as (? & ? & ? & ? & ?), (Hf r) as (? & -> & Hd & ?).
  split; [done|]. split; [auto|]. split; [done|]. split; [|auto]. destruct Hd as [-> | ->]; auto.
Qed.

Lemma put_member_typed g a x d :
  is_uint64 g → is_uint64 a ∧ a ≠ 0 → (m_active x = 0 ∨ m_active x = 1) → is_uint64 (m_join_seq x) →
  is_uint64 (m_ack_seq x) → is_uint64 (m_read_seq x) → group_typed d → group_typed (put_member g a x d).
Proof.
  intros ?????? [T1 T2 T3 T4 T5 T6 T7]. unfold put_member. split; try done. db_simpl.
  intros k b m [[[= <- <-] <-]|[_ Hm]]%lookup_insert_Some; [done|by apply T2].
Qed.

Lemma settle_typed st i d : 0 <= st <= 3 → group_typed d → group_typed (settle st i d).2.
Proof.
  intros Hst [T1 T2 T3 T4 T5 T6 T7]. unfold settle. cbn [snd]. split; try done. db_simpl.
  intros j y. rewrite lookup_alter_Some. intros [(<- & y0 & Hy & ->)|[_ Hy]]; [|by apply (T3 j)].
  destruct (T3 i y0 Hy) as (? & ? & ? & _). done.
Qed.

Lemma close_pending_typed g d : group_typed d → group_typed (close_pending g d).2.
Proof.
  intros [T1 T2 T3 T4 T5 T6 T7]. unfold close_pending. cbn [snd]. split; try done. db_simpl.
  intros i y. rewrite lookup_update_where. destruct (t_im_group_applications d !! i) as [y0|] eqn:E; [|done].
  intros [= <-]. destruct (T3 i y0 E) as (? & ? & ? & ?). destruct (_ && _); [|done].
  split; [done|]. split; [done|]. split; [done|]. cbn. lia.
Qed.

Lemma recount_typed g d : group_typed d → group_typed (recount g d).2.
Proof. intros Ht. apply set_group_typed; [|done]. intros r. cbn. auto. Qed.

(** The positions of a member lie in the log of the group. *)
Lemma position_typed (r : GroupRow) z : is_uint64 (g_last_seq r) → 0 <= z <= g_last_seq r → is_uint64 z.
Proof. unfold is_uint64. lia. Qed.

Lemma change_typed c d d' :
  is_uint64 (actor c) → fits c → (mutation c = true → valid_id c = true) → room d → group_ok d →
  group_typed d → group_change c d d' → group_typed d'.
Proof.
  intros Hac Hfit Hval Hroom Hok Ht Hc.
  assert (Hz0 : mutation c = true → actor c ≠ 0) by (intros ?; by apply valid_id_actor, Hval). pose proof Ht as [T1 T2 T3 T4 T5 T6 T7].
  destruct Hc as [_|g v Hop Hg Hu Hz Hn Hcur Hmax|g r t Hop _ [Hg Hd] Ha|g r x Hop Hacc _ [Hg Hd] Ho Hx Hgx Hs
    |g r x Hop Hacc _ [Hg Hd] Ho Hx Hgx Hs|g r Hop _ [Hg Hd] Ho Hn|g r whom _ [Hg Hd] Ha Hw _
    |g r Hop _ [Hg Hd] Ho|g r x Hop _ [Hg Hd] Ha Hs Hte Hcl Hne Hc|g r m Hop _ [Hg Hd] Hm Ha Hle].
  - done.
  - split; db_simpl; try done.
    + intros k r [[<- <-]|[_ Hr]]%lookup_insert_Some; [|by apply T1].
      split; [done|]. split; [by apply bad_name_size|]. cbn. split; [done|]. split; [by left|done].
    + intros k a m [[[= <- <-] <-]|[_ Hm]]%lookup_insert_Some; [|by apply T2].
      split; [done|]. split; [split; [done|]; apply Hz0; unfold mutation; by rewrite Hop|]. split; [by right|done].
    + intros k n [[<- <-]|[_ Hn']]%lookup_insert_Some; [|by apply T6].
      split; [done|]. specialize (T7 v Hcur). lia.
    + intros v' [= <-]. specialize (T7 v Hcur). lia.
  - unfold insert_group_application. cbn [snd]. split; try done. db_simpl.
    intros i y [[<- <-]|[_ Hy]]%lookup_insert_Some; [|by apply (T3 i)].
    split; [by apply (T1 g r)|]. split; [split; [done|]; apply Hz0; unfold mutation; by rewrite Hop|].
    split; [|cbn; lia].
    split; [apply size_nonneg|]. unfold fits in Hfit. by rewrite Hop in Hfit.
  - apply settle_typed; [lia|]. apply recount_typed. destruct (T1 g r Hg) as (? & _ & _ & _ & Hl).
    destruct (T3 _ _ Hx) as (_ & ? & _ & _). destruct (join_row d g (ga_account x) r Hok Hg) as (Hact & ? & ? & ?).
    change (join g (ga_account x) (g_last_seq r) d).2 with (put_member g (ga_account x)
      (join_member (g_last_seq r) (t_im_group_members d !! (g, ga_account x))) d).
    apply put_member_typed; try done; [by right|..]; (eapply position_typed; [exact Hl|lia]).
  - apply settle_typed; [lia|done].
  - apply set_group_typed; [|done]. intros q. cbn. split; [by intros _; apply bad_name_size|auto].
  - apply recount_typed. destruct (t_im_group_members d !! (g, whom)) as [m|] eqn:Em.
    + rewrite (set_member_put _ _ _ _ _ Em). destruct (T2 g whom m Em) as (? & ? & ? & ? & ? & ?).
      apply put_member_typed; try done. by left.
    + by rewrite set_member_none.
  - apply close_pending_typed, set_group_typed; [|done]. intros q. cbn. auto.
  - rewrite (room_next d g r) in * by done. unfold append_db. apply set_group_typed.
    { intros q. cbn. split; [done|]. split; [done|]. split; [auto|]. intros _.
      pose proof (go_last _ Hok g r Hg). specialize (Hroom g r Hg). unfold is_uint64. lia. }
    split; try done. db_simpl. intros k i y [[[= <- <-] <-]|[_ Hy]]%lookup_insert_Some; [|by apply T4].
    destruct (T1 g r Hg) as (? & _). split; [done|]. split.
    { pose proof (go_last _ Hok g r Hg). specialize (Hroom g r Hg). unfold is_uint64. lia. }
    rewrite Hs, Hcl, Hte. split; [done|]. split.
    { apply valid_id_size, Hval. unfold mutation. by rewrite Hop. }
    split; [apply nonempty_size; by destruct (text c)|]. unfold fits in Hfit. by rewrite Hop in Hfit.
  - rewrite (set_member_put _ _ _ _ _ Hm). destruct (T2 _ _ _ Hm) as (? & ? & ? & ? & ? & ?).
    destruct (T1 g r Hg) as (_ & _ & _ & _ & Hl).
    destruct (go_member _ Hok _ _ _ Hm) as (_ & r' & Hr' & ? & ? & ?). rewrite Hg in Hr'. injection Hr' as <-.
    destruct (_ =? Ack); (apply put_member_typed; cbn; try done); (eapply position_typed; [exact Hl|lia]).
Qed.

Section typed.
Context `{GroupProto}.

Lemma requests_typed f d :
  (∀ a k x, f (t_im_group_requests d) !! (a, k) = Some x → is_uint64 a ∧ between_ 1 64 k) →
  group_typed d → group_typed (set_im_group_requests f d).
Proof. intros Hf [T1 T2 T3 T4 T5 T6 T7]. by split. Qed.

Lemma acted_typed c reply d d' :
  is_uint64 (actor c) → room d → group_ok d → group_typed d → acted c reply d d' → group_typed d'.
Proof.
  intros Hac Hr Hok Ht [Hm Hfit Hc|row bytes _ _ _ _ _ _ ->|d1 d2 _ Hid Hfit _ _ -> Hc ->]; [|done|].
  - eapply change_typed; try done. all: congruence.
  - set (d1 := (insert_request _ _ _ d).2) in *.
    assert (Hr1 : room d1) by (apply (same_groups_room d); [apply same_groups_requests|done]).
    assert (Hok1 : group_ok d1) by by apply (group_same d).
    assert (Ht1 : group_typed d1).
    { apply requests_typed; [|done]. intros a k x Hx.
      destruct (t_im_group_requests d !! (actor c, clientID c)); [by apply (ty_request _ Ht a k x)|].
      apply lookup_insert_Some in Hx as [[[= <- <-] _]|[_ Hx]]; [split; [done|by apply valid_id_size]|].
      by apply (ty_request _ Ht a k x). }
    assert (Ht2 : group_typed d2) by by apply (change_typed c d1).
    apply requests_typed; [|done]. intros a k x.
    rewrite lookup_alter_Some. intros [([= <- <-] & _)|[_ Hx]]; [split; [done|by apply valid_id_size]|].
    by apply (ty_request _ Ht2 a k x).
Qed.

(** A command whose actor is an account number. *)
Definition typed_step (d d' : Database) : Prop :=
  ∃ c w, is_uint64 (actor c) ∧ w_db w = d ∧ w_txn w = None ∧ room d ∧
    d' = w_db (ExecuteGroupCommand c w).2.

(** C39: whatever group commands do, what they store fits these columns: group ids,
    accounts, positions in a log and the number of members of a group are unsigned 64-bit
    integers, wherever the tables hold them; names have 1 to 256 bytes,
    reasons at most 512, client ids 1 to 64, texts 1 to 65536; flags and statuses are in
    range; public numbers have ten digits and their cursor ends one past the last. *)
Theorem group_columns_fit d d'
    (Hreach : rtc typed_step d d') (Hok : group_ok d) (Ht : group_typed d) :
  group_typed d' ∧ ∀ g r, t_im_groups d' !! g = Some r → is_uint64 (g_member_count r).
Proof.
  induction Hreach as [d1|d1 d2 d3 (c & w & Hac & <- & Hn & Hr & ->) _ IH].
  { split; [done|]. intros g r. by apply member_count_typed. }
  assert (Hs : group_step (w_db w) (w_db (ExecuteGroupCommand c w).2)) by (exists c, w; auto).
  apply IH; [by eapply group_step_ok|]. rewrite ExecuteGroupCommand_db.
  destruct (executeOnPool c w) as [x w'] eqn:E.
  destruct (executeOnPool_acted _ _ _ _ Hn Hok E) as [_ Hx]. cbn.
  destruct x as [e|reply]; [|by eapply acted_typed].
  destruct Hx as [-> |(code & reply & _ & Ha)]; [done|by eapply acted_typed].
Qed.
End typed.

Lemma group_db_typed : group_typed group_db.
Proof.
  split; intros *; change (t_im_groups group_db) with (∅ : gmap Z GroupRow);
    change (t_im_group_members group_db) with (∅ : gmap (Z * Z) MemberRow);
    change (t_im_group_messages group_db) with (∅ : gmap (Z * Z) GroupMessageRow);
    change (t_im_group_applications group_db) with (∅ : gmap Z GroupApplicationRow);
    change (t_im_group_requests group_db) with (∅ : gmap (Z * string) GroupRequestRow);
    change (t_im_group_numbers group_db) with (∅ : gmap Z Z);
    try (by rewrite lookup_empty).
  intros [= <-]. unfold kMinAccount, kMaxAccount. lia.
Qed.

Lemma group_columns_fit_witness :
  group_typed (w_db group_w1) ∧
  ∀ g r, t_im_groups (w_db group_w1) !! g = Some r → is_uint64 (g_member_count r).
Proof.
  apply (group_columns_fit (w_db group_w0)).
  - apply rtc_once. exists create_cmd, group_w0. rewrite ExecuteGroupCommand_db.
    split; [split; vm_compute; (discriminate || reflexivity)|].
    split; [reflexivity|]. split; [reflexivity|]. split; [apply room_decided; reflexivity|reflexivity].
  - exact group_db_ok.
  - exact group_db_typed.
Defined.
