(* ===== verification/Auth.v ===== *)
(** The authentication service ([src/services/auth_service/server.cpp]):
    registration requests, log in, tokens in Redis and their validation.

    The bytes that the EVP calls leave in the digest buffer, the answer of Redis to
    TTL and the text of an exception are parameters.  The seven days given to SETEX
    are not kept: a key that expires is a key that is deleted by somebody else. *)
From S2P Require Import Prelude Table Snowflake Schema Effects Users Registration Stores Conversations.

(** ** Messages of the service *)

Record AuthUser := mkAuthUser { au_userId : Z; au_account : Z; au_phone : string; au_nickname : string }.

Record AuthRegResponse := mkAuthRegResponse {
  ar_success : bool; ar_errorCode : string; ar_errorMessage : string;
  ar_token : string; ar_expiresAt : Z; ar_user : option AuthUser;
}.

Record ValidateTokenResponse := mkValidateTokenResponse {
  vt_valid : bool; vt_userId : Z; vt_account : Z; vt_expiresAt : Z;
}.

Definition auth_failed (code message : string) : AuthRegResponse :=
  mkAuthRegResponse false code message "" 0 None.
Definition token_rejected : ValidateTokenResponse := mkValidateTokenResponse false 0 0 0.

(** ** Constants and checks *)

Definition TOKEN_KEY_PREFIX : string := "token:".

Definition request_id_char (c : ascii) : bool :=
  ((97 <=? byte_val c) && (byte_val c <=? 122)) || ((65 <=? byte_val c) && (byte_val c <=? 90)) ||
  is_digit c || bool_decide (c = "-"%char).

Definition validId (s : string) : bool :=
  negb (str_empty s) && (size_of s <=? 64) && all_of request_id_char s.

Definition validPhone (s : string) : bool :=
  (size_of s =? 11) &&
  match s with
  | String a (String b _) => bool_decide (a = "1"%char) && (51 <=? byte_val b) && (byte_val b <=? 57)
  | _ => false
  end && all_of is_digit s.

Section auth.
Context `{Digest} `{Shuffle}.
Context (sha256 : string → string) (redis_TTL : string → RedisStore → Z) (what : exn → string).

Definition hash_password (password salt : string) : string := to_hex (sha256 (salt +:+ password)).

Definition generate_salt : M string := u ← newone_str; mret (take_str 32 u).
Definition generate_token : M string := newone_str.

(** Milliseconds of the clock, seven days later, in seconds. *)
Definition calculate_expiry : M Z :=
  t ← now; mret (Z.quot (t + 24 * 7 * 3600 * 1000) 1000).

(** ** Register *)

(** The coroutine. *)
Definition register_task (id phone nickname password : string) : M AuthRegResponse :=
  salt ← generate_salt;
  let user := mkUserInfo 0 0 nickname phone (hash_password password salt) salt "" "" "" in
  result ← register_user (mkInput id user (registration_payload phone nickname password));
  mret (mkAuthRegResponse true "" "" "" 0
          (Some (mkAuthUser (res_user_id result) (res_account result) phone nickname))).

(** The completion handler. *)
Definition register_failure (e : exn) : AuthRegResponse :=
  match e with
  | CodedError code message => auth_failed code message
  | _ => auth_failed "DB_ERROR" "Registration could not be completed; retry the same request ID"
  end.

Definition Register (id phone nickname password : string) : M (grpc_status * AuthRegResponse) :=
  if negb (validId id) || negb (validPhone phone) || str_empty nickname || (256 <? size_of nickname) ||
     str_empty password || (1024 <? size_of password)
  then mret (Status_OK, auth_failed "INVALID_INFO"
               "Valid registration request ID, phone, nickname and password are required")
  else
    r ← catch (register_task id phone nickname password);
    mret (Status_OK, match r with inr response => response | inl e => register_failure e end).

(** ** Login *)

Definition token_key (token : string) : string := TOKEN_KEY_PREFIX +:+ token.
Definition token_value (user : userInfo) : string :=
  to_string (user_id user) +:+ "," +:+ to_string (account user).

(** The try block. *)
Definition login_task (acc : Z) (password token : string) (expires_at : Z) : M AuthRegResponse :=
  user_opt ← find_user_by_account acc;
  match user_opt with
  | None => mret (auth_failed "USER_NOT_FOUND" "Invalid username")
  | Some user =>
      if negb (bool_decide (hash_password password (password_salt user) = password_hash user))
      then mret (auth_failed "WRONG_PASSWORD" "Invalid account or password")
      else
        update_last_login (user_id user);;
        redis_setex (token_key token) (token_value user);;
        mret (mkAuthRegResponse true "" "" token expires_at
                (Some (mkAuthUser (user_id user) (account user) "" (nickname user))))
  end.

Definition Login (acc : Z) (password : string) : M (grpc_status * AuthRegResponse) :=
  if (acc =? 0) || str_empty password
  then mret (Status_OK, auth_failed "INVALID_PARAM" "account and password are required")
  else
    token ← generate_token;
    expires_at ← calculate_expiry;
    r ← catch (login_task acc password token expires_at);
    mret (match r with
          | inr response => (Status_OK, response)
          | inl e => (Status "INTERNAL" (what e), auth_failed "INTERNAL_ERROR" (what e))
          end).

(** ** ValidateToken *)

Definition to_exn (out_of_range : bool) : exn :=
  if out_of_range then RuntimeError "stoull: out of range" else InvalidArgument "stoull".
Definition parse_number (s : string) : E Z :=
  match stoull s with inr z => inr z | inl b => inl (to_exn b) end.

Definition redis_ttl (key : string) : M Z := redis (λ r, (redis_TTL key r, r)).

(** The try block. *)
Definition validate_task (token : string) : M ValidateTokenResponse :=
  let key := token_key token in
  value ← redis_get key;
  match value with
  | None => mret token_rejected
  | Some value =>
      match find_char ","%char value with
      | None => mret token_rejected
      | Some comma =>
          uid ← lift (parse_number (take_str comma value));
          acc ← lift (parse_number (drop_str (comma + 1) value));
          ttl ← redis_ttl key;
          if 0 <=? ttl then
            t ← now;
            mret (mkValidateTokenResponse true uid acc (Z.quot (t + ttl * 1000) 1000))
          else mret (mkValidateTokenResponse true uid acc 0)
      end
  end.

Definition ValidateToken (token : string) : M (grpc_status * ValidateTokenResponse) :=
  if str_empty token then mret (Status_OK, token_rejected)
  else
    r ← catch (validate_task token);
    mret (match r with
          | inr response => (Status_OK, response)
          | inl _ => (Status "INTERNAL" "Redis error", token_rejected)
          end).
End auth.
