(* ===== verification/AuthTheorems.v ===== *)
(** The theorem on authentication: log in, then validate. *)
From S2P Require Import Prelude Table Snowflake Schema Effects Users Registration Stores Conversations Samples Auth.

(** * Reading a token's value back *)

Lemma token_value_fields uid acc :
  is_uint64 uid → is_uint64 acc →
  let v := to_string uid +:+ "," +:+ to_string acc in
  find_char ","%char v = Some (String.length (to_string uid)) ∧
  parse_number (take_str (String.length (to_string uid)) v) = inr uid ∧
  parse_number (drop_str (String.length (to_string uid) + 1) v) = inr acc.
Proof.
  intros Hu Ha. cbn zeta. change ("," +:+ to_string acc) with (String ","%char (to_string acc)).
  split; [|split].
  - apply find_char_app, digits_avoid; [done|]. apply to_string_digits, Hu.
  - unfold parse_number. by rewrite take_str_app, stoull_to_string.
  - unfold parse_number. rewrite drop_str_app. cbn [drop_str].
    by rewrite stoull_to_string.
Qed.

Section auth.
Context (sha256 : string → string) (redis_TTL : string → RedisStore → Z) (what : exn → string).

Lemma stores_find_user v b p : Step same_stores (find_user v b p).
Proof. unfold find_user. apply _. Qed.

Lemma find_user_by_account_ok acc w u w' :
  find_user_by_account acc w = (inr (Some u), w') → same_stores w w' ∧
  ∃ id r, t_users (w_db w) !! id = Some r ∧ u_account r = acc ∧ u = user_of false (id, r).
Proof.
  intros H. unfold find_user_by_account, find_user_caught in H.
  apply bind_ok in H as (r & w1 & Hr & H).
  assert (Hs : same_stores w w1).
  { assert (Hst : Step same_stores (catch (with_connection (find_user acc true false)))).
    { apply Step_catch; [apply _|]. apply with_connection_same, stores_find_user. }
    specialize (Hst w). by rewrite Hr in Hst. }
  apply catch_ok in Hr. destruct r as [e|u']; [done|]. apply ret_ok in H as [-> <-]. split; [done|].
  apply with_connection_ok in Hr as (fs & w2 & Hr & _). apply find_user_ok in Hr as [Hu _].
  change (view _) with (w_db w) in Hu.
  destruct (select_one _ _) as [[id r]|] eqn:Es; [|done].
  apply select_one_Some in Es as (Hid & Hm & _). unfold user_match in Hm. bool_to_prop.
  exists id, r. injection Hu as ->. done.
Qed.

Lemma update_last_login_stores uid : Step same_stores (update_last_login uid).
Proof.
  unfold update_last_login. apply Step_bind; [apply _| |intros []; apply _].
  apply Step_catch; [apply _|]. apply with_connection_same, Step_bind; [apply _| |intros t; apply _].
  by intros w.
Qed.

(** A password is right for a row of the users table. *)
Definition right_password (password : string) (r : UserRow) : Prop :=
  hash_password sha256 password (u_password_salt r) = u_password_hash r.

Lemma login_task_ok acc password token expires w resp w' :
  login_task sha256 acc password token expires w = (inr resp, w') → ar_success resp = true →
  ∃ id r, t_users (w_db w) !! id = Some r ∧ u_account r = acc ∧ right_password password r ∧
    resp = mkAuthRegResponse true "" "" token expires (Some (mkAuthUser id acc "" (u_nickname r))) ∧
    r_strings (w_redis w') = <[token_key token := to_string id +:+ "," +:+ to_string acc]>
      (r_strings (w_redis w)).
Proof.
  intros H Hsucc. unfold login_task in H. apply bind_ok in H as (u & w1 & Hu & H).
  destruct u as [u|]; [|by apply ret_ok in H as [<- _]].
  apply find_user_by_account_ok in Hu as (Hs1 & id & r & Hid & Hacc & ->).
  destruct (negb _) eqn:Ep; [by apply ret_ok in H as [<- _]|].
  apply negb_false_iff, bool_decide_eq_true in Ep. cbn in Ep, H.
  apply bind_ok in H as (b & w2 & Hl & H).
  pose proof (update_last_login_stores id w1) as Hs2. rewrite Hl in Hs2. cbn in Hs2.
  apply bind_ok in H as (u & w3 & (fs & Hr)%remote_ok & H). injection Hr as _ <-.
  apply ret_ok in H as [<- <-]. exists id, r. split; [done|]. split; [done|]. split; [done|].
  rewrite Hacc. split; [done|]. cbn.
  destruct Hs1 as (_ & Hs1 & _), Hs2 as (_ & Hs2 & _). by rewrite Hs2, Hs1.
Qed.

Lemma validate_run token uid acc w :
  w_faults w = [] → is_uint64 uid → is_uint64 acc →
  r_strings (w_redis w) !! token_key token = Some (to_string uid +:+ "," +:+ to_string acc) →
  ∃ ex w', validate_task redis_TTL token w = (inr (mkValidateTokenResponse true uid acc ex), w').
Proof.
  intros Hf Hu Ha Hv. destruct (token_value_fields uid acc Hu Ha) as (Hc & H1 & H2). cbn zeta in *.
  assert (Hredis : ∀ A (f : RedisStore → A), redis (λ r, (f r, r)) w = (inr (f (w_redis w)), w)).
  { intros A f. unfold redis. rewrite remote_nofault by done. by destruct w. }
  unfold validate_task, redis_get, redis_ttl. erewrite bind_run by apply Hredis. rewrite Hv, Hc.
  erewrite bind_run by (unfold lift; rewrite H1; reflexivity).
  erewrite bind_run by (unfold lift; rewrite H2; reflexivity).
  erewrite bind_run by apply Hredis. destruct (0 <=? _).
  - unfold now. erewrite bind_run by reflexivity. eexists _, _. reflexivity.
  - eexists _, _. reflexivity.
Qed.

(** C40: a log in that succeeds was made with the password of the account, stores
    exactly the token it returns, and the token is good for that user: as long
    as Redis keeps it, and nothing fails, validating it answers with the user id
    and the account that logged in. *)
Theorem login_then_validate acc password w resp w1
    (Hrun : Login sha256 what acc password w = (inr (Status_OK, resp), w1))
    (Hsucc : ar_success resp = true) :
  ∃ id r, t_users (w_db w) !! id = Some r ∧ u_account r = acc ∧ right_password password r ∧
    ar_user resp = Some (mkAuthUser id acc "" (u_nickname r)) ∧
    let v := to_string id +:+ "," +:+ to_string acc in
    r_strings (w_redis w1) = <[token_key (ar_token resp) := v]> (r_strings (w_redis w)) ∧
    (is_uint64 id → is_uint64 acc → ar_token resp ≠ "" →
      ∀ w2, w_faults w2 = [] → r_strings (w_redis w2) !! token_key (ar_token resp) = Some v →
      ∃ ex, (ValidateToken redis_TTL (ar_token resp) w2).1 =
        inr (Status_OK, mkValidateTokenResponse true id acc ex)).
Proof.
  unfold Login in Hrun. destruct (_ || _); [by apply ret_ok in Hrun as [[= <-] _]|].
  apply bind_ok in Hrun as (token & w2 & Ht & Hrun). injection Ht as <- <-.
  apply bind_ok in Hrun as (ex & w2 & He & Hrun). injection He as <- <-.
  apply bind_ok in Hrun as (r & w2 & Hr%catch_ok & Hrun).
  destruct r as [e|resp']; [by apply ret_ok in Hrun as [? _]|].
  apply ret_ok in Hrun as [[= ->] <-].
  apply login_task_ok in Hr as (id & r & Hid & Hacc & Hp & -> & Hst); [|done].
  exists id, r. split; [done|]. split; [done|]. split; [done|]. split; [done|]. cbn zeta.
  split; [exact Hst|]. cbn [ar_token]. intros Hu Ha Hne w3 Hf Hv. unfold ValidateToken.
  destruct (str_empty _) eqn:Es; [by destruct (w_uuid _ _)|].
  destruct (validate_run _ id acc w3 Hf Hu Ha Hv) as (ex & w4 & Hrun).
  exists ex. erewrite bind_run by (apply catch_run; exact Hrun). reflexivity.
Qed.
End auth.

(** * Witness *)

Definition auth_row : UserRow :=
  mkUserRow 1000000007 "ann" "" "616263" "c" (mkDatetime 2025 1 1 12 0 0) (mkDatetime 2025 1 1 12 0 0) None.
Definition auth_w0 : World := sample_world (set_users (λ _, <[5 := auth_row]> ∅) empty_db) [].
(** A digest that can be read: salt and password reversed in order. *)
Definition sample_sha256 (s : string) : string := if bool_decide (s = "cpw") then "abc" else s.
Definition auth_w1 : World := (Login sample_sha256 (λ _, "") 1000000007 "pw" auth_w0).2.
Definition auth_resp : AuthRegResponse :=
  mkAuthRegResponse true "" "" "uuid-" 1750604800 (Some (mkAuthUser 5 1000000007 "" "ann")).

Lemma login_then_validate_witness :
  ∃ ex, (ValidateToken (λ _ _, 60) "uuid-" auth_w1).1 =
    inr (Status_OK, mkValidateTokenResponse true 5 1000000007 ex).
Proof.
  destruct (login_then_validate sample_sha256 (λ _ _, 60) (λ _, "") 1000000007 "pw" auth_w0 auth_resp auth_w1)
    as (id & r & _ & _ & _ & Hu & Hst & Hv).
  - vm_compute. reflexivity.
  - reflexivity.
  - injection Hu as <- _. destruct (Hv ltac:(split; vm_compute; discriminate) ltac:(split; vm_compute; discriminate)
      ltac:(discriminate) auth_w1) as [ex Hex].
    + vm_compute. reflexivity.
    + vm_compute. reflexivity.
    + exists ex. exact Hex.
Defined.
