(* ===== verification/KafkaConsumer.v ===== *)
(** The Kafka consumer ([src/messagequeue/kafkaconsumer.cpp]): one lane of jobs per
    partition, a worker coroutine per lane that retries a job until it is handled
    and its offset committed, generations that outdate the jobs of a former
    assignment, back-pressure.

    The consume loop (with the rebalance callback, which runs inside [consume]) is
    one thread, every worker another: the system is a step relation, and a worker
    advances from one suspension point or shared access to the next. *)
From S2P Require Import Prelude.

(** * State *)

Record Job := mkJob {
  j_topic : string; j_payload : string; j_partition : Z; j_offset : Z; j_generation : Z;
}.

#[global] Instance Job_eq_dec : EqDecision Job.
Proof. solve_decision. Defined.

(** Where the coroutine [processPartition] is. *)
Inductive worker :=
| Outer                    (* the head of the outer loop *)
| Inner (job : Job)        (* the head of the inner loop *)
| Handling (job : Job)     (* [msgHandler->handle] is awaited *)
| Committing (job : Job)   (* between the check of the generation and [commitAsync] *)
| Sleeping (job : Job)     (* the second before the next attempt *)
| Finished.

Abbreviation lane_key := (string * Z)%type.

Record PartitionLane := mkLane {
  jobs : list Job; lane_worker : worker; paused : bool; pauseGeneration : Z;
}.

(** [handled] are the jobs whose handler has returned, [committed] those whose
    offset Kafka has accepted, [delivered] what [consume] has returned with a
    handler set; all newest first.  [assignment] and [stopped] are the
    assignment and the paused partitions at the broker. *)
Record KafkaConsumer := mkConsumer {
  generation_ : Z; lanes_ : gmap lane_key PartitionLane; running_ : bool;
  delivered : list Job; handled : list Job; committed : list Job;
  assignment : gset lane_key; stopped : gset lane_key;
}.

Definition new_consumer : KafkaConsumer := mkConsumer 0 ∅ true [] [] [] ∅ ∅.

Definition set_lane (k : lane_key) (l : PartitionLane) (c : KafkaConsumer) : KafkaConsumer :=
  mkConsumer (generation_ c) (<[k := l]> (lanes_ c)) (running_ c) (delivered c) (handled c)
    (committed c) (assignment c) (stopped c).

(** * Operations *)

Inductive rebalance := Assign (partitions : gset lane_key) | Revoke | RebalanceError.

Definition rebalance_cb (r : rebalance) (c : KafkaConsumer) : KafkaConsumer :=
  mkConsumer (to_uint64 (generation_ c + 1)) (lanes_ c) (running_ c) (delivered c) (handled c)
    (committed c)
    (match r with Assign p => p | Revoke => ∅ | RebalanceError => assignment c end) (stopped c).

(** [msg.err()] *)
Inductive msg_error := ErrNone | ErrTimedOut | ErrOther.

Record KafkaMessage := mkKafkaMessage {
  km_topic : string; km_partition : Z; km_offset : Z; km_payload : option string; km_err : msg_error;
}.

Definition new_lane : PartitionLane := mkLane [] Outer false 0.

(** The branch of a message without error; a handler and a pool are set. *)
Definition job_of (msg : KafkaMessage) (c : KafkaConsumer) : Job :=
  mkJob (km_topic msg) (default "" (km_payload msg)) (km_partition msg) (km_offset msg)
    (generation_ c).

Definition push_back (job : Job) (l : PartitionLane) : PartitionLane :=
  mkLane (jobs l ++ [job]) (lane_worker l) (paused l) (pauseGeneration l).

Definition consumeMsg (msg : KafkaMessage) (c : KafkaConsumer) : KafkaConsumer :=
  match km_err msg with
  | ErrNone =>
      let k := (km_topic msg, km_partition msg) in
      let lane := default new_lane (lanes_ c !! k) in
      let job := job_of msg c in
      mkConsumer (generation_ c) (<[k := push_back job lane]> (lanes_ c)) (running_ c)
        (job :: delivered c) (handled c) (committed c) (assignment c) (stopped c)
  | _ => c
  end.

Definition shutdown (c : KafkaConsumer) : KafkaConsumer :=
  mkConsumer (generation_ c) (lanes_ c) false (delivered c) (handled c) (committed c)
    (assignment c) (stopped c).

(** [updateBackpressure] on one lane; [ok] is whether [pause] or [resume]
    succeeds.  The second result is the partition's new state at the broker. *)
Definition throttle (gen : Z) (ok : bool) (l : PartitionLane) : PartitionLane * option bool :=
  let l := if pauseGeneration l =? gen then l else mkLane (jobs l) (lane_worker l) false gen in
  let n := Z.of_nat (length (jobs l)) in
  if negb (paused l) && (128 <=? n)
  then (if ok then mkLane (jobs l) (lane_worker l) true (pauseGeneration l) else l,
        if ok then Some true else None)
  else if paused l && (n <=? 64)
  then (if ok then mkLane (jobs l) (lane_worker l) false (pauseGeneration l) else l,
        if ok then Some false else None)
  else (l, None).

(** The loop over the lanes, [ok] by lane. *)
Definition updateBackpressure (ok : lane_key → bool) (c : KafkaConsumer) : KafkaConsumer :=
  let pass := map_imap (λ k l, Some (throttle (generation_ c) (ok k) l)) (lanes_ c) in
  let told b := dom (filter (λ p, p.2.2 = Some b) pass) in
  mkConsumer (generation_ c) (fst <$> pass) (running_ c) (delivered c) (handled c) (committed c)
    (assignment c) ((stopped c ∪ told true) ∖ told false).

(** [processPartition], from one step to the next; [ok] is the outcome of what it
    waits for: the handler, or [commitAsync]. *)
Definition at_worker (w : worker) (l : PartitionLane) : PartitionLane :=
  mkLane (jobs l) w (paused l) (pauseGeneration l).

Definition current (job : Job) (c : KafkaConsumer) : bool :=
  running_ c && (j_generation job =? generation_ c).

Definition log_handled (job : Job) (c : KafkaConsumer) : KafkaConsumer :=
  mkConsumer (generation_ c) (lanes_ c) (running_ c) (delivered c) (job :: handled c)
    (committed c) (assignment c) (stopped c).
Definition log_committed (job : Job) (c : KafkaConsumer) : KafkaConsumer :=
  mkConsumer (generation_ c) (lanes_ c) (running_ c) (delivered c) (handled c)
    (job :: committed c) (assignment c) (stopped c).

Definition processPartition (k : lane_key) (l : PartitionLane) (ok : bool) (c : KafkaConsumer)
    : KafkaConsumer :=
  let goto w c := set_lane k (at_worker w l) c in
  match lane_worker l with
  | Outer =>
      if running_ c then
        match jobs l with
        | [] => c
        | job :: rest => set_lane k (mkLane rest (Inner job) (paused l) (pauseGeneration l)) c
        end
      else goto Finished c
  | Inner job => if current job c then goto (Handling job) c else goto Outer c
  | Handling job =>
      if ok then
        let c := log_handled job c in
        if current job c then goto (Committing job) c else goto Outer c
      else goto (Sleeping job) c
  | Committing job => if ok then goto Outer (log_committed job c) else goto (Sleeping job) c
  | Sleeping job => goto (Inner job) c
  | Finished => c
  end.

(** * The system *)

Definition lane_of (j : Job) : lane_key := (j_topic j, j_partition j).

(** Two jobs of one partition in one assignment. *)
Definition peers (a b : Job) : Prop :=
  lane_of a = lane_of b ∧ j_generation a = j_generation b.

(** Within one assignment Kafka returns the messages of a partition in the order of
    their offsets. *)
Definition in_order (msg : KafkaMessage) (c : KafkaConsumer) : Prop :=
  km_err msg = ErrNone →
  ∀ j, j ∈ delivered c → peers j (job_of msg c) → j_offset j < km_offset msg.

Inductive step (c : KafkaConsumer) : KafkaConsumer → Prop :=
| step_rebalance r : step c (rebalance_cb r c)
| step_consume msg : in_order msg c → step c (consumeMsg msg c)
| step_backpressure ok : step c (updateBackpressure ok c)
| step_shutdown : step c (shutdown c)
| step_worker k l ok : lanes_ c !! k = Some l → step c (processPartition k l ok c).

(** * The invariant *)

(** The job a worker holds. *)
Definition held (w : worker) : list Job :=
  match w with
  | Inner j | Handling j | Committing j | Sleeping j => [j]
  | Outer | Finished => []
  end.

Definition pending (l : PartitionLane) : list Job := held (lane_worker l) ++ jobs l.

Definition later (a b : Job) : Prop := j_generation a = j_generation b → j_offset a < j_offset b.

(** Every earlier job of the same assignment has been handled. *)
Definition earlier_handled (c : KafkaConsumer) (j : Job) : Prop :=
  ∀ i, i ∈ delivered c → peers i j → j_offset i < j_offset j → i ∈ handled c.

Record lane_ok (c : KafkaConsumer) (k : lane_key) (l : PartitionLane) : Prop := {
  lo_key j : j ∈ pending l → lane_of j = k ∧ j ∈ delivered c;
  lo_order : StronglySorted later (pending l);
  (* what has been delivered under the present assignment is handled or waits *)
  lo_kept i : running_ c = true → i ∈ delivered c → lane_of i = k →
    j_generation i = generation_ c → i ∈ handled c ∨ i ∈ pending l;
  lo_now j : lane_worker l = Handling j → earlier_handled c j;
  lo_done j : lane_worker l = Committing j → earlier_handled c j ∧ j ∈ handled c;
}.

Record consumer_ok (n : nat) (c : KafkaConsumer) : Prop := {
  co_gen : 0 <= generation_ c <= Z.of_nat n;
  co_old j : j ∈ delivered c → j_generation j <= generation_ c;
  co_lane k l : lanes_ c !! k = Some l → lane_ok c k l;
  co_one i j : i ∈ delivered c → j ∈ delivered c → peers i j → j_offset i = j_offset j → i = j;
  co_has j : j ∈ delivered c → is_Some (lanes_ c !! lane_of j);
  co_committed j : j ∈ committed c → j ∈ delivered c ∧ j ∈ handled c ∧ earlier_handled c j;
}.

Lemma consumer_ok_new : consumer_ok 0 new_consumer.
Proof. split; cbn; try done; set_solver. Qed.

(** ** Each step keeps it *)

(** A lane's facts depend on few parts of the consumer. *)
Lemma lane_ok_mono c c' k l :
  lane_ok c k l →
  (∀ j, j ∈ delivered c → j ∈ delivered c') →
  (∀ j, j ∈ handled c → j ∈ handled c') →
  (∀ i j, i ∈ delivered c' → i ∉ delivered c → j ∈ delivered c → peers i j →
    j_offset j < j_offset i) →
  (∀ i, running_ c' = true → i ∈ delivered c' → lane_of i = k →
    j_generation i = generation_ c' → i ∈ handled c' ∨ i ∈ pending l) →
  lane_ok c' k l.
Proof.
  intros [Hkey Hord _ Hnow Hdone] Hdel Hhan Hnew Hkept.
  assert (Hearly : ∀ j, j ∈ delivered c → earlier_handled c j → earlier_handled c' j).
  { intros j Hj He i Hi Hp Ho. destruct (decide (i ∈ delivered c)) as [Hin|Hin]; [by apply Hhan, He|].
    specialize (Hnew i j Hi Hin Hj Hp). lia. }
  assert (Hheld : ∀ j, held (lane_worker l) = [j] → j ∈ delivered c).
  { intros j Hj. apply Hkey. unfold pending. rewrite Hj. cbn. by left. }
  split; [|exact Hord|exact Hkept| |].
  - intros j Hj. destruct (Hkey j Hj). auto.
  - intros j Hw. apply Hearly; [apply Hheld; by rewrite Hw|by apply Hnow].
  - intros j Hw. destruct (Hdone j Hw). split; [|auto].
    apply Hearly; [apply Hheld; by rewrite Hw|done].
Qed.

Lemma earlier_handled_mono c c' j :
  earlier_handled c j → delivered c' = delivered c → (∀ i, i ∈ handled c → i ∈ handled c') →
  earlier_handled c' j.
Proof. intros H Hd Hh i Hi Hp Ho. rewrite Hd in Hi. by apply Hh, H. Qed.

Lemma rebalance_ok n c r :
  Z.of_nat (S n) < 2 ^ 64 → consumer_ok n c → consumer_ok (S n) (rebalance_cb r c).
Proof.
  intros Hn [Hgen Hold Hlane Hone Hhas Hcom].
  assert (Hnext : generation_ (rebalance_cb r c) = generation_ c + 1).
  { cbn. apply to_uint64_id. unfold is_uint64, uint64_max. lia. }
  split; [rewrite Hnext; lia| | |done|done|done].
  - intros j Hj. rewrite Hnext. specialize (Hold j Hj). lia.
  - intros k l Hl. apply (lane_ok_mono c); [by apply Hlane|done|done|done|].
    intros i _ Hi _ Hg. rewrite Hnext in Hg. specialize (Hold i Hi). lia.
Qed.

(** *** A new job *)

(** The consumer after a message without error. *)
Definition consumed (msg : KafkaMessage) (l : PartitionLane) (c : KafkaConsumer) : KafkaConsumer :=
  mkConsumer (generation_ c) (<[(km_topic msg, km_partition msg) := l]> (lanes_ c)) (running_ c)
    (job_of msg c :: delivered c) (handled c) (committed c) (assignment c) (stopped c).

Definition fresh_job (j : Job) (c : KafkaConsumer) : Prop :=
  ∀ i, i ∈ delivered c → peers j i → j_offset i < j_offset j.

Lemma earlier_handled_fresh c c' job j :
  earlier_handled c j → j ∈ delivered c → fresh_job job c →
  delivered c' = job :: delivered c → handled c' = handled c → earlier_handled c' j.
Proof.
  intros He Hj Hf Hd Hh i. rewrite Hd, Hh. intros [->|Hi]%elem_of_cons Hp Ho; [|by apply He].
  specialize (Hf j Hj Hp). lia.
Qed.

Lemma pending_push job l : pending (push_back job l) = pending l ++ [job].
Proof. unfold pending. cbn. by rewrite app_assoc. Qed.

(** A lane that does not exist yet is as good as an empty one. *)
Lemma lane_or_new c n k :
  consumer_ok n c → lane_ok c k (default new_lane (lanes_ c !! k)).
Proof.
  intros Hok. destruct (lanes_ c !! k) as [l|] eqn:Hl; cbn; [by eapply co_lane|].
  split; [|constructor| |done|done].
  - intros j Hj%elem_of_nil. done.
  - intros i _ Hi Hk. destruct (co_has _ _ Hok i Hi) as [x Hx]. congruence.
Qed.

Lemma push_ok c msg l :
  let k := (km_topic msg, km_partition msg) in
  let job := job_of msg c in
  fresh_job job c → lane_ok c k l → lane_ok (consumed msg (push_back job l) c) k (push_back job l).
Proof.
  intros k job Hf [Hkey Hord Hkept Hnow Hdone].
  assert (Hheld : ∀ j, held (lane_worker l) = [j] → j ∈ delivered c).
  { intros j Hj. apply Hkey. unfold pending. rewrite Hj. cbn. by left. }
  split; rewrite ?pending_push; cbn [push_back lane_worker].
  - intros j [Hj|Hj]%elem_of_app.
    + destruct (Hkey j Hj). split; [done|by right].
    + apply list_elem_of_singleton in Hj as ->. split; [done|by left].
  - apply StronglySorted_app_2; [|done|by repeat constructor].
    + intros x y Hx Hy Hg. apply list_elem_of_singleton in Hy as ->.
      destruct (Hkey x Hx) as [Hk Hd]. apply Hf; [done|]. split; [by rewrite Hk|done].
  - intros i Hr [->|Hi]%elem_of_cons Hki Hg.
    + right. apply elem_of_app. right. by left.
    + destruct (Hkept i Hr Hi Hki Hg); [by left|]. right. apply elem_of_app. by left.
  - intros j Hw. eapply earlier_handled_fresh; [by apply Hnow|apply Hheld; by rewrite Hw|done..].
  - intros j Hw. destruct (Hdone j Hw). split; [|done].
    eapply earlier_handled_fresh; [done|apply Hheld; by rewrite Hw|done..].
Qed.

Lemma consumed_ok n c msg l :
  let k := (km_topic msg, km_partition msg) in
  consumer_ok n c → fresh_job (job_of msg c) c → lane_ok (consumed msg l c) k l →
  consumer_ok n (consumed msg l c).
Proof.
  intros k [Hgen Hold Hlane Hone Hhas Hcom] Hf Hl.
  split; cbn [consumed generation_ delivered lanes_ handled committed]; [done| | | | |].
  - intros j [->|Hj]%elem_of_cons; [done|by apply Hold].
  - intros k0 l0 [[<- <-]|[Hne Hl0]]%lookup_insert_Some; [done|].
    apply (lane_ok_mono c); [by apply Hlane|by right|done| |].
    + intros i j [->|Hi]%elem_of_cons Hni Hj Hp; [by apply Hf|done].
    + intros i Hr [->|Hi]%elem_of_cons Hki Hg; [done|].
      by apply (lo_kept _ _ _ (Hlane _ _ Hl0)).
  - intros i j [->|Hi]%elem_of_cons [->|Hj]%elem_of_cons Hp Ho; [done| | |by apply Hone].
    + specialize (Hf j Hj Hp). lia.
    + destruct Hp. specialize (Hf i Hi ltac:(by split)). lia.
  - intros j [->|Hj]%elem_of_cons.
    + exists l. apply lookup_insert_eq.
    + destruct (decide (k = lane_of j)) as [<-|Hne]; [exists l; apply lookup_insert_eq|].
      rewrite lookup_insert_ne by done. by apply Hhas.
  - intros j Hj. destruct (Hcom j Hj) as (Hd & Hh & He). split; [by right|]. split; [done|].
    by eapply earlier_handled_fresh.
Qed.

Lemma consume_ok n c msg :
  consumer_ok n c → in_order msg c → consumer_ok n (consumeMsg msg c).
Proof.
  intros Hok Hin. unfold consumeMsg, in_order in *. destruct (km_err msg); [|done..].
  assert (Hf : fresh_job (job_of msg c) c).
  { intros j Hj [Hp1 Hp2]. by apply Hin; [| |split]. }
  apply consumed_ok; [done|done|]. apply push_ok; [done|]. by apply lane_or_new with n.
Qed.

(** *** The other steps of the consume thread *)

Lemma lane_ok_same c c' k l l' :
  lane_ok c k l → jobs l' = jobs l → lane_worker l' = lane_worker l →
  delivered c' = delivered c → handled c' = handled c → generation_ c' = generation_ c →
  (running_ c' = true → running_ c = true) → lane_ok c' k l'.
Proof.
  intros [Hkey Hord Hkept Hnow Hdone] Hj Hw Hd Hh Hg Hr.
  assert (Hp : pending l' = pending l) by (unfold pending; by rewrite Hj, Hw).
  assert (He : ∀ j, earlier_handled c j → earlier_handled c' j)
    by (intros j; unfold earlier_handled; by rewrite Hd, Hh).
  split; rewrite ?Hp, ?Hw, ?Hd, ?Hh, ?Hg; [done|done| | |].
  - intros i Hr'. apply Hkept. by apply Hr.
  - intros j Hjw. by apply He, Hnow.
  - intros j Hjw. destruct (Hdone j Hjw). split; [by apply He|done].
Qed.

Lemma throttle_same gen ok l :
  jobs (throttle gen ok l).1 = jobs l ∧ lane_worker (throttle gen ok l).1 = lane_worker l.
Proof. unfold throttle. by repeat case_match. Qed.

Lemma throttled_lookup ok c k :
  lanes_ (updateBackpressure ok c) !! k =
    (λ l, (throttle (generation_ c) (ok k) l).1) <$> lanes_ c !! k.
Proof. cbn. rewrite lookup_fmap, map_lookup_imap. by destruct (lanes_ c !! k). Qed.

Lemma backpressure_ok n c ok : consumer_ok n c → consumer_ok n (updateBackpressure ok c).
Proof.
  intros [Hgen Hold Hlane Hone Hhas Hcom]. split; [done|done| |done| |done].
  - intros k l Hl. rewrite throttled_lookup in Hl.
    destruct (lanes_ c !! k) as [l0|] eqn:Hl0; [|done]. cbn in Hl. injection Hl as <-.
    destruct (throttle_same (generation_ c) (ok k) l0).
    by apply (lane_ok_same c _ k l0); [apply Hlane|..].
  - intros j Hj. rewrite throttled_lookup. destruct (Hhas j Hj) as [l ->]. by eexists.
Qed.

Lemma shutdown_ok n c : consumer_ok n c → consumer_ok n (shutdown c).
Proof.
  intros [Hgen Hold Hlane Hone Hhas Hcom]. split; [done|done| |done|done|done].
  intros k l Hl. by apply (lane_ok_same c _ k l); [apply Hlane|..].
Qed.

(** *** A worker *)

Lemma set_lane_ok n c k l l' :
  consumer_ok n c → lanes_ c !! k = Some l → lane_ok c k l' → consumer_ok n (set_lane k l' c).
Proof.
  intros [Hgen Hold Hlane Hone Hhas Hcom] Hl Hl'. split; [done|done| |done| |done].
  - intros k0 l0 Hl0. cbn in Hl0. apply lookup_insert_Some in Hl0 as [[<- <-]|[Hne Hl0]].
    + by apply (lane_ok_same c _ k l').
    + by apply (lane_ok_same c _ k0 l0); [apply Hlane|..].
  - intros j Hj. cbn. destruct (decide (k = lane_of j)) as [<-|Hne];
      [exists l'; apply lookup_insert_eq|].
    rewrite lookup_insert_ne by done. by apply Hhas.
Qed.

Lemma log_handled_ok n c j : consumer_ok n c → consumer_ok n (log_handled j c).
Proof.
  intros [Hgen Hold Hlane Hone Hhas Hcom]. split; [done|done| |done|done|].
  - intros k l Hl. apply (lane_ok_mono c); [by apply Hlane|done|by right|done|].
    intros i Hr Hi Hk Hg. destruct (lo_kept _ _ _ (Hlane k l Hl) i Hr Hi Hk Hg);
      [left; by right|by right].
  - intros i Hi. destruct (Hcom i Hi) as (Hd & Hh & He). split; [done|]. split; [by right|].
    by apply (earlier_handled_mono c); [..|by right].
Qed.

Lemma log_committed_ok n c j :
  consumer_ok n c → j ∈ delivered c → j ∈ handled c → earlier_handled c j →
  consumer_ok n (log_committed j c).
Proof.
  intros [Hgen Hold Hlane Hone Hhas Hcom] Hd Hh He. split; [done|done| |done|done|].
  - intros k l Hl. by apply (lane_ok_same c _ k l); [apply Hlane|..].
  - intros i [->|Hi]%elem_of_cons; [done|by apply Hcom].
Qed.

(** The worker moves on without the job it held: nothing of the present
    assignment is lost. *)
Lemma release_ok c k l j :
  lane_ok c k l → held (lane_worker l) = [j] →
  (current j c = false ∨ j ∈ handled c) → lane_ok c k (at_worker Outer l).
Proof.
  intros [Hkey Hord Hkept _ _] Hw Hj. unfold pending in *. rewrite Hw in *.
  split; [| | |done|done].
  - intros i Hi. apply Hkey. cbn. by right.
  - cbn. by inversion Hord.
  - intros i Hr Hi Hk Hg. destruct (Hkept i Hr Hi Hk Hg) as [Hi'|[->|Hi']%elem_of_cons];
      [by left| |by right].
    destruct Hj as [Hj|Hj]; [|by left]. unfold current in Hj.
    rewrite Hr, Hg, Z.eqb_refl in Hj. done.
Qed.

(** The worker keeps the job it holds. *)
Lemma keep_ok c k l j w :
  lane_ok c k l → held (lane_worker l) = [j] → held w = [j] →
  (w = Handling j → earlier_handled c j) →
  (w = Committing j → earlier_handled c j ∧ j ∈ handled c) → lane_ok c k (at_worker w l).
Proof.
  intros [Hkey Hord Hkept _ _] Hl Hw Hnow Hdone.
  assert (Hp : pending (at_worker w l) = pending l) by (unfold pending; cbn; by rewrite Hl, Hw).
  split; rewrite ?Hp; [done|done|done| |]; cbn; intros i ->;
    injection Hw as ->; auto.
Qed.

(** The head of the inner loop: the job is the first of the assignment that is not
    handled. *)
Lemma inner_earlier c k l j :
  lane_ok c k l → lane_worker l = Inner j → current j c = true → earlier_handled c j.
Proof.
  intros [Hkey Hord Hkept _ _] Hw [Hr Hg%Z.eqb_eq]%andb_prop. unfold pending in *. rewrite Hw in *.
  assert (Hk : lane_of j = k) by (apply Hkey; by left).
  intros i Hi [Hp1 Hp2] Ho.
  destruct (Hkept i Hr Hi ltac:(congruence) ltac:(congruence)) as [|[->|Hin]%elem_of_cons];
    [done|lia|].
  inversion Hord as [|? ? _ Hall]; subst. rewrite Forall_forall in Hall.
  specialize (Hall i Hin (eq_sym Hp2)). lia.
Qed.

Lemma worker_ok n c k l ok :
  consumer_ok n c → lanes_ c !! k = Some l → consumer_ok n (processPartition k l ok c).
Proof.
  intros Hok Hl. pose proof (co_lane _ _ Hok k l Hl) as Hlane.
  unfold processPartition. destruct (lane_worker l) as [|j|j|j|j|] eqn:Hw; [| | | | |done].
  - destruct (running_ c) eqn:Hr.
    + destruct (jobs l) as [|j rest] eqn:Hj; [done|].
      apply (set_lane_ok n c k l); [done..|].
      destruct Hlane as [Hkey Hord Hkept _ _]. unfold pending in *. rewrite Hw, Hj in *.
      by split.
    + apply (set_lane_ok n c k l); [done..|]. destruct Hlane as [Hkey Hord Hkept _ _].
      unfold pending in *. rewrite Hw in *. by split.
  - pose proof (inner_earlier c k l j Hlane Hw) as He.
    destruct (current j c) eqn:Hc; apply (set_lane_ok n c k l); try done.
    + apply (keep_ok c k l j); [done|by rewrite Hw|done|by auto|done].
    + apply (release_ok c k l j); [done|by rewrite Hw|by left].
  - destruct ok.
    + assert (Hok' : consumer_ok n (log_handled j c)) by by apply log_handled_ok.
      pose proof (co_lane _ _ Hok' k l Hl) as Hlane'.
      destruct (current j (log_handled j c)) eqn:Hc; apply (set_lane_ok n _ k l); try done.
      * apply (keep_ok _ k l j); [done|by rewrite Hw|done|done|].
        intros _. split; [|by left]. by apply (lo_now _ _ _ Hlane').
      * apply (release_ok _ k l j); [done|by rewrite Hw|by left].
    + apply (set_lane_ok n c k l); [done..|]. by apply (keep_ok c k l j); [done|rewrite Hw|..].
  - destruct (lo_done _ _ _ Hlane j Hw) as [He Hh].
    assert (Hd : j ∈ delivered c).
    { apply (lo_key _ _ _ Hlane). unfold pending. rewrite Hw. by left. }
    destruct ok.
    + apply (set_lane_ok n _ k l); [by apply log_committed_ok|done|].
      apply (release_ok _ k l j); [|by rewrite Hw|by right].
      by apply (lane_ok_same c _ k l).
    + apply (set_lane_ok n c k l); [done..|]. by apply (keep_ok c k l j); [done|rewrite Hw|..].
  - apply (set_lane_ok n c k l); [done..|]. by apply (keep_ok c k l j); [done|rewrite Hw|..].
Qed.

(** ** Every run *)

Lemma step_ok n c c' :
  Z.of_nat (S n) < 2 ^ 64 → consumer_ok n c → step c c' → consumer_ok (S n) c'.
Proof.
  intros Hn Hok Hstep.
  assert (Hmono : ∀ c, consumer_ok n c → consumer_ok (S n) c).
  { intros c0 []. split; [lia|done..]. }
  destruct Hstep.
  - by apply rebalance_ok.
  - by apply Hmono, consume_ok.
  - by apply Hmono, backpressure_ok.
  - by apply Hmono, shutdown_ok.
  - by apply Hmono, worker_ok.
Qed.

Lemma run_consumer_ok n c :
  Z.of_nat n < 2 ^ 64 → nsteps step n new_consumer c → consumer_ok n c.
Proof.
  revert c. induction n as [|n IH]; intros c Hn Hrun.
  - inversion Hrun; subst. apply consumer_ok_new.
  - apply nsteps_inv_r in Hrun as (c0 & Hrun & Hstep).
    apply (step_ok n c0); [done| |done]. apply IH; [lia|done].
Qed.

(** * Committed offsets *)

(** C29: A committed offset covers handled messages only.  In any interleaving of the
    consume loop, rebalances, shutdown and the workers of all lanes (of fewer than
    2^64 steps, so that the generation counter does not wrap), with handlers and
    commits that fail and are retried in any way: when Kafka has accepted the
    offset after [j], every message of that partition delivered in the same
    assignment up to [j] has been handled.  A crash after the commit loses none. *)
Theorem commit_covers_handled n c i j :
  Z.of_nat n < 2 ^ 64 → nsteps step n new_consumer c →
  j ∈ committed c → i ∈ delivered c → peers i j → j_offset i <= j_offset j →
  i ∈ handled c.
Proof.
  intros Hn Hrun Hj Hi Hp Ho. pose proof (run_consumer_ok n c Hn Hrun) as Hok.
  destruct (co_committed _ _ Hok j Hj) as (Hd & Hh & He).
  destruct (decide (j_offset i = j_offset j)) as [Heq|Hne].
  - by rewrite (co_one _ _ Hok i j Hi Hd Hp Heq).
  - apply He; [done..|lia].
Qed.

(** Two messages of one partition; the first is handled at the second attempt. *)
Definition sample_msg (offset : Z) : KafkaMessage :=
  mkKafkaMessage "message" 3 offset (Some "id") ErrNone.
Definition sample_job (offset : Z) : Job := mkJob "message" "id" 3 offset 1.
Definition sample_key : lane_key := ("message", 3).

Definition at_lane (ok : bool) (c : KafkaConsumer) : KafkaConsumer :=
  match lanes_ c !! sample_key with Some l => processPartition sample_key l ok c | None => c end.

Definition sample_start : KafkaConsumer :=
  consumeMsg (sample_msg 8) (consumeMsg (sample_msg 7) (rebalance_cb (Assign {[sample_key]}) new_consumer)).
Definition sample_run (oks : list bool) : KafkaConsumer := foldl (λ c ok, at_lane ok c) sample_start oks.
Definition sample_oks : list bool :=
  [true; true; false; true; true; true; true; true; true; true; true].

Lemma sample_run_steps oks :
  lanes_ sample_start !! sample_key = Some (mkLane [sample_job 7; sample_job 8] Outer false 0) →
  ∃ n, (n <= 3 + length oks)%nat ∧ nsteps step n new_consumer (sample_run oks).
Proof.
  intros _. unfold sample_run.
  assert (H3 : nsteps step 3 new_consumer sample_start).
  { apply nsteps_l with (rebalance_cb (Assign {[sample_key]}) new_consumer); [constructor|].
    apply nsteps_l with (consumeMsg (sample_msg 7) (rebalance_cb (Assign {[sample_key]}) new_consumer)).
    - constructor. intros _ j Hj%elem_of_nil. done.
    - apply nsteps_once. constructor. intros _ j [->|Hj%elem_of_nil]%elem_of_cons _; [done|done]. }
  induction oks as [|ok oks IH] using rev_ind; [by exists 3%nat|].
  destruct IH as (n & Hn & Hrun). rewrite foldl_app, length_app. cbn.
  set (c := foldl _ _ _) in *. unfold at_lane.
  destruct (lanes_ c !! sample_key) as [l|] eqn:Hl; [|exists n; split; [lia|done]].
  exists (S n). split; [lia|]. apply nsteps_r with c; [done|by constructor].
Qed.

Lemma commit_covers_handled_witness :
  committed (sample_run sample_oks) = [sample_job 8; sample_job 7] ∧
  sample_job 7 ∈ handled (sample_run sample_oks).
Proof.
  assert (Hc : committed (sample_run sample_oks) = [sample_job 8; sample_job 7])
    by (vm_compute; reflexivity).
  assert (Hd : delivered (sample_run sample_oks) = [sample_job 8; sample_job 7])
    by (vm_compute; reflexivity).
  split; [exact Hc|].
  destruct (sample_run_steps sample_oks) as (n & Hn & Hrun); [vm_compute; reflexivity|].
  apply (commit_covers_handled n _ (sample_job 7) (sample_job 8)).
  - cbn in Hn. lia.
  - exact Hrun.
  - rewrite Hc. by left.
  - rewrite Hd. right. by left.
  - by split.
  - done.
Defined.
