(* ===== verification/Gateway.v ===== *)
(** The gateway's sessions: the map from accounts to sessions
    ([src/gateway/ws_session_manager.cpp]), the write queue and the clean-up of a
    session ([src/gateway/ws_session.cpp]), and the service through which other
    processes push to a user ([src/services/gateway_push_service]).

    A session is a number, the identity of its object.  What the code posts to a
    session's executor is run at once: it touches that session only. *)
From S2P Require Import Prelude Table Snowflake Schema Effects Users Stores Conversations.

Definition set_conns (f : gmap nat WSSession → gmap nat WSSession) (g : Gateway) : Gateway :=
  mkGateway (f (g_conns g)) (sessions_ g) (WsConnectionsActive g).

(** An operation on the gateway's memory. *)
Definition gateway {A} (op : Gateway → A * Gateway) : M A := λ w,
  let '(a, g) := op (w_gateway w) in (inr a, with_gateway g w).

(** * WSSessionManager *)

Definition onlineAccounts (g : Gateway) : list Z := fst <$> map_to_list (sessions_ g).

Definition hasSession (account : Z) (g : Gateway) : bool :=
  bool_decide (is_Some (sessions_ g !! account)).

Definition registerSession (account : Z) (session : nat) (g : Gateway) : Gateway :=
  let isReplacing := hasSession account g in
  mkGateway (g_conns g) (<[account := session]> (sessions_ g))
    (if isReplacing then WsConnectionsActive g else WsConnectionsActive g + 1).

(** The session is only removed if it is still the account's session. *)
Definition unregisterSession (account : Z) (session : nat) (g : Gateway) : bool * Gateway :=
  if bool_decide (sessions_ g !! account = Some session)
  then (true, mkGateway (g_conns g) (delete account (sessions_ g)) (WsConnectionsActive g - 1))
  else (false, g).

(** * One session *)

Definition new_session : WSSession := mkWSSession 0 false None ∅ true [].

(** [WebServer::listener]: a new connection has a session of its own. *)
Definition accept : M nat :=
  gateway (λ g, let s := fresh (dom (g_conns g)) in (s, set_conns <[s := new_session]> g)).

(** The object; a session that does not exist any more is a closed one. *)
Definition gone : WSSession := mkWSSession 0 true None ∅ false [].
Definition conn (s : nat) (g : Gateway) : WSSession := default gone (g_conns g !! s).

Definition session (s : nat) : M WSSession := gateway (λ g, (conn s g, g)).
Definition modify (f : WSSession → WSSession) (s : nat) : M unit :=
  gateway (λ g, (tt, set_conns (alter f s) g)).

Definition set_account (a : Z) (x : WSSession) : WSSession :=
  mkWSSession a (disconnected_ x) (write_queue_ x) (pendingOfflineMsgs_ x) (s_socket x) (s_wire x).
Definition set_queue (q : option (list SdkWSResp)) (x : WSSession) : WSSession :=
  mkWSSession (account_ x) (disconnected_ x) q (pendingOfflineMsgs_ x) (s_socket x) (s_wire x).
Definition set_pending (f : gmap string (Z * string) → gmap string (Z * string)) (x : WSSession)
    : WSSession :=
  mkWSSession (account_ x) (disconnected_ x) (write_queue_ x) (f (pendingOfflineMsgs_ x))
    (s_socket x) (s_wire x).
Definition set_wire (f : list SdkWSResp → list SdkWSResp) (x : WSSession) : WSSession :=
  mkWSSession (account_ x) (disconnected_ x) (write_queue_ x) (pendingOfflineMsgs_ x)
    (s_socket x) (f (s_wire x)).

(** [beast::get_lowest_layer(ws_).close], [ws_.async_close] *)
Definition close_socket (x : WSSession) : WSSession :=
  mkWSSession (account_ x) (disconnected_ x) (write_queue_ x) (pendingOfflineMsgs_ x)
    false (s_wire x).

(** The synchronous part of [onDisconnect]. *)
Definition disconnect (x : WSSession) : WSSession :=
  mkWSSession (account_ x) true (write_queue_ x) ∅ false (s_wire x).

Definition online_key (account : Z) : string := "user:" +:+ to_string account +:+ ":online".

(** A [setex] whose exception is logged. *)
Definition set_online (account : Z) (value : string) : M unit :=
  catch (redis_setex (online_key account) value);; mret tt.

Definition onDisconnect (s : nat) : M unit :=
  x ← session s;
  if disconnected_ x then mret tt
  else
    modify disconnect s;;
    if account_ x =? 0 then mret tt
    else
      isActive ← gateway (unregisterSession (account_ x) s);
      if negb isActive then mret tt else set_online (account_ x) "0".

(** [ws_.async_write]: whether it succeeded. *)
Definition ws_write (s : nat) (frame : SdkWSResp) : M bool :=
  r ← catch (remote StoreError (λ w,
        if s_socket (conn s (w_gateway w))
        then inr (tt, with_gateway (set_conns (alter (set_wire (λ l, l ++ [frame])) s) (w_gateway w)) w)
        else inl (StoreError 0)));
  mret (match r with inr _ => true | inl _ => false end).

(** ** The write queue *)

Definition startWriteQueue (s : nat) : M unit := modify (set_queue (Some [])) s.

(** [try_send] on a channel of capacity 256; a session that is disconnected has
    closed its channel. *)
Definition try_send (frame : SdkWSResp) (x : WSSession) : option WSSession :=
  match write_queue_ x with
  | Some q =>
      if negb (disconnected_ x) && (Z.of_nat (length q) <? 256)
      then Some (set_queue (Some (q ++ [frame])) x) else None
  | None => None
  end.

Definition asyncSend (s : nat) (frame : SdkWSResp) : M unit :=
  x ← session s;
  if disconnected_ x then mret tt
  else match try_send frame x with
       | Some x' => modify (λ _, x') s
       | None => onDisconnect s
       end.

Definition operation_aborted : exn := RuntimeError "operation_aborted".

Definition queuedWrite (s : nat) (frame : SdkWSResp) : M unit :=
  x ← session s;
  match try_send frame x with
  | Some x' => modify (λ _, x') s
  | None => onDisconnect s;; throw operation_aborted
  end.

(** One turn of the loop of [doDrainWriteQueue]. *)
Definition doDrainWriteQueue (s : nat) : M unit :=
  x ← session s;
  match write_queue_ x with
  | Some (frame :: q) =>
      if disconnected_ x then mret tt
      else
        modify (set_queue (Some q)) s;;
        ok ← ws_write s frame;
        if (ok : bool) then mret tt else onDisconnect s
  | _ => mret tt
  end.

(** ** WSSessionManager::pushToUser *)

Definition pushToUser (account : Z) (frame : SdkWSResp) : M bool :=
  found ← gateway (λ g, (sessions_ g !! account, g));
  match found with
  | None => mret false
  | Some s => asyncSend s frame;; mret true
  end.

(** * Remote procedure calls *)

(** A unary gRPC call: a lost request, a lost reply, an expired deadline and a
    server that dies are all a status that is not OK; the reply is only there if
    the status is OK. *)
Definition rpc {A} (call : M (grpc_status * A)) (none : A) : M (grpc_status * A) := λ w,
  let unavailable c := (Status "UNAVAILABLE" c, none) in
  match remote (λ _, RuntimeError "rpc") (λ w, inr (tt, w)) w with
  | (inl _, w') => (inr (unavailable "connection"), w')
  | (inr _, w') =>
      match catch call w' with
      | (inl e, w1) => (inl e, w1)
      | (inr (inl _), w1) => (inr (unavailable "stream"), w1)
      | (inr (inr (st, reply)), w1) =>
          match remote (λ _, RuntimeError "rpc") (λ w, inr (tt, w)) w1 with
          | (inl _, w2) => (inr (unavailable "deadline"), w2)
          | (inr _, w2) => (inr (st, match st with Status_OK => reply | _ => none end), w2)
          end
      end
  end.

(** * GatewayPushService *)

(** [sdkws::SdkWSResp] with the fields that are set. *)
Definition frame_of (type account : Z) : SdkWSResp := mkSdkWSResp "" "" account "" "" "" "" type.
Definition with_data (data : string) (f : SdkWSResp) : SdkWSResp :=
  mkSdkWSResp (ws_requestId f) (ws_token f) (ws_account f) (ws_deviceID f) (ws_errorCode f)
    (ws_errorMsg f) data (ws_type f).
Definition with_result (code msg : string) (f : SdkWSResp) : SdkWSResp :=
  mkSdkWSResp (ws_requestId f) (ws_token f) (ws_account f) (ws_deviceID f) code msg (ws_data f)
    (ws_type f).
Definition with_request (id : string) (f : SdkWSResp) : SdkWSResp :=
  mkSdkWSResp id (ws_token f) (ws_account f) (ws_deviceID f) (ws_errorCode f) (ws_errorMsg f)
    (ws_data f) (ws_type f).
Definition with_device (token device : string) (f : SdkWSResp) : SdkWSResp :=
  mkSdkWSResp (ws_requestId f) token (ws_account f) device (ws_errorCode f) (ws_errorMsg f)
    (ws_data f) (ws_type f).

(** [GatewayPushServer::PushToUser] *)
Definition PushToUser (account : Z) (msgDataBin : string) : M (grpc_status * bool) :=
  if account =? 0 then mret (Status "INVALID_ARGUMENT" "account is required", false)
  else
    pushed ← pushToUser account (with_data msgDataBin (frame_of 104 account));
    mret (Status_OK, pushed).

(** [GatewayPushClient::PushToUser] *)
Definition client_PushToUser (account : Z) (msgDataBin : string) : M bool :=
  r ← rpc (PushToUser account msgDataBin) false;
  mret (match r.1 with Status_OK => r.2 | _ => false end).
