(* ===== verification/GatewayProofs.v ===== *)
(** The gateway's sessions: frames for everything that does not touch them, and the
    invariant of the session map. *)
From S2P Require Import Prelude Table Snowflake Schema Effects Users Stores Conversations Friendship Outbox Gateway.

(** * Frames *)

(** A relation on the gateway's memory, as a relation on worlds. *)
Definition on_gateway (P : relation Gateway) (w w' : World) : Prop := P (w_gateway w) (w_gateway w').

Section frames.
#[local] Set Default Proof Using "All".
Context (P : relation Gateway) `{!PreOrder P}.

#[global] Instance on_gateway_preorder : PreOrder (on_gateway P).
Proof.
  split; [intros w; unfold on_gateway; reflexivity|]. intros x y z. unfold on_gateway. apply transitivity.
Qed.

Lemma on_gateway_same w w' : w_gateway w' = w_gateway w → on_gateway P w w'.
Proof. unfold on_gateway. intros ->. reflexivity. Qed.

Lemma on_gateway_remote {A} mk (op : World → exn + (A * World)) :
  (∀ w a w', op w = inr (a, w') → w_gateway w' = w_gateway w) → Step (on_gateway P) (remote mk op).
Proof.
  intros Hop. apply Step_remote; [apply _|intros fs w; by apply on_gateway_same|].
  intros w a w' H. by eapply on_gateway_same, Hop.
Qed.

#[global] Instance gateway_execute {A} (op : Database → exn + (A * Database)) :
  Step (on_gateway P) (execute op).
Proof.
  apply on_gateway_remote. intros w a w'. destruct (op (view w)) as [|[b d]]; [done|].
  intros [= _ <-]. apply gateway_put.
Qed.
#[global] Instance gateway_update {A} (u : Database → A * Database) : Step (on_gateway P) (update u).
Proof. apply gateway_execute. Qed.
#[global] Instance gateway_query {A} (q : Database → A) : Step (on_gateway P) (query q).
Proof. apply on_gateway_remote. by intros w a w' [= _ <-]. Qed.
#[global] Instance gateway_session : Step (on_gateway P) set_session.
Proof. apply gateway_query. Qed.
#[global] Instance gateway_start : Step (on_gateway P) start_transaction.
Proof. apply on_gateway_remote. by intros w a w' [= _ <-]. Qed.
#[global] Instance gateway_commit : Step (on_gateway P) commit.
Proof. apply on_gateway_remote. by intros w a w' [= _ <-]. Qed.
#[global] Instance gateway_connection : Step (on_gateway P) async_get_connection.
Proof. apply on_gateway_remote. by intros w a w' [= _ <-]. Qed.
#[global] Instance gateway_rollback : Step (on_gateway P) rollback.
Proof.
  intros w. unfold rollback.
  assert (Hs : Step (on_gateway P) (remote SqlError (λ w, inr (tt, with_txn None w))))
    by (apply on_gateway_remote; by intros x a x' [= _ <-]).
  specialize (Hs w). by destruct (remote _ _ w) as [[] ?].
Qed.
#[global] Instance gateway_mongo {A} (op : gmap string document → exn + (A * gmap string document)) :
  Step (on_gateway P) (mongo op).
Proof.
  apply on_gateway_remote. intros w a w'. destruct (op (w_mongo w)) as [|[b m]]; [done|].
  by intros [= _ <-].
Qed.
#[global] Instance gateway_redis {A} (op : RedisStore → A * RedisStore) : Step (on_gateway P) (redis op).
Proof.
  apply on_gateway_remote. intros w a w'. destruct (op (w_redis w)). by intros [= _ <-].
Qed.
#[global] Instance gateway_now : Step (on_gateway P) now.
Proof. intros w. by apply on_gateway_same. Qed.
#[global] Instance gateway_uuid : Step (on_gateway P) newone_str.
Proof. intros w. by apply on_gateway_same. Qed.

#[global] Instance gateway_with_connection {A} (m : M A) :
  Step (on_gateway P) m → Step (on_gateway P) (with_connection m).
Proof.
  intros Hm w. unfold with_connection.
  assert (Hs : Step (on_gateway P) (connected m)) by (unfold connected; apply _).
  specialize (Hs (with_txn None w)). by destruct (connected m _) as [r w'].
Qed.

#[global] Instance gateway_transaction {A} (m : M A) :
  Step (on_gateway P) m → Step (on_gateway P) (conversationTransaction m).
Proof. intros Hm. unfold conversationTransaction, committed. apply _. Qed.

#[global] Instance gateway_rpc {A} (call : M (grpc_status * A)) (none : A) :
  Step (on_gateway P) call → Step (on_gateway P) (rpc call none).
Proof.
  intros Hm w. unfold rpc.
  set (trip := remote (λ _, RuntimeError "rpc") (λ w, inr (tt, w))).
  assert (Ht : ∀ w, on_gateway P w (trip w).2).
  { assert (Hs : Step (on_gateway P) trip) by (apply on_gateway_remote; by intros x a x' [= _ <-]).
    exact Hs. }
  pose proof (Ht w) as H1. destruct (trip w) as [[e|u] w1]; [done|].
  pose proof (Step_catch (on_gateway P) call Hm w1) as H2.
  destruct (catch call w1) as [[e|[e|[st reply]]] w2]; cbn in *; try (by etrans).
  pose proof (Ht w2) as H3. destruct (trip w2) as [[e|v] w3]; cbn in *; etrans; eauto; by etrans.
Qed.

Lemma Step_gateway {A} (op : Gateway → A * Gateway) :
  (∀ g, P g (op g).2) → Step (on_gateway P) (gateway op).
Proof.
  intros Hop w. unfold gateway, on_gateway. specialize (Hop (w_gateway w)).
  by destruct (op (w_gateway w)).
Qed.

#[global] Instance gateway_get_session s : Step (on_gateway P) (session s).
Proof. apply Step_gateway. intros g. cbn. reflexivity. Qed.
End frames.

(** Nothing changes. *)
Abbreviation Offline := (Step (on_gateway eq)).

#[export] Instance offline_initialize : Offline initialize.
Proof. unfold initialize. apply _. Qed.
#[export] Instance offline_lockPair a b : Offline (lockPair a b).
Proof. unfold lockPair. apply _. Qed.
#[export] Instance offline_message_allowed m b : Offline (message_allowed m b).
Proof. unfold message_allowed. apply _. Qed.
#[export] Instance offline_set_online a v : Offline (set_online a v).
Proof. unfold set_online, redis_setex. apply _. Qed.

(** Frames are monotone in the relation. *)
Lemma offline_gateway P `{!PreOrder P} {A} (m : M A) : Offline m → Step (on_gateway P) m.
Proof. intros Hm w. specialize (Hm w). by apply on_gateway_same. Qed.

(** * The invariant *)

Record session_ok (x : WSSession) : Prop := {
  so_queue q : write_queue_ x = Some q → Z.of_nat (length q) <= 256;
  so_closed : disconnected_ x = true → pendingOfflineMsgs_ x = ∅ ∧ s_socket x = false;
}.

Record gateway_ok (g : Gateway) : Prop := {
  go_count : WsConnectionsActive g = Z.of_nat (size (sessions_ g));
  go_live a s : sessions_ g !! a = Some s →
    ∃ x, g_conns g !! s = Some x ∧ account_ x = a ∧ disconnected_ x = false ∧ a ≠ 0;
  go_session s x : g_conns g !! s = Some x → session_ok x;
}.

Definition keeps_ok (g g' : Gateway) : Prop := gateway_ok g → gateway_ok g'.

#[export] Instance keeps_ok_preorder : PreOrder keeps_ok.
Proof. split; unfold keeps_ok; [by intros g|by auto]. Qed.

(** A session changes but stays who it is. *)
Lemma alter_ok f s g :
  (∀ x, session_ok x → session_ok (f x)) →
  (∀ x, account_ (f x) = account_ x ∧ (disconnected_ x = false → disconnected_ (f x) = false)) →
  keeps_ok g (set_conns (alter f s) g).
Proof.
  intros Hok Hid [Hc Hl Hs]. split; [done| |].
  - intros a s0 Ha. destruct (Hl a s0 Ha) as (x & Hx & Hxa & Hd & Hn). cbn.
    destruct (decide (s = s0)) as [->|Hne].
    + exists (f x). rewrite lookup_alter_eq, Hx. destruct (Hid x) as [Hacc Hdis].
      split; [done|]. split; [congruence|]. by split; [apply Hdis|].
    + exists x. by rewrite lookup_alter_ne.
  - intros s0 x Hx. cbn in Hx. destruct (decide (s = s0)) as [->|Hne].
    + rewrite lookup_alter_eq in Hx. destruct (g_conns g !! s0) as [y|] eqn:Hy; [|done].
      injection Hx as <-. apply Hok. by apply (Hs s0).
    + rewrite lookup_alter_ne in Hx by done. by apply (Hs s0).
Qed.

(** ** What the operations do to the gateway *)

(** After [onDisconnect]. *)
Definition left_by (s : nat) (g : Gateway) : Gateway :=
  let x := conn s g in
  if disconnected_ x then g
  else
    let g1 := set_conns (alter disconnect s) g in
    if account_ x =? 0 then g1 else (unregisterSession (account_ x) s g1).2.

(** After a frame is given to the session's queue. *)
Definition queued (s : nat) (frame : SdkWSResp) (g : Gateway) : Gateway :=
  match try_send frame (conn s g) with
  | Some x => set_conns (alter (λ _, x) s) g
  | None => left_by s g
  end.

Lemma set_online_gateway a v w : w_gateway (set_online a v w).2 = w_gateway w.
Proof. symmetry. exact (step (R:=on_gateway eq) (m:=set_online a v) w). Qed.

Lemma onDisconnect_gateway s w : w_gateway (onDisconnect s w).2 = left_by s (w_gateway w).
Proof.
  unfold onDisconnect, left_by, session, modify, gateway, mbind, M_bind, mret, M_ret. cbn.
  destruct (disconnected_ _); [done|]. cbn. destruct (account_ _ =? 0); [done|]. cbn.
  destruct (unregisterSession _ _ _) as [[] g2]; cbn; [|done]. by rewrite set_online_gateway.
Qed.

Lemma queuedWrite_gateway s f w : w_gateway (queuedWrite s f w).2 = queued s f (w_gateway w).
Proof.
  unfold queuedWrite, queued, session, modify, gateway, mbind, M_bind. cbn.
  destruct (try_send _ _); [done|]. pose proof (onDisconnect_gateway s w) as H.
  replace (with_gateway (w_gateway w) w) with w by by destruct w.
  destruct (onDisconnect s w) as [[e|u] w1]; exact H.
Qed.

Lemma left_by_disconnected s g : disconnected_ (conn s g) = true → left_by s g = g.
Proof. unfold left_by. by intros ->. Qed.

Lemma try_send_disconnected f x : disconnected_ x = true → try_send f x = None.
Proof. unfold try_send. intros ->. by destruct (write_queue_ x). Qed.

Lemma asyncSend_gateway s f w : w_gateway (asyncSend s f w).2 = queued s f (w_gateway w).
Proof.
  unfold asyncSend, queued, session, modify, gateway, mbind, M_bind. cbn.
  destruct (disconnected_ _) eqn:Hd.
  - rewrite try_send_disconnected by done. cbn. by rewrite left_by_disconnected.
  - destruct (try_send _ _); [done|]. rewrite onDisconnect_gateway. done.
Qed.

(** ** The operations keep the invariant *)

Lemma disconnect_ok x : session_ok x → session_ok (disconnect x).
Proof. intros [Hq _]. split; [done|]. by intros _. Qed.

Lemma conn_lookup s g x : g_conns g !! s = Some x → conn s g = x.
Proof. unfold conn. by intros ->. Qed.

Lemma left_by_ok s : ∀ g, keeps_ok g (left_by s g).
Proof.
  intros g Hok. unfold left_by. destruct (disconnected_ (conn s g)) eqn:Hd; [done|].
  destruct (g_conns g !! s) as [x|] eqn:Hx; [|by unfold conn in Hd; rewrite Hx in Hd].
  rewrite (conn_lookup s g x Hx) in *. destruct Hok as [Hc Hl Hs].
  assert (Hs' : ∀ s0 y, alter disconnect s (g_conns g) !! s0 = Some y → session_ok y).
  { intros s0 y Hy. destruct (decide (s = s0)) as [->|Hne].
    - rewrite lookup_alter_eq, Hx in Hy. injection Hy as <-. by apply disconnect_ok, (Hs s0).
    - rewrite lookup_alter_ne in Hy by done. by apply (Hs s0). }
  assert (Hl' : ∀ a s0, sessions_ g !! a = Some s0 → s0 ≠ s → ∃ y,
    alter disconnect s (g_conns g) !! s0 = Some y ∧ account_ y = a ∧ disconnected_ y = false ∧ a ≠ 0).
  { intros a s0 Ha Hne. destruct (Hl a s0 Ha) as (y & Hy & ?). exists y. by rewrite lookup_alter_ne. }
  assert (Hmine : ∀ a, sessions_ g !! a = Some s → a = account_ x ∧ a ≠ 0).
  { intros a Ha. destruct (Hl a s Ha) as (y & Hy & <- & _ & Hn). by simplify_eq. }
  destruct (account_ x =? 0) eqn:Ha0.
  - apply Z.eqb_eq in Ha0. split; [done| |done]. intros a s0 Ha. apply Hl'; [done|].
    intros ->. destruct (Hmine a Ha). congruence.
  - unfold unregisterSession. cbn. case_bool_decide as Hreg; split; cbn; [| |done|done| |done].
    + assert (size (sessions_ g) ≠ 0%nat)
        by (apply (map_size_ne_0_lookup_2 _ (account_ x)); by eexists).
      rewrite Hc, map_size_delete, Hreg. cbn. lia.
    + intros a s0 [Hne Ha]%lookup_delete_Some. apply Hl'; [done|]. intros ->.
      by destruct (Hmine a Ha) as [-> _].
    + intros a s0 Ha. apply Hl'; [done|]. intros ->. destruct (Hmine a Ha) as [-> _]. done.
Qed.

Lemma try_send_ok f x y : session_ok x → try_send f x = Some y → session_ok y.
Proof.
  intros [Hq Hcl]. unfold try_send. destruct (write_queue_ x) as [q|]; [|done].
  destruct (disconnected_ x) eqn:Hd; [done|]. cbn. destruct (_ <? 256) eqn:Hlt; [|done].
  intros [= <-]. split; cbn; [|congruence]. intros q' [= <-].
  rewrite length_app. cbn. apply Z.ltb_lt in Hlt. lia.
Qed.

Lemma try_send_same f x y :
  try_send f x = Some y → account_ y = account_ x ∧ disconnected_ x = false ∧ disconnected_ y = false ∧
    pendingOfflineMsgs_ y = pendingOfflineMsgs_ x ∧ s_wire y = s_wire x ∧
    ∃ q, write_queue_ x = Some q ∧ write_queue_ y = Some (q ++ [f]).
Proof.
  unfold try_send. destruct (write_queue_ x) as [q|]; [|done].
  destruct (disconnected_ x) eqn:Hd; [done|]. cbn. destruct (_ <? 256); [|done].
  intros [= <-]. cbn. eauto 10.
Qed.

(** [alter] on a session that is there. *)
Lemma alter_const_ok s g y :
  (∀ x, g_conns g !! s = Some x → session_ok y ∧ account_ y = account_ x ∧ disconnected_ y = false) →
  keeps_ok g (set_conns (alter (λ _, y) s) g).
Proof.
  intros Hy Hok. destruct (g_conns g !! s) as [x|] eqn:Hx.
  - destruct (Hy x eq_refl) as (Hyo & Hya & Hyd).
    assert (Hg : set_conns (alter (λ _, y) s) g = set_conns <[s := y]> g).
    { unfold set_conns. f_equal. apply map_eq. intros i. destruct (decide (s = i)) as [->|Hne].
      - by rewrite lookup_alter_eq, lookup_insert_eq, Hx.
      - by rewrite lookup_alter_ne, lookup_insert_ne. }
    rewrite Hg. destruct Hok as [Hc Hl Hs]. split; [done| |].
    + intros a s0 Ha. destruct (Hl a s0 Ha) as (z & Hz & Hza & Hzd & Hn). cbn.
      destruct (decide (s = s0)) as [->|Hne]; [|exists z; by rewrite lookup_insert_ne].
      exists y. rewrite lookup_insert_eq. simplify_eq. done.
    + intros s0 z Hz. cbn in Hz. apply lookup_insert_Some in Hz as [[<- <-]|[Hne Hz]];
        [done|by apply (Hs s0)].
  - assert (Hg : set_conns (alter (λ _, y) s) g = g); [|by rewrite Hg].
    destruct g. unfold set_conns. cbn in *. f_equal. apply alter_id. intros x'. by rewrite Hx.
Qed.
