(* ===== verification/Push.v ===== *)
(** Live delivery of single-chat messages: the push service
    ([src/services/push_service/server.cpp]) and the handler of the messages it
    consumes from Kafka ([src/services/push_service/push_msg_handler.cpp]). *)
From S2P Require Import Prelude Table Snowflake Schema Effects Users Stores Conversations Friendship Outbox Gateway.

Section push.
Context `{Json} `{Protobuf}.

(** * PushService *)

(** What runs under the lock of the pair: look whether the receiver is online, and
    hand the message to the gateway if so. *)
Definition push_action (message : MsgData) : M bool :=
  online ← redis_get (online_key (recvID message));
  let recvOnline := match online with
                    | Some v => bool_decide (v = "1") || bool_decide (v = "true")
                    | None => false
                    end in
  if recvOnline then client_PushToUser (recvID message) (serialize_msg message) else mret false.

Definition PushMsg (msgData : option MsgData) : M (grpc_status * unit) :=
  match msgData with
  | None => mret (Status "INVALID_ARGUMENT" "msgdata is required", tt)
  | Some message =>
      if isGroupMsg message
      then mret (Status "UNIMPLEMENTED" "Use GroupService Execute for group messages", tt)
      else
        r ← catch (WithFriendMessage message (push_action message) true);
        mret (match r with
              | inr _ => Status_OK
              | inl _ => Status "UNAVAILABLE" "Single-chat dispatch unavailable"
              end, tt)
  end.

Definition AckMsg (owner : Z) (id : string) (type : Z) : M (grpc_status * unit) :=
  if negb (type =? 1) && negb (type =? 2)
  then mret (Status "INVALID_ARGUMENT" "Invalid acknowledgement type", tt)
  else
    r ← catch (QueueMessageAck owner id);
    mret (match r with
          | inr true => Status_OK
          | inr false => Status "UNIMPLEMENTED" "Use GroupService Ack for group messages"
          | inl (InvalidArgument what) => Status "INVALID_ARGUMENT" what
          | inl _ => Status "UNAVAILABLE" "ACK persistence unavailable"
          end, tt).

Definition AddPendingOfflineAck : grpc_status :=
  Status "UNIMPLEMENTED" "Offline ACK tracking uses durable MySQL receipts".
Definition DelUserPushToken : grpc_status := Status_OK.

(** [PushClient::AckMsg]: a status that is not OK is thrown. *)
Definition client_AckMsg (owner : Z) (id : string) (type : Z) : M unit :=
  r ← rpc (AckMsg owner id type) tt;
  match r.1 with Status_OK => mret tt | Status _ what => throw (RuntimeError what) end.

(** * PushHandler *)

(** "traceparent|id", or the identifier alone. *)
Definition server_msg_id (payload : string) : string :=
  match find_char "|"%char payload with
  | Some sep => drop_str (sep + 1) payload
  | None => payload
  end.

Definition stored_message (id : string) : M (option MsgData) :=
  cached ← GetMsg id;
  match cached with
  | Some m => mret (Some m)
  | None => GetMsgByServerMsgID id
  end.

Definition PushHandler_handle (payload : string) : M unit :=
  let id := server_msg_id payload in
  found ← stored_message id;
  match found with
  | None => mret tt
  | Some message =>
      if isGroupMsg message then mret tt
      else
        done ← MessageDispatchDone (recvID message) id;
        if (done : bool) then mret tt
        else
          r ← rpc (PushMsg (Some message)) tt;
          match r.1 with
          | Status _ what =>
              throw (RuntimeError ("PushHandler: gRPC PushMsg failed: " +:+ what +:+
                                   ", serverMsgID=" +:+ id))
          | Status_OK => ConfirmMessageDispatch id
          end
  end.
End push.
