(* ===== verification/OfflineSync.v ===== *)
(** What a session does with offline messages ([src/gateway/ws_session.cpp], lines
    779-906): after log in it scans the user's undelivered messages in batches,
    waits for each batch to be acknowledged, and reports the end of the
    synchronisation; acknowledgements arrive in between.

    The scan, the read loop and the write loop are coroutines of one executor.  A
    turn of the scan is what it runs from one suspension point to the next. *)
From S2P Require Import Prelude Table Snowflake Schema Effects Users Stores Conversations Friendship Outbox Gateway Push.

(** [message_validation::IsSingleMessageFor] *)
Definition IsSingleMessageFor (owner : Z) (m : MsgData) : bool :=
  negb (owner =? 0) && negb (isGroupMsg m) && (sessionType m =? 1) && (recvID m =? owner) &&
  negb (sendID m =? 0) && negb (str_empty (serverMsgID m)).

Section offline.
Context `{Json} `{Protobuf} (what : exn → string).

(** * Delivery of one message *)

Definition offline_frame (owner : Z) (m : MsgData) : SdkWSResp :=
  with_data (serialize_msg m) (with_request (serverMsgID m)
    (with_result "0" "offline message" (frame_of 200 owner))).

(** Runs on the session's executor, under the lock of the pair. *)
Definition offer (s : nat) (m : MsgData) : M unit :=
  x ← session s;
  if disconnected_ x then throw operation_aborted
  else
    modify (set_pending <[serverMsgID m := (seq m, convID m)]>) s;;
    queuedWrite s (offline_frame (account_ x) m).

Definition deliverOfflineMessage (s : nat) (m : MsgData) : M unit :=
  WithFriendMessage m (offer s m) true;; mret tt.

(** * The scan *)

(** Where [pullAndPushOfflineMsgs], with [scanOfflineMessages] and
    [waitOfflineBatch] inside, is; then the end of [handleAuth]. *)
Inductive scan :=
| Fetch (after : Z)                          (* the head of the loop *)
| Deliver (next : Z) (rest : list MsgData)   (* the loop over a batch *)
| AwaitAck (next : Z)                        (* the timer of [waitOfflineBatch] *)
| Complete                                   (* the scan has returned *)
| SyncError (e : exn)                        (* the scan has thrown *)
| Synced                                     (* the end is reported *)
| Stopped.

Definition batchSize : Z := 50.

Definition complete_frame (owner : Z) : SdkWSResp :=
  with_result "0" "offline sync complete" (frame_of 209 owner).
Definition failed_frame (owner : Z) : SdkWSResp :=
  with_result "SYNC_ERROR" "Offline message synchronization failed; sign in again to retry"
    (frame_of 209 owner).

(** A try block whose exception ends the scan. *)
Definition try_scan {A} (m : M A) (k : A → M scan) : M scan :=
  r ← catch m; match r with inl e => mret (SyncError e) | inr a => k a end.

Definition invalid_order : exn := RuntimeError "Invalid offline candidate or sequence order".

(** One turn; a turn at [AwaitAck] is the timer's end, cancelled or expired. *)
Definition scan_turn (s : nat) (pc : scan) : M scan :=
  x ← session s;
  match pc with
  | Fetch after =>
      if disconnected_ x then mret Stopped
      else try_scan (GetMsgsBySeqFromMongo (account_ x) after batchSize) (λ messages,
        mret (match messages with
              | [] => Complete
              | _ => if batchSize <? Z.of_nat (length messages)
                     then SyncError (RuntimeError "Offline batch exceeds limit")
                     else Deliver after messages
              end))
  | Deliver next (m :: rest) =>
      if disconnected_ x then mret Stopped
      else if negb (IsSingleMessageFor (account_ x) m) || (seq m <=? next)
      then mret (SyncError invalid_order)
      else try_scan (deliverOfflineMessage s m) (λ _, mret (Deliver (seq m) rest))
  | Deliver next [] =>
      mret (if disconnected_ x then Stopped
            else if bool_decide (pendingOfflineMsgs_ x = ∅) then Fetch next else AwaitAck next)
  | AwaitAck next =>
      if disconnected_ x then mret Stopped
      else if bool_decide (pendingOfflineMsgs_ x = ∅) then mret (Fetch next)
      else onDisconnect s;; mret Stopped
  | Complete =>
      if disconnected_ x then mret Stopped
      else try_scan (queuedWrite s (complete_frame (account_ x))) (λ _, mret Synced)
  | SyncError e =>
      if disconnected_ x || str_empty (what e) then mret Stopped
      else catch (queuedWrite s (failed_frame (account_ x)));; mret Stopped
  | Synced | Stopped => mret pc
  end.

(** * Acknowledgements *)

(** At most two attempts. *)
Fixpoint ack_attempts (n : nat) (owner : Z) (id : string) (type : Z) : M bool :=
  match n with
  | O => mret false
  | S n =>
      r ← catch (client_AckMsg owner id type);
      match r with inr _ => mret true | inl _ => ack_attempts n owner id type end
  end.

(** One identifier of the request; [false] ends the handler. *)
Definition ack_one (s : nat) (id : string) (type : Z) : M bool :=
  x ← session s;
  accepted ← ack_attempts 2 (account_ x) id type;
  if negb accepted then modify close_socket s;; mret false
  else modify (set_pending (delete id)) s;; mret true.

Fixpoint ack_all (s : nat) (ids : list string) (type : Z) : M unit :=
  match ids with
  | [] => mret tt
  | id :: ids => go ← ack_one s id type; if (go : bool) then ack_all s ids type else mret tt
  end.

(** [None]: the request does not parse. *)
Definition handleAck (s : nat) (req : option (list string * Z)) : M unit :=
  match req with
  | Some (ids, type) => if negb (type =? 1) && negb (type =? 2) then mret tt else ack_all s ids type
  | None => mret tt
  end.

(** * The coroutines of a session, interleaved *)

(** [sy_offered] are the messages the scan has registered and put into the queue, [sy_acked] those
    whose acknowledgement the push service has accepted. *)
Record sync := mkSync {
  sy_scan : scan; sy_world : World; sy_offered : gset string; sy_acked : gset string;
}.

Definition pending_of (s : nat) (w : World) : gmap string (Z * string) :=
  pendingOfflineMsgs_ (conn s (w_gateway w)).

Inductive sync_step (s : nat) (y : sync) : sync → Prop :=
| sync_scan pc w :                       (* a turn of the scan *)
    scan_turn s (sy_scan y) (sy_world y) = (inr pc, w) →
    sync_step s y (mkSync pc w (sy_offered y ∪ (dom (pending_of s w) ∖ dom (pending_of s (sy_world y))))
                     (sy_acked y))
| sync_ack id type b w :                 (* the read loop handles an acknowledgement *)
    type = 1 ∨ type = 2 →
    ack_one s id type (sy_world y) = (inr b, w) →
    sync_step s y (mkSync (sy_scan y) w (sy_offered y)
                     (if b then {[ id ]} ∪ sy_acked y else sy_acked y))
| sync_write frame :                     (* the read loop answers a request *)
    sync_step s y (mkSync (sy_scan y) (queuedWrite s frame (sy_world y)).2 (sy_offered y) (sy_acked y))
| sync_post frame :                      (* somebody pushes to the session *)
    sync_step s y (mkSync (sy_scan y) (asyncSend s frame (sy_world y)).2 (sy_offered y) (sy_acked y))
| sync_drain :                           (* the write loop *)
    sync_step s y (mkSync (sy_scan y) (doDrainWriteQueue s (sy_world y)).2 (sy_offered y) (sy_acked y))
| sync_disconnect :                      (* the connection is lost *)
    sync_step s y (mkSync (sy_scan y) (onDisconnect s (sy_world y)).2 (sy_offered y) (sy_acked y))
| sync_other w :                         (* anything that is not this session's *)
    g_conns (w_gateway w) !! s = g_conns (w_gateway (sy_world y)) !! s →
    sync_step s y (mkSync (sy_scan y) w (sy_offered y) (sy_acked y)).

(** Just after log in. *)
Definition sync_start (w : World) : sync := mkSync (Fetch 0) w ∅ ∅.
End offline.
