(* ===== verification/OfflineProofs.v ===== *)
(** Correctness of the offline synchronisation: under any interleaving of the
    session's coroutines with each other and with the rest of the server, the end is
    reported only when every message offered has been acknowledged. *)
From S2P Require Import Prelude Table Snowflake Schema Effects Users Stores Conversations Friendship Outbox Gateway GatewayProofs Push OfflineSync.

(** * What the operations do to one session *)

(** A session that was closed stays closed; one that is open afterwards has the
    same pending messages. *)
Definition settled (s : nat) (g g' : Gateway) : Prop :=
  (disconnected_ (conn s g) = true → disconnected_ (conn s g') = true) ∧
  (disconnected_ (conn s g') = false →
    pendingOfflineMsgs_ (conn s g') = pendingOfflineMsgs_ (conn s g)).

#[export] Instance settled_preorder s : PreOrder (settled s).
Proof.
  split; [by intros g|]. intros g1 g2 g3 [A1 B1] [A2 B2]. split; [by auto|].
  intros H. rewrite B2, B1; [done| |done].
  destruct (disconnected_ (conn s g2)) eqn:E; [|done]. by rewrite A2 in H.
Qed.

(** Likewise, but messages may have become pending. *)
Definition extended (s : nat) (g g' : Gateway) : Prop :=
  (disconnected_ (conn s g) = true → disconnected_ (conn s g') = true) ∧
  (disconnected_ (conn s g') = false →
    dom (pendingOfflineMsgs_ (conn s g)) ⊆ dom (pendingOfflineMsgs_ (conn s g'))).

#[export] Instance extended_preorder s : PreOrder (extended s).
Proof.
  split; [by intros g|]. intros g1 g2 g3 [A1 B1] [A2 B2]. split; [by auto|].
  intros H. etrans; [apply B1|by apply B2].
  destruct (disconnected_ (conn s g2)) eqn:E; [|done]. by rewrite A2 in H.
Qed.

Lemma settled_extended s g g' : settled s g g' → extended s g g'.
Proof. intros [H1 H2]. split; [done|]. intros H. by rewrite H2. Qed.

Lemma conn_alter s f g s' :
  conn s' (set_conns (alter f s) g) =
    if bool_decide (s = s') then match g_conns g !! s with Some x => f x | None => gone end
    else conn s' g.
Proof.
  unfold conn, set_conns. cbn. case_bool_decide as H.
  - subst. rewrite lookup_alter_eq. by destruct (g_conns g !! s').
  - by rewrite lookup_alter_ne.
Qed.

Lemma conn_alter_self s f g :
  disconnected_ (conn s g) = false → conn s (set_conns (alter f s) g) = f (conn s g).
Proof.
  intros Hd. rewrite conn_alter, bool_decide_true by done. unfold conn in *.
  by destruct (g_conns g !! s).
Qed.

Lemma left_by_settled s s' g : settled s g (left_by s' g).
Proof.
  unfold left_by. destruct (disconnected_ (conn s' g)) eqn:Hd; [done|].
  assert (H : settled s g (set_conns (alter disconnect s') g)).
  { unfold settled. rewrite conn_alter. case_bool_decide as Hs; [|done]. subst.
    unfold conn. by destruct (g_conns g !! s). }
  destruct (account_ _ =? 0); [done|]. unfold unregisterSession. by case_bool_decide.
Qed.

Lemma queued_settled s s' f g : settled s g (queued s' f g).
Proof.
  unfold queued. destruct (try_send f (conn s' g)) as [x|] eqn:Ht; [|apply left_by_settled].
  apply try_send_same in Ht as (_ & Hd & Hd' & Hp & _).
  unfold settled. destruct (decide (s' = s)) as [->|Hne].
  - rewrite conn_alter_self by done. by rewrite Hd.
  - rewrite conn_alter, bool_decide_false by done. done.
Qed.

#[export] Instance settled_onDisconnect s s' : Step (on_gateway (settled s)) (onDisconnect s').
Proof. intros w. unfold on_gateway. rewrite onDisconnect_gateway. apply left_by_settled. Qed.
#[export] Instance settled_queuedWrite s s' f : Step (on_gateway (settled s)) (queuedWrite s' f).
Proof. intros w. unfold on_gateway. rewrite queuedWrite_gateway. apply queued_settled. Qed.
#[export] Instance settled_asyncSend s s' f : Step (on_gateway (settled s)) (asyncSend s' f).
Proof. intros w. unfold on_gateway. rewrite asyncSend_gateway. apply queued_settled. Qed.

Lemma settled_modify s f s' :
  (∀ x, disconnected_ (f x) = disconnected_ x ∧ pendingOfflineMsgs_ (f x) = pendingOfflineMsgs_ x) →
  Step (on_gateway (settled s)) (modify f s').
Proof.
  intros Hf. apply Step_gateway; [apply _|]. intros g. cbn. unfold settled. rewrite conn_alter.
  case_bool_decide as Hs; [|done]. subst. unfold conn.
  destruct (g_conns g !! s) as [x|]; [|done]. cbn. destruct (Hf x) as [-> ->]. done.
Qed.

#[export] Instance settled_ws_write s s' f : Step (on_gateway (settled s)) (ws_write s' f).
Proof.
  unfold ws_write. apply Step_bind; [apply _| |intros [?|?]; apply _].
  apply Step_catch; [apply _|]. apply Step_remote; [apply _|by intros fs w|]. intros w a w'.
  destruct (s_socket _); [|done]. intros [= _ <-]. unfold on_gateway. cbn.
  unfold settled. rewrite conn_alter. case_bool_decide as Hs; [|done]. subst. unfold conn.
  by destruct (g_conns (w_gateway w) !! s).
Qed.

#[export] Instance settled_drain s s' : Step (on_gateway (settled s)) (doDrainWriteQueue s').
Proof.
  unfold doDrainWriteQueue. apply Step_bind; [apply _|apply _|]. intros x.
  destruct (write_queue_ x) as [[|f q]|]; [apply _| |apply _]. destruct (disconnected_ x); [apply _|].
  apply Step_bind; [apply _|by apply settled_modify|]. intros _. apply _.
Qed.

(** Pushing to any account. *)
#[export] Instance settled_pushToUser s a f : Step (on_gateway (settled s)) (pushToUser a f).
Proof.
  unfold pushToUser. apply Step_bind; [apply _| |intros [s'|]; apply _].
  apply Step_gateway; [apply _|]. by intros g.
Qed.

(** The service calls a session makes do not touch sessions. *)
#[export] Instance offline_GetMsgByServerMsgID id : Offline (GetMsgByServerMsgID id).
Proof. unfold GetMsgByServerMsgID, mongo_find. apply _. Qed.
#[export] Instance offline_GetMsgsBySeq u a l : Offline (GetMsgsBySeqFromMongo u a l).
Proof. unfold GetMsgsBySeqFromMongo, mongo_find. apply _. Qed.

Section proofs.
Context {js : Json} {pb : Protobuf} (what : exn → string).

#[export] Instance offline_QueueMessageAck owner id : Offline (QueueMessageAck owner id).
Proof. unfold QueueMessageAck, ack_lookup, queue_ack. typeclasses eauto. Qed.
#[export] Instance offline_client_AckMsg owner id type : Offline (client_AckMsg owner id type).
Proof. unfold client_AckMsg, AckMsg. apply _. Qed.
#[export] Instance offline_ack_attempts n owner id type : Offline (ack_attempts n owner id type).
Proof. induction n; cbn [ack_attempts]; apply _. Qed.

#[export] Instance gateway_WithFriendMessage P `{!PreOrder P} {A} (m : MsgData) (action : M A) b :
  Step (on_gateway P) action → Step (on_gateway P) (WithFriendMessage m action b).
Proof.
  intros Ha. unfold WithFriendMessage, friend_message_body.
  assert (Step (on_gateway P) initialize) by (apply offline_gateway; apply _).
  assert (∀ a b, Step (on_gateway P) (lockPair a b)) by (intros; apply offline_gateway; apply _).
  assert (∀ m b, Step (on_gateway P) (message_allowed m b)) by (intros; apply offline_gateway; apply _).
  apply _.
Qed.

(** Offering a message. *)
Lemma offer_gateway s m w :
  disconnected_ (conn s (w_gateway w)) = false →
  extended s (w_gateway w) (w_gateway (offer s m w).2).
Proof.
  intros Hd. unfold offer, session, modify, gateway, mbind, M_bind. cbn. rewrite Hd. cbn.
  rewrite queuedWrite_gateway. cbn. etrans; [|apply settled_extended, queued_settled].
  unfold extended. rewrite conn_alter_self by done. split; [by rewrite Hd|].
  intros _. cbn. rewrite dom_insert. set_solver.
Qed.

#[export] Instance extended_offer s m : Step (on_gateway (extended s)) (offer s m).
Proof.
  intros w. destruct (disconnected_ (conn s (w_gateway w))) eqn:Hd; [|by apply offer_gateway].
  unfold offer, session, gateway, mbind, M_bind. cbn. rewrite Hd. cbn. done.
Qed.

#[export] Instance extended_deliver s m : Step (on_gateway (extended s)) (deliverOfflineMessage s m).
Proof. unfold deliverOfflineMessage. apply _. Qed.

(** * The invariant of the interleaved system *)

Definition alive (s : nat) (w : World) : Prop := disconnected_ (conn s (w_gateway w)) = false.

(** Where no message may be pending. *)
Definition between_batches (pc : scan) : Prop :=
  match pc with Fetch _ | Complete => True | _ => False end.

Record sync_ok (s : nat) (y : sync) : Prop := {
  sk_pending id : alive s (sy_world y) → id ∈ sy_offered y →
    id ∈ sy_acked y ∨ id ∈ dom (pending_of s (sy_world y));
  sk_batch : alive s (sy_world y) → between_batches (sy_scan y) → pending_of s (sy_world y) = ∅;
  sk_synced : sy_scan y = Synced → sy_offered y ⊆ sy_acked y;
}.

Lemma settled_alive s w w' :
  settled s (w_gateway w) (w_gateway w') → alive s w' →
  alive s w ∧ pending_of s w' = pending_of s w.
Proof.
  intros [H1 H2] Ha. split; [|by apply H2]. unfold alive in *.
  destruct (disconnected_ (conn s (w_gateway w))); [|done]. by rewrite H1 in Ha.
Qed.

Lemma extended_alive s w w' :
  extended s (w_gateway w) (w_gateway w') → alive s w' →
  alive s w ∧ dom (pending_of s w) ⊆ dom (pending_of s w').
Proof.
  intros [H1 H2] Ha. split; [|by apply H2]. unfold alive in *.
  destruct (disconnected_ (conn s (w_gateway w))); [|done]. by rewrite H1 in Ha.
Qed.

(** A step that leaves the scan and the pending messages alone. *)
Lemma settled_ok s y w :
  sync_ok s y → settled s (w_gateway (sy_world y)) (w_gateway w) →
  sync_ok s (mkSync (sy_scan y) w (sy_offered y) (sy_acked y)).
Proof.
  intros [Hp Hb Hs] Hset. split; cbn; [| |done].
  - intros id Ha Hid. destruct (settled_alive _ _ _ Hset Ha) as [Ha' ->]. by apply Hp.
  - intros Ha Hpc. destruct (settled_alive _ _ _ Hset Ha) as [Ha' ->]. by apply Hb.
Qed.

(** What a turn of the scan can do. *)
Record turn_spec (s : nat) (pc pc' : scan) (w w' : World) : Prop := {
  tn_extended : extended s (w_gateway w) (w_gateway w');
  tn_batch : alive s w' → between_batches pc' → between_batches pc ∨ pending_of s w = ∅;
  tn_same : alive s w' → between_batches pc' → pending_of s w' = pending_of s w;
  tn_synced : pc' = Synced → (pc = Synced ∨ (pc = Complete ∧ alive s w)) ∧
    pending_of s w' = pending_of s w;
}.

Lemma turn_same s pc pc' w w' :
  w_gateway w' = w_gateway w → (pc' = Synced → pc = Synced) →
  (between_batches pc' → between_batches pc ∨ pending_of s w = ∅) → turn_spec s pc pc' w w'.
Proof.
  intros Hg Hpc Hb. assert (Hp : pending_of s w' = pending_of s w) by (unfold pending_of; by rewrite Hg).
  split; [by rewrite Hg|auto..].
Qed.

Lemma turn_stops s pc pc' w w' :
  on_gateway (extended s) w w' → ¬ between_batches pc' → pc' ≠ Synced →
  turn_spec s pc pc' w w'.
Proof. intros He Hb Hs. by split. Qed.

Lemma turn_stops_settled s pc pc' w w' :
  on_gateway (settled s) w w' → ¬ between_batches pc' → pc' ≠ Synced →
  turn_spec s pc pc' w w'.
Proof. intros He. by apply turn_stops, settled_extended. Qed.

Lemma session_run s w : session s w = (inr (conn s (w_gateway w)), w).
Proof. unfold session, gateway. by destruct w. Qed.

Lemma try_scan_cases {A} (m : M A) k w pc w' :
  try_scan m k w = (inr pc, w') →
  (∃ e, m w = (inl e, w') ∧ pc = SyncError e) ∨ ∃ a w1, m w = (inr a, w1) ∧ k a w1 = (inr pc, w').
Proof.
  unfold try_scan. intros ([e|a] & w1 & H1%catch_ok & H)%bind_ok; [|by eauto].
  apply ret_ok in H as [<- <-]. eauto.
Qed.

Lemma step_run {A} R (m : M A) `{!Step R m} w r w' : m w = (r, w') → R w w'.
Proof. intros Hr. pose proof (step (R:=R) (m:=m) w) as H. by rewrite Hr in H. Qed.

Lemma turn_fetch s after w pc w' :
  scan_turn what s (Fetch after) w = (inr pc, w') → turn_spec s (Fetch after) pc w w'.
Proof.
  unfold scan_turn. intros (x & w1 & [= <- <-]%(eq_trans (eq_sym (session_run s w))) & H)%bind_ok.
  destruct (disconnected_ _); [by apply ret_ok in H as [<- <-]; apply turn_same|].
  apply try_scan_cases in H as [(e & H & ->)|(ms & w1 & H & Hk)].
  - apply (step_run (on_gateway eq)) in H; [|apply _]. by apply turn_same.
  - apply (step_run (on_gateway eq)) in H; [|apply _]. apply ret_ok in Hk as [<- <-].
    apply turn_same; [done| |by left]. destruct ms; [done|]. by destruct (_ <? _).
Qed.

Lemma turn_deliver s next ms w pc w' :
  scan_turn what s (Deliver next ms) w = (inr pc, w') → turn_spec s (Deliver next ms) pc w w'.
Proof.
  unfold scan_turn. intros (x & w1 & [= <- <-]%(eq_trans (eq_sym (session_run s w))) & H)%bind_ok.
  destruct ms as [|m ms].
  - apply ret_ok in H as [<- <-]. apply turn_same; [done|by repeat case_match|].
    destruct (disconnected_ _); [done|]. case_bool_decide; [by right|done].
  - destruct (disconnected_ _); [by apply ret_ok in H as [<- <-]; apply turn_same|].
    destruct (_ || _); [by apply ret_ok in H as [<- <-]; apply turn_same|].
    apply try_scan_cases in H as [(e & H & ->)|(u & w1 & H & Hk)];
      apply (step_run (on_gateway (extended s))) in H; try apply _.
    + by apply turn_stops; [exact H|cbn; tauto|].
    + apply ret_ok in Hk as [<- <-]. by apply turn_stops; [exact H|cbn; tauto|].
Qed.

Lemma turn_await s next w pc w' :
  scan_turn what s (AwaitAck next) w = (inr pc, w') → turn_spec s (AwaitAck next) pc w w'.
Proof.
  unfold scan_turn. intros (x & w1 & [= <- <-]%(eq_trans (eq_sym (session_run s w))) & H)%bind_ok.
  destruct (disconnected_ _); [by apply ret_ok in H as [<- <-]; apply turn_same|].
  case_bool_decide; [apply ret_ok in H as [<- <-]; apply turn_same; [done..|by right]|].
  apply bind_ok in H as (u & w1 & H & [<- <-]%ret_ok).
  apply (step_run (on_gateway (settled s))) in H; [|apply _].
  by apply turn_stops_settled; [exact H|cbn; tauto|].
Qed.

Lemma queuedWrite_ok s f w u w' :
  queuedWrite s f w = (inr u, w') →
  alive s w ∧ alive s w' ∧ pending_of s w' = pending_of s w.
Proof.
  intros H. pose proof (queuedWrite_gateway s f w) as Hg. rewrite H in Hg. cbn in Hg.
  unfold queuedWrite in H. apply bind_ok in H as (x & w1 & Hx & H).
  rewrite session_run in Hx. injection Hx as <- <-.
  destruct (try_send f _) as [y|] eqn:Ht; [|by apply bind_ok in H as (? & ? & _ & H)].
  unfold queued in Hg. rewrite Ht in Hg. pose proof (try_send_same _ _ _ Ht) as (_ & Hd & Hd' & Hp & _).
  unfold alive, pending_of. rewrite Hg, conn_alter_self by done. done.
Qed.

Lemma turn_end s pc0 w pc w' :
  pc0 = Complete ∨ pc0 = Synced ∨ pc0 = Stopped ∨ (∃ e, pc0 = SyncError e) →
  scan_turn what s pc0 w = (inr pc, w') → turn_spec s pc0 pc w w'.
Proof.
  intros Hpc. unfold scan_turn.
  intros (x & w1 & [= <- <-]%(eq_trans (eq_sym (session_run s w))) & H)%bind_ok.
  destruct Hpc as [->|[->|[->|[e ->]]]].
  - destruct (disconnected_ _); [by apply ret_ok in H as [<- <-]; apply turn_same|].
    apply try_scan_cases in H as [(e & H & ->)|(u & w1 & H & Hk)].
    + apply (step_run (on_gateway (settled s))) in H; [|apply _].
      by apply turn_stops_settled; [exact H|cbn; tauto|].
    + apply ret_ok in Hk as [<- <-]. pose proof (queuedWrite_ok _ _ _ _ _ H) as (Ha & _ & Hp).
      apply (step_run (on_gateway (settled s))) in H; [|apply _].
      split; [by apply settled_extended|done|done|auto].
  - apply ret_ok in H as [<- <-]. by apply turn_same.
  - apply ret_ok in H as [<- <-]. by apply turn_same.
  - destruct (_ || _); [by apply ret_ok in H as [<- <-]; apply turn_same|].
    apply bind_ok in H as (r & w1 & H & [<- <-]%ret_ok).
    apply (step_run (on_gateway (settled s))) in H; [|apply _].
    by apply turn_stops_settled; [exact H|cbn; tauto|].
Qed.

Lemma turn_ok s pc w pc' w' : scan_turn what s pc w = (inr pc', w') → turn_spec s pc pc' w w'.
Proof.
  destruct pc as [a|n ms|n| |e| |]; intros H.
  - by apply turn_fetch.
  - by apply turn_deliver.
  - by apply turn_await.
  - apply turn_end; auto.
  - apply turn_end; [|done]. right; right; right. by exists e.
  - apply turn_end; auto.
  - apply turn_end; auto.
Qed.

Lemma scan_ok s y pc w :
  sync_ok s y → turn_spec s (sy_scan y) pc (sy_world y) w →
  sync_ok s (mkSync pc w (sy_offered y ∪ (dom (pending_of s w) ∖ dom (pending_of s (sy_world y))))
              (sy_acked y)).
Proof.
  intros [Hp Hb Hs] [He Htb Hts Hsy]. split; cbn.
  - intros id Ha [Hid|Hid]%elem_of_union; [|right; set_solver].
    destruct (extended_alive _ _ _ He Ha) as [Ha' Hsub]. destruct (Hp id Ha' Hid); [by left|right].
    by apply Hsub.
  - intros Ha Hpc. rewrite Hts by done. destruct (extended_alive _ _ _ He Ha) as [Ha' _].
    destruct (Htb Ha Hpc); [by apply Hb|done].
  - intros ->. destruct (Hsy eq_refl) as [Hpc Hpend]. rewrite Hpend, difference_diag_L.
    rewrite union_empty_r_L. destruct Hpc as [Hpc|[Hpc Ha]]; [by apply Hs|].
    intros id Hid. destruct (Hp id Ha Hid) as [|Hin]; [done|].
    rewrite Hb in Hin; [by rewrite dom_empty in Hin|done|by rewrite Hpc].
Qed.

Lemma pending_delete s id w :
  pending_of s (modify (set_pending (delete id)) s w).2 = delete id (pending_of s w) ∧
  disconnected_ (conn s (w_gateway (modify (set_pending (delete id)) s w).2)) =
    disconnected_ (conn s (w_gateway w)).
Proof.
  unfold pending_of, modify, gateway. cbn. rewrite conn_alter, bool_decide_true by done.
  unfold conn. destruct (g_conns (w_gateway w) !! s); cbn; [done|]. by rewrite delete_empty.
Qed.

Lemma ack_ok s y id type b w :
  sync_ok s y → ack_one s id type (sy_world y) = (inr b, w) →
  sync_ok s (mkSync (sy_scan y) w (sy_offered y) (if b then {[ id ]} ∪ sy_acked y else sy_acked y)).
Proof.
  intros Hok H. unfold ack_one in H. apply bind_ok in H as (x & w1 & Hx & H).
  rewrite session_run in Hx. injection Hx as <- <-.
  apply bind_ok in H as (acc & w1 & Ha & H). apply (step_run (on_gateway eq)) in Ha; [|apply _].
  assert (Hw1 : sync_ok s (mkSync (sy_scan y) w1 (sy_offered y) (sy_acked y))).
  { apply settled_ok; [done|]. by rewrite <- Ha. }
  destruct acc; cbn in H.
  - apply bind_ok in H as (u & w2 & Hm & [<- <-]%ret_ok).
    pose proof (pending_delete s id w1) as [Hp Hd]. rewrite Hm in Hp, Hd. cbn in Hp, Hd.
    destruct Hw1 as [Kp Kb Ks]. split; cbn in *.
    + intros i Hal Hi. unfold alive in *. rewrite Hd in Hal. rewrite Hp, dom_delete.
      destruct (Kp i Hal Hi); [left; set_solver|]. destruct (decide (i = id)); set_solver.
    + intros Hal Hpc. unfold alive in *. rewrite Hd in Hal. rewrite Hp, Kb by done. apply delete_empty.
    + intros Hs. specialize (Ks Hs). set_solver.
  - apply bind_ok in H as (u & w2 & Hm & [<- <-]%ret_ok).
    change (sync_ok s (mkSync (sy_scan (mkSync (sy_scan y) w1 (sy_offered y) (sy_acked y))) w2
      (sy_offered y) (sy_acked y))).
    apply (settled_ok s (mkSync (sy_scan y) w1 (sy_offered y) (sy_acked y))); [done|]. cbn.
    apply (step_run (on_gateway (settled s))) in Hm; [done|]. by apply settled_modify.
Qed.

Lemma sync_step_ok s y y' : sync_ok s y → sync_step what s y y' → sync_ok s y'.
Proof.
  intros Hok Hstep. destruct Hstep as [pc w H|id type b w _ H|f|f| | |w H].
  - by apply scan_ok; [|apply turn_ok].
  - by apply (ack_ok s y id type).
  - apply settled_ok; [done|]. apply (settled_queuedWrite s s f).
  - apply settled_ok; [done|]. apply (settled_asyncSend s s f).
  - apply settled_ok; [done|]. apply (settled_drain s s).
  - apply settled_ok; [done|]. apply (settled_onDisconnect s s).
  - apply settled_ok; [done|]. unfold settled, conn. by rewrite H.
Qed.

Lemma sync_run_ok s w y :
  pending_of s w = ∅ → rtc (sync_step what s) (sync_start w) y → sync_ok s y.
Proof.
  intros Hw Hrun. revert Hrun. apply (rtc_ind_r (λ y, sync_ok s y)).
  - split; cbn; [set_solver|done|done].
  - intros y1 y2 _ Hstep IH. by eapply sync_step_ok.
Qed.
End proofs.
