(* ===== verification/OfflineTheorems.v ===== *)
(** The theorems on offline synchronisation and acknowledgements. *)
From S2P Require Import Prelude Table Snowflake Schema Effects Users Stores Conversations Samples Friendship Outbox OutboxWorker OutboxProofs OutboxTheorems Gateway GatewayProofs Push OfflineSync OfflineProofs.

(** * Synchronisation *)

(** C6: whatever the session's other coroutines do (answering requests, writing,
    being pushed to, losing the connection), whatever the rest of the server does and
    whatever fails, in between: if a session reports the end of the offline
    synchronisation, the push service has accepted an acknowledgement for every
    message offered during it. *)
Theorem sync_complete_acknowledged {js : Json} {pb : Protobuf} (what : exn → string) s w y :
  pending_of s w = ∅ → rtc (sync_step what s) (sync_start w) y → sy_scan y = Synced →
  sy_offered y ⊆ sy_acked y.
Proof. intros Hw Hrun Hend. by apply (sk_synced s y), Hend; eapply sync_run_ok. Qed.

(** * Acknowledgements *)

(** The rows an acknowledgement leaves: the receipt and the clean-up task. *)
Definition acknowledged_rows (owner : Z) (id : string) (d : Database) : Prop :=
  is_Some (t_im_message_receipts d !! (owner, id)) ∧
  ∃ k t, t_im_outbox d !! k = Some t ∧ o_operation t = 3 ∧
    o_dedupe_key t = to_string owner +:+ ":" +:+ id.

(** A message whose task was cancelled: the friendship is over. *)
Definition cancelled_message (owner : Z) (id : string) (d : Database) : Prop :=
  ∃ k r, t_im_outbox d !! k = Some r ∧ message_row id k r = true ∧ o_peer r = owner ∧ o_state r = 3.

Lemma insert_once_there row d :
  ∃ k t, t_im_outbox (insert_once row d).2 !! k = Some t ∧ o_operation t = o_operation row ∧
    o_dedupe_key t = o_dedupe_key row.
Proof.
  unfold insert_once. destruct (select_one _ _) as [[k t]|] eqn:E; cbn.
  - apply select_one_Some in E as (Hk & Hp & _). exists k, t. split; [done|].
    unfold same_key in Hp. by bool_to_prop.
  - exists (t_im_outbox_next d), row. split; [|done]. apply lookup_insert_eq.
Qed.

Lemma insert_receipt_there owner id c sq t d :
  is_Some (t_im_message_receipts (insert_receipt owner id c sq t d).2 !! (owner, id)).
Proof.
  unfold insert_receipt, t_im_message_receipts. cbn.
  destruct (im_message_receipts (db_outbox d) !! (owner, id)) as [r|] eqn:E.
  - exists r. exact E.
  - exists (mkReceiptRow c sq t). apply lookup_insert_eq.
Qed.

Lemma insert_once_receipts row d :
  t_im_message_receipts (insert_once row d).2 = t_im_message_receipts d.
Proof. unfold insert_once. by destruct (select_one _ _). Qed.

Section acknowledgements.
Context {js : Json} {pb : Protobuf}.

Lemma queue_ack_rows owner id m w b w' :
  queue_ack owner id m w = (inr b, w') → acknowledged_rows owner id (view w').
Proof.
  unfold queue_ack. intros H. run_ok H. world_simpl. split.
  - rewrite insert_once_receipts. apply insert_receipt_there.
  - apply insert_once_there.
Qed.

Lemma ack_tx_rows owner id m w b w' :
  with_connection (conversationTransaction (queue_ack owner id m)) w = (inr b, w') →
  acknowledged_rows owner id (w_db w').
Proof.
  intros (fs & w1 & H & ->)%with_connection_ok.
  assert (Hin : InTx (queue_ack owner id m)) by (apply (Step_InTx outbox_evolves); apply _).
  destruct (conversationTransaction_ok (queue_ack owner id m)
    (with_faults fs (with_txn None w)) b w1 eq_refl H)
    as (fs1 & w2 & d & H2 & Ht & fs2 & ->).
  apply queue_ack_rows in H2. rewrite (view_txn d w2 Ht) in H2. exact H2.
Qed.

Lemma ack_lookup_true owner id w w' :
  ack_lookup owner id w = (inr (inl true), w') → cancelled_message owner id (w_db w).
Proof.
  unfold ack_lookup. intros (fs & w1 & H & ->)%with_connection_ok.
  apply bind_ok in H as (row & w2 & (-> & fs1 & ->)%query_ok & H).
  change (view _) with (w_db w) in H.
  destruct (select_one (message_row id) (t_im_outbox (w_db w))) as [[k r]|] eqn:E; [|by run_ok H].
  apply select_one_Some in E as (Hk & Hp & _). cbn [fmap option_fmap option_map snd] in H.
  apply bind_ok in H as (recipient & w2 & [Hr ->]%lift_ok & H). injection Hr as <-.
  destruct (negb (o_peer r =? owner)) eqn:Eo; [done|]. apply negb_false_iff, Z.eqb_eq in Eo.
  apply bind_ok in H as (state & w2 & [Hr ->]%lift_ok & H). injection Hr as <-.
  destruct (o_state r =? 3) eqn:Es; [apply Z.eqb_eq in Es; by exists k, r|].
  apply bind_ok in H as (stage & w2 & [Hr ->]%lift_ok & H). injection Hr as <-.
  destruct (o_stage r =? 0); [done|]. by destruct (msg_of_json _).
Qed.

Lemma GetMsgByServerMsgID_none id w w' :
  GetMsgByServerMsgID id w = (inr None, w') → w_mongo w !! id = None.
Proof.
  unfold GetMsgByServerMsgID. intros (d & w1 & H & Hd)%bind_ok.
  apply remote_ok in H as (fs & H). injection H as <- <-. change (w_mongo (with_faults fs w)) with (w_mongo w) in Hd.
  destruct (w_mongo w !! id); [|done]. by apply bind_ok in Hd as (m & w2 & _ & Hd).
Qed.

Lemma QueueMessageAck_true owner id w w' :
  QueueMessageAck owner id w = (inr true, w') →
  acknowledged_rows owner id (w_db w') ∨ cancelled_message owner id (w_db w) ∨
  w_mongo w !! id = None.
Proof.
  unfold QueueMessageAck. destruct (_ || _); [done|].
  intros (found & w1 & Hl & H)%bind_ok. destruct found as [answer|found].
  - apply ret_ok in H as [-> <-]. right; left. by eapply ack_lookup_true.
  - assert (Hm : w_mongo w1 = w_mongo w) by exact (proj1 (step_run same_stores _ _ _ _ Hl)).
    apply bind_ok in H as (message & w2 & Hg & H). destruct message as [m|].
    + destruct (isGroupMsg m); [done|]. destruct (negb _); [done|].
      apply bind_ok in H as (b & w3 & Ha & [_ <-]%ret_ok). left. by eapply ack_tx_rows.
    + right; right. rewrite <- Hm. destruct found as [m|].
      * destruct (str_empty (serverMsgID m)); [|done]. by eapply GetMsgByServerMsgID_none.
      * by eapply GetMsgByServerMsgID_none.
Qed.

Lemma rpc_ok {A} (call : M (grpc_status * A)) none w a w' :
  rpc call none w = (inr (Status_OK, a), w') →
  ∃ fs w1, call (with_faults fs w) = (inr (Status_OK, a), w1) ∧ ∃ fs', w' = with_faults fs' w1.
Proof.
  unfold rpc. destruct (remote _ _ w) as [[e|u] w1] eqn:H1; [done|].
  apply remote_ok in H1 as (fs & [= _ <-]). destruct (catch call _) as [[e|[e|[st r]]] w2] eqn:Hc; try done.
  apply catch_ok in Hc. destruct (remote _ _ w2) as [[e|v] w3] eqn:H2; [done|].
  apply remote_ok in H2 as (fs' & [= _ <-]). intros [= -> <- <-]. eauto.
Qed.

(** Without the status OK the reply is the default one. *)
Lemma rpc_status {A} (call : M (grpc_status * A)) none w c m a w' :
  rpc call none w = (inr (Status c m, a), w') → a = none.
Proof.
  unfold rpc. destruct (remote _ _ w) as [[e|u] w1]; [by intros [= _ _ <- _]|].
  destruct (catch call w1) as [[e|[e|[st r]]] w2]; try done; [by intros [= _ _ <- _]|].
  destruct (remote _ _ w2) as [[e|v] w3]; [by intros [= _ _ <- _]|].
  by intros [= -> <- _].
Qed.
End acknowledgements.

(** When the push service accepts an acknowledgement, over any failures of the
    call and of its statements, the receipt and the clean-up task are committed,
    both or the call is not accepted; or there was nothing to acknowledge: the
    message was cancelled with the friendship, or its body no longer exists. *)
Theorem accepted_ack_is_durable {js : Json} {pb : Protobuf} owner id type w u w' :
  client_AckMsg owner id type w = (inr u, w') →
  acknowledged_rows owner id (w_db w') ∨ cancelled_message owner id (w_db w) ∨
  w_mongo w !! id = None.
Proof.
  unfold client_AckMsg. intros ([st []] & w1 & Hr & H)%bind_ok.
  destruct st; [|done]. cbn in H. apply ret_ok in H as [_ <-].
  apply rpc_ok in Hr as (fs & w2 & Hc & fs' & ->). unfold AckMsg in Hc. destruct (_ && _); [done|].
  apply bind_ok in Hc as (r & w3 & Hq%catch_ok & [Hst <-]%ret_ok).
  destruct r as [[]|[]]; try done. apply QueueMessageAck_true in Hq. exact Hq.
Qed.

(** * A run *)

Definition no_text (e : exn) : string := "error".

(** Coroutines taking turns: the scan, or an acknowledgement that arrives. *)
Inductive sync_event := Turn | AckFrame (id : string) (type : Z).

Definition play {js : Json} {pb : Protobuf} (s : nat) (y : sync) (e : sync_event) : sync :=
  match e with
  | Turn =>
      match scan_turn no_text s (sy_scan y) (sy_world y) with
      | (inr pc, w) => mkSync pc w (sy_offered y ∪ (dom (pending_of s w) ∖ dom (pending_of s (sy_world y))))
                         (sy_acked y)
      | _ => y
      end
  | AckFrame id type =>
      if (type =? 1) || (type =? 2) then
        match ack_one s id type (sy_world y) with
        | (inr b, w) => mkSync (sy_scan y) w (sy_offered y) (if b then {[ id ]} ∪ sy_acked y else sy_acked y)
        | _ => y
        end
      else y
  end.

Lemma play_steps {js : Json} {pb : Protobuf} s es y :
  rtc (sync_step no_text s) y (foldl (play s) y es).
Proof.
  revert y. induction es as [|e es IH]; intros y; [done|]. cbn. etrans; [|apply IH].
  destruct e as [|id type]; cbn.
  - destruct (scan_turn _ _ _ _) as [[?|pc] w] eqn:E; [done|]. by apply rtc_once, sync_scan.
  - destruct (_ || _) eqn:Et; [|done]. destruct (ack_one _ _ _ _) as [[?|b] w] eqn:E; [done|].
    apply rtc_once, (sync_ack no_text s y id type b w); [|done].
    apply orb_true_iff in Et as [?%Z.eqb_eq|?%Z.eqb_eq]; auto.
Qed.

(** User 9 logs in after message m1 has been published. *)
Definition published_w : World := (ProcessOutboxTask claimed_task claim_w).2.
Definition login_session : WSSession := mkWSSession 9 false (Some []) ∅ true [].
Definition login_w : World :=
  with_gateway (mkGateway {[ 0%nat := login_session ]} {[ 9 := 0%nat ]} 1) published_w.

Definition sync_events : list sync_event := [Turn; Turn; Turn; AckFrame "m1" 2; Turn; Turn; Turn].
Definition synced : sync := foldl (play 0) (sync_start login_w) sync_events.

Lemma sync_complete_acknowledged_witness :
  sy_offered synced = {[ "m1" ]} ∧ sy_offered synced ⊆ sy_acked synced.
Proof.
  split; [vm_compute; reflexivity|].
  apply (sync_complete_acknowledged no_text 0 login_w synced).
  - vm_compute. reflexivity.
  - apply play_steps.
  - vm_compute. reflexivity.
Defined.

Definition acked_w : World := (client_AckMsg 9 "m1" 2 login_w).2.

Lemma accepted_ack_is_durable_witness : acknowledged_rows 9 "m1" (w_db acked_w).
Proof.
  destruct (accepted_ack_is_durable 9 "m1" 2 login_w tt acked_w) as [H|[(k & r & _ & _ & _ & Hs)|H]].
  - vm_compute. reflexivity.
  - exact H.
  - split; [|eexists 2, _; split; [|split]; vm_compute; reflexivity]. eexists. vm_compute. reflexivity.
  - vm_compute in H. discriminate.
Defined.
