(* ===== verification/PushTheorems.v ===== *)
(** The theorems on live delivery: what reaches a session, and when the consumer is
    done with a message. *)
From S2P Require Import Prelude Table Snowflake Schema Effects Users Stores Conversations StoreProofs Samples Friendship Outbox OutboxWorker OutboxProofs OutboxTheorems MsgService Gateway GatewayProofs Push OfflineSync OfflineProofs OfflineTheorems.

(** * Who may be sent a message *)

(** Friends in both directions, after the last deletion of the chat; when the message
    has a task, it is published and not cancelled; the receiver has not acknowledged
    it. *)
Definition admitted (d : Database) (m : MsgData) : Prop :=
  sendID m ≠ recvID m ∧ count (pair_rows (sendID m) (recvID m)) (t_friends d) = 2 ∧
  (∀ s, deleted_seq (sendID m) (recvID m) d = Some s → s < to_uint64 (seq m)) ∧
  (serverMsgID m ≠ "" →
    (∀ k t, select_one (message_row (serverMsgID m)) (t_im_outbox d) = Some (k, t) →
      1 <= o_stage t ∧ o_state t ≠ 3) ∧
    t_im_message_receipts d !! (recvID m, serverMsgID m) = None).

Lemma message_allowed_true m w w' :
  message_allowed m true w = (inr true, w') → admitted (view w) m.
Proof.
  unfold message_allowed. intros H.
  apply bind_ok in H as (n & w1 & (-> & fs & ->)%query_ok & H).
  apply bind_ok in H as (n & w1 & [Hn ->]%lift_ok & H).
  unfold count_pair, unsigned_field in Hn. rewrite (proj2 (Z.leb_le 0 _)) in Hn by apply count_nonneg.
  injection Hn as <-. destruct (_ || _) eqn:E; [done|]. bool_to_prop.
  apply bind_ok in H as (row & w1 & (-> & fs1 & ->)%query_ok & H). rewrite view_faults in H.
  apply bind_ok in H as (newer & w1 & Hnew & H).
  assert (Hdel : newer = true → ∀ s, deleted_seq (sendID m) (recvID m) (view w) = Some s → s < to_uint64 (seq m)).
  { intros -> s Hs. rewrite Hs in Hnew. apply bind_ok in Hnew as (s' & w2 & [Hu ->]%lift_ok & Hnew).
    unfold unsigned_field in Hu. destruct (0 <=? s); [|done]. injection Hu as <-.
    apply ret_ok in Hnew as [Hnew _]. by apply Z.ltb_lt. }
  assert (Hw1 : view w1 = view w).
  { apply (step_run (stmt_step eq)) in Hnew as [Hv _]; [by rewrite <- Hv|]. apply _. }
  destruct (negb newer || _) eqn:En.
  - apply ret_ok in H as [-> _]. split; [done|]. split; [done|]. split; [by apply Hdel|].
    intros Hne. by destruct (serverMsgID m).
  - apply orb_false_iff in En as [Hn%negb_false_iff _]. split; [done|]. split; [done|].
    split; [by apply Hdel|]. intros _.
    apply bind_ok in H as (task & w2 & (-> & fs2 & ->)%query_ok & H). rewrite Hw1 in H.
    apply bind_ok in H as (pub & w2 & Hpub & H).
    assert (Hw2 : view w2 = view w).
    { apply (step_run (stmt_step eq)) in Hpub as [Hv _]; [by rewrite <- Hv, view_faults|]. apply _. }
    destruct pub; [|by apply ret_ok in H as [? _]]. cbn in H.
    apply query_ok in H as (Hr & _). rewrite Hw2 in Hr. symmetry in Hr. apply bool_decide_eq_true in Hr.
    split; [|done]. intros k t Ht. rewrite Ht in Hpub. cbn in Hpub. unfold unsigned_field in Hpub.
    apply bind_ok in Hpub as (stage & w3 & [Hs ->]%lift_ok & Hpub). injection Hs as <-.
    apply bind_ok in Hpub as (state & w3 & [Hs ->]%lift_ok & Hpub). injection Hs as <-.
    apply ret_ok in Hpub as [Hpub _]. bool_to_prop. by split.
Qed.

(** * The action of a guarded delivery *)

Section push.
Context {js : Json} {pb : Protobuf}.

(** The action has run, for an admitted message, in a world that differs from [w] by
    the pair's lock. *)
Definition acted_on {A} (m : MsgData) (action : M A) (d : Database) (w w' : World) : Prop :=
  ∃ w1 x w2, action w1 = (x, w2) ∧ w_gateway w1 = w_gateway w ∧ w_redis w1 = w_redis w ∧
    w_gateway w' = w_gateway w2 ∧ view w1 = lock_row (sendID m) (recvID m) d ∧
    admitted (view w1) m.

Lemma offline_run {A} (m : M A) `{!Offline m} w r w' : m w = (r, w') → w_gateway w' = w_gateway w.
Proof. intros H. symmetry. exact (step_run (on_gateway eq) m w r w' H). Qed.

(** From a run that does not touch the gateway to the equation. *)
Ltac offline_in H := apply offline_run in H; [|apply _].

Lemma acted_on_after {A} m (action : M A) d w w1 w2 :
  acted_on m action d w w1 → w_gateway w2 = w_gateway w1 → acted_on m action d w w2.
Proof. intros (w3 & x & w4 & H1 & H2 & H3 & H4 & H5) Hg. exists w3, x, w4. by rewrite Hg. Qed.

Lemma body_outcome {A} (m : MsgData) (action : M A) w r w' :
  friend_message_body m action true w = (r, w') →
  w_gateway w' = w_gateway w ∨ acted_on m action (view w) w w'.
Proof.
  unfold friend_message_body. intros H.
  apply bind_cases in H as [(e & H & _)|(u & w1 & Hl & H)]; [left; by offline_in H|].
  pose proof Hl as (fs & Hw1)%lockPair_ok.
  apply bind_cases in H as [(e & H & _)|(allowed & w2 & Ha & H)].
  { left. offline_in H. offline_in Hl. congruence. }
  pose proof Ha as Hg. offline_in Hg. offline_in Hl.
  destruct allowed.
  - right. pose proof (message_allowed_true _ _ _ Ha) as Hadm.
    assert (Hv : view w2 = view w1).
    { apply (step_run (stmt_step eq)) in Ha as [Hv _]; [done|]. unfold message_allowed. apply _. }
    assert (Hr : w_redis w2 = w_redis w).
    { apply (step_run same_stores) in Ha as (_ & Hr & _); [|unfold message_allowed; apply _].
      rewrite Hr, Hw1, redis_put. done. }
    assert (Hact : ∀ x w3, action w2 = (x, w3) → acted_on m action (view w) w w3).
    { intros x w3 Hx. exists w2, x, w3. split; [done|]. split; [congruence|]. split; [done|].
      split; [done|]. rewrite Hv. split; [|done]. by rewrite Hw1, view_put. }
    assert (Htail : ∀ (o : option A) w3 r' w4, (commit;; mret o) w3 = (r', w4) → w_gateway w4 = w_gateway w3)
      by (intros o w3 r' w4 Hc; by offline_in Hc).
    apply bind_cases in H as [(e & H & ->)|(o & w3 & H1 & H)].
    + apply bind_cases in H as [(e' & H & _)|(a & w3 & H & H3)]; [by eapply Hact|].
      by apply ret_cases in H3 as [? _].
    + apply bind_ok in H1 as (a & w4 & H1 & [<- <-]%ret_ok).
      eapply acted_on_after; [by eapply Hact|by eapply Htail].
  - left. offline_in H. congruence.
Qed.

Lemma WithFriendMessage_outcome {A} (m : MsgData) (action : M A) w r w' :
  WithFriendMessage m action true w = (r, w') →
  w_gateway w' = w_gateway w ∨ acted_on m action (w_db w) w w'.
Proof.
  unfold WithFriendMessage. intros (w1 & H & ->)%with_connection_run.
  assert (Hback : ∀ w2, w_gateway w2 = w_gateway (with_txn None w) →
    w_gateway (with_txn (w_txn w) w2) = w_gateway w ∨ acted_on m action (w_db w) w (with_txn (w_txn w) w2))
    by (intros w2 Hw2; by left).
  apply bind_cases in H as [(e & H & _)|(u & w2 & (fs & Hc)%remote_ok & H)];
    [offline_in H; by apply Hback|]. injection Hc as _ <-.
  apply bind_cases in H as [(e & H & _)|(u2 & w2 & Hi & H)]; [offline_in H; by apply Hback|].
  unfold initialize in Hi. run_ok Hi.
  apply bind_cases in H as [(e & H & _)|(u3 & w2 & (-> & fs3 & ->)%query_ok & H)];
    [offline_in H; by apply Hback|].
  apply bind_cases in H as [(e & H & _)|(u4 & w2 & [fs4 ->]%start_transaction_ok & H)];
    [offline_in H; by apply Hback| |done].
  set (w2 := tx_start fs4 _) in *.
  assert (Hout : ∀ x w3, friend_message_body m action true w2 = (x, w3) →
    w_gateway w3 = w_gateway w ∨ acted_on m action (w_db w) w w3)
    by (intros x w3 Hb; by apply body_outcome in Hb).
  assert (Hend : ∀ w3 w4, w_gateway w4 = w_gateway w3 →
    w_gateway w3 = w_gateway w ∨ acted_on m action (w_db w) w w3 →
    w_gateway (with_txn (w_txn w) w4) = w_gateway w ∨ acted_on m action (w_db w) w (with_txn (w_txn w) w4)).
  { intros w3 w4 Hg [Hs|Hs]; [left; by rewrite <- Hs, <- Hg|right]. by eapply acted_on_after. }
  apply bind_cases in H as [(e & H & _)|(y & w3 & Hy%catch_ok & H)].
  - apply catch_err in H as [H _]. by eapply Hend, Hout.
  - eapply Hend; [|by eapply Hout]. destruct y as [failure|allowed].
    + by offline_in H.
    + by apply ret_cases in H as [_ ->].
Qed.

(** ** What a push does to the gateway *)

Lemma rpc_gateway {A} (call : M (grpc_status * A)) none w r w' :
  rpc call none w = (r, w') →
  w_gateway w' = w_gateway w ∨
  ∃ fs x w1, call (with_faults fs w) = (x, w1) ∧ w_gateway w' = w_gateway w1.
Proof.
  unfold rpc. destruct (remote _ _ w) as [[e|u] w1] eqn:H1.
  { intros [= _ <-]. left. apply remote_err in H1 as (fs & [[? _]|(c & _ & [->|(a & H)])]); [done..|].
    by injection H as _ <-. }
  apply remote_ok in H1 as (fs & [= _ <-]). intros H. right. exists fs.
  assert (Hc : ∀ x w2, catch call (with_faults fs w) = (x, w2) →
    ∃ y, call (with_faults fs w) = (y, w2)).
  { intros x w2 E. destruct x as [e|x]; [apply catch_err in E as [E _]|apply catch_ok in E]; eauto. }
  destruct (catch call _) as [x w2] eqn:E. destruct (Hc x w2 eq_refl) as [y Hy]. exists y, w2.
  split; [done|]. destruct x as [e|[e|[st reply]]]; [by injection H as _ <-..|].
  destruct (remote _ _ w2) as [[e|v] w3] eqn:H2.
  - injection H as _ <-. apply remote_err in H2 as (fs2 & [[? _]|(c & _ & [->|(a & H)])]); [done..|].
    by injection H as _ <-.
  - injection H as _ <-. by apply remote_ok in H2 as (fs2 & [= _ <-]).
Qed.

Definition push_frame (m : MsgData) : SdkWSResp :=
  with_data (serialize_msg m) (frame_of 104 (recvID m)).

(** The frame is queued on the receiver's session. *)
Definition delivered_to (m : MsgData) (g g' : Gateway) : Prop :=
  ∃ s, sessions_ g !! recvID m = Some s ∧ g' = queued s (push_frame m) g.

Lemma PushToUser_gateway m w r w' :
  PushToUser (recvID m) (serialize_msg m) w = (r, w') →
  w_gateway w' = w_gateway w ∨ delivered_to m (w_gateway w) (w_gateway w').
Proof.
  unfold PushToUser. destruct (recvID m =? 0); [intros [_ ->]%ret_cases; by left|].
  assert (Hp : ∀ x w2, pushToUser (recvID m) (push_frame m) w = (x, w2) →
    w_gateway w2 = w_gateway w ∨ delivered_to m (w_gateway w) (w_gateway w2)).
  { unfold pushToUser. intros x w2 [(e & [=] & _)|(found & w3 & Hf & H)]%bind_cases.
    unfold gateway in Hf. injection Hf as <- <-.
    destruct (sessions_ (w_gateway w) !! recvID m) as [s|] eqn:Es.
    - right. exists s. split; [done|]. rewrite <- asyncSend_gateway.
      replace (with_gateway (w_gateway w) w) with w in H by by destruct w.
      apply bind_cases in H as [(e & H & _)|(u & w3 & H & H3)]; [by rewrite H|].
      apply ret_cases in H3 as [_ ->]. by rewrite H.
    - left. by apply ret_cases in H as [_ ->]. }
  intros [(e & H & _)|(x & w2 & H & H2)]%bind_cases; [by eapply Hp|].
  apply ret_cases in H2 as [_ ->]. by eapply Hp.
Qed.

Definition marked_online (r : RedisStore) (a : Z) : Prop :=
  r_strings r !! online_key a = Some "1" ∨ r_strings r !! online_key a = Some "true".

Lemma push_action_gateway m w r w' :
  push_action m w = (r, w') →
  w_gateway w' = w_gateway w ∨
  (marked_online (w_redis w) (recvID m) ∧ delivered_to m (w_gateway w) (w_gateway w')).
Proof.
  unfold push_action. intros [(e & H & _)|(online & w1 & Hg & H)]%bind_cases.
  { left. unfold redis_get in H. by offline_in H. }
  pose proof Hg as Hgw. unfold redis_get in Hgw. offline_in Hgw.
  apply remote_ok in Hg as (fs & Hg). injection Hg as Hon _. cbn in Hon.
  set (on := match online with Some v => _ | None => false end) in H.
  destruct on eqn:Eon; [|left; by apply ret_cases in H as [_ ->]].
  assert (Hm : marked_online (w_redis w) (recvID m)).
  { subst on online. unfold marked_online. destruct (r_strings (w_redis w) !! _) as [v|]; [|done].
    apply orb_true_iff in Eon as [Ev%bool_decide_eq_true|Ev%bool_decide_eq_true]; subst v; auto. }
  assert (Hr : ∀ x w2, rpc (PushToUser (recvID m) (serialize_msg m)) false w1 = (x, w2) →
    w_gateway w2 = w_gateway w ∨ (marked_online (w_redis w) (recvID m) ∧
      delivered_to m (w_gateway w) (w_gateway w2))).
  { intros x w2 [?|(fs2 & y & w3 & Hp & ->)]%rpc_gateway; [left; congruence|].
    apply PushToUser_gateway in Hp as [Hp|Hp]; cbn in Hp; rewrite Hgw in Hp; [by left|by right]. }
  unfold client_PushToUser in H.
  apply bind_cases in H as [(e & H & _)|(x & w2 & H & H2)]; [by eapply Hr|].
  apply ret_cases in H2 as [_ ->]. by eapply Hr.
Qed.
End push.

(** C7: a live push reaches only the receiver, and only if the message may be
    delivered: whatever fails on the way, [PushMsg] leaves all sessions as they are,
    or queues exactly one frame, the message, on the session registered for its
    receiver; then the receiver is marked online and, at that moment, under the
    pair's lock, sender and receiver are friends in both directions, the message is
    newer than the last deletion of their chat, published, not cancelled, and not yet
    acknowledged. *)
Theorem push_only_admitted {js : Json} {pb : Protobuf} m w r w' :
  PushMsg (Some m) w = (r, w') →
  w_gateway w' = w_gateway w ∨
  (isGroupMsg m = false ∧ delivered_to m (w_gateway w) (w_gateway w') ∧
   marked_online (w_redis w) (recvID m) ∧
   admitted (w_db w) m).
Proof.
  unfold PushMsg. destruct (isGroupMsg m) eqn:Eg; [intros [_ ->]%ret_cases; by left|].
  assert (Hc : ∀ x w2, catch (WithFriendMessage m (push_action m) true) w = (x, w2) →
    ∃ y, WithFriendMessage m (push_action m) true w = (y, w2)).
  { intros x w2 E. destruct x as [e|x]; [apply catch_err in E as [E _]|apply catch_ok in E]; eauto. }
  assert (Hout : ∀ x w2, catch (WithFriendMessage m (push_action m) true) w = (x, w2) →
    w_gateway w2 = w_gateway w ∨ (false = false ∧ delivered_to m (w_gateway w) (w_gateway w2) ∧
      marked_online (w_redis w) (recvID m) ∧ admitted (w_db w) m)).
  { intros x w2 E. destruct (Hc x w2 E) as [y Hy].
    apply WithFriendMessage_outcome in Hy as [Hy|(w3 & z & w4 & Ha & Hg & Hr & Hg4 & Hv & Hadm)]; [by left|].
    apply push_action_gateway in Ha as [Ha|[Hm Hd]]; [left; congruence|right].
    rewrite Hg4, <- Hg, <- Hr. rewrite Hv in Hadm. done. }
  intros [(e & H & _)|(x & w2 & H & H2)]%bind_cases; [by eapply Hout|].
  apply ret_cases in H2 as [_ ->]. by eapply Hout.
Qed.

(** * The consumer *)

(** What is known of a message when it need not be dispatched any more. *)
Definition dispatch_over (owner : Z) (id : string) (d : Database) : Prop :=
  (∃ k r, t_im_outbox d !! k = Some r ∧ message_row id k r = true ∧
     (o_state r = 3 ∨ o_dispatch_done r = 1)) ∨
  is_Some (t_im_message_receipts d !! (owner, id)).

Lemma MessageDispatchDone_true owner id w w' :
  MessageDispatchDone owner id w = (inr true, w') → dispatch_over owner id (w_db w).
Proof.
  intros (fs & w1 & H & _)%with_connection_ok. apply query_ok in H as [H _]. symmetry in H.
  change (view _) with (w_db w) in H. apply orb_true_iff in H as [H%bool_decide_eq_true|H%bool_decide_eq_true].
  - left. destruct (select_one _ _) as [[k r]|] eqn:E; [|done].
    apply select_one_Some in E as (Hk & Hp & _). apply andb_prop in Hp as [Hm Hp].
    exists k, r. split; [done|]. split; [done|].
    apply orb_true_iff in Hp as [?%Z.eqb_eq|?%Z.eqb_eq]; auto.
  - right. by destruct (t_im_message_receipts (w_db w) !! (owner, id)).
Qed.

Lemma ConfirmMessageDispatch_ok id w u w' :
  ConfirmMessageDispatch id w = (inr u, w') →
  ∀ k r, t_im_outbox (w_db w') !! k = Some r → published_row id k r = true → o_dispatch_done r = 1.
Proof.
  intros (fs & w1 & H & ->)%with_connection_ok k r. apply update_ok in H as (fs1 & _ & ->).
  change (w_db (with_txn _ _)) with
    (set_im_outbox (update_where (published_row id) dispatched) (w_db w)).
  change (t_im_outbox (set_im_outbox (update_where (published_row id) dispatched) (w_db w)))
    with (update_where (published_row id) dispatched (t_im_outbox (w_db w))).
  rewrite lookup_update_where. destruct (t_im_outbox (w_db w) !! k) as [r0|]; [|done].
  intros [= <-] Hp. by destruct (published_row id k r0) eqn:E; [|congruence].
Qed.

Lemma mongo_get_ok id w m w' :
  GetMsgByServerMsgID id w = (inr m, w') → m = None → w_mongo w !! id = None.
Proof.
  unfold GetMsgByServerMsgID. intros (doc & w1 & [-> _]%mongo_find_ok & H)%bind_ok ->.
  destruct (w_mongo w !! id) as [doc|]; [|done].
  by apply bind_ok in H as (msg & w2 & _ & [? _]%ret_ok).
Qed.

(** A body that is not found is in MongoDB neither. *)
Lemma stored_message_none {pb : Protobuf} id w w' :
  stored_message id w = (inr None, w') → w_mongo w !! id = None.
Proof.
  unfold stored_message. intros (cached & w1 & Hc & H)%bind_ok.
  destruct cached; [by apply ret_ok in H as [? _]|].
  assert (Hs : Step (λ w w', w_mongo w' = w_mongo w) (GetMsg id)).
  { assert (PreOrder (λ w w' : World, w_mongo w' = w_mongo w))
      by (split; [done|intros x y z ? ?; congruence]).
    unfold GetMsg. apply Step_bind; [done| |intros [|[]]; by apply Step_ret].
    apply Step_catch, Step_remote; [done..|]. by intros x a x' [= _ <-]. }
  specialize (Hs w). rewrite Hc in Hs. cbn in Hs. rewrite <- Hs.
  by eapply mongo_get_ok in H.
Qed.

(** The guarded push has run to its end, whatever it decided. *)
Lemma PushMsg_Status_OK {js : Json} {pb : Protobuf} m w w' :
  isGroupMsg m = false → PushMsg (Some m) w = (inr (Status_OK, tt), w') →
  ∃ decided, WithFriendMessage m (push_action m) true w = (inr decided, w').
Proof.
  unfold PushMsg. intros ->. intros (r & w1 & Hr%catch_ok & [Heq ->]%ret_ok)%bind_ok.
  destruct r as [e|decided]; [done|]. by exists decided.
Qed.

(** C28: the consumer is done with an identifier (and so lets its offset be committed)
    only when nothing is left to dispatch, whatever fails.  Either the body is in
    MongoDB no longer; or it is a group's; or the dispatch was over already (cancelled,
    confirmed, or acknowledged by the receiver); or it was not over, the call of
    [PushMsg] that the handler then made has answered OK (the guarded push has been
    decided and committed), and the confirmation that followed has succeeded, after
    which every published task of the message is confirmed as dispatched. *)
Theorem consumed_when_dispatched {js : Json} {pb : Protobuf} payload w u w' :
  PushHandler_handle payload w = (inr u, w') →
  let id := server_msg_id payload in
  ∃ w1 found, stored_message id w = (inr found, w1) ∧
    match found with
    | None => w_mongo w !! id = None ∧ w' = w1
    | Some m =>
        isGroupMsg m = true ∨ dispatch_over (recvID m) id (w_db w1) ∨
        ∃ w2 w3,
          MessageDispatchDone (recvID m) id w1 = (inr false, w2) ∧
          rpc (PushMsg (Some m)) tt w2 = (inr (Status_OK, tt), w3) ∧
          (∃ fs fs' w4 decided, w3 = with_faults fs' w4 ∧
             WithFriendMessage m (push_action m) true (with_faults fs w2) = (inr decided, w4)) ∧
          ConfirmMessageDispatch id w3 = (inr u, w') ∧
          (∀ k r, t_im_outbox (w_db w') !! k = Some r → published_row id k r = true → o_dispatch_done r = 1)
    end.
Proof.
  unfold PushHandler_handle. cbn zeta. intros (found & w1 & Hf & H)%bind_ok.
  exists w1, found. split; [done|]. destruct found as [m|].
  2: { apply ret_ok in H as [_ <-]. split; [by eapply stored_message_none|done]. }
  destruct (isGroupMsg m) eqn:Eg; [by left|right].
  apply bind_ok in H as ([] & w2 & Hd & H); [left; by eapply MessageDispatchDone_true|right].
  apply bind_ok in H as ([st []] & w3 & Hr & H). destruct st as [|c what]; [|done].
  exists w2, w3. split; [done|]. split; [done|]. split; [|split; [done|by eapply ConfirmMessageDispatch_ok]].
  apply rpc_ok in Hr as (fs & w4 & Hp & fs' & Hw). apply PushMsg_Status_OK in Hp as [decided Hp]; [|done].
  by exists fs, fs', w4, decided.
Qed.

(** * A run *)

(** The receiver is online on session 0 when the published message is consumed. *)
Definition online_w : World :=
  with_redis (set_strings <[online_key 9 := "1"]> (w_redis login_w)) login_w.
Definition pushed_w : World := (PushMsg (Some sample_message) online_w).2.
Definition consumed_w : World := (PushHandler_handle "00-trace|m1" online_w).2.

Lemma run_split {A} (m : M A) w r : (m w).1 = r → m w = (r, (m w).2).
Proof. intros <-. apply surjective_pairing. Qed.

Lemma push_only_admitted_witness :
  write_queue_ (conn 0 (w_gateway pushed_w)) = Some [push_frame sample_message] ∧
  admitted (w_db online_w) sample_message.
Proof.
  assert (Hq : write_queue_ (conn 0 (w_gateway pushed_w)) = Some [push_frame sample_message])
    by (vm_compute; reflexivity).
  split; [exact Hq|].
  destruct (push_only_admitted sample_message online_w (PushMsg (Some sample_message) online_w).1 pushed_w)
    as [Hs|(_ & _ & _ & Hadm)].
  - exact (run_split _ _ _ eq_refl).
  - exfalso. assert (Hn : write_queue_ (conn 0 (w_gateway online_w)) = Some []) by (vm_compute; reflexivity).
    rewrite Hs, Hn in Hq. injection Hq as Hq. exact (nil_cons Hq).
  - exact Hadm.
Defined.

Lemma consumed_when_dispatched_witness :
  (PushHandler_handle "00-trace|m1" online_w).1 = inr tt ∧
  ∃ w1 found, stored_message "m1" online_w = (inr found, w1).
Proof.
  assert (Hrun : (PushHandler_handle "00-trace|m1" online_w).1 = inr tt) by (vm_compute; reflexivity).
  split; [exact Hrun|].
  destruct (consumed_when_dispatched "00-trace|m1" online_w tt consumed_w) as (w1 & found & H & _).
  - exact (run_split _ _ _ Hrun).
  - exists w1, found. exact H.
Defined.
