(* ===== verification/Delivery.v ===== *)
(** The way of a message when nothing fails: the outbox worker takes its task, stores
    the body and both summaries, publishes it; the consumer hands its identifier to
    the push service, which queues it on the receiver's session. *)
From S2P Require Import Prelude Table Snowflake Schema Effects Users Stores Conversations Friendship Outbox OutboxWorker OutboxProofs Gateway GatewayProofs Push.

Lemma with_txn_none w : w_txn w = None → with_txn None w = w.
Proof. destruct w; cbn. by intros ->. Qed.

Lemma count_field n a : 0 <= n → unsigned_field (FInt64 n) a = inr n.
Proof. intros. unfold unsigned_field. by rewrite (proj2 (Z.leb_le 0 _)). Qed.

(** A transaction whose action runs through. *)
Lemma tx_run {A} (action : M A) w x w1 d :
  w_faults w = [] → w_txn w = None → action (with_txn (Some (w_db w)) w) = (inr x, w1) →
  w_faults w1 = [] → w_txn w1 = Some d →
  conversationTransaction action w = (inr x, with_txn None (with_db d w1)).
Proof. intros Hf Hn Ha Hf1 Hd. erewrite conversationTransaction_run by done. by rewrite (view_txn d). Qed.

(** * The friendship *)

(** The two users may exchange the message; a deletion mark is a BIGINT that is not
    negative. *)
Record open_chat (d : Database) (m : MsgData) : Prop := {
  oc_may : may_exchange d (sendID m) (recvID m) (seq m);
  oc_mark s : deleted_seq (sendID m) (recvID m) d = Some s → 0 <= s <= int64_max;
}.

Lemma open_chat_same d d' m :
  t_friends d' = t_friends d → t_friend_chat_deletions d' = t_friend_chat_deletions d →
  open_chat d m → open_chat d' m.
Proof.
  intros E1 E2 [[? [? H]] Hs]. split.
  - unfold may_exchange, deleted_seq in *. by rewrite E1, E2.
  - unfold deleted_seq in *. by rewrite E2.
Qed.

Lemma friendAllows_run m w :
  w_faults w = [] → open_chat (view w) m →
  friendAllows (sendID m) (recvID m) (seq m) w = (inr true, w).
Proof.
  intros Hf [(Hne & Hc & Hd) Hs]. unfold friendAllows.
  erewrite bind_run by by apply query_run. unfold count_pair. rewrite Hc, count_field by lia.
  erewrite bind_run by reflexivity. rewrite (proj2 (Z.eqb_neq _ _)) by done. cbn [orb Z.eqb Pos.eqb negb].
  erewrite bind_run by by apply query_run.
  destruct (deleted_seq _ _ (view w)) as [s|] eqn:E; [|done]. specialize (Hs s eq_refl).
  rewrite count_field by lia. erewrite bind_run by reflexivity.
  by rewrite (proj2 (Z.ltb_lt _ _)).
Qed.

(** * The first phase *)

Section delivery.
Context {js : Json} {pb : Protobuf}.

Definition recorded (m : MsgData) (json : string) (d : Database) : Database :=
  let upsert owner peer := upsert_conversation owner (convID m) peer (seq m) (to_uint64 (sendTime m)) json in
  let d1 := set_im_conversations
    (λ t, upsert (recvID m) (sendID m) (upsert (sendID m) (recvID m) t)) d in
  let '(n, d2) := insert_unread (recvID m) (convID m) (seq m) d1 in
  if n =? 0 then d2 else (bump_unread (recvID m) (convID m) d2).2.

Lemma record_run m json w :
  w_faults w = [] → isGroupMsg m = false → 0 < seq m → summary_json m = inr json →
  RecordConversationMessage m w = (inr tt, put (recorded m json (view w)) w).
Proof.
  intros Hf Hg Hs Hj. unfold RecordConversationMessage, recorded. rewrite Hg, (proj2 (Z.leb_gt _ _)) by done.
  cbn [orb]. rewrite Hj. erewrite bind_run by reflexivity.
  erewrite bind_run by by apply update_run. cbn [fst snd].
  erewrite bind_run by (apply update_run; by world_simpl). world_simpl.
  set (d1 := set_im_conversations _ _). destruct (insert_unread _ _ _ d1) as [n d2]. cbn [fst snd].
  unfold when. destruct (n =? 0); cbn [negb]; [done|].
  rewrite update_run by by world_simpl. by world_simpl.
Qed.

Lemma SaveMsgToMongo_run m b w :
  w_faults w = [] →
  SaveMsgToMongo m b w =
    (inr true, with_mongo (set_on_insert (serverMsgID m) (doc_of m b) (w_mongo w)) w).
Proof. intros Hf. unfold SaveMsgToMongo, mongo, catch, mbind, M_bind. by rewrite remote_nofault. Qed.

(** The task of a message whose lease the row [r] carries. *)
Record task_for (task : OutboxTask) (m : MsgData) (r : OutboxRow) : Prop := {
  tf_operation : tk_operation task = 1;
  tf_actor : tk_actor task = sendID m;
  tf_peer : tk_peer task = recvID m;
  tf_seq : tk_seq task = seq m;
  tf_conversation : tk_conversation task = convID m;
  tf_id : tk_serverId task = serverMsgID m;
  tf_payload : msg_of_json (tk_payload task) = Some m;
  tf_ok : row_ok r;
  tf_state : o_state r = 1;
  tf_token : o_lease_token r = tk_leaseToken task;
  tf_row : 0 <= o_seq r;
}.

(** Both phases start alike: the lock, the row, the lease, the friendship, the body. *)
Lemma phase_action_run task m r persist w :
  w_faults w = [] → task_for task m r → t_im_outbox (view w) !! tk_id task = Some r →
  open_chat (view w) m →
  phase_action task persist w =
    (if persist then when (o_stage r =? 0) (persist_message (tk_id task) m);; mret true
     else dispatch_message task m) (put (lock_row (sendID m) (recvID m) (view w)) w).
Proof.
  intros Hf [Hop Ha Hp Hs Hc Hi Hm Hok Hst Ht Hr0] Hr Hch. unfold phase_action, lockPair.
  rewrite Ha, Hp. erewrite bind_run by by apply update_run. cbn [snd].
  set (w1 := put _ w). assert (Hf1 : w_faults w1 = []) by (unfold w1; by world_simpl).
  assert (Hv : view w1 = lock_row (sendID m) (recvID m) (view w)) by (unfold w1; by world_simpl).
  erewrite bind_run by by apply query_run. rewrite Hv.
  change (t_im_outbox (lock_row _ _ (view w))) with (t_im_outbox (view w)). rewrite Hr.
  rewrite outboxRow_columns, (proj2 (Z.leb_le 0 _)) by done. erewrite bind_run by reflexivity.
  cbn [task_of tk_state tk_leaseToken tk_stage]. rewrite !to_int32_small by (destruct Hok; lia).
  rewrite Hst, Ht, bool_decide_true by done. cbn [Z.eqb Pos.eqb negb orb].
  unfold work. rewrite Hop, Ha, Hp, Hs. cbn [Z.eqb Pos.eqb].
  erewrite bind_run by (apply friendAllows_run; [done|]; rewrite Hv; by apply (open_chat_same (view w))).
  cbn [negb]. unfold outboxMessage. rewrite Hm. by erewrite bind_run by reflexivity.
Qed.

Lemma persist_run task m r json w :
  w_faults w = [] → w_txn w = None → task_for task m r → t_im_outbox (w_db w) !! tk_id task = Some r →
  o_stage r = 0 → open_chat (w_db w) m → isGroupMsg m = false → 0 < seq m → summary_json m = inr json →
  phase task true w =
    (inr true, with_txn None (with_db
       (set_row staged (tk_id task) (recorded m json (lock_row (sendID m) (recvID m) (w_db w)))).2
       (with_mongo (set_on_insert (serverMsgID m) (doc_of m false) (w_mongo w)) w))).
Proof.
  intros Hf Hn Ht Hr Hst Hch Hg Hs Hj. unfold phase.
  erewrite (tx_run _ _ _ _ _ Hf Hn); cycle 1.
  - rewrite (phase_action_run task m r) by done. rewrite Hst. unfold when, persist_message. cbn [Z.eqb].
    erewrite bind_run; [reflexivity|].
    erewrite bind_run by by apply SaveMsgToMongo_run. cbn [negb].
    erewrite bind_run by by apply record_run. by rewrite update_run.
  - done.
  - done.
  - world_simpl. done.
Qed.

(** * The second phase *)

Definition publish (id : string) (store : gmap string document) : gmap string document :=
  alter (set_field "committed" (BBool true)) id store.

Lemma PublishMessage_run id doc w :
  w_faults w = [] → w_mongo w !! id = Some doc →
  PublishMessage id w = (inr tt, with_mongo (publish id (w_mongo w)) w).
Proof.
  intros Hf Hd. unfold PublishMessage, mongo, mbind, M_bind. rewrite remote_nofault by done. rewrite Hd.
  do 2 f_equal. unfold publish. apply map_eq. intros i. destruct (decide (id = i)) as [<-|Hne].
  - by rewrite lookup_insert_eq, lookup_alter_eq, Hd.
  - by rewrite lookup_insert_ne, lookup_alter_ne.
Qed.

Lemma SaveMsg_run m w :
  w_faults w = [] →
  SaveMsg m w = (inr true, with_redis
    (set_strings <["msg:" +:+ serverMsgID m := serialize_msg m]> (w_redis w)) w).
Proof.
  intros Hf. unfold SaveMsg, redis_setex, redis, catch, mbind, M_bind. by rewrite remote_nofault.
Qed.

Lemma deliver_run key payload w :
  w_faults w = [] →
  deliverConfirmed key payload w = (inr true, with_kafka (w_kafka w ++ [(key, payload)]) w).
Proof. intros Hf. unfold deliverConfirmed. by rewrite remote_nofault. Qed.

(** The stores beside MySQL after the dispatch. *)
Definition sent_out (m : MsgData) (w : World) : World :=
  with_kafka (w_kafka w ++ [(convID m, serverMsgID m)])
    (with_redis (set_strings <["msg:" +:+ serverMsgID m := serialize_msg m]> (w_redis w))
       (with_mongo (publish (serverMsgID m) (w_mongo w)) w)).

Definition dispatched_world (k : Z) (m : MsgData) (w : World) : World :=
  with_txn None (with_db
    (set_row (released (w_clock w (w_tick w) + 5000) "") k
       (lock_row (sendID m) (recvID m) (w_db w))).2
    (with_tick (S (w_tick w)) (sent_out m w))).

Lemma dispatch_run task m r doc w :
  w_faults w = [] → w_txn w = None → task_for task m r → t_im_outbox (w_db w) !! tk_id task = Some r →
  open_chat (w_db w) m → w_mongo w !! serverMsgID m = Some doc →
  t_im_message_receipts (w_db w) !! (recvID m, serverMsgID m) = None →
  phase task false w = (inr true, dispatched_world (tk_id task) m w).
Proof.
  intros Hf Hn Ht Hr Hch Hd Hrec. unfold phase, dispatched_world.
  erewrite (tx_run _ _ _ _ _ Hf Hn); cycle 1.
  - rewrite (phase_action_run task m r) by done. unfold dispatch_message.
    rewrite (tf_id _ _ _ Ht), (tf_peer _ _ _ Ht), (tf_conversation _ _ _ Ht).
    erewrite bind_run by by apply (PublishMessage_run _ doc).
    erewrite bind_run by by apply query_run. world_simpl.
    match goal with |- context [t_im_message_receipts ?d !! (recvID m, serverMsgID m)] =>
      change (t_im_message_receipts d) with (t_im_message_receipts (w_db w)) end.
    rewrite Hrec.
    erewrite bind_run by by apply SaveMsg_run. cbn [negb].
    erewrite bind_run by by apply deliver_run. cbn [negb].
    erewrite bind_run by reflexivity. erewrite bind_run by by apply update_run. reflexivity.
  - done.
  - done.
  - done.
Qed.

(** * One pass of the worker *)

Definition persisted_world (k : Z) (m : MsgData) (json : string) (w : World) : World :=
  with_txn None (with_db
    (set_row staged k (recorded m json (lock_row (sendID m) (recvID m) (w_db w)))).2
    (with_mongo (set_on_insert (serverMsgID m) (doc_of m false) (w_mongo w)) w)).

(** What recording a message leaves alone. *)
Lemma recorded_same m json d :
  let d' := recorded m json d in
  t_im_outbox d' = t_im_outbox d ∧ t_friends d' = t_friends d ∧
  t_friend_chat_deletions d' = t_friend_chat_deletions d ∧
  t_im_message_receipts d' = t_im_message_receipts d.
Proof.
  unfold recorded, insert_unread, bump_unread. cbn zeta. set (d1 := set_im_conversations _ d).
  destruct (t_im_conversations d1 !! _) as [c|]; [|done]. by destruct (_ && _).
Qed.

Lemma set_on_insert_there id doc store : is_Some (set_on_insert id doc store !! id).
Proof.
  unfold set_on_insert. destruct (store !! id) as [x|] eqn:E; [by rewrite E|].
  rewrite lookup_insert_eq. by eexists.
Qed.

(** A message that can be stored and shown. *)
Record sendable (m : MsgData) (json : string) : Prop := {
  sd_group : isGroupMsg m = false;
  sd_seq : 0 < seq m <= int64_max;
  sd_json : summary_json m = inr json;
}.

Lemma dispatched_txn k m w : w_txn (dispatched_world k m w) = None.
Proof. done. Qed.

Lemma process_run task m r json w :
  w_faults w = [] → w_txn w = None → task_for task m r → t_im_outbox (w_db w) !! tk_id task = Some r →
  o_stage r = 0 → open_chat (w_db w) m → sendable m json →
  t_im_message_receipts (w_db w) !! (recvID m, serverMsgID m) = None →
  ProcessOutboxTask task w =
    (inr tt, dispatched_world (tk_id task) m (persisted_world (tk_id task) m json w)).
Proof.
  intros Hf Hn Ht Hr Hst Hch [Hg Hs Hj] Hrec. unfold ProcessOutboxTask.
  set (d0 := lock_row (sendID m) (recvID m) (w_db w)).
  destruct (recorded_same m json d0) as (Eo & Ef & Ed & Er).
  destruct (set_on_insert_there (serverMsgID m) (doc_of m false) (w_mongo w)) as [doc Hdoc].
  rewrite (with_connection_nofault _ _ (inr tt) (dispatched_world (tk_id task) m (persisted_world (tk_id task) m json w)));
    [by rewrite Hn, (with_txn_none _ (dispatched_txn _ _ _))|done|]. rewrite (with_txn_none w Hn), (tf_operation _ _ _ Ht). cbn [Z.eqb Pos.eqb].
  erewrite bind_run by (apply (persist_run task m r json); first [done|lia]).
  cbv beta iota. erewrite bind_run; [reflexivity|].
  apply (dispatch_run task m (staged r) doc); [exact Hf|reflexivity| | | |exact Hdoc|].
  - destruct Ht. split; try done. by apply staged_evolves.
  - change (t_im_outbox (w_db _)) with (alter staged (tk_id task) (t_im_outbox (recorded m json d0))).
    rewrite lookup_alter_eq, Eo. change (t_im_outbox d0) with (t_im_outbox (w_db w)). by rewrite Hr.
  - by apply (open_chat_same (w_db w)).
  - change (t_im_message_receipts (w_db _)) with (t_im_message_receipts (recorded m json d0)). by rewrite Er.
Qed.

(** ** The claim *)

Definition claim_ticks (w : World) (d : Database) : nat :=
  match ready_task (w_clock w (w_tick w)) d with Some _ => 1%nat | None => 2%nat end.

Definition claimed_row (w : World) (d : Database) : OutboxRow → OutboxRow :=
  leased (w_uuid w (w_uuids w)) (w_clock w (claim_ticks w d + w_tick w) + 45000).

Lemma claim_action_run k r w d :
  w_faults w = [] →
  claimable (w_clock w (w_tick w)) (w_clock w (1 + w_tick w)) d = Some (k, r) → 0 <= o_seq r →
  claim (with_txn (Some d) w) =
    (inr (Some (with_lease (w_uuid w (w_uuids w)) (task_of k r))),
     with_txn (Some (set_row (claimed_row w d) k d).2)
       (with_uuids (S (w_uuids w)) (with_tick (S (claim_ticks w d) + w_tick w) w))).
Proof.
  intros Hf Hc Hs. unfold claim, claimed_row, claim_ticks. erewrite bind_run by reflexivity.
  erewrite bind_run by by apply query_run. unfold claimable in Hc.
  change (view (with_tick _ _)) with d. change (w_clock (with_txn _ w) _) with (w_clock w (w_tick w)).
  assert (Hrow : lift (outboxRow (outbox_columns (k, r))) =  lift (inr (task_of k r)))
    by by rewrite outboxRow_columns, (proj2 (Z.leb_le 0 _)).
  destruct (ready_task (w_clock w (w_tick w)) d) as [p|].
  - injection Hc as ->. erewrite bind_run by reflexivity. cbv beta iota. rewrite Hrow.
    do 3 erewrite bind_run by reflexivity. erewrite bind_run by by apply update_run. reflexivity.
  - erewrite (bind_run _ _ _ (Some (k, r)) (with_tick (2 + w_tick w) (with_txn (Some d) w))); cycle 1.
    { erewrite bind_run by reflexivity. rewrite query_run by done.
      change (view _) with d. change (w_clock _ _) with (w_clock w (1 + w_tick w)). by rewrite Hc. }
    cbv beta iota. rewrite Hrow.
    do 3 erewrite bind_run by reflexivity. erewrite bind_run by by apply update_run. reflexivity.
Qed.

Definition claimed_world (k : Z) (w : World) : World :=
  with_txn None (with_db (set_row (claimed_row w (w_db w)) k (w_db w)).2
    (with_uuids (S (w_uuids w)) (with_tick (S (claim_ticks w (w_db w)) + w_tick w) w))).

Lemma claim_run k r w :
  w_faults w = [] → w_txn w = None →
  claimable (w_clock w (w_tick w)) (w_clock w (1 + w_tick w)) (w_db w) = Some (k, r) → 0 <= o_seq r →
  ClaimOutboxTask w =
    (inr (Some (with_lease (w_uuid w (w_uuids w)) (task_of k r))), claimed_world k w).
Proof.
  intros Hf Hn Hc Hs. unfold ClaimOutboxTask, claimed_world.
  erewrite with_connection_nofault; [rewrite Hn|done|]; cycle 1.
  - rewrite (with_txn_none w Hn). eapply (tx_run _ _ _ _ _ Hf Hn).
    + by apply claim_action_run.
    + done.
    + done.
  - done.
Qed.

(** The row of a queued message that has not been stored yet. *)
Record row_for (m : MsgData) (r : OutboxRow) : Prop := {
  rf_ok : row_ok r;
  rf_operation : o_operation r = 1;
  rf_stage : o_stage r = 0;
  rf_done : o_dispatch_done r = 0;
  rf_actor : o_actor r = sendID m;
  rf_peer : o_peer r = recvID m;
  rf_conversation : o_conversation r = convID m;
  rf_id : o_server_msg_id r = serverMsgID m;
  rf_seq : o_seq r = seq m;
  rf_payload : msg_of_json (o_payload r) = Some m;
}.

Lemma row_for_task m r token until : 
  row_for m r → 0 < seq m <= int64_max → ∀ k,
  task_for (with_lease token (task_of k r)) m (leased token until r).
Proof.
  intros [Hok Hop Hst _ Ha Hp Hc Hi Hs Hm] Hr k. split; cbn; try done.
  - by rewrite Hop.
  - rewrite Hs. apply to_int64_id. unfold is_int64, int64_min. lia.
  - destruct Hok as [? ? ?]. split; cbn; lia.
  - rewrite Hs. lia.
Qed.

(** What each part of the pass leaves in the stores. *)
Record stores_of (w : World) (mongo : gmap string document) (redis : RedisStore)
    (kafka : list (string * string)) (g : Gateway) : Prop := mkStores {
  st_faults : w_faults w = [];
  st_txn : w_txn w = None;
  st_mongo : w_mongo w = mongo;
  st_redis : w_redis w = redis;
  st_kafka : w_kafka w = kafka;
  st_gateway : w_gateway w = g;
}.

Lemma claimed_stores k w mo re ka g : stores_of w mo re ka g → stores_of (claimed_world k w) mo re ka g.
Proof. by intros [? ? ? ? ? ?]. Qed.

Lemma persisted_stores k m json w mo re ka g :
  stores_of w mo re ka g →
  stores_of (persisted_world k m json w) (set_on_insert (serverMsgID m) (doc_of m false) mo) re ka g.
Proof. intros [? ? <- ? ? ?]. by split. Qed.

Definition cached (m : MsgData) (re : RedisStore) : RedisStore :=
  set_strings <["msg:" +:+ serverMsgID m := serialize_msg m]> re.

Lemma dispatched_stores k m w mo re ka g :
  stores_of w mo re ka g →
  stores_of (dispatched_world k m w) (publish (serverMsgID m) mo) (cached m re)
    (ka ++ [(convID m, serverMsgID m)]) g.
Proof. intros [? ? <- <- <- ?]. by split. Qed.

Definition pass_world (k : Z) (m : MsgData) (json : string) (w : World) : World :=
  dispatched_world k m (persisted_world k m json (claimed_world k w)).

Lemma pass_stores k m json w mo re ka g :
  stores_of w mo re ka g →
  stores_of (pass_world k m json w)
    (publish (serverMsgID m) (set_on_insert (serverMsgID m) (doc_of m false) mo))
    (cached m re) (ka ++ [(convID m, serverMsgID m)]) g.
Proof. intros H. by apply dispatched_stores, persisted_stores, claimed_stores. Qed.

Lemma GetOutboxTask_run k r w :
  w_faults w = [] → w_txn w = None → t_im_outbox (w_db w) !! k = Some r → 0 <= o_seq r →
  GetOutboxTask k w = (inr (task_of k r), w).
Proof.
  intros Hf Hn Hr Hs. unfold GetOutboxTask.
  rewrite (with_connection_nofault _ _ (inr (task_of k r)) w); [by rewrite Hn, (with_txn_none w Hn)|done|].
  rewrite with_txn_none by done. erewrite bind_run by by apply query_run.
  unfold view. rewrite Hn. cbn [default]. rewrite Hr.
  by rewrite outboxRow_columns, (proj2 (Z.leb_le 0 _)).
Qed.

(** The row of the task after the pass. *)
Lemma pass_row k m json w r :
  t_im_outbox (w_db w) !! k = Some r →
  ∃ t u, t_im_outbox (w_db (pass_world k m json w)) !! k = Some (released t "" (staged (leased (w_uuid w (w_uuids w)) u r))).
Proof.
  intros Hr. unfold pass_world, dispatched_world. set (w2 := persisted_world _ _ _ _).
  set (t := w_clock w2 _ + _).
  change (t_im_outbox (w_db _)) with (alter (released t "") k (t_im_outbox (w_db w2))).
  rewrite lookup_alter_eq. unfold w2, persisted_world. set (w1 := claimed_world k w).
  change (t_im_outbox (w_db (with_txn None _))) with
    (alter staged k (t_im_outbox (recorded m json (lock_row (sendID m) (recvID m) (w_db w1))))).
  rewrite lookup_alter_eq. destruct (recorded_same m json (lock_row (sendID m) (recvID m) (w_db w1))) as [-> _].
  change (t_im_outbox (lock_row _ _ (w_db w1))) with (alter (claimed_row w (w_db w)) k (t_im_outbox (w_db w))).
  rewrite lookup_alter_eq, Hr. by eexists _, _.
Qed.

Definition told (m : MsgData) : SenderPush :=
  mkSenderPush (sendID m) (clientMsgID m) (mkSendInfo (Some m) "0" "").

Lemma worker_pass_run what k m r json w :
  w_faults w = [] → w_txn w = None → row_for m r →
  claimable (w_clock w (w_tick w)) (w_clock w (1 + w_tick w)) (w_db w) = Some (k, r) →
  open_chat (w_db w) m → sendable m json →
  t_im_message_receipts (w_db w) !! (recvID m, serverMsgID m) = None →
  worker_pass what w = (inr (Some (told m), None), pass_world k m json w).
Proof.
  intros Hf Hn Hr Hc Hch Hs Hrec. pose proof (claimable_row _ _ _ _ _ Hc) as [Hk _].
  assert (Hseq : 0 <= o_seq r) by (rewrite (rf_seq _ _ Hr); destruct Hs; lia).
  unfold worker_pass. erewrite bind_run by by apply catch_run, claim_run.
  set (task := with_lease _ _). set (w1 := claimed_world k w).
  assert (Hp : ProcessOutboxTask task w1 = (inr tt, pass_world k m json w)).
  { apply (process_run task m (claimed_row w (w_db w) r)); [done|done| | | | |done|done].
    - apply row_for_task; [done|]. by destruct Hs.
    - change (alter (claimed_row w (w_db w)) k (t_im_outbox (w_db w)) !! k = Some (claimed_row w (w_db w) r)).
      by rewrite lookup_alter_eq, Hk.
    - exact (rf_stage _ _ Hr).
    - by apply (open_chat_same (w_db w)). }
  cbv beta iota. erewrite bind_run by by apply catch_run. cbv beta iota zeta.
  destruct (pass_row k m json w r Hk) as (t & u & Hrow). set (r' := released _ _ _) in Hrow.
  rewrite (bind_run _ _ _ (inr (Some (told m))) (pass_world k m json w)); [done|]. apply catch_run.
  erewrite bind_run by reflexivity. erewrite bind_run by by apply (GetOutboxTask_run k r').
  destruct Hr as [Hok Hop Hst _ Ha Hp' Hcv Hi Hsq Hm]. unfold notifySender. cbn.
  rewrite Hop, Hm, Ha. done.
Qed.
End delivery.
