(* ===== verification/DeliveryTheorems.v ===== *)
(** End to end: a message that is sent while nothing fails is stored, published, handed
    to the push service and queued on the receiver's session, and both sides are told
    so. *)
From S2P Require Import Prelude Table Snowflake Schema Effects Users Stores Conversations Samples Friendship Outbox OutboxWorker OutboxProofs OutboxTheorems MsgService Gateway GatewayProofs Push PushTheorems Delivery.

Section push.
Context {js : Json} {pb : Protobuf} {pbok : ProtobufOk}.

(** * The push *)

(** The only task of the message is published and not over. *)
Record published (m : MsgData) (k : Z) (d : Database) : Prop := {
  pd_chat : open_chat d m;
  pd_seq : 0 < seq m <= int64_max;
  pd_id : serverMsgID m ≠ "";
  pd_row : ∃ r, t_im_outbox d !! k = Some r ∧ message_row (serverMsgID m) k r = true ∧
    o_stage r = 1 ∧ o_state r = 0 ∧ o_dispatch_done r = 0;
  pd_only k' r' : t_im_outbox d !! k' = Some r' → message_row (serverMsgID m) k' r' = true → k' = k;
  pd_receipt : t_im_message_receipts d !! (recvID m, serverMsgID m) = None;
}.

Lemma published_select m k d :
  published m k d → ∃ r, select_one (message_row (serverMsgID m)) (t_im_outbox d) = Some (k, r) ∧
    o_stage r = 1 ∧ o_state r = 0 ∧ o_dispatch_done r = 0.
Proof.
  intros [_ _ _ (r & Hk & Hm & Hr) Ho _]. exists r. split; [|done].
  destruct (select_one_is_Some (message_row (serverMsgID m)) (t_im_outbox d) k r) as [[k' r'] E]; [done..|].
  pose proof E as (Hk' & Hm' & _)%select_one_Some. assert (k' = k) as -> by by eapply Ho.
  rewrite E. by simplify_eq.
Qed.

Lemma delivery_allowed_run m k w :
  w_faults w = [] → published m k (view w) → message_allowed m true w = (inr true, w).
Proof.
  intros Hf Hp. pose proof (published_select _ _ _ Hp) as (r & Hsel & Hst & Hs0 & _).
  destruct Hp as [[(Hne & Hc & Hd) Hs] Hseq Hid _ _ Hrec]. unfold message_allowed.
  erewrite bind_run by by apply query_run. unfold count_pair. rewrite Hc, count_field by lia.
  erewrite bind_run by reflexivity. rewrite (proj2 (Z.eqb_neq _ _)) by done. cbn [orb Z.eqb Pos.eqb negb].
  erewrite bind_run by by apply query_run.
  rewrite (bind_run _ _ _ true w); cycle 1.
  { destruct (deleted_seq _ _ (view w)) as [s|] eqn:E; [|done]. specialize (Hs s eq_refl).
    rewrite count_field by lia. erewrite bind_run by reflexivity.
    rewrite to_int64_id in Hd by (unfold is_int64, int64_min; lia).
    rewrite to_uint64_id by (unfold is_uint64, uint64_max; unfold int64_max in *; lia).
    by rewrite (proj2 (Z.ltb_lt _ _)). }
  cbn [negb orb]. destruct (serverMsgID m) as [|c id] eqn:Eid; [done|]. cbn [str_empty].
  rewrite <- Eid in *. erewrite bind_run by by apply query_run. rewrite Hsel. cbn [snd fmap option_fmap option_map].
  erewrite bind_run; cycle 1.
  { do 2 erewrite bind_run by reflexivity. rewrite Hst, Hs0. reflexivity. }
  cbn [Z.leb Z.compare Z.eqb negb andb Pos.compare Pos.compare_cont]. rewrite query_run by done.
  by rewrite bool_decide_true.
Qed.

Lemma WithFriendMessage_run {A} (m : MsgData) (action : M A) k w a w1 d :
  w_faults w = [] → w_txn w = None → published m k (w_db w) →
  action (with_txn (Some (lock_row (sendID m) (recvID m) (w_db w))) w) = (inr a, w1) →
  w_faults w1 = [] → w_txn w1 = Some d →
  WithFriendMessage m action true w = (inr (Some a), with_txn None (with_db d w1)).
Proof.
  intros Hf Hn Hp Ha Hf1 Hd. unfold WithFriendMessage.
  rewrite (with_connection_nofault _ _ (inr (Some a)) (with_txn None (with_db d w1)));
    [by rewrite Hn|done|]. rewrite (with_txn_none w Hn).
  erewrite bind_run; cycle 1.
  { unfold initialize. erewrite bind_run by by apply query_run. erewrite bind_run by reflexivity. reflexivity. }
  erewrite bind_run by by apply query_run. erewrite bind_run by by apply start_run.
  rewrite (bind_run _ _ _ (inr (Some a)) (with_txn None (with_db d w1))); [done|].
  apply catch_run. unfold friend_message_body.
  replace (view w) with (w_db w) by (unfold view; by rewrite Hn).
  erewrite bind_run by by apply update_run. cbn [snd].
  change (put _ (with_txn _ w)) with (with_txn (Some (lock_row (sendID m) (recvID m) (w_db w))) w).
  erewrite bind_run; cycle 1.
  { apply (delivery_allowed_run m k); [done|]. destruct Hp as [Hc Hs Hi Hr Ho Hrec].
    split; try done. by apply (open_chat_same (w_db w)). }
  cbv beta iota. erewrite bind_run; [|by erewrite bind_run by exact Ha].
  erewrite bind_run by by apply commit_run. by rewrite (view_txn d).
Qed.

(** ** The gateway *)

(** A session of the receiver that takes frames. *)
Record listening (account : Z) (s : nat) (x : WSSession) (q : list SdkWSResp) (g : Gateway) : Prop := {
  ls_registered : sessions_ g !! account = Some s;
  ls_session : g_conns g !! s = Some x;
  ls_open : disconnected_ x = false;
  ls_queue : write_queue_ x = Some q;
  ls_room : Z.of_nat (length q) < 256;
}.

Lemma try_send_run account s x q g f :
  listening account s x q g → try_send f (conn s g) = Some (set_queue (Some (q ++ [f])) x).
Proof.
  intros [_ Hx Ho Hq Hr]. unfold try_send. rewrite (conn_lookup s g x Hx), Hq, Ho.
  by rewrite (proj2 (Z.ltb_lt _ _)).
Qed.

Definition pushed (s : nat) (f : SdkWSResp) (w : World) : World :=
  with_gateway (queued s f (w_gateway w)) w.

Lemma pushToUser_run account s x q f w :
  listening account s x q (w_gateway w) → pushToUser account f w = (inr true, pushed s f w).
Proof.
  intros Hl. unfold pushToUser. erewrite bind_run by reflexivity. rewrite (ls_registered _ _ _ _ _ Hl).
  erewrite bind_run; [reflexivity|]. unfold asyncSend. erewrite bind_run by reflexivity.
  change (conn s (w_gateway (with_gateway (w_gateway w) w))) with (conn s (w_gateway w)).
  rewrite (conn_lookup _ _ _ (ls_session _ _ _ _ _ Hl)), (ls_open _ _ _ _ _ Hl).
  pose proof (try_send_run account s x q _ f Hl) as Ht.
  rewrite (conn_lookup _ _ _ (ls_session _ _ _ _ _ Hl)) in Ht. rewrite Ht.
  unfold pushed, queued. rewrite (conn_lookup _ _ _ (ls_session _ _ _ _ _ Hl)), Ht. done.
Qed.

Lemma rpc_run {A} (call : M (grpc_status * A)) none a w w1 :
  w_faults w = [] → call w = (inr (Status_OK, a), w1) → w_faults w1 = [] →
  rpc call none w = (inr (Status_OK, a), w1).
Proof.
  intros Hf Hc Hf1. unfold rpc. rewrite remote_nofault by done. unfold catch. rewrite Hc.
  by rewrite remote_nofault.
Qed.

Definition push_done (m : MsgData) (s : nat) (w : World) : World :=
  with_txn None (with_db (lock_row (sendID m) (recvID m) (w_db w)) (pushed s (push_frame m) w)).

Lemma PushMsg_run m k s x q w :
  w_faults w = [] → w_txn w = None → isGroupMsg m = false → recvID m ≠ 0 → published m k (w_db w) →
  r_strings (w_redis w) !! online_key (recvID m) = Some "1" →
  listening (recvID m) s x q (w_gateway w) →
  PushMsg (Some m) w = (inr (Status_OK, tt), push_done m s w).
Proof.
  intros Hf Hn Hg Hr Hp Hon Hl. unfold PushMsg. rewrite Hg.
  erewrite bind_run; [|apply catch_run; eapply (WithFriendMessage_run m _ k); [done..| | |]]; cycle 1.
  - unfold push_action. erewrite bind_run.
    2: { unfold redis_get, redis. rewrite remote_nofault by done. reflexivity. }
    change (w_redis (with_txn _ w)) with (w_redis w). rewrite Hon. cbv beta iota zeta.
    rewrite bool_decide_true by done. cbn [orb]. unfold client_PushToUser.
    erewrite bind_run; cycle 1.
    { eapply rpc_run; [done| |].
      - unfold PushToUser. rewrite (proj2 (Z.eqb_neq _ _)) by done.
        erewrite bind_run by by apply (pushToUser_run _ s x q). reflexivity.
      - done. }
    reflexivity.
  - done.
  - done.
  - done.
Qed.

(** * The consumer *)

Definition confirmed_world (m : MsgData) (s : nat) (w : World) : World :=
  let w1 := push_done m s w in
  with_db (set_im_outbox (update_where (published_row (serverMsgID m)) dispatched) (w_db w1)) w1.

Lemma stored_run m w :
  w_faults w = [] → r_strings (w_redis w) !! ("msg:" +:+ serverMsgID m) = Some (serialize_msg m) →
  stored_message (serverMsgID m) w = (inr (Some m), w).
Proof using pb pbok.
  intros Hf Hc. unfold stored_message, GetMsg.
  rewrite (bind_run _ _ _ (Some m) w); [done|]. erewrite bind_run; cycle 1.
  - apply catch_run. unfold redis_get, redis. rewrite remote_nofault by done. reflexivity.
  - rewrite Hc, parse_serialize. unfold mret, M_ret. f_equal. by destruct w.
Qed.

Lemma handle_run m k s x q w :
  w_faults w = [] → w_txn w = None → isGroupMsg m = false → recvID m ≠ 0 → published m k (w_db w) →
  find_char "|"%char (serverMsgID m) = None →
  r_strings (w_redis w) !! ("msg:" +:+ serverMsgID m) = Some (serialize_msg m) →
  r_strings (w_redis w) !! online_key (recvID m) = Some "1" →
  listening (recvID m) s x q (w_gateway w) →
  PushHandler_handle (serverMsgID m) w = (inr tt, confirmed_world m s w).
Proof using js pb pbok.
  intros Hf Hn Hg Hr Hp Hbar Hc Hon Hl. unfold PushHandler_handle, server_msg_id. rewrite Hbar. cbn zeta.
  rewrite (bind_run _ _ _ (Some m) w) by by apply stored_run.
  cbv beta iota. rewrite Hg. destruct (published_select _ _ _ Hp) as (r & Hsel & Hst & Hs0 & Hd0).
  erewrite (bind_run _ _ _ false); cycle 1.
  { unfold MessageDispatchDone. rewrite (with_connection_nofault _ _ (inr false) (with_txn None w)); [reflexivity|done|].
    rewrite query_run by done. do 2 f_equal. change (view (with_txn None w)) with (w_db w).
    rewrite (bool_decide_false (_ !! _ ≠ None)) by (rewrite (pd_receipt _ _ _ Hp); by intros []).
    rewrite bool_decide_false; [done|]. intros Hno. apply Hno. apply select_one_None. intros k' r' Hk'.
    destruct (message_row _ k' r') eqn:Hm; [|done].
    pose proof (pd_only _ _ _ Hp k' r' Hk' Hm) as ->. apply select_one_Some in Hsel as (Hk & _).
    assert (r' = r) as -> by congruence. by rewrite Hs0, Hd0. }
  cbv beta iota. set (w0 := with_txn _ (with_txn None w)).
  assert (Hw0 : w0 = w) by (unfold w0; rewrite Hn; by apply (with_txn_none w)). rewrite Hw0.
  erewrite bind_run; [|apply rpc_run; [done|by apply (PushMsg_run m k s x q)|done]]. cbn [fst].
  unfold ConfirmMessageDispatch. erewrite with_connection_nofault; [|done|by apply update_run]. done.
Qed.
End push.

(** * The sender *)

Section send.
Context {js : Json} {jsok : JsonOk} {pb : Protobuf} {pbok : ProtobufOk}.

Lemma first_by_only f P d k r :
  t_im_outbox d !! k = Some r → P r = true →
  (∀ k' r', t_im_outbox d !! k' = Some r' → P r' = true → k' = k) →
  first_by f P d = Some (k, r).
Proof.
  intros Hk HP Honly. destruct (first_by f P d) as [[k' r']|] eqn:E.
  - apply first_by_Some in E as (Hk' & HP' & _). assert (k' = k) as -> by by eapply Honly. congruence.
  - by rewrite (first_by_None _ _ _ E k r Hk) in HP.
Qed.

Definition sent_row (m : MsgData) (payload : string) : OutboxRow :=
  new_outbox_row 1 (message_key m) (sendID m) (recvID m) (convID m) (serverMsgID m) (seq m) payload.

Definition queued_db (m : MsgData) (payload : string) (d : Database) : Database :=
  (insert_row (sent_row m payload) (lock_row (sendID m) (recvID m) d)).2.

Definition queued_task (m : MsgData) (payload : string) (d : Database) : OutboxTask :=
  mkOutboxTask (t_im_outbox_next d) (sendID m) (recvID m) (seq m) 1 0 0 0 false (convID m)
    (serverMsgID m) payload "".

(** A new message that can be queued, stored and shown. *)
Record acceptable (m : MsgData) (payload json : string) (w : World) : Prop := {
  ac_valid : valid_single m = true;
  ac_sendable : sendable m json;
  ac_chat : open_chat (w_db w) m;
  ac_payload : msg_to_json m = Some payload;
  ac_id : serverMsgID m ≠ "";
  ac_key : select_one (same_key 1 (message_key m)) (t_im_outbox (w_db w)) = None;
  ac_fresh k r : t_im_outbox (w_db w) !! k = Some r → message_row (serverMsgID m) k r = false;
  ac_receipt : t_im_message_receipts (w_db w) !! (recvID m, serverMsgID m) = None;
  ac_body : w_mongo w !! serverMsgID m = None;
}.

Lemma queue_run m payload json w :
  w_faults w = [] → w_txn w = None → acceptable m payload json w →
  QueueSingleMessage m w =
    (inr (queued_task m payload (w_db w)), with_txn None (with_db (queued_db m payload (w_db w)) w)).
Proof.
  intros Hf Hn Hac. unfold QueueSingleMessage. rewrite (ac_valid _ _ _ _ Hac). cbn [negb].
  erewrite with_connection_nofault; [rewrite Hn|done|]; cycle 1.
  - rewrite (with_txn_none w Hn). eapply (tx_run _ _ _ _ _ Hf Hn).
    + unfold queue_message, lockPair. erewrite bind_run by by apply update_run. cbn [snd].
      erewrite bind_run.
      2: { apply friendAllows_run; [done|]. apply (open_chat_same (w_db w)); [done..|]. apply Hac. }
      cbn [negb]. erewrite bind_run by by apply query_run.
      change (t_im_outbox (view _)) with (t_im_outbox (w_db w)). rewrite (ac_key _ _ _ _ Hac), (ac_payload _ _ _ _ Hac).
      erewrite bind_run; cycle 1.
      { rewrite execute_run by done. unfold insert_outbox. cbn [o_operation o_dedupe_key new_outbox_row].
        change (t_im_outbox (view _)) with (t_im_outbox (w_db w)). rewrite (ac_key _ _ _ _ Hac). reflexivity. }
      reflexivity.
    + done.
    + done.
  - done.
Qed.
Definition idle (d : Database) : Prop :=
  ∀ k r, t_im_outbox d !! k = Some r → o_state r = 2 ∨ o_state r = 3.

Lemma queued_claimable m payload d t0 t1 :
  idle d → 0 <= t0 →
  claimable t0 t1 (queued_db m payload d) = Some (t_im_outbox_next d, sent_row m payload).
Proof.
  intros Hidle Ht. unfold claimable, ready_task.
  assert (Hrow : t_im_outbox (queued_db m payload d) = <[t_im_outbox_next d := sent_row m payload]> (t_im_outbox d))
    by done.
  rewrite (first_by_only _ _ _ (t_im_outbox_next d) (sent_row m payload)); [done|..].
  - rewrite Hrow. apply lookup_insert_eq.
  - cbn. by apply Z.leb_le.
  - intros k r. rewrite Hrow. intros [[<- _]|[_ Hk]]%lookup_insert_Some Hr; [done|].
    apply andb_prop in Hr as [Hs%Z.eqb_eq _]. by destruct (Hidle k r Hk); congruence.
Qed.

(** ** After the pass *)

Definition after_queue (m : MsgData) (payload : string) (w0 w : World) : World :=
  with_txn None (with_db (queued_db m payload (w_db w0)) w).

Lemma sent_row_for m payload json w : acceptable m payload json w → row_for m (sent_row m payload).
Proof using jsok.
  intros Hac. split; try done. cbn. by apply (msg_json m), (ac_payload _ _ _ _ Hac).
Qed.

Lemma pass_outbox k m json w :
  ∃ f, t_im_outbox (w_db (pass_world k m json w)) = alter f k (t_im_outbox (w_db w)) ∧
    ∀ r, o_operation (f r) = o_operation r ∧ o_server_msg_id (f r) = o_server_msg_id r ∧
      o_stage (f r) = 1 ∧ o_state (f r) = 0 ∧ o_dispatch_done (f r) = o_dispatch_done r.
Proof.
  unfold pass_world, dispatched_world. set (w2 := persisted_world _ _ _ _). set (t := w_clock w2 _ + _).
  set (w1 := claimed_world k w) in *.
  destruct (recorded_same m json (lock_row (sendID m) (recvID m) (w_db w1))) as [Eo _].
  exists (λ r, released t "" (staged (claimed_row w (w_db w) r))). split; [|done].
  trans (alter (released t "") k (alter staged k
    (t_im_outbox (recorded m json (lock_row (sendID m) (recvID m) (w_db w1)))))); [done|].
  rewrite Eo. change (t_im_outbox (lock_row _ _ (w_db w1))) with
    (alter (claimed_row w (w_db w)) k (t_im_outbox (w_db w))).
  by rewrite !alter_alter_eq.
Qed.

Lemma pass_tables k m json w :
  let d := w_db (pass_world k m json w) in
  t_friends d = t_friends (w_db w) ∧ t_friend_chat_deletions d = t_friend_chat_deletions (w_db w) ∧
  t_im_message_receipts d = t_im_message_receipts (w_db w).
Proof.
  cbn zeta. set (d1 := w_db (claimed_world k w)).
  destruct (recorded_same m json (lock_row (sendID m) (recvID m) d1)) as (_ & Ef & Ed & Er).
  split; [exact Ef|]. split; [exact Ed|exact Er].
Qed.

Lemma pass_published m payload json w k d :
  acceptable m payload json w → k = t_im_outbox_next (w_db w) →
  w_db d = queued_db m payload (w_db w) →
  published m k (w_db (pass_world k m json d)).
Proof.
  intros Hac -> Hd. set (k := t_im_outbox_next (w_db w)).
  destruct (pass_outbox k m json d) as (f & Hout & Hf). destruct (pass_tables k m json d) as (Ef & Ed & Er).
  assert (Hrow : t_im_outbox (w_db d) = <[k := sent_row m payload]> (t_im_outbox (w_db w))) by by rewrite Hd.
  split.
  - apply (open_chat_same (w_db w)); [by rewrite Ef, Hd|by rewrite Ed, Hd|apply Hac].
  - apply (ac_sendable _ _ _ _ Hac).
  - apply (ac_id _ _ _ _ Hac).
  - exists (f (sent_row m payload)). rewrite Hout, Hrow, lookup_alter_eq, lookup_insert_eq.
    destruct (Hf (sent_row m payload)) as (Ho & Hi & Hst & Hs & Hdn). unfold message_row.
    rewrite Ho, Hi, Hdn. split; [done|]. split; [|done]. cbn. by apply bool_decide_eq_true.
  - intros k' r'. rewrite Hout, Hrow. destruct (decide (k' = k)) as [|Hne]; [done|].
    rewrite lookup_alter_ne, lookup_insert_ne by done. intros Hk Hm.
    by rewrite (ac_fresh _ _ _ _ Hac k' r' Hk) in Hm.
  - rewrite Er, Hd. apply (ac_receipt _ _ _ _ Hac).
Qed.

(** ** The reply *)

(** Readings of the clock are nonnegative, and two in a row less than eight seconds
    apart. *)
Definition steady (clock : nat → Z) : Prop := ∀ i, 0 <= clock i ∧ clock (S i) < clock i + 8000.

Definition sleep_pass (what : exn → string) : M unit := worker_pass what;; mret tt.

(** What the sender's call leaves behind: [w] is the world when it is queued. *)
Definition submitted (what : exn → string) (m : MsgData) (payload json : string) (w : World) : World :=
  pass_world (t_im_outbox_next (w_db w)) m json
    (with_tick (2 + w_tick w) (after_queue m payload w w)).

Lemma submit_run what fuel m payload json w :
  w_faults w = [] → w_txn w = None → steady (w_clock w) → idle (w_db w) → acceptable m payload json w →
  submit (sleep_pass what) (S fuel) m w =
    (inr (mkSendInfo (Some m) "0" ""), submitted what m payload json w).
Proof using jsok.
  intros Hf Hn Hclk Hidle Hac. unfold submit. erewrite bind_run by by apply (queue_run m payload json).
  erewrite bind_run by reflexivity. set (k := t_im_outbox_next (w_db w)).
  set (w1 := with_tick (2 + w_tick w) (after_queue m payload w w)).
  assert (Hpass : worker_pass what w1 = (inr (Some (told m), None), pass_world k m json w1)).
  { apply (worker_pass_run what k m (sent_row m payload)); [done|done|by eapply sent_row_for| | | |].
    - apply queued_claimable; [done|]. apply Hclk.
    - apply (open_chat_same (w_db w)); [done..|]. apply Hac.
    - apply Hac.
    - apply Hac. }
  destruct (pass_row k m json w1 (sent_row m payload)) as (t & u & Hrow); [apply lookup_insert_eq|].
  set (r' := released _ _ _) in Hrow.
  assert (Hget : GetOutboxTask k (pass_world k m json w1) = (inr (task_of k r'), pass_world k m json w1)).
  { apply GetOutboxTask_run; [done|done|done|]. cbn. destruct (ac_sendable _ _ _ _ Hac). lia. }
  rewrite (bind_run _ _ _ (task_of k r') (submitted what m payload json w)).
  - cbn. by rewrite (proj1 (msg_json m payload (ac_payload _ _ _ _ Hac))).
  - unfold submitted. fold k w1. clear Hrow. revert Hpass Hget. generalize (pass_world k m json w1) as w2.
    intros w2 Hpass Hget. cbn [poll tk_stage tk_state queued_task Z.eqb negb andb].
    erewrite bind_run by reflexivity. cbn [w_clock with_tick with_txn with_db w_tick].
    rewrite (proj2 (Z.ltb_lt _ _)) by apply Hclk.
    rewrite (bind_run _ _ _ tt w2).
    + rewrite (bind_run _ _ _ _ _ Hget). by destruct fuel.
    + unfold sleep_pass. by rewrite (bind_run _ _ _ _ _ Hpass).
Qed.

(** ** The summaries *)

(** The owner's list shows the conversation at least up to the message. *)
Definition shown (owner : Z) (m : MsgData) (d : Database) : Prop :=
  ∃ c, t_im_conversations d !! (owner, convID m) = Some c ∧ seq m <= c_max_seq c.

Lemma upsert_shown owner id peer sq time json t :
  ∃ c, upsert_conversation owner id peer sq time json t !! (owner, id) = Some c ∧ sq <= c_max_seq c.
Proof.
  unfold upsert_conversation. destruct (t !! (owner, id)) as [c|]; rewrite lookup_insert_eq;
    eexists; (split; [reflexivity|]); cbn; lia.
Qed.

Lemma upsert_other owner id peer sq time json t k :
  k ≠ (owner, id) → upsert_conversation owner id peer sq time json t !! k = t !! k.
Proof.
  intros Hk. unfold upsert_conversation. by destruct (t !! (owner, id)); rewrite lookup_insert_ne.
Qed.

Lemma bump_shown a id owner m d : shown owner m d → shown owner m (bump_unread a id d).2.
Proof.
  intros (c & Hc & Hs). unfold shown.
  change (t_im_conversations (bump_unread a id d).2) with
    (alter (λ r, with_unread (c_unread_count r + 1) r) (a, id) (t_im_conversations d)).
  destruct (decide ((a, id) = (owner, convID m))) as [E|E].
  - rewrite E, lookup_alter_eq, Hc. by eexists.
  - rewrite lookup_alter_ne by done. by eexists.
Qed.

Lemma recorded_shown m json d :
  sendID m ≠ recvID m → shown (sendID m) m (recorded m json d) ∧ shown (recvID m) m (recorded m json d).
Proof.
  intros Hne. unfold recorded. cbn zeta. set (d1 := set_im_conversations _ d).
  assert (H1 : shown (sendID m) m d1 ∧ shown (recvID m) m d1).
  { split; unfold shown; [|apply upsert_shown].
    change (t_im_conversations d1) with (upsert_conversation (recvID m) (convID m) (sendID m) (seq m)
      (to_uint64 (sendTime m)) json (upsert_conversation (sendID m) (convID m) (recvID m) (seq m)
      (to_uint64 (sendTime m)) json (t_im_conversations d))).
    rewrite upsert_other by congruence. apply upsert_shown. }
  unfold insert_unread. destruct (t_im_conversations d1 !! _) as [c|]; [|done].
  destruct (_ && _); [|done]. cbn [Z.eqb]. destruct H1. split; by apply bump_shown.
Qed.

(** * The theorem *)

Lemma send_one_run what fuel msg w sq sn tk payload json :
  let m := with_ids (conversation_id (sendID msg) (recvID msg)) (w_uuid w (w_uuids w)) sq (w_clock w tk) msg in
  let w3 := with_tick (S tk) (with_snow sn (with_tick tk (with_uuids (S (w_uuids w)) w))) in
  w_faults w = [] → w_txn w = None → steady (w_clock w) → idle (w_db w) → isGroupMsg msg = false →
  nextId (w_fuel w) (w_clock w) (w_tick w) (w_snow w) = (Id sq, sn, tk) → acceptable m payload json w →
  send_one (sleep_pass what) (S fuel) msg w =
    (inr (mkSendInfo (Some m) "0" ""), submitted what m payload json w3).
Proof using jsok.
  cbn zeta. intros Hf Hn Hclk Hidle Hg Hid Hac. unfold send_one. rewrite Hg.
  erewrite bind_run by reflexivity.
  rewrite (bind_run _ _ _ sq (with_snow sn (with_tick tk (with_uuids (S (w_uuids w)) w)))).
  2: { unfold snowflake_nextId. cbn. by rewrite Hid. }
  erewrite bind_run by reflexivity. set (w3 := with_tick (S tk) _).
  change (with_tick (S (w_tick _)) _) with w3. change (w_clock (with_snow _ _) _) with (w_clock w tk).
  set (m := with_ids _ _ _ _ _) in *.
  rewrite (bind_run _ _ _ (inr (mkSendInfo (Some m) "0" "")) (submitted what m payload json w3)); [done|].
  apply catch_run, submit_run; [done..|]. destruct Hac. by split.
Qed.

Lemma confirmed_outbox m s w :
  t_im_outbox (w_db (confirmed_world m s w)) =
    update_where (published_row (serverMsgID m)) dispatched (t_im_outbox (w_db w)).
Proof. done. Qed.

Lemma confirmed_gateway m s w : w_gateway (confirmed_world m s w) = queued s (push_frame m) (w_gateway w).
Proof. done. Qed.
Lemma confirmed_mongo m s w : w_mongo (confirmed_world m s w) = w_mongo w.
Proof. done. Qed.
Lemma confirmed_shown m s w owner m' : shown owner m' (w_db w) → shown owner m' (w_db (confirmed_world m s w)).
Proof. done. Qed.

Lemma valid_receiver m : valid_single m = true → recvID m ≠ 0.
Proof. unfold valid_single. intros Hv. bool_to_prop. tauto. Qed.

Lemma pass_shown k m json w owner :
  (owner = sendID m ∨ owner = recvID m) → sendID m ≠ recvID m →
  shown owner m (w_db (pass_world k m json w)).
Proof.
  intros Ho Hne. unfold pass_world. set (w1 := claimed_world k w).
  destruct (recorded_shown m json (lock_row (sendID m) (recvID m) (w_db w1)) Hne) as [H1 H2].
  destruct Ho as [->| ->]; [exact H1|exact H2].
Qed.

(** What is known of the world after the reply. *)
Lemma submitted_facts what m payload json w w3 :
  w_db w3 = w_db w → stores_of w3 (w_mongo w) (w_redis w) (w_kafka w) (w_gateway w) →
  acceptable m payload json w →
  let w1 := submitted what m payload json w3 in
  stores_of w1 (publish (serverMsgID m) (set_on_insert (serverMsgID m) (doc_of m false) (w_mongo w)))
    (cached m (w_redis w)) (w_kafka w ++ [(convID m, serverMsgID m)]) (w_gateway w) ∧
  published m (t_im_outbox_next (w_db w)) (w_db w1) ∧
  ∀ owner, owner = sendID m ∨ owner = recvID m → shown owner m (w_db w1).
Proof.
  intros Hdb Hst Hac. unfold submitted. rewrite Hdb. set (w4 := with_tick _ _). split; [|split].
  - apply pass_stores. destruct Hst. by split.
  - apply (pass_published m payload json w); [done|done|]. unfold w4, after_queue. cbn. by rewrite Hdb.
  - intros owner Ho. apply pass_shown; [done|]. apply (oc_may _ _ (ac_chat _ _ _ _ Hac)).
Qed.

(** C5: a message between friends arrives.  If nothing fails, the identifiers are
    fresh, no other task of the outbox is due and the receiver is logged in on a
    session with room in its queue: the sender's call answers success with the stored
    message after one pass of the worker; the identifier is in Kafka; when the push
    service consumes it, the message is the last frame of the receiver's queue; its
    body is stored and published in MongoDB, both users' conversation lists reach it,
    and its task is finished and confirmed. *)
Theorem send_delivers what fuel msg w sq sn tk payload json s x q :
  let m := with_ids (conversation_id (sendID msg) (recvID msg)) (w_uuid w (w_uuids w)) sq (w_clock w tk) msg in
  w_faults w = [] → w_txn w = None → steady (w_clock w) → idle (w_db w) → isGroupMsg msg = false →
  nextId (w_fuel w) (w_clock w) (w_tick w) (w_snow w) = (Id sq, sn, tk) → acceptable m payload json w →
  find_char "|"%char (serverMsgID m) = None →
  r_strings (w_redis w) !! online_key (recvID m) = Some "1" → listening (recvID m) s x q (w_gateway w) →
  ∃ w1 w2,
    send_one (sleep_pass what) (S fuel) msg w = (inr (mkSendInfo (Some m) "0" ""), w1) ∧
    w_kafka w1 = w_kafka w ++ [(convID m, serverMsgID m)] ∧
    PushHandler_handle (serverMsgID m) w1 = (inr tt, w2) ∧
    g_conns (w_gateway w2) !! s = Some (set_queue (Some (q ++ [push_frame m])) x) ∧
    w_mongo w2 !! serverMsgID m = Some (doc_of m true) ∧
    shown (sendID m) m (w_db w2) ∧ shown (recvID m) m (w_db w2) ∧
    (∃ k r, t_im_outbox (w_db w2) !! k = Some r ∧ message_row (serverMsgID m) k r = true ∧
       o_state r = 2 ∧ o_dispatch_done r = 1).
Proof using jsok pbok.
  cbn zeta. intros Hf Hn Hclk Hidle Hg Hid Hac Hbar Hon Hl. set (m := with_ids _ _ _ _ _) in *.
  pose proof (send_one_run what fuel msg w sq sn tk payload json Hf Hn Hclk Hidle Hg Hid Hac) as Hsend.
  cbn zeta in Hsend. fold m in Hsend. set (k := t_im_outbox_next (w_db w)).
  pose proof (oc_may _ _ (ac_chat _ _ _ _ Hac)) as (Hne & _).
  set (w3 := with_tick (S tk) _) in Hsend.
  assert (Hst3 : stores_of w3 (w_mongo w) (w_redis w) (w_kafka w) (w_gateway w)) by by split.
  destruct (submitted_facts what m payload json w w3 eq_refl Hst3 Hac) as (Hst & Hp & Hshow).
  fold k in Hp. set (w1 := submitted _ _ _ _ _) in *. clearbody w1.
  exists w1, (confirmed_world m s w1). split; [exact Hsend|]. destruct Hst as [Hf1 Hn1 Hmo Hre Hka Hga].
  split; [exact Hka|]. split; [|split; [|split; [|split; [|split]]]].
  - apply (handle_run m k s x q); [done|done|exact Hg|by apply valid_receiver, Hac|exact Hp|done| | |by rewrite Hga].
    + rewrite Hre. apply lookup_insert_eq.
    + rewrite Hre. cbn [r_strings cached set_strings]. by rewrite lookup_insert_ne.
  - rewrite confirmed_gateway, Hga. unfold queued. rewrite (try_send_run _ _ _ _ _ _ Hl).
    cbn [g_conns set_conns]. by rewrite lookup_alter_eq, (ls_session _ _ _ _ _ Hl).
  - rewrite confirmed_mongo, Hmo. unfold publish, set_on_insert.
    by rewrite (ac_body _ _ _ _ Hac), lookup_alter_eq, lookup_insert_eq.
  - apply confirmed_shown, Hshow; auto.
  - apply confirmed_shown, Hshow; auto.
  - destruct (pd_row _ _ _ Hp) as (r & Hr & Hm & Hst1 & Hs0 & Hd). exists k, (dispatched r). split; [|done].
    rewrite confirmed_outbox, lookup_update_where, Hr. cbn [fmap option_fmap option_map].
    unfold published_row. by rewrite Hm, Hst1, Hs0.
Qed.
End send.

(** * A run *)

(** Users 7 and 9 are friends; 9 is logged in on session 0. *)
Definition live_session : WSSession := mkWSSession 9 false (Some []) ∅ true [].
Definition live_w : World :=
  with_gateway (mkGateway {[ 0%nat := live_session ]} {[ 9 := 0%nat ]} 1)
    (with_redis (mkRedisStore {[ online_key 9 := "1" ]} ∅) (sample_world friends_db [])).
Definition live_id : Z := 192656126771335168.
Definition live_message : MsgData := with_ids "7_9" "uuid-" live_id (sample_clock 1) sample_message.
Definition live_json : Json := json_for live_message (summary live_message "{hello}").
Definition live_ok : JsonOk (H:=live_json) := json_for_ok _ _.

Lemma sample_clock_steady : steady sample_clock.
Proof.
  intros i. cbn. enough (0 <= sample_clock i) by lia. induction i as [|i IH]; cbn; lia.
Qed.

Lemma live_acceptable :
  acceptable (js:=live_json) live_message "M" "I" live_w.
Proof.
  split.
  - vm_compute. reflexivity.
  - split; [reflexivity|split; vm_compute; [reflexivity|discriminate]|vm_compute; reflexivity].
  - split; [apply (bool_decide_unpack _); vm_compute; exact I|].
    intros s. change (deleted_seq _ _ _) with (@None Z). discriminate.
  - vm_compute. reflexivity.
  - vm_compute. discriminate.
  - vm_compute. reflexivity.
  - intros k r. change (t_im_outbox (w_db live_w)) with (∅ : gmap Z OutboxRow). by rewrite lookup_empty.
  - vm_compute. reflexivity.
  - vm_compute. reflexivity.
Qed.

Lemma live_listening : listening 9 0 live_session [] (w_gateway live_w).
Proof. split; vm_compute; reflexivity. Qed.

Lemma live_idle : idle (w_db live_w).
Proof.
  intros k r. change (t_im_outbox (w_db live_w)) with (∅ : gmap Z OutboxRow). by rewrite lookup_empty.
Qed.

Lemma send_delivers_witness :
  ∃ w1 w2, w_kafka w1 = [("7_9", "uuid-")] ∧
    @PushHandler_handle wire_protobuf "uuid-" w1 = (inr tt, w2) ∧
    g_conns (w_gateway w2) !! 0%nat =
      Some (set_queue (Some [@push_frame wire_protobuf live_message]) live_session).
Proof.
  destruct (@send_delivers live_json live_ok wire_protobuf wire_ok (λ _, "") 0 sample_message live_w live_id
    (mkSnowflake 1 1 0 1750000000000) 1 "M" "I" 0 live_session [])
    as (w1 & w2 & _ & Hk & Hh & Hq & _).
  - reflexivity.
  - reflexivity.
  - exact sample_clock_steady.
  - exact live_idle.
  - reflexivity.
  - vm_compute. reflexivity.
  - exact live_acceptable.
  - vm_compute. reflexivity.
  - vm_compute. reflexivity.
  - exact live_listening.
  - exists w1, w2. split; [exact Hk|]. split; [exact Hh|exact Hq].
Defined.
