(* ===== verification/Session.v ===== *)
(** A session's conversation with its client ([src/gateway/ws_session.cpp]): the first
    frame (registration or log in), then the requests of the read loop, each passed
    to its service and answered through the write queue.

    Parsing and serialization of the protobuf payloads are parameters ([WsProto]).
    A call of a service is [rpc] of the handler that the service's own file models. *)
From S2P Require Import Prelude Table Snowflake Schema Effects Users Registration Stores Conversations Friendship Outbox Replies OutboxWorker MsgService Auth Gateway Push OfflineSync.
From S2P Require Friends Groups.

(** [sdkws::SdkWSReq] *)
Record SdkWSReq := mkSdkWSReq {
  rq_requestId : string; rq_token : string; rq_account : Z; rq_deviceID : string;
  rq_data : string; rq_type : Z;
}.

(** The commands about conversations, as their messages carry them. *)
Record MarkReadReq := mkMarkReadReq { mr_conversation : string; mr_seq : Z }.
Record SettingsReq := mkSettingsReq {
  sq_conversation : string; sq_hasPinned : bool; sq_pinned : bool; sq_hasOpt : bool; sq_opt : Z;
}.

Class WsProto := {
  parse_request : string → option SdkWSReq;
  parse_register : string → option (string * string * string);   (* phone, nickname, password *)
  parse_send : string → option (list MsgData);
  parse_ack : string → option (list string * Z);
  parse_group : string → option Groups.Command;
  parse_friend : string → option Friends.Command;
  parse_history : string → option HistoryReq;
  parse_mark_read : string → option MarkReadReq;
  parse_settings : string → option SettingsReq;
  parse_delete : string → option string;
  serialize_sent : list SendInfo → string;
  serialize_group : Groups.Reply → string;
  serialize_notice : Groups.Notice → string;
  serialize_friend : Friends.Reply → string;
  serialize_history : option HistoryResp → string;
  serialize_conversations : list Conversation → string;
}.

Section session.
Context {js : Json} {pb : Protobuf} {gp : Groups.GroupProto} {ws : WsProto}.
Context {dg : Digest} {sh : Shuffle}.
Context (sha256 : string → string) (redis_TTL : string → RedisStore → Z) (what : exn → string).
(** What happens elsewhere while [SendMessages] waits, and how often it looks. *)
Context (wait : M unit) (polls : nat).

(** * Clients of the services *)

(** [AuthClient]: a status that is not OK leaves the default reply; Register fills in
    an error. *)
Definition no_auth : AuthRegResponse := mkAuthRegResponse false "" "" "" 0 None.

Definition uncertain : AuthRegResponse :=
  auth_failed "REGISTRATION_UNCERTAIN" "Registration outcome unknown; retry the same request ID".

Definition client_Register (id phone nickname password : string) : M AuthRegResponse :=
  r ← rpc (Register sha256 id phone nickname password) no_auth;
  mret (match r.1 with Status_OK => r.2 | _ => uncertain end).
Definition client_Login (acc : Z) (password : string) : M AuthRegResponse :=
  r ← rpc (Login sha256 what acc password) no_auth; mret r.2.
Definition client_ValidateToken (token : string) : M ValidateTokenResponse :=
  r ← rpc (ValidateToken redis_TTL token) token_rejected; mret r.2.

(** A status that is not OK is thrown as a [runtime_error]. *)
Definition or_throw {A} (call : M (grpc_status * A)) (none : A) : M A :=
  r ← rpc call none;
  match r.1 with Status_OK => mret r.2 | Status _ text => throw (RuntimeError text) end.

Definition client_List (owner : Z) : M (list Conversation) := or_throw (svc_GetAllConversations owner) [].
Definition client_MarkRead (owner : Z) (q : MarkReadReq) : M unit :=
  or_throw (svc_MarkConversationRead owner (mr_conversation q) (mr_seq q)) tt.
Definition client_UpdateSettings (owner : Z) (q : SettingsReq) : M unit :=
  or_throw (svc_UpdateConversationSettings owner (sq_conversation q) (sq_hasPinned q) (sq_pinned q)
              (sq_hasOpt q) (sq_opt q)) tt.
Definition client_Delete (owner : Z) (id : string) : M unit :=
  or_throw (svc_DeleteConversation owner id) tt.
Definition client_History (q : HistoryReq) : M (option HistoryResp) :=
  or_throw (svc_GetSingleChatHistory q) None.
Definition client_Friend (c : Friends.Command) : M Friends.Reply :=
  r ← or_throw (Friends.Execute c) None; mret (default Friends.empty_reply r).

(** [MsgClient::SendMessages]: a status that is not OK is logged, and the default
    reply returned. *)
Definition client_SendMessages (msgs : list MsgData) : M (list SendInfo) :=
  r ← rpc (SendMessages wait polls msgs) []; mret r.2.

(** The other calls of [MsgClient]: logged, and the default reply returned. *)
Definition client_retired (c : retired) : M unit :=
  r ← rpc (mret (retired_status c, tt)) tt; mret r.2.

(** [GroupClient::Execute] *)
Definition group_unavailable : Groups.Reply := Groups.error_reply "DB_ERROR" "Group service unavailable".

(** The frames of [GroupServiceImpl::Notify], to the accounts [Groups.Execute] names. *)
Definition refresh_notice (group : string) : Groups.Notice := Groups.mkNotice group 0 [] true 0.

Fixpoint push_notices (group : string) (accounts : list Z) : M unit :=
  match accounts with
  | [] => mret tt
  | a :: accounts =>
      pushToUser a (with_data (serialize_notice (refresh_notice group)) (frame_of 251 a));;
      push_notices group accounts
  end.

Definition group_service (c : Groups.Command) : M (grpc_status * option Groups.Reply) :=
  online ← gateway (λ g, (λ a, hasSession a g, g));
  r ← Groups.Execute online c;
  match r.2 with
  | Some (reply, told) => push_notices (Groups.re_groupID reply) told;; mret (r.1, Some reply)
  | None => mret (r.1, None)
  end.

Definition client_Group (c : Groups.Command) : M Groups.Reply :=
  r ← rpc (group_service c) None;
  mret (match r.1 with Status_OK => default (Groups.error_reply "" "") r.2 | _ => group_unavailable end).

(** * The first frame *)

(** [ws_.async_write] and [ws_.async_close] before there is a queue. *)
Definition refuse (s : nat) (frame : SdkWSResp) : M unit :=
  ws_write s frame;; modify close_socket s.

(** An [async_write] without [redirect_error]. *)
Definition write_or_throw (s : nat) (frame : SdkWSResp) : M unit :=
  ok ← ws_write s frame; if (ok : bool) then mret tt else throw (RuntimeError "write").

Definition register_answer (req : SdkWSReq) (resp : AuthRegResponse) : SdkWSResp :=
  let base := with_device "" (rq_deviceID req) (with_request (rq_requestId req) (frame_of 0 0)) in
  if ar_success resp
  then mkSdkWSResp (ws_requestId base) "" (match ar_user resp with Some u => au_account u | None => 0 end)
         (ws_deviceID base) "" "" "" 0
  else with_result (if str_empty (ar_errorCode resp) then "REGISTER_FAILED" else ar_errorCode resp)
         (if str_empty (ar_errorMessage resp) then "Registration failed" else ar_errorMessage resp) base.

Definition handleReg (s : nat) (req : SdkWSReq) : M unit :=
  let error code msg := with_result code msg (with_request (rq_requestId req) (frame_of (rq_type req) 0)) in
  match parse_register (rq_data req) with
  | None => refuse s (error "PARSE_ERROR" "Parse error occurred")
  | Some (phone, nickname, password) =>
      if str_empty phone || str_empty nickname || str_empty password
      then refuse s (error "IMCOMPLETE_INFO" "Register info imcomplete")
      else
        r ← catch (client_Register (rq_requestId req) phone nickname password);
        let resp := match r with
                    | inr resp => resp
                    | inl _ => auth_failed "REG_CLIENT_ERROR"
                                 "Registration outcome unknown; retry the same request ID"
                    end in
        write_or_throw s (register_answer req resp)
  end.

(** The token of the session, if the credentials are good; otherwise the answer. *)
Definition check_credentials (req : SdkWSReq) : M (SdkWSResp + string) :=
  let error code msg :=
    with_result code msg (with_request (rq_requestId req) (frame_of 0 (rq_account req))) in
  if str_empty (rq_token req) then
    resp ← client_Login (rq_account req) (rq_data req);
    mret (if ar_success resp then inr (ar_token resp)
          else inl (error "401" ("login failed: " +:+ ar_errorMessage resp)))
  else
    r ← catch (client_ValidateToken (rq_token req));
    mret (match r with
          | inr resp =>
              if vt_valid resp && (vt_account resp =? rq_account req) then inr (rq_token req)
              else inl (error "INVALID_PARAM" "invalid or expired token")
          | inl _ => inl (error "INVALID_PARAM" "invalid or expired token")
          end).

(** The session becomes the account's: [account_], the session map, the queue. *)
Definition enter (account : Z) (s : nat) : M unit :=
  modify (set_account account) s;;
  gateway (λ g, (tt, registerSession account s g));;
  startWriteQueue s.

Definition welcome (req : SdkWSReq) (token : string) : SdkWSResp :=
  with_device token (rq_deviceID req)
    (with_request (rq_requestId req) (frame_of (rq_type req) (rq_account req))).

(** Up to the start of the read loop and of the synchronisation; the result says
    whether they start. *)
Definition handleAuth (s : nat) (req : SdkWSReq) : M bool :=
  if rq_account req =? 0 then
    refuse s (with_result "INVALID_PARAM" "missing account" (frame_of 0 0));; mret false
  else
    r ← check_credentials req;
    match r with
    | inl answer => refuse s answer;; mret false
    | inr token =>
        enter (rq_account req) s;;
        set_online (rq_account req) "1";;
        queuedWrite s (welcome req token);;
        mret true
    end.

Definition fallback (s : nat) (req : SdkWSReq) : M unit :=
  ok ← ws_write s (with_result "4401" "message type unsupported"
                     (with_request (rq_requestId req) (frame_of 0 0)));
  if (ok : bool) then modify close_socket s else mret tt.

(** [doRead]: the first frame, [None] when the read fails. *)
Definition doRead (s : nat) (data : option string) : M bool :=
  match data with
  | None => mret false
  | Some data =>
      match parse_request data with
      | None => refuse s (with_result "1" "Parse error occurred" (frame_of 0 0));; mret false
      | Some req =>
          if rq_type req =? 100 then handleReg s req;; mret false
          else if rq_type req =? 101 then handleAuth s req
          else fallback s req;; mret false
      end
  end.

(** The coroutine of [start], after the handshakes: an exception ends the session,
    a normal return does not. *)
Definition start (s : nat) (data : option string) : M bool :=
  r ← catch (doRead s data);
  match r with inr reading => mret reading | inl _ => onDisconnect s;; mret false end.

(** * The read loop *)

(** The reply to a request, by its type. *)
Definition reply_to (account : Z) (req : SdkWSReq) : SdkWSResp :=
  with_request (rq_requestId req) (frame_of (rq_type req) account).

Definition ping (s : nat) (account : Z) (req : SdkWSReq) : M unit :=
  queuedWrite s (with_result "0" "pong" (reply_to account req));;
  set_online account "1".

Definition with_sender (account : Z) (m : MsgData) : MsgData :=
  mkMsgData account (recvID m) (convID m) (clientMsgID m) (serverMsgID m) (senderPlatformID m)
    (senderNickname m) (senderFaceURL m) (sessionType m) (msgFrom m) (contentType m) (content m)
    (seq m) (sendTime m) (status m) (isRead m) (isDeleted m) (isRecalled m) (isPinned m)
    (isGroupMsg m) (ext m).

(** Type 101.  A request that does not parse is not answered. *)
Definition send_messages (s : nat) (account : Z) (req : SdkWSReq) : M unit :=
  match parse_send (rq_data req) with
  | None => mret tt
  | Some msgs =>
      r ← catch (client_SendMessages (with_sender account <$> msgs));
      queuedWrite s
        (match r with
         | inr infos => with_data (serialize_sent infos)
                          (with_result "0" "send message success" (reply_to account req))
         | inl e => with_result "500" ("SendMessages failed: " +:+ what e) (reply_to account req)
         end)
  end.

Definition with_actor (account : Z) (c : Groups.Command) : Groups.Command :=
  Groups.mkCommand (Groups.operation c) account (Groups.groupID c) (Groups.text c) (Groups.target c)
    (Groups.applicationID c) (Groups.accept c) (Groups.after c) (Groups.limit c)
    (Groups.snapshot c) (Groups.clientID c) (Groups.epoch c).

(** Type 250; the gateway always has a group client. *)
Definition group_command (s : nat) (account : Z) (req : SdkWSReq) : M unit :=
  reply ← match parse_group (rq_data req) with
          | None => mret (Groups.error_reply "INVALID_PARAM" "Invalid group request")
          | Some c => client_Group (with_actor account c)
          end;
  queuedWrite s (with_data (serialize_group reply) (reply_to account req)).

(** Type 244. *)
Definition history (s : nat) (account : Z) (req : SdkWSReq) : M unit :=
  answer ← match parse_history (rq_data req) with
           | Some q =>
               if hq_peer q =? 0
               then mret (with_result "INVALID_PARAM" "Invalid history request" (reply_to account req))
               else
                 r ← catch (client_History (mkHistoryReq account (hq_peer q) (hq_afterSeq q) (hq_limit q)));
                 mret (match r with
                       | inr resp => with_data (serialize_history resp)
                                       (with_result "0" "" (reply_to account req))
                       | inl e => with_result "HISTORY_ERROR" (what e) (reply_to account req)
                       end)
           | None => mret (with_result "INVALID_PARAM" "Invalid history request" (reply_to account req))
           end;
  queuedWrite s answer.

(** The try block of types 240 to 243: the data of the response. *)
Definition conversation_call (account : Z) (req : SdkWSReq) : M string :=
  if rq_type req =? 240 then
    result ← client_List account; mret (serialize_conversations result)
  else if rq_type req =? 241 then
    match parse_mark_read (rq_data req) with
    | Some q => if str_empty (mr_conversation q) then throw (InvalidArgument "Invalid read request")
                else client_MarkRead account q;; mret ""
    | None => throw (InvalidArgument "Invalid read request")
    end
  else if rq_type req =? 242 then
    match parse_settings (rq_data req) with
    | Some q => if str_empty (sq_conversation q) then throw (InvalidArgument "Invalid settings request")
                else client_UpdateSettings account q;; mret ""
    | None => throw (InvalidArgument "Invalid settings request")
    end
  else
    match parse_delete (rq_data req) with
    | Some id => if str_empty id then throw (InvalidArgument "Invalid delete request")
                 else client_Delete account id;; mret ""
    | None => throw (InvalidArgument "Invalid delete request")
    end.

Definition conversation_request (s : nat) (account : Z) (req : SdkWSReq) : M unit :=
  r ← catch (conversation_call account req);
  queuedWrite s (match r with
                 | inr data => with_data data (with_result "0" "" (reply_to account req))
                 | inl e => with_result "CONVERSATION_ERROR" (what e) (reply_to account req)
                 end).

(** Types 220 to 225. *)
Definition friend_operation (account op : Z) (c : Friends.Command) : Friends.Command :=
  Friends.mkCommand account op (Friends.cmd_target c) (Friends.cmd_applicationID c)
    (Friends.cmd_message c) (Friends.cmd_accept c) (Friends.cmd_after c) (Friends.cmd_limit c)
    (Friends.cmd_snapshot c).

Definition friend_error (code msg : string) : Friends.Reply :=
  Friends.with_error code msg Friends.empty_reply.

Fixpoint notify_changed (accounts : list Z) : M unit :=
  match accounts with
  | [] => mret tt
  | a :: accounts =>
      online ← gateway (λ g, (hasSession a g, g));
      (if (online : bool) then pushToUser a (with_result "0" "" (frame_of 230 a));; mret tt else mret tt);;
      notify_changed accounts
  end.

Definition friend_request (s : nat) (account : Z) (req : SdkWSReq) : M unit :=
  reply ← match parse_friend (rq_data req) with
          | None => mret (friend_error "INVALID_PARAM" "Invalid friend request")
          | Some c =>
              r ← catch (client_Friend (friend_operation account (rq_type req - 220) c));
              mret (match r with
                    | inr reply => reply
                    | inl _ => friend_error "SERVICE_UNAVAILABLE" "Friend service unavailable"
                    end)
          end;
  queuedWrite s (with_data (serialize_friend reply)
    (with_result (Friends.rp_errorCode reply) (Friends.rp_errorMessage reply) (reply_to account req)));;
  if bool_decide (Friends.rp_errorCode reply = "0") then notify_changed (Friends.rp_changedAccounts reply)
  else mret tt.

(** One turn of [doReadLoop]: a frame that has been read. *)
Definition handle_frame (s : nat) (data : string) : M unit :=
  x ← session s;
  match parse_request data with
  | None => mret tt
  | Some req =>
      let t := rq_type req in
      let account := account_ x in
      if t =? 0 then ping s account req
      else if t =? 101 then send_messages s account req
      else if t =? 106 then handleAck s (parse_ack (rq_data req))
      else if t =? 250 then group_command s account req
      else if t =? 244 then history s account req
      else if (240 <=? t) && (t <=? 243) then conversation_request s account req
      else if (220 <=? t) && (t <=? 225) then friend_request s account req
      else mret tt
  end.

(** The loop: it ends with the frames that arrive, or with an exception; then the
    session is over. *)
Fixpoint read_frames (s : nat) (frames : list string) : M unit :=
  match frames with
  | [] => mret tt
  | data :: frames => handle_frame s data;; read_frames s frames
  end.

Definition doReadLoop (s : nat) (frames : list string) : M unit :=
  catch (read_frames s frames);; onDisconnect s.
End session.
