(* ===== verification/ServiceFrames.v ===== *)
(** No service touches the gateway's sessions: frames for the handlers that the
    gateway calls. *)
From S2P Require Import Prelude Table Snowflake Schema Effects Users Registration Stores Conversations Friendship Outbox Replies OutboxWorker MsgService Auth Gateway GatewayProofs OfflineProofs.
From S2P Require Friends Groups.

Ltac head_of t := lazymatch t with ?f _ => head_of f | _ => t end.

(** Unfold the operation. *)
Ltac offline_unfold :=
  lazymatch goal with |- Step _ ?m => let h := head_of m in is_const h; unfold h end.

#[local] Hint Extern 20 (Step (on_gateway eq) _) => offline_unfold : typeclass_instances.
#[local] Hint Extern 20 (RStep (on_gateway eq) ?m) =>
  (let h := head_of m in is_const h; unfold h) : typeclass_instances.

#[export] Instance offline_rconnected {S A} (m : R S A) :
  RStep (on_gateway eq) m → RStep (on_gateway eq) (rconnected m).
Proof. intros Hm s. specialize (Hm s). unfold rconnected. apply _. Qed.

#[export] Instance offline_mysql_now : Offline mysql_now.
Proof. by intros w. Qed.
#[export] Instance offline_snowflake : Offline snowflake_nextId.
Proof. intros w. unfold snowflake_nextId. by destruct (nextId _ _ _ _) as [[[] ?] ?]. Qed.

(** ** Conversations *)

Section conversations.
Context {js : Json}.
#[export] Instance offline_handle {A} u (m : M (grpc_status * A)) n : Offline m → Offline (handle u m n).
Proof. intros Hm. unfold handle. apply _. Qed.
#[export] Instance offline_List o : Offline (svc_GetAllConversations o).
Proof. apply _. Qed.
#[export] Instance offline_MarkRead o i q : Offline (svc_MarkConversationRead o i q).
Proof. apply _. Qed.
#[export] Instance offline_Settings o i a b c d : Offline (svc_UpdateConversationSettings o i a b c d).
Proof. apply _. Qed.
#[export] Instance offline_Delete o i : Offline (svc_DeleteConversation o i).
Proof. apply _. Qed.
End conversations.

(** ** Friends *)

#[export] Instance offline_add_friends a rows : RStep (on_gateway eq) (Friends.add_friends a rows).
Proof. induction rows; cbn [Friends.add_friends]; apply _. Qed.
#[export] Instance offline_add_applications ids : RStep (on_gateway eq) (Friends.add_applications ids).
Proof. induction ids; cbn [Friends.add_applications]; apply _. Qed.
#[export] Instance offline_add_cleared rows : RStep (on_gateway eq) (Friends.add_cleared rows).
Proof. induction rows; cbn [Friends.add_cleared]; apply _. Qed.
#[export] Instance offline_application id : Offline (Friends.application id).
Proof. apply _. Qed.
#[export] Instance offline_mutate c : RStep (on_gateway eq) (Friends.mutate c).
Proof. apply _. Qed.
#[export] Instance offline_run_command c : RStep (on_gateway eq) (Friends.run_command c).
Proof. apply _. Qed.
#[export] Instance offline_Friends c : Offline (Friends.Execute c).
Proof.
  unfold Friends.Execute, Friends.ExecuteFriendCommand.
  assert (RStep (on_gateway eq) (Friends.checked_command c)) by apply _.
  apply offline_handle, Step_bind; [apply _| |intros r; apply _].
  apply Step_bind; [apply _|done|]. intros r. apply _.
Qed.

(** ** Groups *)

Section groups.
Context {gp : Groups.GroupProto}.
#[export] Instance offline_rollback_or_throw : Offline Groups.rollback_or_throw.
Proof. apply on_gateway_remote; [apply _|]. by intros w a w' [= _ <-]. Qed.
#[export] Instance offline_member_states rows a c : Offline (Groups.member_states rows a c).
Proof. revert c. induction rows; intros c; cbn [Groups.member_states]; apply _. Qed.
#[export] Instance offline_perform c : Offline (Groups.perform c).
Proof. apply _. Qed.
#[export] Instance offline_Groups h c : Offline (Groups.Execute h c).
Proof. apply _. Qed.
End groups.

(** ** Messages *)

Section messages.
Context {js : Json} {pb : Protobuf}.

#[export] Instance offline_QueueSingleMessage m : Offline (QueueSingleMessage m).
Proof. apply _. Qed.
#[export] Instance offline_GetOutboxTask id : Offline (GetOutboxTask id).
Proof. apply _. Qed.
#[export] Instance offline_GetSingleChatHistory c a l : Offline (GetSingleChatHistory c a l).
Proof. apply _. Qed.
#[export] Instance offline_WithFriendMessage {A} m (action : M A) b :
  Offline action → Offline (WithFriendMessage m action b).
Proof. apply gateway_WithFriendMessage, _. Qed.
#[export] Instance offline_history q : Offline (svc_GetSingleChatHistory q).
Proof. apply _. Qed.

(** While [SendMessages] waits, other code runs, which may concern the gateway. *)
Section waiting.
Context (P : relation Gateway) `{!PreOrder P} (wait : M unit) `{!Step (on_gateway P) wait}.

Lemma gateway_poll fuel deadline t : Step (on_gateway P) (poll wait fuel deadline t).
Proof using All.
  revert t. induction fuel as [|fuel IH]; intros t; cbn [poll]; (destruct (_ && _); [|apply _]);
    (apply Step_bind; [apply _|apply _|]); intros n; (destruct (n <? deadline); [|apply _]); [apply _|].
  apply Step_bind; [apply _|done|]. intros _. apply Step_bind; [apply _| |done].
  apply offline_gateway; apply _.
Qed.

Lemma gateway_submit fuel m : Step (on_gateway P) (submit wait fuel m).
Proof using All.
  unfold submit. apply Step_bind; [apply _|apply offline_gateway; apply _|]. intros task.
  apply Step_bind; [apply _|apply _|]. intros t. apply Step_bind; [apply _|apply gateway_poll|].
  intros task'. apply _.
Qed.

#[export] Instance gateway_SendMessages fuel msgs : Step (on_gateway P) (SendMessages wait fuel msgs).
Proof using All.
  assert (Hone : ∀ m, Step (on_gateway P) (send_one wait fuel m)).
  { intros m. unfold send_one. destruct (isGroupMsg m); [apply _|].
    apply Step_bind; [apply _|apply _|]. intros id.
    apply Step_bind; [apply _|apply offline_gateway; apply _|]. intros sq.
    apply Step_bind; [apply _|apply _|]. intros t.
    apply Step_bind; [apply _| |intros r; apply _]. apply Step_catch; [apply _|apply gateway_submit]. }
  assert (Hall : ∀ ms, Step (on_gateway P) (send_all wait fuel ms)).
  { induction ms as [|m ms IH]; cbn [send_all]; [apply _|].
    apply Step_bind; [apply _|apply Hone|]. intros i. apply Step_bind; [apply _|apply IH|].
    intros l. apply _. }
  unfold SendMessages. destruct msgs; [apply _|]. apply Step_bind; [apply _|apply Hall|].
  intros l. apply _.
Qed.
End waiting.
End messages.

(** ** Authentication *)

Section auth.
Context {dg : Digest} {sh : Shuffle}.
Context (sha256 : string → string) (redis_TTL : string → RedisStore → Z) (what : exn → string).

#[export] Instance offline_once_from n a i : Offline (once_from n a i).
Proof. revert a. induction n; intros a; cbn [once_from]; apply _. Qed.
#[export] Instance offline_insert_chunks n l : Offline (insert_chunks n l).
Proof. revert l. induction n; intros l; cbn [insert_chunks]; apply _. Qed.
#[export] Instance offline_refill_from n a b : Offline (refill_from n a b).
Proof. revert a. induction n; intros a; cbn [refill_from]; apply _. Qed.
#[export] Instance offline_Register i p n w : Offline (Register sha256 i p n w).
Proof. apply _. Qed.
#[export] Instance offline_Login a p : Offline (Login sha256 what a p).
Proof. apply _. Qed.
#[export] Instance offline_ValidateToken t : Offline (ValidateToken redis_TTL t).
Proof. apply _. Qed.
End auth.
