(* ===== verification/SessionProofs.v ===== *)
(** The sessions of the gateway keep their invariant, whatever the clients send. *)
From S2P Require Import Prelude Table Snowflake Schema Effects Users Registration Stores Conversations Friendship Outbox Replies OutboxWorker MsgService Auth Gateway GatewayProofs Push OfflineSync OfflineProofs Session ServiceFrames.
From S2P Require Friends Groups.

(** A computation that keeps the gateway's invariant. *)
Abbreviation Keeps := (Step (on_gateway keeps_ok)).

(** * Operations on sessions *)

Lemma keeps_modify f s :
  (∀ x, session_ok x → session_ok (f x)) →
  (∀ x, account_ (f x) = account_ x ∧ (disconnected_ x = false → disconnected_ (f x) = false)) →
  Keeps (modify f s).
Proof. intros Hok Hid. apply Step_gateway; [apply _|]. intros g. by apply alter_ok. Qed.

Lemma queued_ok s f g : keeps_ok g (queued s f g).
Proof.
  unfold queued. destruct (try_send f (conn s g)) as [y|] eqn:Ht; [|apply left_by_ok].
  intros Hok. apply alter_const_ok; [|done]. intros x Hx. rewrite (conn_lookup s g x Hx) in Ht.
  pose proof (try_send_same _ _ _ Ht) as (Ha & _ & Hd & _).
  split; [|done]. eapply try_send_ok; [|done]. by eapply go_session.
Qed.

#[export] Instance keeps_onDisconnect s : Keeps (onDisconnect s).
Proof. intros w. unfold on_gateway. rewrite onDisconnect_gateway. apply left_by_ok. Qed.
#[export] Instance keeps_queuedWrite s f : Keeps (queuedWrite s f).
Proof. intros w. unfold on_gateway. rewrite queuedWrite_gateway. apply queued_ok. Qed.
#[export] Instance keeps_asyncSend s f : Keeps (asyncSend s f).
Proof. intros w. unfold on_gateway. rewrite asyncSend_gateway. apply queued_ok. Qed.

#[export] Instance keeps_pushToUser a f : Keeps (pushToUser a f).
Proof.
  unfold pushToUser. apply Step_bind; [apply _| |intros [s|]; apply _].
  apply Step_gateway; [apply _|]. by intros g.
Qed.

#[export] Instance keeps_ws_write s f : Keeps (ws_write s f).
Proof.
  unfold ws_write. apply Step_bind; [apply _| |intros [?|?]; apply _].
  apply Step_catch; [apply _|]. apply Step_remote; [apply _|by intros fs w ?|]. intros w a w'.
  destruct (s_socket (conn s _)) eqn:Eo; [|done]. intros [= _ <-]. unfold on_gateway. cbn.
  apply alter_ok; [|by intros x]. intros x [Hq Hc]. split; [exact Hq|exact Hc].
Qed.

#[export] Instance keeps_close s : Keeps (modify close_socket s).
Proof. apply keeps_modify; [|by intros x]. intros x [Hq Hc]. split; [done|]. intros H. by destruct (Hc H). Qed.
#[export] Instance keeps_forget s id : Keeps (modify (set_pending (delete id)) s).
Proof.
  apply keeps_modify; [|by intros x]. intros x [Hq Hc]. split; [done|]. intros H. cbn.
  destruct (Hc H) as [-> ?]. by rewrite delete_empty.
Qed.

#[export] Instance keeps_drain s : Keeps (doDrainWriteQueue s).
Proof.
  intros w. unfold on_gateway, doDrainWriteQueue.
  rewrite (bind_run _ _ _ _ _ (session_run s w)). set (x := conn s (w_gateway w)).
  destruct (write_queue_ x) as [[|f q]|] eqn:Eq; [by intros ?| |by intros ?].
  destruct (disconnected_ x) eqn:Ed; [by intros ?|].
  assert (Hpop : keeps_ok (w_gateway w) (w_gateway (modify (set_queue (Some q)) s w).2)).
  { intros Hok. unfold modify, gateway. cbn.
    assert (Hx : g_conns (w_gateway w) !! s = Some x).
    { unfold x, conn in *. by destruct (g_conns (w_gateway w) !! s). }
    assert (Hs : set_conns (alter (set_queue (Some q)) s) (w_gateway w) =
                 set_conns (alter (λ _, set_queue (Some q) x) s) (w_gateway w)).
    { unfold set_conns. f_equal. apply alter_ext. intros y. rewrite Hx. by intros [= ->]. }
    rewrite Hs. apply alter_const_ok; [|done]. intros y Hy. simplify_eq. split; [|done].
    destruct (go_session _ Hok s x Hx) as [Hq Hc]. split; [|cbn; congruence].
    cbn. intros q' [= <-]. specialize (Hq _ Eq). cbn in Hq. lia. }
  unfold mbind at 1, M_bind. destruct (modify _ s w) as [[e|u] w1]; [done|].
  assert (Hrest : Keeps (ok ← ws_write s f; if (ok : bool) then mret tt else onDisconnect s)) by apply _.
  etrans; [exact Hpop|exact (Hrest w1)].
Qed.

(** * Services and delivery *)

Section services.
Context {js : Json} {pb : Protobuf}.

#[export] Instance keeps_offer s m : Keeps (offer s m).
Proof.
  intros w. unfold on_gateway, offer. rewrite (bind_run _ _ _ _ _ (session_run s w)).
  destruct (disconnected_ (conn s (w_gateway w))) eqn:Ed; [by intros ?|].
  set (x := conn s (w_gateway w)) in *.
  assert (Hx : g_conns (w_gateway w) !! s = Some x).
  { unfold x, conn in *. by destruct (g_conns (w_gateway w) !! s). }
  set (f := set_pending <[serverMsgID m := (seq m, convID m)]>).
  assert (Hadd : keeps_ok (w_gateway w) (w_gateway (modify f s w).2)).
  { intros Hok. unfold modify, gateway. cbn.
    assert (Hs : set_conns (alter f s) (w_gateway w) = set_conns (alter (λ _, f x) s) (w_gateway w)).
    { unfold set_conns. f_equal. apply alter_ext. intros y. rewrite Hx. by intros [= ->]. }
    rewrite Hs. apply alter_const_ok; [|done]. intros y Hy. simplify_eq. split; [|done].
    destruct (go_session _ Hok s x Hx) as [Hq _]. split; [done|]. cbn. congruence. }
  unfold mbind at 1, M_bind. destruct (modify f s w) as [[e|u] w1]; [done|].
  etrans; [exact Hadd|]. apply (keeps_queuedWrite s _ w1).
Qed.

#[export] Instance keeps_deliver s m : Keeps (deliverOfflineMessage s m).
Proof. unfold deliverOfflineMessage. apply _. Qed.

#[export] Instance keeps_scan_turn what s pc : Keeps (scan_turn what s pc).
Proof.
  assert (∀ u a l, Keeps (GetMsgsBySeqFromMongo u a l)) by (intros; apply offline_gateway; apply _).
  unfold scan_turn. apply Step_bind; [apply _|apply _|]. intros x.
  destruct pc as [a|n [|m ms]|n| |e| |]; unfold try_scan; apply _.
Qed.

#[export] Instance keeps_ack_one s id type : Keeps (ack_one s id type).
Proof.
  assert (Keeps (ack_attempts 2 (account_ gone) id type)) by (apply offline_gateway; apply _).
  unfold ack_one. apply Step_bind; [apply _|apply _|]. intros x.
  apply Step_bind; [apply _|apply offline_gateway; apply _|]. intros []; cbn; apply _.
Qed.

#[export] Instance keeps_handleAck s r : Keeps (handleAck s r).
Proof.
  assert (Hall : ∀ ids type, Keeps (ack_all s ids type)).
  { induction ids as [|id ids IH]; intros type; cbn [ack_all]; apply _. }
  unfold handleAck. apply _.
Qed.

#[export] Instance keeps_PushToUser a d : Keeps (PushToUser a d).
Proof. unfold PushToUser. apply _. Qed.
#[export] Instance keeps_push_action m : Keeps (push_action m).
Proof. unfold push_action, redis_get, client_PushToUser. apply _. Qed.
#[export] Instance keeps_PushMsg m : Keeps (PushMsg m).
Proof. unfold PushMsg. apply _. Qed.

#[export] Instance keeps_PushHandler p : Keeps (PushHandler_handle p).
Proof.
  unfold PushHandler_handle.
  assert (Hs : ∀ id, Keeps (stored_message id))
    by (intros id; apply offline_gateway; [apply _|]; unfold stored_message, GetMsg, redis_get; apply _).
  assert (Hd : ∀ o id, Keeps (MessageDispatchDone o id))
    by (intros; apply offline_gateway; [apply _|]; unfold MessageDispatchDone; apply _).
  assert (Hc : ∀ id, Keeps (ConfirmMessageDispatch id))
    by (intros; apply offline_gateway; [apply _|]; unfold ConfirmMessageDispatch; apply _).
  apply _.
Qed.
End services.

(** * Log in *)

Definition entered (account : Z) (s : nat) (g : Gateway) : Gateway :=
  set_conns (alter (set_queue (Some [])) s)
    (registerSession account s (set_conns (alter (set_account account) s) g)).

Lemma enter_run account s w :
  enter account s w = (inr tt, with_gateway (entered account s (w_gateway w)) w).
Proof. by destruct w. Qed.

(** A session before its first frame. *)
Definition fresh_session (s : nat) (g : Gateway) : Prop :=
  ∃ x, g_conns g !! s = Some x ∧ account_ x = 0 ∧ disconnected_ x = false.

Lemma entered_ok account s g :
  account ≠ 0 → fresh_session s g → gateway_ok g → gateway_ok (entered account s g).
Proof.
  intros Hne (x & Hx & Hx0 & Hxd) [Hc Hl Hs].
  set (y := set_queue (Some []) (set_account account x)).
  assert (Hconn : g_conns (entered account s g) = <[s := y]> (g_conns g)).
  { apply map_eq. intros i. cbn. destruct (decide (s = i)) as [->|Hi].
    - by rewrite !lookup_alter_eq, Hx, lookup_insert_eq.
    - by rewrite !lookup_alter_ne, lookup_insert_ne. }
  assert (Hno : ∀ a, sessions_ g !! a ≠ Some s).
  { intros a Ha. destruct (Hl a s Ha) as (z & Hz & Hza & _ & Hn). by simplify_eq. }
  split; rewrite ?Hconn; cbn.
  - unfold hasSession. cbn. rewrite map_size_insert, Hc.
    destruct (sessions_ g !! account) eqn:E; [by rewrite bool_decide_true by done|].
    rewrite bool_decide_false by by intros [? ?]. lia.
  - intros a s0 [[<- <-]|[Ha Hs0]]%lookup_insert_Some.
    + exists y. by rewrite lookup_insert_eq.
    + destruct (Hl a s0 Hs0) as (z & Hz & ?). exists z. split; [|done].
      rewrite lookup_insert_ne; [done|]. intros ->. by apply (Hno a).
  - intros i z [[<- <-]|[_ Hz]]%lookup_insert_Some; [|by apply (Hs i)].
    split; cbn; [by intros q [= <-]|congruence].
Qed.

Section login.
Context {js : Json} {pb : Protobuf} {gp : Groups.GroupProto} {ws : WsProto} {dg : Digest} {sh : Shuffle}.
Context (sha256 : string → string) (redis_TTL : string → RedisStore → Z) (what : exn → string).

#[export] Instance offline_check_credentials req : Offline (check_credentials sha256 redis_TTL what req).
Proof. unfold check_credentials, client_Login, client_ValidateToken. apply _. Qed.

#[export] Instance keeps_refuse s f : Keeps (refuse s f).
Proof. unfold refuse. apply _. Qed.

#[export] Instance keeps_set_online a v : Keeps (set_online a v).
Proof. apply offline_gateway; apply _. Qed.

Lemma handleAuth_ok s req w :
  fresh_session s (w_gateway w) →
  keeps_ok (w_gateway w) (w_gateway (handleAuth sha256 redis_TTL what s req w).2).
Proof.
  intros Hs. unfold handleAuth. destruct (rq_account req =? 0) eqn:E0.
  { assert (Hk : ∀ f b, Keeps (refuse s f;; mret (b : bool))) by (intros; apply _). apply Hk. }
  apply Z.eqb_neq in E0. unfold mbind at 1, M_bind.
  pose proof (Effects.step (R:=on_gateway eq) (m:=check_credentials sha256 redis_TTL what req) w) as Hg.
  destruct (check_credentials _ _ _ req w) as [[e|[answer|token]] w1];
    unfold on_gateway in Hg; cbn [snd] in Hg |- *.
  - by rewrite Hg.
  - rewrite Hg.
    assert (Hk : ∀ b, Keeps (refuse s answer;; mret (b : bool))) by (intros; apply _). apply Hk.
  - intros Hok. rewrite Hg in *. rewrite (bind_run _ _ _ _ _ (enter_run _ _ _)).
    set (w2 := with_gateway _ w1).
    assert (Hk : Keeps (set_online (rq_account req) "1";; queuedWrite s (welcome req token);; mret true))
      by apply _.
    apply (Hk w2). by apply entered_ok.
Qed.

#[export] Instance keeps_handleReg s req : Keeps (handleReg sha256 s req).
Proof.
  assert (∀ i p n w, Keeps (client_Register sha256 i p n w))
    by (intros; apply offline_gateway; [apply _|]; unfold client_Register; apply _).
  unfold handleReg, write_or_throw. apply _.
Qed.

Lemma doRead_ok s data w :
  fresh_session s (w_gateway w) →
  keeps_ok (w_gateway w) (w_gateway (doRead sha256 redis_TTL what s data w).2).
Proof.
  intros Hs. unfold doRead. destruct data as [data|]; [|by intros ?].
  assert (Hk : ∀ (m : M unit), Keeps m → Keeps (m;; mret false)) by (intros; apply _).
  destruct (parse_request data) as [req|]; [|by apply Hk; apply _].
  destruct (rq_type req =? 100); [by apply Hk; apply _|].
  destruct (rq_type req =? 101); [by apply handleAuth_ok|].
  apply Hk. unfold fallback. apply _.
Qed.

Lemma start_ok s data w :
  fresh_session s (w_gateway w) →
  keeps_ok (w_gateway w) (w_gateway (start sha256 redis_TTL what s data w).2).
Proof.
  intros Hs. pose proof (doRead_ok s data w Hs) as Hk. intros Hok. apply Hk in Hok.
  unfold start, mbind, M_bind, catch. destruct (doRead _ _ _ s data w) as [[[]|b] w1]; cbn in *;
    try done; exact (Effects.step (R:=on_gateway keeps_ok) (m:=onDisconnect s;; mret false) w1 Hok).
Qed.

(** * Requests *)

Section requests.
Context (wait : M unit) (polls : nat) `{Hwait : !Keeps wait}.

#[export] Instance keeps_group_command s a req : Keeps (group_command s a req).
Proof.
  assert (Hn : ∀ g l, Keeps (push_notices g l)).
  { intros g l. induction l; cbn [push_notices]; apply _. }
  assert (Hg : ∀ c, Keeps (group_service c)).
  { intros c. unfold group_service. apply Step_bind; [apply _| |intros h].
    - apply Step_gateway; [apply _|]. by intros g.
    - apply Step_bind; [apply _|apply offline_gateway; apply _|]. intros r. apply _. }
  unfold group_command, client_Group. apply _.
Qed.

#[export] Instance keeps_friend_request s a req : Keeps (friend_request s a req).
Proof.
  assert (Hn : ∀ l, Keeps (notify_changed l)).
  { induction l as [|x l IH]; cbn [notify_changed]; [apply _|].
    apply Step_bind; [apply _| |intros []; apply _]. apply Step_gateway; [apply _|]. by intros g. }
  assert (Hf : ∀ c, Keeps (client_Friend c))
    by (intros; apply offline_gateway; [apply _|]; unfold client_Friend, or_throw; apply _).
  unfold friend_request. apply _.
Qed.

#[export] Instance keeps_conversation_request s a req : Keeps (conversation_request what s a req).
Proof.
  assert (Hc : Keeps (conversation_call a req)).
  { apply offline_gateway; [apply _|]. unfold conversation_call, client_List, client_MarkRead,
      client_UpdateSettings, client_Delete, or_throw. apply _. }
  unfold conversation_request. apply _.
Qed.

#[export] Instance keeps_history s a req : Keeps (history what s a req).
Proof.
  assert (Hh : ∀ q, Keeps (client_History q))
    by (intros; apply offline_gateway; [apply _|]; unfold client_History, or_throw; apply _).
  unfold history. apply _.
Qed.

#[export] Instance keeps_send_messages s a req : Keeps (send_messages what wait polls s a req).
Proof using Hwait js pb polls wait what ws. unfold send_messages, client_SendMessages. apply _. Qed.

#[export] Instance keeps_ping s a req : Keeps (ping s a req).
Proof. unfold ping. apply _. Qed.

#[export] Instance keeps_handle_frame s data : Keeps (handle_frame what wait polls s data).
Proof using Hwait gp js pb polls wait what ws. unfold handle_frame. apply _. Qed.
End requests.
End login.
