(* ===== verification/GatewayTheorems.v ===== *)
(** The theorems on the gateway: its session map under anything clients and services
    do, who may enter, whom a disconnection concerns, and what is pushed to whom. *)
From S2P Require Import Prelude Table Snowflake Schema Effects Users Registration Stores Conversations Samples Friendship Outbox Replies OutboxWorker OutboxProofs OutboxTheorems MsgService Auth AuthTheorems Gateway GatewayProofs Push OfflineSync OfflineProofs OfflineTheorems Session ServiceFrames SessionProofs.
From S2P Require Friends Groups GroupSamples RegistrationTheorems.

(** * The session map *)

Section system.
Context {js : Json} {pb : Protobuf} {gp : Groups.GroupProto} {ws : WsProto} {dg : Digest} {sh : Shuffle}.
Context (sha256 : string → string) (redis_TTL : string → RedisStore → Z) (what : exn → string).
Context (wait : M unit) (polls : nat).

(** What happens to the gateway: connections, frames from clients, the turns of a
    session's coroutines, pushes; and anything that does not concern it. *)
Inductive gateway_event (w : World) : World → Prop :=
| ge_accept : gateway_event w (accept w).2
| ge_first s data : fresh_session s (w_gateway w) →
    gateway_event w (start sha256 redis_TTL what s data w).2
| ge_frame s data : gateway_event w (handle_frame what wait polls s data w).2
| ge_scan s pc : gateway_event w (scan_turn what s pc w).2
| ge_drain s : gateway_event w (doDrainWriteQueue s w).2
| ge_disconnect s : gateway_event w (onDisconnect s w).2
| ge_push account data : gateway_event w (PushToUser account data w).2
| ge_consume payload : gateway_event w (PushHandler_handle payload w).2
| ge_elsewhere w' : w_gateway w' = w_gateway w → gateway_event w w'.

Lemma accept_ok g : keeps_ok g (set_conns <[fresh (dom (g_conns g)) := new_session]> g).
Proof.
  intros [Hc Hl Hs]. set (s := fresh _).
  assert (Hf : g_conns g !! s = None) by apply not_elem_of_dom, is_fresh.
  split; cbn; [done| |].
  - intros a s0 Ha. destruct (Hl a s0 Ha) as (x & Hx & ?). exists x. split; [|done].
    rewrite lookup_insert_ne; [done|]. congruence.
  - intros i x [[<- <-]|[_ Hx]]%lookup_insert_Some; [|by apply (Hs i)]. by split.
Qed.

Lemma gateway_event_ok w w' `{Hwait : !Keeps wait} :
  gateway_event w w' → keeps_ok (w_gateway w) (w_gateway w').
Proof.
  intros Hev. destruct Hev as [|s data Hs|s data|s pc|s|s|a d|p|w' Hw].
  - apply accept_ok.
  - by apply start_ok.
  - exact (Effects.step (R:=on_gateway keeps_ok) (m:=handle_frame what wait polls s data) w).
  - exact (Effects.step (R:=on_gateway keeps_ok) (m:=scan_turn what s pc) w).
  - exact (Effects.step (R:=on_gateway keeps_ok) (m:=doDrainWriteQueue s) w).
  - exact (Effects.step (R:=on_gateway keeps_ok) (m:=onDisconnect s) w).
  - exact (Effects.step (R:=on_gateway keeps_ok) (m:=PushToUser a d) w).
  - exact (Effects.step (R:=on_gateway keeps_ok) (m:=PushHandler_handle p) w).
  - by rewrite Hw.
Qed.

(** C10: from an empty gateway, under any history of connections, frames, pushes,
    coroutine turns, disconnections and failures: the counter of active connections
    is the number of registered sessions; every registered session is open and
    belongs to the account it is registered for; no write queue exceeds its 256
    frames; a closed session holds no pending messages. *)
Theorem gateway_invariant w0 w :
  Keeps wait → w_gateway w0 = mkGateway ∅ ∅ 0 → rtc gateway_event w0 w →
  WsConnectionsActive (w_gateway w) = Z.of_nat (size (sessions_ (w_gateway w))) ∧
  (∀ a s, sessions_ (w_gateway w) !! a = Some s →
    ∃ x, g_conns (w_gateway w) !! s = Some x ∧ account_ x = a ∧ disconnected_ x = false) ∧
  (∀ s x, g_conns (w_gateway w) !! s = Some x →
    (∀ q, write_queue_ x = Some q → Z.of_nat (length q) <= 256) ∧
    (disconnected_ x = true → pendingOfflineMsgs_ x = ∅)).
Proof.
  intros Hwait H0 Hrun.
  assert (Hok : gateway_ok (w_gateway w)).
  { assert (Hstart : gateway_ok (w_gateway w0)) by (rewrite H0; by split).
    clear H0. induction Hrun as [|w1 w2 w3 Hev _ IH]; [done|].
    by apply IH, (gateway_event_ok w1 w2 Hev). }
  destruct Hok as [Hc Hl Hs]. split; [done|]. split.
  - intros a s Ha. destruct (Hl a s Ha) as (x & Hx & Hxa & Hd & _). eauto.
  - intros s x Hx. destruct (Hs s x Hx) as [Hq Hcl]. split; [done|]. intros H. by destruct (Hcl H).
Qed.

(** * Disconnection *)

(** When a session ends, only its own registration goes: if the account has
    meanwhile logged in on another session, or the session never logged in, the
    session map and everything in Redis stay as they are, under any failures; a
    session that is still the account's is removed, and no key but the account's
    online flag changes. *)
Theorem disconnect_only_own s w :
  let x := conn s (w_gateway w) in
  let w' := (onDisconnect s w).2 in
  let owns := negb (disconnected_ x) && negb (account_ x =? 0) &&
              bool_decide (sessions_ (w_gateway w) !! account_ x = Some s) in
  sessions_ (w_gateway w') =
    (if owns then delete (account_ x) (sessions_ (w_gateway w)) else sessions_ (w_gateway w)) ∧
  (∀ k, owns = false ∨ k ≠ online_key (account_ x) →
    r_strings (w_redis w') !! k = r_strings (w_redis w) !! k) ∧
  (∀ s', s' ≠ s → g_conns (w_gateway w') !! s' = g_conns (w_gateway w) !! s').
Proof.
  cbn zeta. rewrite onDisconnect_gateway. unfold left_by.
  set (x := conn s (w_gateway w)). set (g := w_gateway w) in *.
  assert (Hother : ∀ s' f, s' ≠ s → g_conns (set_conns (alter f s) g) !! s' = g_conns g !! s')
    by (intros s' f Hne; cbn; by rewrite lookup_alter_ne).
  unfold onDisconnect. rewrite (bind_run _ _ _ _ _ (session_run s w)). fold g x.
  destruct (disconnected_ x); [done|]. cbn [negb andb].
  destruct (account_ x =? 0) eqn:E0; cbn [negb andb]; [split; [done|]; split; [done|]; by intros; apply Hother|].
  unfold unregisterSession at 1 3. cbn [sessions_ set_conns].
  case_bool_decide as Hreg; (split; [done|]; split; [|by intros; apply Hother]).
  - intros k [?|Hk]; [done|]. unfold modify, gateway, unregisterSession, mbind, M_bind. cbn.
    fold g. rewrite bool_decide_true by done. cbn. unfold set_online, redis_setex, redis, mbind, M_bind, catch.
    set (w1 := with_gateway _ _). destruct (remote _ _ w1) as [r w2] eqn:Er.
    assert (Hr : r_strings (w_redis w2) !! k = r_strings (w_redis w) !! k); [|by destruct r as [[]|]].
    destruct r as [e|u].
    + apply remote_err in Er as (fs & [[? _]|(c & _ & [->|(a & H)])]); [done|done|].
      injection H as _ <-. cbn. by rewrite lookup_insert_ne.
    + apply remote_ok in Er as (fs & H). injection H as _ <-. cbn. by rewrite lookup_insert_ne.
  - intros k _. unfold modify, gateway, unregisterSession, mbind, M_bind. cbn. fold g.
    by rewrite bool_decide_false by done.
Qed.
End system.

(** * Log in *)

(** Registrations only go away. *)
Definition fewer (g g' : Gateway) : Prop := sessions_ g' ⊆ sessions_ g.

#[export] Instance fewer_preorder : PreOrder fewer.
Proof.
  unfold fewer. split; [intros g; reflexivity|]. intros a b c H1 H2. by transitivity (sessions_ b).
Qed.

Lemma left_by_fewer s g : fewer g (left_by s g).
Proof.
  unfold left_by, fewer. destruct (disconnected_ _); [reflexivity|].
  destruct (account_ _ =? 0); [reflexivity|].
  unfold unregisterSession. case_bool_decide; [apply delete_subseteq|reflexivity].
Qed.

#[export] Instance fewer_queuedWrite s f : Step (on_gateway fewer) (queuedWrite s f).
Proof.
  intros w. unfold on_gateway. rewrite queuedWrite_gateway. unfold queued.
  destruct (try_send _ _); [unfold fewer; reflexivity|apply left_by_fewer].
Qed.

#[export] Instance fewer_refuse s f : Step (on_gateway fewer) (refuse s f).
Proof.
  unfold refuse. apply Step_bind; [apply _| |intros b; apply Step_gateway; [apply _|]; intros g; unfold fewer; reflexivity].
  unfold ws_write. apply Step_bind; [apply _| |intros [?|?]; apply _].
  apply Step_catch; [apply _|]. apply Step_remote; [apply _|intros fs w; unfold on_gateway, fewer; reflexivity|]. intros w a w'.
  destruct (s_socket (conn s (w_gateway w))); [|done]. intros [= _ <-].
  unfold on_gateway, fewer. reflexivity.
Qed.

Section login.
Context {js : Json} {pb : Protobuf} {dg : Digest} {sh : Shuffle}.
Context (sha256 : string → string) (redis_TTL : string → RedisStore → Z) (what : exn → string).

(** The request carries the password of an account's row in the users table, or a
    token that Redis maps to the account. *)
Definition credentials (req : SdkWSReq) (w : World) : Prop :=
  (rq_token req = "" ∧ ∃ id r, t_users (w_db w) !! id = Some r ∧ u_account r = rq_account req ∧
     right_password sha256 (rq_data req) r) ∨
  (rq_token req ≠ "" ∧ ∃ v comma, r_strings (w_redis w) !! token_key (rq_token req) = Some v ∧
     find_char ","%char v = Some comma ∧ parse_number (drop_str (comma + 1) v) = inr (rq_account req)).

Lemma redis_get_ok k w o w' : redis_get k w = (inr o, w') → o = r_strings (w_redis w) !! k.
Proof. intros (fs & H)%remote_ok. by injection H as <- _. Qed.

Lemma validate_ok token w resp w' :
  validate_task redis_TTL token w = (inr resp, w') → vt_valid resp = true →
  ∃ v comma, r_strings (w_redis w) !! token_key token = Some v ∧
    find_char ","%char v = Some comma ∧ parse_number (drop_str (comma + 1) v) = inr (vt_account resp).
Proof.
  intros H Hv. apply bind_ok in H as (o & w1 & Hg%redis_get_ok & H).
  destruct o as [v|]; [|by apply ret_ok in H as [<- _]].
  destruct (find_char _ v) as [comma|] eqn:Hc; [|by apply ret_ok in H as [<- _]].
  apply bind_ok in H as (uid & w2 & _ & H). apply bind_ok in H as (acc & w3 & [Ha _]%lift_ok & H).
  exists v, comma. split; [done|]. split; [done|]. rewrite Ha. f_equal.
  apply bind_ok in H as (ttl & w4 & _ & H). destruct (0 <=? ttl).
  - apply bind_ok in H as (t & w5 & _ & H). by apply ret_ok in H as [<- _].
  - by apply ret_ok in H as [<- _].
Qed.

Lemma check_credentials_ok req token w w' :
  check_credentials sha256 redis_TTL what req w = (inr (inr token), w') → credentials req w.
Proof.
  unfold check_credentials. destruct (str_empty (rq_token req)) eqn:Et; intros H.
  - left. split; [by destruct (rq_token req)|]. apply bind_ok in H as (resp & w1 & Hl & H).
    apply ret_ok in H as [H _]. destruct (ar_success resp) eqn:Es; [|done].
    apply bind_ok in Hl as ([st r] & w2 & Hr & [<- _]%ret_ok). cbn in Es.
    destruct st as [|c m]; [|by apply rpc_status in Hr; subst].
    apply rpc_ok in Hr as (fs & w3 & Hlog & _). unfold Login in Hlog.
    destruct (_ || _); [by apply ret_ok in Hlog as [[= <-] _]|].
    apply bind_ok in Hlog as (tk & w4 & Ht & Hlog). injection Ht as <- <-.
    apply bind_ok in Hlog as (ex & w4 & He & Hlog). injection He as <- <-.
    apply bind_ok in Hlog as (r' & w4 & Hr%catch_ok & Hlog).
    apply ret_ok in Hlog as [Hlog _]. destruct r' as [e|resp']; [done|]. injection Hlog as ->.
    apply login_task_ok in Hr as (id & row & Hid & Ha & Hp & _); [|done]. by exists id, row.
  - right. split; [by intros Hn; rewrite Hn in Et|].
    apply bind_ok in H as (r & w1 & Hc%catch_ok & [H _]%ret_ok). destruct r as [e|resp]; [done|].
    destruct (_ && _) eqn:E; [|done]. apply andb_prop in E as [Ev Ea%Z.eqb_eq]. rewrite <- Ea.
    apply bind_ok in Hc as ([st r] & w2 & Hr & [<- _]%ret_ok). cbn in Ev.
    destruct st as [|c m]; [|by apply rpc_status in Hr; subst].
    apply rpc_ok in Hr as (fs & w3 & Hval & _). unfold ValidateToken in Hval. rewrite Et in Hval.
    apply bind_ok in Hval as (r' & w4 & Hr%catch_ok & [Hval _]%ret_ok).
    destruct r' as [e|resp']; [done|]. injection Hval as ->. by apply validate_ok in Hr.
Qed.

(** C11: nobody is logged in without credentials: if, after the first frame of a
    session, that session is registered for an account, the frame names the account
    and carries the password stored for it, or a token that Redis maps to it; under
    any failures of the authentication service. *)
Theorem registered_with_credentials s req a w r w' :
  gateway_ok (w_gateway w) → fresh_session s (w_gateway w) →
  handleAuth sha256 redis_TTL what s req w = (r, w') →
  sessions_ (w_gateway w') !! a = Some s →
  a = rq_account req ∧ a ≠ 0 ∧ credentials req w.
Proof.
  intros Hok (x & Hx & Hx0 & Hxd) Hrun Hreg.
  assert (Hno : ∀ b, sessions_ (w_gateway w) !! b ≠ Some s).
  { intros b Hb. destruct (go_live _ Hok b s Hb) as (z & Hz & Hza & _ & Hn). by simplify_eq. }
  assert (Hstill : ∀ w1, on_gateway fewer w w1 → ∀ b, sessions_ (w_gateway w1) !! b ≠ Some s).
  { intros w1 Hf b Hb. apply (Hno b). eapply lookup_weaken; [exact Hb|exact Hf]. }
  unfold handleAuth in Hrun. destruct (rq_account req =? 0) eqn:E0.
  { exfalso. apply (Hstill w' (step_run (on_gateway fewer) _ _ _ _ Hrun) a Hreg). }
  apply Z.eqb_neq in E0. apply bind_cases in Hrun as [(e & Hc & ->)|(cred & w1 & Hc & Hrun)].
  { exfalso. apply (step_run (on_gateway eq)) in Hc; [|apply _]. apply (Hno a). by rewrite Hc. }
  pose proof (step_run (on_gateway eq) _ _ _ _ Hc) as Hg. unfold on_gateway in Hg.
  destruct cred as [answer|token].
  - exfalso. apply (Hstill w') in Hreg; [done|]. unfold on_gateway. rewrite Hg.
    exact (step_run (on_gateway fewer) _ _ _ _ Hrun).
  - rewrite (bind_run _ _ _ _ _ (enter_run _ _ _)) in Hrun.
    assert (Hf : on_gateway fewer (with_gateway (entered (rq_account req) s (w_gateway w1)) w1) w').
    { eapply (step_run (on_gateway fewer)); [|exact Hrun].
      assert (Step (on_gateway fewer) (set_online (rq_account req) "1")) by (apply offline_gateway; apply _).
      apply _. }
    eapply lookup_weaken in Hreg; [|exact Hf]. cbn in Hreg. rewrite <- Hg in Hreg.
    apply lookup_insert_Some in Hreg as [[<- _]|[_ Hreg]]; [|by destruct (Hno a)].
    split; [done|]. split; [done|]. by eapply check_credentials_ok.
Qed.
End login.

(** * An answer that is not true *)

(** When the call of the message service fails, the client is told that the message
    has been sent, with no information about any message. *)
Lemma failed_send_reported_as_success {js : Json} {pb : Protobuf} {ws : WsProto}
    what wait polls s account req msgs c fs w :
  parse_send (rq_data req) = Some msgs → w_faults w = FailBefore c :: fs →
  send_messages what wait polls s account req w =
    queuedWrite s (with_data (serialize_sent [])
      (with_result "0" "send message success" (reply_to account req))) (with_faults fs w).
Proof.
  intros Hp Hf. unfold send_messages. rewrite Hp.
  assert (Hc : client_SendMessages wait polls (with_sender account <$> msgs) w =
    (inr [], with_faults fs w)).
  { unfold client_SendMessages, rpc, mbind, M_bind, remote. by rewrite Hf. }
  by rewrite (bind_run _ _ _ _ _ (catch_run _ _ _ _ Hc)).
Qed.

(** * Runs *)

(** Four frames: log in with a password, with a token, a heartbeat, and noise. *)
Definition sample_request (data : string) : option SdkWSReq :=
  if bool_decide (data = "login") then Some (mkSdkWSReq "r1" "" 1000000007 "phone" "pw" 101)
  else if bool_decide (data = "again") then Some (mkSdkWSReq "r2" "uuid-" 1000000007 "pad" "" 101)
  else if bool_decide (data = "ping") then Some (mkSdkWSReq "r3" "" 0 "" "" 0)
  else None.

#[local] Instance sample_ws : WsProto := {|
  parse_request := sample_request; parse_register _ := None; parse_send _ := None;
  parse_ack _ := None; parse_group _ := None; parse_friend _ := None; parse_history _ := None;
  parse_mark_read _ := None; parse_settings _ := None; parse_delete _ := None;
  serialize_sent _ := ""; serialize_group _ := ""; serialize_notice _ := "";
  serialize_friend _ := ""; serialize_history _ := ""; serialize_conversations _ := "";
|}.
#[local] Existing Instances RegistrationTheorems.sample_digest RegistrationTheorems.sample_shuffle.
#[local] Existing Instance GroupSamples.sample_group_proto.

Definition gate (data : string) (s : nat) (w : World) : World :=
  (start sample_sha256 (λ _ _, 60) no_text s (Some data) w).2.

(** The user logs in, then again on a second session with the token; the first
    session's connection is lost. *)
Definition gate_w1 : World := (accept auth_w0).2.
Definition gate_w2 : World := gate "login" 0 gate_w1.
Definition gate_w3 : World := (accept gate_w2).2.
Definition gate_w4 : World := gate "again" 1 gate_w3.
Definition gate_w5 : World := (handle_frame no_text (mret tt) 0 1 "ping" gate_w4).2.
Definition gate_w6 : World := (onDisconnect 0 gate_w5).2.

Lemma gate_fresh1 : fresh_session 0 (w_gateway gate_w1).
Proof. exists new_session. split; [vm_compute; reflexivity|done]. Qed.
Lemma gate_fresh3 : fresh_session 1 (w_gateway gate_w3).
Proof. exists new_session. split; [vm_compute; reflexivity|done]. Qed.

Lemma gate_run :
  rtc (gateway_event sample_sha256 (λ _ _, 60) no_text (mret tt) 0) auth_w0 gate_w6.
Proof.
  apply (rtc_l _ _ gate_w1); [exact (ge_accept _ _ _ _ _ auth_w0)|].
  apply (rtc_l _ _ gate_w2); [exact (ge_first _ _ _ _ _ gate_w1 0 (Some "login") gate_fresh1)|].
  apply (rtc_l _ _ gate_w3); [exact (ge_accept _ _ _ _ _ gate_w2)|].
  apply (rtc_l _ _ gate_w4); [exact (ge_first _ _ _ _ _ gate_w3 1 (Some "again") gate_fresh3)|].
  apply (rtc_l _ _ gate_w5); [exact (ge_frame _ _ _ _ _ gate_w4 1 "ping")|].
  apply (rtc_l _ _ gate_w6); [exact (ge_disconnect _ _ _ _ _ gate_w5 0)|]. apply rtc_refl.
Qed.

Lemma gateway_invariant_witness :
  sessions_ (w_gateway gate_w6) = {[ 1000000007 := 1%nat ]} ∧
  WsConnectionsActive (w_gateway gate_w6) = Z.of_nat (size (sessions_ (w_gateway gate_w6))).
Proof.
  split; [vm_compute; reflexivity|].
  destruct (gateway_invariant sample_sha256 (λ _ _, 60) no_text (mret tt) 0 auth_w0 gate_w6) as (H & _ & _).
  - apply _.
  - vm_compute. reflexivity.
  - exact gate_run.
  - exact H.
Defined.

Lemma registered_with_credentials_witness :
  credentials sample_sha256 (mkSdkWSReq "r1" "" 1000000007 "phone" "pw" 101) gate_w1.
Proof.
  apply (registered_with_credentials sample_sha256 (λ _ _, 60) no_text 0
    (mkSdkWSReq "r1" "" 1000000007 "phone" "pw" 101) 1000000007 gate_w1
    (handleAuth sample_sha256 (λ _ _, 60) no_text 0 (mkSdkWSReq "r1" "" 1000000007 "phone" "pw" 101) gate_w1).1
    gate_w2).
  - apply accept_ok. split; [vm_compute; reflexivity| |]; intros *; vm_compute; discriminate.
  - exact gate_fresh1.
  - vm_compute. reflexivity.
  - vm_compute. reflexivity.
Defined.

Lemma disconnect_only_own_witness :
  sessions_ (w_gateway gate_w6) = {[ 1000000007 := 1%nat ]} ∧
  r_strings (w_redis gate_w6) !! online_key 1000000007 = Some "1".
Proof.
  destruct (disconnect_only_own 0 gate_w5) as (Hs & Hr & _). split.
  - change gate_w6 with ((onDisconnect 0 gate_w5).2). rewrite Hs. vm_compute. reflexivity.
  - change gate_w6 with ((onDisconnect 0 gate_w5).2). rewrite Hr; [vm_compute; reflexivity|].
    left. vm_compute. reflexivity.
Defined.
