(* ===== verification/Discovery.v ===== *)
(** Service registration and discovery: the backbone service
    ([src/services/backbon_service/server.cpp]), its client
    ([src/services/backbon_service/client.cpp]), the gateway's look-up
    ([WebServer::discover_Service]) and the presence query [CheckUserOnline].

    The registry is etcd: a map from keys to values attached to leases; a lease that
    is revoked, or that nobody keeps alive until it expires, takes its keys with it. *)
From S2P Require Import Prelude Table Snowflake Schema Effects Users Stores Conversations Gateway.

(** * Lists as text *)

Fixpoint serialize_vector (vec : list string) : string :=
  match vec with
  | [] => ""
  | [x] => x
  | x :: vec => x +:+ "," +:+ serialize_vector vec
  end.

(** [std::getline] with ',' as the delimiter, [seg] being the segment read so far;
    empty segments are dropped, so a missing last one makes no difference. *)
Fixpoint getlines (seg str : string) : list string :=
  let flush rest := if str_empty seg then rest else seg :: rest in
  match str with
  | EmptyString => flush []
  | String c str =>
      if bool_decide (c = ","%char) then flush (getlines "" str)
      else getlines (seg +:+ String c "") str
  end.

Definition deserialize_vector (str : string) : list string := getlines "" str.

(** * The registry *)

Record Etcd := mkEtcd {
  e_keys : gmap string (string * Z);   (* value and lease *)
  e_leases : gset Z;
  e_next : Z;                          (* the next lease identifier *)
  keep_alive : option Z;               (* the lease the backbone service renews *)
}.

Definition leasegrant (e : Etcd) : Z * Etcd :=
  (e_next e, mkEtcd (e_keys e) ({[ e_next e ]} ∪ e_leases e) (e_next e + 1) (keep_alive e)).
Definition etcd_put (key value : string) (lease : Z) (e : Etcd) : unit * Etcd :=
  (tt, mkEtcd (<[key := (value, lease)]> (e_keys e)) (e_leases e) (e_next e) (keep_alive e)).
Definition etcd_rm (key : string) (e : Etcd) : unit * Etcd :=
  (tt, mkEtcd (delete key (e_keys e)) (e_leases e) (e_next e) (keep_alive e)).
Definition drop_lease (lease : Z) (e : Etcd) : Etcd :=
  mkEtcd (filter (λ p, p.2.2 ≠ lease) (e_keys e)) (e_leases e ∖ {[ lease ]}) (e_next e) (keep_alive e).
Definition leaserevoke (lease : Z) (e : Etcd) : unit * Etcd := (tt, drop_lease lease e).
Definition set_keep_alive (lease : Z) (e : Etcd) : Etcd :=
  mkEtcd (e_keys e) (e_leases e) (e_next e) (Some lease).

(** * Handlers over the registry and the world *)

Definition D (A : Type) : Type := Etcd * World → (exn + A) * (Etcd * World).

#[global] Instance D_ret : MRet D := λ A a s, (inr a, s).
#[global] Instance D_bind : MBind D := λ A B f m s,
  match m s with (inr a, s') => f a s' | (inl e, s') => (inl e, s') end.

Definition on_world {A} (m : M A) : D A := λ s, let '(r, w) := m s.2 in (r, (s.1, w)).
Definition on_etcd (f : Etcd → Etcd) : D unit := λ s, (inr tt, (f s.1, s.2)).

(** A synchronous call of the etcd client: the response, or its error code. *)
Definition etcd {A} (f : Etcd → A * Etcd) : D (Z + A) := λ s,
  let '(e, w) := s in
  match w_faults w with
  | [] => (inr (inr (f e).1), ((f e).2, w))
  | NoFault :: fs => (inr (inr (f e).1), ((f e).2, with_faults fs w))
  | FailBefore c :: fs => (inr (inl c), (e, with_faults fs w))
  | FailAfter c :: fs => (inr (inl c), ((f e).2, with_faults fs w))
  end.

Record RegisterResp := mkRegisterResp { rs_success : bool; rs_error : string }.
Record ServiceResp := mkServiceResp {
  sv_service : string; sv_ipport : list string; sv_methods : list string; sv_registered : bool;
}.

Definition service_key (service : string) : string := "/services/" +:+ service.

Section backbon.
(** The text of an etcd error: its code and message. *)
Context (describe : Z → string).

(** The coroutine that ends [RegisterService]. *)
Definition cache_methods (service_name : string) (methods : list string) : M RegisterResp :=
  r ← catch (redis_setex service_name (serialize_vector methods));
  mret (match r with
        | inr _ => mkRegisterResp true ""
        | inl _ => mkRegisterResp false "存入redis失败"
        end).

Definition RegisterService (service : string) (ipport methods : list string) : D RegisterResp :=
  let service_name := service_key service in
  lease ← etcd leasegrant;
  match lease with
  | inl c => mret (mkRegisterResp false ("创建租约失败: " +:+ describe c))
  | inr lease_id =>
      put ← etcd (etcd_put service_name (serialize_vector ipport) lease_id);
      match put with
      | inl c =>
          etcd (leaserevoke lease_id);;
          mret (mkRegisterResp false ("注册服务节点失败: " +:+ describe c))
      | inr _ =>
          on_etcd (set_keep_alive lease_id);;
          on_world (cache_methods service_name methods)
      end
  end.

Definition UnregisterService (service : string) : D RegisterResp :=
  let service_name := service_key service in
  etcd (etcd_rm service_name);;
  on_world (catch (redis_del service_name);; mret (mkRegisterResp true "")).

(** etcd answers a get of a missing key with an error. *)
Definition GetService (service : string) : D ServiceResp :=
  let service_name := service_key service in
  got ← etcd (λ e, (e_keys e !! service_name, e));
  let found := match got with inr (Some (value, _)) => Some (deserialize_vector value) | _ => None end in
  on_world (
    r ← catch (redis_get service_name);
    let methods := match r with inr (Some v) => deserialize_vector v | _ => [] end in
    mret (mkServiceResp service (default [] found) methods (bool_decide (is_Some found)))).

(** ** The client: a status that is not OK is logged, and the reply is empty. *)

Definition rpc_D {A} (call : D A) (none : A) : D A := λ s,
  match on_world (remote (λ _, RuntimeError "rpc") (λ w, inr (tt, w))) s with
  | (inl _, s) => (inr none, s)
  | (inr _, s) =>
      match call s with
      | (inl OutOfFuel, s) => (inl OutOfFuel, s)
      | (inl _, s) => (inr none, s)
      | (inr a, s) =>
          match on_world (remote (λ _, RuntimeError "rpc") (λ w, inr (tt, w))) s with
          | (inl _, s) => (inr none, s)
          | (inr _, s) => (inr a, s)
          end
      end
  end.

Record ServiceInfo := mkServiceInfo {
  si_service : string; si_ipports : list string; si_methods : list string;
}.

Definition client_RegisterService (info : ServiceInfo) : D RegisterResp :=
  rpc_D (RegisterService (si_service info) (si_ipports info) (si_methods info)) (mkRegisterResp false "").

(** The request's service is not set. *)
Definition client_UnregisterService : D RegisterResp :=
  rpc_D (UnregisterService "") (mkRegisterResp false "").

Definition client_GetServicesList (name : string) : D ServiceResp :=
  rpc_D (GetService name) (mkServiceResp "" [] [] false).

(** [WebServer::discover_Service] *)
Definition discover_Service (name fallback : string) : D string :=
  resp ← client_GetServicesList name;
  mret (match sv_ipport resp with
        | addr :: _ => if sv_registered resp then addr else fallback
        | [] => fallback
        end).
End backbon.

(** * Presence *)

Record OnlineStatus := mkStatus { st_userID : Z; st_isOnline : bool; st_connectionCount : Z }.

(** One user: the flag in Redis, then the users table; every exception is logged. *)
Definition cached_online (userID : Z) : M bool :=
  r ← catch (redis_get (online_key userID));
  mret (match r with inr (Some v) => bool_decide (v = "1") | _ => false end).

Definition cache_offline (userID : Z) : M unit :=
  catch (
    user ← find_user_by_id userID;
    match user with
    | Some _ => redis_setex (online_key userID) "0"
    | None => mret tt
    end);;
  mret tt.

Definition check_user (userID : Z) : M OnlineStatus :=
  online ← cached_online userID;
  if online : bool then mret (mkStatus userID true 1)
  else cache_offline userID;; mret (mkStatus userID false 0).

Definition CheckUserOnline (userIDs : list Z) : M (list OnlineStatus) := mapM check_user userIDs.

(** [BackbonClient::CheckUserOnline] names no user. *)
Definition client_CheckUserOnline : D (list OnlineStatus) := rpc_D (on_world (CheckUserOnline [])) [].

(** * The registry's life: the backbone's calls, leases that run out, and whatever
      else happens to the world (Redis keys expire, calls fail) *)

Section life.
Context (describe : Z → string).
(** The registrations and removals that are asked for. *)
Context (Reg : string → list string → Prop) (Unreg : string → Prop).

Inductive life : Etcd * World → Etcd * World → Prop :=
| life_register service ipport methods s :
    Reg service ipport → life s (RegisterService describe service ipport methods s).2
| life_unregister service s : Unreg service → life s (UnregisterService service s).2
| life_get service s : life s (GetService service s).2
| life_world e w w' : life (e, w) (e, w')
| life_expire lease e w : keep_alive e ≠ Some lease → life (e, w) (drop_lease lease e, w).
End life.

(** The registry before the first call. *)
Definition new_etcd (first : Z) : Etcd := mkEtcd ∅ ∅ first None.

(** * Lemmas *)

(** ** Lists as text *)

Lemma getlines_comma seg s t :
  getlines seg (s +:+ String "," t) = getlines seg s ++ getlines "" t.
Proof.
  revert seg. induction s as [|c s IH]; intros seg; simpl.
  - by destruct (str_empty seg).
  - case_bool_decide; [|apply IH]. rewrite (IH ""). by destruct (str_empty seg).
Qed.

Lemma deserialize_app s t :
  deserialize_vector (s +:+ "," +:+ t) = deserialize_vector s ++ deserialize_vector t.
Proof. apply getlines_comma. Qed.

Definition comma_free (s : string) : bool := all_of (λ c, negb (bool_decide (c = ","%char))) s.

Lemma getlines_free seg s :
  comma_free s = true →
  getlines seg s = if str_empty (seg +:+ s) then [] else [seg +:+ s].
Proof.
  revert seg. induction s as [|c s IH]; intros seg; simpl.
  - intros _. by rewrite str_app_nil_r.
  - intros [Hc Hs]%andb_true_iff. apply negb_true_iff in Hc as ->.
    rewrite IH by done. by rewrite str_app_assoc.
Qed.

Definition word (s : string) : Prop := comma_free s = true ∧ s ≠ "".

#[global] Instance word_dec s : Decision (word s).
Proof. unfold word. apply _. Defined.

Lemma deserialize_word s : word s → deserialize_vector s = [s].
Proof.
  intros [Hf Hn]. unfold deserialize_vector. rewrite getlines_free by done.
  by destruct s.
Qed.

(** What [serialize_vector] keeps of any list: each element is split at its commas,
    and empty pieces are lost. *)
Lemma deserialize_serialize v :
  deserialize_vector (serialize_vector v) = v ≫= deserialize_vector.
Proof.
  induction v as [|x [|y v] IH]; [done|by csimpl; rewrite app_nil_r|].
  change (deserialize_vector (x +:+ "," +:+ serialize_vector (y :: v))
    = deserialize_vector x ++ ((y :: v) ≫= deserialize_vector)).
  by rewrite deserialize_app, IH.
Qed.

Lemma deserialize_words v : Forall word v → deserialize_vector (serialize_vector v) = v.
Proof.
  intros Hv. rewrite deserialize_serialize. induction Hv as [|x v Hx _ IH]; [done|].
  csimpl. by rewrite deserialize_word, IH.
Qed.

(** ** Calls *)

Lemma etcd_cases {A} (f : Etcd → A * Etcd) s r s' :
  etcd f s = (r, s') →
  (∃ c, r = inr (inl c) ∧ (s'.1 = s.1 ∨ s'.1 = (f s.1).2))
  ∨ (r = inr (inr (f s.1).1) ∧ s'.1 = (f s.1).2).
Proof.
  unfold etcd. destruct s as [e w].
  destruct (w_faults w) as [|[|c|c] fs]; intros [= <- <-]; simpl; eauto 6.
Qed.

Lemma D_bind_cases {A B} (m : D A) (f : A → D B) s r s' :
  (m ≫= f) s = (r, s') →
  (∃ e, m s = (inl e, s') ∧ r = inl e) ∨ ∃ a s1, m s = (inr a, s1) ∧ f a s1 = (r, s').
Proof. unfold mbind, D_bind. destruct (m s) as [[e|a] s1]; [|eauto]. intros [= <- <-]. eauto. Qed.

Lemma on_world_etcd {A} (m : M A) s : (on_world m s).2.1 = s.1.
Proof. unfold on_world. by destruct (m s.2). Qed.

Lemma rpc_D_ok {A} (call : D A) none s a s' :
  rpc_D call none s = (inr a, s') →
  a = none ∨ ∃ w w', call (s.1, w) = (inr a, (s'.1, w')).
Proof.
  unfold rpc_D, on_world. destruct (remote _ _ s.2) as [[e|u] w1]; [intros [= <- <-]; by left|].
  destruct (call (s.1, w1)) as [[e|x] [e1 w2]] eqn:Hc.
  { destruct e; by intros [= <- <-] || done; left. }
  simpl. destruct (remote _ _ w2) as [[e|u'] w3]; intros [= <- <-]; [by left|]. eauto.
Qed.

(** ** Registration *)

(** The registry in the course of one registration. *)
Definition granted (e : Etcd) : Etcd := (leasegrant e).2.
Definition stored (key value : string) (e : Etcd) : Etcd := (etcd_put key value (e_next e) (granted e)).2.
Definition registered (key value : string) (e : Etcd) : Etcd := set_keep_alive (e_next e) (stored key value e).

(** Every registry a registration can leave behind, and which of them goes with
    an answer of success. *)
Inductive registers (key value : string) (e : Etcd) : Etcd → Prop :=
| reg_same : registers key value e e
| reg_granted : registers key value e (granted e)
| reg_stored : registers key value e (stored key value e)
| reg_revoked : registers key value e (drop_lease (e_next e) (granted e))
| reg_unstored : registers key value e (drop_lease (e_next e) (stored key value e))
| reg_done : registers key value e (registered key value e).

Lemma register_outcome describe service ipport methods s r s' :
  RegisterService describe service ipport methods s = (r, s') →
  registers (service_key service) (serialize_vector ipport) s.1 s'.1
  ∧ (∀ resp, r = inr resp → rs_success resp = true →
      s'.1 = registered (service_key service) (serialize_vector ipport) s.1).
Proof.
  unfold RegisterService. intros [(e & Hg & _)|(g & s1 & Hg & H)]%D_bind_cases;
    apply etcd_cases in Hg as [(c & ? & He)|[? He]]; simplify_eq.
  { injection H as <- <-. split; [destruct He as [->| ->]; constructor|by intros ? [= <-]]. }
  apply D_bind_cases in H as [(e & Hp & _)|(p & s2 & Hp & H)];
    apply etcd_cases in Hp as [(c & ? & Hp)|[? Hp]]; simplify_eq; rewrite He in Hp.
  - apply D_bind_cases in H as [(e & Hr & _)|(u & s3 & Hr & H)];
      apply etcd_cases in Hr as [(c' & ? & Hr)|[? Hr]]; simplify_eq; injection H as <- <-;
      (split; [|by intros ? [= <-]]).
    + destruct Hp as [Hp|Hp], Hr as [Hr|Hr]; rewrite Hr, Hp; constructor.
    + destruct Hp as [Hp|Hp]; rewrite Hr, Hp; constructor.
  - apply (f_equal (λ x, x.2.1)) in H. unfold mbind, D_bind, on_etcd in H.
    rewrite on_world_etcd in H. simpl in H. rewrite Hp in H. rewrite <- H.
    split; [apply reg_done|done].
Qed.

(** ** The registry's invariant *)

(** Keys hang on granted leases, which are numbered below [e_next]; every value
    was registered. *)
Record etcd_wf (Reg : string → list string → Prop) (e : Etcd) : Prop := {
  wf_key k v l : e_keys e !! k = Some (v, l) → l ∈ e_leases e;
  wf_lease l : l ∈ e_leases e → l < e_next e;
  wf_keep l : keep_alive e = Some l → l < e_next e;
  wf_from k v l : e_keys e !! k = Some (v, l) →
    ∃ service ipport, Reg service ipport ∧ k = service_key service ∧ v = serialize_vector ipport;
}.

Lemma etcd_wf_new Reg first : etcd_wf Reg (new_etcd first).
Proof. split; simpl; [by intros *; rewrite lookup_empty|set_solver|done|by intros *; rewrite lookup_empty]. Qed.

Lemma drop_lease_lookup lease e k v l :
  e_keys (drop_lease lease e) !! k = Some (v, l) ↔ e_keys e !! k = Some (v, l) ∧ l ≠ lease.
Proof. simpl. by rewrite map_lookup_filter_Some. Qed.

Lemma wf_drop Reg lease e : etcd_wf Reg e → etcd_wf Reg (drop_lease lease e).
Proof.
  intros [Hk Hl Hn Hf]. split.
  - intros k v l [H ?]%drop_lease_lookup. apply Hk in H. simpl. set_solver.
  - intros l' [Hin _]%elem_of_difference. by apply Hl.
  - done.
  - intros k v l [H _]%drop_lease_lookup. by apply Hf in H.
Qed.

Lemma wf_granted Reg e : etcd_wf Reg e → etcd_wf Reg (granted e).
Proof.
  intros [Hk Hl Hn Hf]. split; simpl.
  - intros k v l ?%Hk. set_solver.
  - intros l [H%elem_of_singleton|H%Hl]%elem_of_union; lia.
  - intros l ?%Hn. lia.
  - done.
Qed.

Lemma wf_stored (Reg : string → list string → Prop) service ipport e :
  Reg service ipport → etcd_wf Reg e →
  etcd_wf Reg (stored (service_key service) (serialize_vector ipport) e).
Proof.
  intros HR He. destruct (wf_granted _ _ He) as [Hk Hl Hn Hf]. split; try done.
  - intros k v l H. simpl in H. apply lookup_insert_Some in H as [[<- [= <- <-]]|[_ H]].
    + simpl. set_solver.
    + by apply Hk in H.
  - intros k v l H. simpl in H. apply lookup_insert_Some in H as [[<- [= <- <-]]|[_ H]]; eauto.
Qed.

Lemma wf_registers (Reg : string → list string → Prop) service ipport e e' :
  Reg service ipport → registers (service_key service) (serialize_vector ipport) e e' →
  etcd_wf Reg e → etcd_wf Reg e'.
Proof.
  intros HR Hr He. pose proof (wf_stored _ _ _ _ HR He) as Hs.
  destruct Hr; auto using wf_granted, wf_drop.
  destruct Hs as [Hk Hl Hn Hf]. split; try done. intros l [= <-]. simpl. lia.
Qed.

Lemma wf_rm Reg key e : etcd_wf Reg e → etcd_wf Reg (etcd_rm key e).2.
Proof.
  intros [Hk Hl Hn Hf]. split; try done.
  - intros k v l H. simpl in H. apply lookup_delete_Some in H as [_ H]. by apply Hk in H.
  - intros k v l H. simpl in H. apply lookup_delete_Some in H as [_ H]. by apply Hf in H.
Qed.

Lemma unregister_etcd service s :
  (UnregisterService service s).2.1 = s.1 ∨ (UnregisterService service s).2.1 = (etcd_rm (service_key service) s.1).2.
Proof.
  unfold UnregisterService, mbind, D_bind. destruct (etcd _ s) as [r s1] eqn:H.
  apply etcd_cases in H as [(c & -> & Hs)|[-> Hs]]; rewrite on_world_etcd; auto.
Qed.

Lemma get_etcd service s : (GetService service s).2.1 = s.1.
Proof.
  unfold GetService, mbind, D_bind. destruct (etcd _ s) as [r s1] eqn:H.
  apply etcd_cases in H as [(c & -> & [Hs|Hs])|[-> Hs]]; by rewrite on_world_etcd.
Qed.

Lemma register_etcd describe service ipport methods s :
  registers (service_key service) (serialize_vector ipport) s.1
    (RegisterService describe service ipport methods s).2.1.
Proof.
  destruct (RegisterService _ _ _ _ s) as [r s'] eqn:H. by apply register_outcome in H as [Hr _].
Qed.

Lemma wf_life describe Reg Unreg s s' :
  life describe Reg Unreg s s' → etcd_wf Reg s.1 → etcd_wf Reg s'.1.
Proof.
  intros [service ipport methods s0 HR|service s0 _|service s0|e w w'|lease e w _] He; simpl in *.
  - eapply wf_registers; [done|apply register_etcd|done].
  - destruct (unregister_etcd service s0) as [->| ->]; auto using wf_rm.
  - by rewrite get_etcd.
  - done.
  - by apply wf_drop.
Qed.

Lemma wf_reachable describe Reg Unreg first w s :
  rtc (life describe Reg Unreg) (new_etcd first, w) s → etcd_wf Reg s.1.
Proof.
  intros H. cut (etcd_wf Reg (new_etcd first, w).1); [|apply etcd_wf_new].
  induction H; eauto using wf_life.
Qed.

(** ** A registration and the calls for other services *)

#[global] Instance service_key_inj : Inj (=) (=) service_key.
Proof. intros s t. unfold service_key. simpl. by intros [= ->]. Qed.

(** The key keeps its value as long as its lease lives. *)
Record holding (key value : string) (lease : Z) (e : Etcd) : Prop := {
  hold_next : lease < e_next e;
  hold_keep : keep_alive e = Some lease → lease ∈ e_leases e;
  hold_key : lease ∈ e_leases e → e_keys e !! key = Some (value, lease);
}.

Lemma hold_drop key value lease l e :
  keep_alive e ≠ Some l → holding key value lease e → holding key value lease (drop_lease l e).
Proof.
  intros Hl [Hn Hk He]. split; [done| |].
  - simpl. intros Hkeep. assert (l ≠ lease) by congruence. set_solver.
  - intros [Hin Hne]%elem_of_difference. apply drop_lease_lookup. set_solver.
Qed.

Lemma hold_registers Reg key value lease key' value' e e' :
  key' ≠ key → etcd_wf Reg e → registers key' value' e e' →
  holding key value lease e → holding key value lease e'.
Proof.
  intros Hne Hwf Hr [Hn Hk He].
  assert (Hfresh : keep_alive e ≠ Some (e_next e)) by (intros H%(wf_keep _ _ Hwf); lia).
  assert (Hg : holding key value lease (granted e)).
  { split; simpl; [lia| |].
    - intros ?%Hk. set_solver.
    - intros [H%elem_of_singleton|?]%elem_of_union; [lia|auto]. }
  assert (Hs : holding key value lease (stored key' value' e)).
  { destruct Hg as [Hn' Hk' He']. split; [done|done|]. intros H. simpl.
    rewrite lookup_insert_ne by done. by apply He'. }
  destruct Hr; [done|done|done|by apply hold_drop|by apply hold_drop|].
  destruct Hs as [Hn' Hk' He']. split; [done| |done]. intros [= <-]. lia.
Qed.

Lemma hold_life describe service value lease Reg s s' :
  life describe (λ other _, other ≠ service) (λ other, other ≠ service) s s' →
  etcd_wf Reg s.1 → holding (service_key service) value lease s.1 →
  holding (service_key service) value lease s'.1.
Proof.
  intros [other ipport methods s0 Hne|other s0 Hne|other s0|e w w'|l e w Hl] Hwf Hh; simpl in *.
  - eapply hold_registers; [|exact Hwf|apply register_etcd|done].
    by intros ?%(inj service_key).
  - destruct (unregister_etcd other s0) as [->| ->]; [done|].
    destruct Hh as [Hn Hk He]. split; [done|done|]. intros H. simpl.
    rewrite lookup_delete_ne; [by apply He|]. by intros ?%(inj service_key).
  - by rewrite get_etcd.
  - done.
  - by apply hold_drop.
Qed.

Lemma hold_registered Reg key value e :
  etcd_wf Reg e → holding key value (e_next e) (registered key value e).
Proof.
  intros Hwf. split; simpl; [lia|set_solver|]. intros _. apply lookup_insert_eq.
Qed.

Definition anything : string → list string → Prop := λ _ _, True.

Lemma life_mono describe (Reg Reg' : string → list string → Prop) (Unreg Unreg' : string → Prop) s s' :
  (∀ service ipport, Reg service ipport → Reg' service ipport) →
  (∀ service, Unreg service → Unreg' service) →
  life describe Reg Unreg s s' → life describe Reg' Unreg' s s'.
Proof. intros HR HU []; constructor; auto. Qed.

(** The two facts along a whole run. *)
Lemma hold_run describe service value lease s s' :
  rtc (life describe (λ other _, other ≠ service) (λ other, other ≠ service)) s s' →
  etcd_wf anything s.1 → holding (service_key service) value lease s.1 →
  etcd_wf anything s'.1 ∧ holding (service_key service) value lease s'.1.
Proof.
  induction 1 as [s|s s1 s' Hs _ IH]; [done|]. intros Hwf Hh. apply IH; [|by eapply hold_life].
  eapply wf_life; [|done]. by apply (life_mono _ _ anything _ (λ _, True)) in Hs.
Qed.

(** ** Look-up *)

Lemma GetService_nofault service s :
  w_faults s.2 = [] →
  ∃ methods s', w_faults s'.2 = [] ∧ GetService service s =
    (inr (match e_keys s.1 !! service_key service with
          | Some (value, _) => mkServiceResp service (deserialize_vector value) methods true
          | None => mkServiceResp service [] methods false
          end), s').
Proof.
  destruct s as [e w]. simpl. intros Hf. unfold GetService, mbind, D_bind, etcd. rewrite Hf. simpl.
  unfold on_world, M_bind, catch, redis_get, redis, remote. cbn [fst snd]. rewrite Hf. simpl.
  eexists _, _. split; [|by destruct (e_keys e !! service_key service) as [[value l]|]].
  done.
Qed.

(** What a look-up returns, whatever fails. *)
Lemma GetService_from Reg service s resp s' :
  etcd_wf Reg s.1 → GetService service s = (inr resp, s') →
  sv_ipport resp = [] ∨ ∃ ipport, Reg service ipport ∧ sv_ipport resp = ipport ≫= deserialize_vector.
Proof.
  intros Hwf. unfold GetService.
  intros [(x & _ & ?)|(got & s1 & Hg & H)]%D_bind_cases; [done|].
  assert (Hi : sv_ipport resp = match got with
    | inr (Some (value, _)) => deserialize_vector value | _ => [] end).
  { revert H. unfold on_world. intros H.
    match type of H with (let '(_, _) := ?m in _) = _ => destruct m as [r w] eqn:Hr end.
    injection H as -> <-. apply bind_ok in Hr as (m & w1 & _ & [<- _]%ret_ok). simpl.
    by destruct got as [c|[[v l]|]]. }
  rewrite Hi. apply etcd_cases in Hg as [(c & ? & _)|[? _]]; simplify_eq; [by left|]. simpl.
  destruct (e_keys s.1 !! service_key service) as [[v l]|] eqn:Hk; [|by left]. right.
  apply (wf_from _ _ Hwf) in Hk as (service' & ipport & HR & ->%(inj service_key) & ->).
  exists ipport. split; [done|]. apply deserialize_serialize.
Qed.
