(* ===== verification/DiscoveryTheorems.v ===== *)
(** What service discovery and the presence query promise: a service whose
    registration succeeded is found at the registered address until its lease ends;
    look-ups return the fallback or a registered address, whatever fails; a user
    reported online has the online flag in Redis. *)
From S2P Require Import Prelude Table Snowflake Schema Effects Users Stores Conversations Samples Gateway Discovery.

(** * Discovery *)

Lemma rpc_nofault {A} (call : D A) none e w a e' w' :
  w_faults w = [] → call (e, w) = (inr a, (e', w')) → w_faults w' = [] →
  rpc_D call none (e, w) = (inr a, (e', w')).
Proof.
  intros Hf Hc Hf'. unfold rpc_D, on_world, remote. cbn [fst snd]. rewrite Hf.
  replace (with_faults [] w) with w by (by destruct w; simpl in *; subst).
  rewrite Hc. cbn [fst snd]. rewrite Hf'.
  by replace (with_faults [] w') with w' by (by destruct w'; simpl in *; subst).
Qed.

Lemma discover_registered service fallback value lease s :
  w_faults s.2 = [] → e_keys s.1 !! service_key service = Some (value, lease) →
  (discover_Service service fallback s).1 = inr (hd fallback (deserialize_vector value)).
Proof.
  destruct s as [e w]. intros Hf Hk.
  destruct (GetService_nofault service (e, w) Hf) as (methods & [e' w'] & Hf' & Hg). rewrite Hk in Hg.
  unfold discover_Service, client_GetServicesList, mbind, D_bind.
  rewrite (rpc_nofault _ _ e w _ e' w' Hf Hg Hf'). simpl. by destruct (deserialize_vector value).
Qed.

(** C14: a service is found where it registered: if [client_RegisterService] reports
    success (whatever failed on the way) for addresses that are not empty and contain no
    comma (the separator of the stored list), then, through any number of registrations,
    removals, look-ups and lease expiries that concern other services and whatever fails
    in them, its lease lives as long as the backbone keeps it alive; and while it lives, a
    [discover_Service] none of whose own calls fails (one that fails gives the fallback)
    answers the first registered address, or the fallback when none was registered. *)
Theorem registered_service_found describe first w0 s0 info resp s1 s2 fallback
    (Hstart : rtc (life describe anything (λ _, True)) (new_etcd first, w0) s0)
    (Hregister : client_RegisterService describe info s0 = (inr resp, s1))
    (Hsuccess : rs_success resp = true)
    (Hlife : rtc (life describe (λ other _, other ≠ si_service info) (λ other, other ≠ si_service info)) s1 s2)
    (Hup : w_faults s2.2 = [])
    (Hwords : Forall word (si_ipports info)) :
  ∃ lease, keep_alive s1.1 = Some lease
    ∧ (keep_alive s2.1 = Some lease → lease ∈ e_leases s2.1)
    ∧ (lease ∈ e_leases s2.1 →
        (discover_Service (si_service info) fallback s2).1 = inr (hd fallback (si_ipports info))).
Proof.
  pose proof (wf_reachable _ _ _ _ _ _ Hstart) as Hwf.
  apply rpc_D_ok in Hregister as [->|(w & w' & Hr)]; [done|].
  pose proof (register_outcome _ _ _ _ _ _ _ Hr) as [Hregs Hdone].
  specialize (Hdone _ eq_refl Hsuccess). simpl in Hregs, Hdone.
  assert (Hwf1 : etcd_wf anything s1.1) by by eapply (wf_registers anything).
  pose proof (hold_registered _ (service_key (si_service info)) (serialize_vector (si_ipports info)) _ Hwf) as Hh.
  rewrite <- Hdone in Hh. destruct (hold_run _ _ _ _ _ _ Hlife Hwf1 Hh) as [_ [_ Hkeep Hkey]].
  exists (e_next s0.1). split_and!; [by rewrite Hdone|done|]. intros Hin.
  by rewrite (discover_registered _ _ _ _ _ Hup (Hkey Hin)), deserialize_words.
Qed.

(** A look-up never invents an address: in a registry reached from the empty
    one by registrations satisfying [Reg], and whatever calls fail,
    [discover_Service] answers the fallback or (a piece of) an address registered
    for that very service. *)
Theorem discovered_was_registered describe Reg first w0 s service fallback addr s'
    (Hlife : rtc (life describe Reg (λ _, True)) (new_etcd first, w0) s)
    (Hrun : discover_Service service fallback s = (inr addr, s')) :
  addr = fallback
  ∨ ∃ ipport x, Reg service ipport ∧ x ∈ ipport ∧ addr ∈ deserialize_vector x.
Proof.
  unfold discover_Service in Hrun. apply D_bind_cases in Hrun as [(e & _ & ?)|(resp & s1 & Hg & H)]; [done|].
  injection H as <- <-. destruct (sv_ipport resp) as [|a rest] eqn:Hi; [by left|].
  destruct (sv_registered resp); [|by left]. right.
  apply rpc_D_ok in Hg as [->|(w & w' & Hg)]; [done|].
  pose proof (wf_reachable _ _ _ _ _ _ Hlife) as Hwf.
  apply (GetService_from Reg) in Hg as [H|(ipport & HR & H)]; [congruence| |done].
  rewrite Hi in H. assert (Ha : a ∈ ipport ≫= deserialize_vector) by (rewrite <- H; constructor).
  apply list_elem_of_bind in Ha as (x & Ha & Hx). eauto.
Qed.

(** The client's [UnregisterService] leaves every service registered: its request
    names none. *)
Lemma unregister_keeps service s :
  service ≠ "" →
  e_keys (client_UnregisterService s).2.1 !! service_key service = e_keys s.1 !! service_key service.
Proof.
  intros Hne. unfold client_UnregisterService, rpc_D.
  destruct (on_world _ s) as [[e|[]] s1] eqn:H1;
    apply (f_equal (λ x, x.2.1)) in H1; rewrite on_world_etcd in H1; simpl in H1;
    [simpl; by rewrite <- H1|].
  assert (Hu : e_keys (UnregisterService "" s1).2.1 !! service_key service = e_keys s.1 !! service_key service).
  { destruct (unregister_etcd "" s1) as [->| ->]; rewrite <- H1; [done|]. simpl.
    rewrite lookup_delete_ne; [done|]. by intros ?%(inj service_key "" service). }
  destruct (UnregisterService "" s1) as [[[]|a] s2] eqn:H2; cbn [fst snd] in *; try done.
  destruct (on_world _ s2) as [[e|[]] s3] eqn:H3;
    apply (f_equal (λ x, x.2.1)) in H3; rewrite on_world_etcd in H3; simpl in *; by rewrite <- H3.
Qed.

Lemma RegisterService_nofault describe service ipport methods e w :
  w_faults w = [] →
  ∃ w', w_faults w' = [] ∧ RegisterService describe service ipport methods (e, w)
    = (inr (mkRegisterResp true ""), (registered (service_key service) (serialize_vector ipport) e, w')).
Proof.
  intros Hf. unfold RegisterService, mbind, D_bind, etcd, on_etcd. rewrite Hf. cbn [fst snd].
  rewrite Hf. cbn [fst snd]. unfold on_world, cache_methods. cbn [fst snd].
  unfold mbind, M_bind, catch, redis_setex, redis, remote. rewrite Hf. eexists. split; [|reflexivity]. simpl. done.
Qed.

(** One registration takes the renewal away from the one before it, which then
    ends with its lease. *)
Lemma second_registration_drops_first describe a b ipport methods ipport' methods' e w :
  w_faults w = [] →
  let s1 := (RegisterService describe a ipport methods (e, w)).2 in
  let s2 := (RegisterService describe b ipport' methods' s1).2 in
  keep_alive s1.1 = Some (e_next e) ∧ keep_alive s2.1 = Some (e_next e + 1).
Proof.
  intros Hf. destruct (RegisterService_nofault describe a ipport methods e w Hf) as (w1 & Hf1 & ->).
  cbn [snd]. set (e1 := registered _ _ _).
  destruct (RegisterService_nofault describe b ipport' methods' e1 w1 Hf1) as (w2 & _ & ->). done.
Qed.

(** * Presence *)

(** Nobody goes online in Redis: a flag "1" afterwards was there before. *)
Definition no_flag_raised (w w' : World) : Prop :=
  ∀ id, r_strings (w_redis w') !! online_key id = Some "1" → r_strings (w_redis w) !! online_key id = Some "1".

#[export] Instance no_flag_raised_preorder : PreOrder no_flag_raised.
Proof. split; [by intros w id|]. intros w1 w2 w3 H12 H23 id H. by apply H12, H23. Qed.

#[export] Instance flag_redis_get key : Step no_flag_raised (redis_get key).
Proof. apply Step_remote; [apply _|by intros w fs id|]. intros w a w' [= _ <-] id H. exact H. Qed.

#[export] Instance flag_setex key : Step no_flag_raised (redis_setex key "0").
Proof.
  apply Step_remote; [apply _|by intros w fs id|]. intros w a w' [= _ <-] id. simpl.
  intros H. apply lookup_insert_Some in H as [[_ H]|[_ H]]; [discriminate H|exact H].
Qed.

#[export] Instance flag_find_user id : Step no_flag_raised (find_user_by_id id).
Proof.
  intros w. assert (Hs : Step same_stores (find_user_by_id id)).
  { unfold find_user_by_id, find_user_caught, find_user.
    repeat first [apply _ | apply Step_bind | intros [] | intros []]. }
  destruct (Hs w) as (_ & Hr & _). intros k. by rewrite Hr.
Qed.

#[export] Instance EndsE_parse_user rows : EndsE (parse_user_from_row rows).
Proof.
  unfold parse_user_from_row, at_, unsigned_field, string_field, timestamp_column, datetime_field.
  repeat first [apply _ | apply EndsE_bind | case_match | intros ?].
Qed.

#[export] Instance Ends_find_user_by_id id : Ends (find_user_by_id id).
Proof.
  unfold find_user_by_id, find_user_caught, find_user.
  apply Ends_catch_bind; [|apply _|intros; apply _]. apply Ends_with_connection, Ends_bind; [apply _|].
  intros [|row rows]; apply _.
Qed.

Lemma caught {A} (m : M A) w : Ends m → ∃ r w', catch m w = (inr r, w') ∧ m w = (r, w').
Proof.
  intros Hm. specialize (Hm w). unfold catch. destruct (m w) as [[[]|a] w']; simpl in *; eauto.
  done.
Qed.

Lemma cached_online_run id w :
  ∃ b w', cached_online id w = (inr b, w') ∧ no_flag_raised w w'
    ∧ (b = true → r_strings (w_redis w) !! online_key id = Some "1").
Proof.
  destruct (caught (redis_get (online_key id)) w) as (r & w' & Hc & Hr); [by apply Ends_remote|].
  unfold cached_online. eexists _, w'. split; [by rewrite (bind_run _ _ _ _ _ Hc)|]. split.
  - pose proof (flag_redis_get (online_key id) w) as Hs. by rewrite Hr in Hs.
  - destruct r as [e|[v|]]; [done| |done]. intros ->%bool_decide_eq_true.
    apply remote_ok in Hr as (fs & H). by injection H.
Qed.

Lemma cache_offline_run id w : ∃ w', cache_offline id w = (inr tt, w') ∧ no_flag_raised w w'.
Proof.
  unfold cache_offline.
  set (m := user ← find_user_by_id id;
            match user with Some _ => redis_setex (online_key id) "0" | None => mret tt end).
  assert (Hs : Step no_flag_raised m) by (apply Step_bind; [apply _|apply _|intros []; apply _]).
  assert (He : Ends m) by (apply Ends_bind; [apply _|intros []; [by apply Ends_remote|apply _]]).
  destruct (caught m w He) as (r & w' & Hc & Hm). exists w'.
  split; [by rewrite (bind_run _ _ _ _ _ Hc)|]. specialize (Hs w). by rewrite Hm in Hs.
Qed.

Lemma check_user_run id w :
  ∃ st w', check_user id w = (inr st, w') ∧ st_userID st = id ∧ no_flag_raised w w'
    ∧ (st_isOnline st = true → r_strings (w_redis w) !! online_key id = Some "1").
Proof.
  destruct (cached_online_run id w) as (b & w1 & H1 & Hw1 & Hb). unfold check_user.
  setoid_rewrite (bind_run _ _ _ _ _ H1). destruct b; [by eexists _, w1|].
  destruct (cache_offline_run id w1) as (w2 & H2 & Hw2).
  setoid_rewrite (bind_run _ _ _ _ _ H2).
  eexists _, w2. split_and!; [done|done|by etrans|done].
Qed.

(** The presence query always answers, one status for each user asked for and
    in that order, whatever calls to Redis and MySQL fail; and a user is reported
    online only if the online flag stood in Redis when the query began. *)
Theorem check_user_online_answers ids w :
  ∃ statuses w', CheckUserOnline ids w = (inr statuses, w')
    ∧ st_userID <$> statuses = ids
    ∧ Forall (λ st, st_isOnline st = true →
        r_strings (w_redis w) !! online_key (st_userID st) = Some "1") statuses.
Proof.
  cut (∃ statuses w', CheckUserOnline ids w = (inr statuses, w') ∧ no_flag_raised w w'
    ∧ st_userID <$> statuses = ids
    ∧ Forall (λ st, st_isOnline st = true →
        r_strings (w_redis w) !! online_key (st_userID st) = Some "1") statuses).
  { intros (sts & w' & ? & _ & ? & ?). by exists sts, w'. }
  unfold CheckUserOnline. revert w. induction ids as [|id ids IH]; intros w; [by eexists [], w|].
  destruct (check_user_run id w) as (st & w1 & H1 & Hid & Hw1 & Hon).
  destruct (IH w1) as (sts & w2 & H2 & Hw2 & Hids & Hall). exists (st :: sts), w2. csimpl.
  split; [|split; [by etrans|split; [by rewrite Hid, Hids|]]].
  - by rewrite (bind_run _ _ _ _ _ H1), (bind_run _ _ _ _ _ H2).
  - constructor; [by rewrite Hid|]. eapply Forall_impl; [exact Hall|]. intros s Hs ?. by apply Hw1, Hs.
Qed.

(** * Concrete inputs *)

Definition msg_info : ServiceInfo := mkServiceInfo "MsgService" ["localhost:50053"; "10.0.0.2:50053"] ["SendMsg"].
Definition push_info : ServiceInfo := mkServiceInfo "PushService" ["localhost:50054"] [].

Definition no_text : Z → string := λ _, "".
Definition disc_s0 : Etcd * World := (new_etcd 7, sample_world empty_db []).
Definition disc_s1 : Etcd * World := (client_RegisterService no_text msg_info disc_s0).2.
Definition disc_s2 : Etcd * World :=
  (RegisterService no_text (si_service push_info) (si_ipports push_info) (si_methods push_info) disc_s1).2.

Lemma registered_service_found_witness :
  (discover_Service "MsgService" "fallback" disc_s2).1 = inr "localhost:50053".
Proof.
  destruct (registered_service_found no_text 7 (sample_world empty_db []) disc_s0 msg_info
    (mkRegisterResp true "") disc_s1 disc_s2 "fallback") as (lease & Hk & _ & Hfound).
  - apply rtc_refl.
  - vm_compute. reflexivity.
  - reflexivity.
  - apply rtc_once, life_register. discriminate.
  - vm_compute. reflexivity.
  - repeat constructor; discriminate.
  - apply Hfound. injection Hk as <-. vm_compute. reflexivity.
Defined.

Definition registered_push : string → list string → Prop :=
  λ service ipport, service = "PushService" ∧ ipport = ["localhost:50054"].
Definition disc_s3 : Etcd * World :=
  (RegisterService no_text "PushService" ["localhost:50054"] [] disc_s0).2.

Lemma discovered_was_registered_witness :
  (discover_Service "PushService" "fallback" disc_s3).1 = inr "localhost:50054"
  ∧ ("localhost:50054" = "fallback"
     ∨ ∃ ipport x, registered_push "PushService" ipport ∧ x ∈ ipport ∧ "localhost:50054" ∈ deserialize_vector x).
Proof.
  split; [vm_compute; reflexivity|].
  eapply (discovered_was_registered no_text registered_push 7 (sample_world empty_db []) disc_s3
    "PushService" "fallback").
  - apply rtc_once, life_register. split; reflexivity.
  - vm_compute. reflexivity.
Defined.
