(* ===== verification/Lifecycle.v ===== *)
(** The life of a service: [BaseServiceServer] ([include/services/base_service.h]),
    every service's base class, and the two waiting loops of [main.cpp].

    Three threads share the object: the caller of [Start], [Stop] and the destructor
    (one thread, as in [main]), the thread that runs [RunServer], and the monitor
    thread.  Each program point is a constructor; a step is the code between two
    accesses to what the threads share.  The [list] of a thread's next processes is
    empty when the thread waits (a join, [Wait], a polling loop whose condition does
    not hold yet, a call that has not come back) or is not there; it has several
    elements where a call may fail.

    Three things are in the hands of others and have steps of their own ([answers]):
    that the backbone answers a registration, that it answers a removal (neither call
    has a deadline), and that the requests which the gRPC server still handles come to
    an end ([Shutdown] without a deadline waits for them).  Nothing makes them happen. *)
From S2P Require Import Prelude.

Inductive ServiceState := kStopped | kStarting | kRunning | kStopping.

#[global] Instance ServiceState_eq_dec : EqDecision ServiceState.
Proof. solve_decision. Defined.

(** [server_]: null, or a gRPC server before [Shutdown], while requests that came before
    it are still being handled, and after. *)
Inductive grpc_server := NoServer | Serving | Draining | ShutDown.

#[global] Instance grpc_server_eq_dec : EqDecision grpc_server.
Proof. solve_decision. Defined.

(** What a call of [Shutdown] makes of it at once: there are requests in progress, or
    none.  The call returns when the server is not [Draining] any more. *)
Definition Shutdown (server : grpc_server) : list grpc_server :=
  match server with
  | NoServer => [NoServer]
  | Serving => [Draining; ShutDown]
  | Draining => [Draining]
  | ShutDown => [ShutDown]
  end.

Inductive caller_pc :=
| Idle
| StartFlags        (* [Start]: state is kStarting, the flags are reset next *)
| StartThread       (* the server thread is created next *)
| StopFlags         (* [Stop]: state is kStopping, the flags are set next *)
| StopUnregister    (* [UnregisterFromEtcd] looks at the client *)
| StopCall          (* its call is on its way *)
| StopReset         (* its call has returned *)
| StopShutdown
| StopDrain         (* in [Shutdown] *)
| StopJoin
| StopDone          (* joined: the state is set next *)
| Destroying        (* the destructor, after its [Stop] *)
| Destroyed.

#[global] Instance caller_pc_eq_dec : EqDecision caller_pc.
Proof. solve_decision. Defined.

Inductive runner_pc :=
| NoThread
| Build             (* [BuildAndStart] *)
| Announce          (* the server is up, the state is set next *)
| Connect           (* [RegisterToEtcd] makes its client *)
| Register          (* its coroutine calls the client *)
| Registering       (* the call is on its way *)
| Monitor           (* the monitor thread is created next *)
| Wait
| JoinMonitor
| Finish            (* the state is set next *)
| Returned.

#[global] Instance runner_pc_eq_dec : EqDecision runner_pc.
Proof. solve_decision. Defined.

(** [Shutting]: in [Shutdown]. *)
Inductive monitor_pc := NoMonitor | Polling | Shutting | Ended.

#[global] Instance monitor_pc_eq_dec : EqDecision monitor_pc.
Proof. solve_decision. Defined.

Record Service := mkService {
  state_ : ServiceState;
  should_stop_ : bool;
  g_should_stop_service : bool;
  server_ : grpc_server;
  server_thread_ : bool;        (* joinable *)
  backbon_client_ : bool;       (* not null *)
  etcd_registered_ : bool;
  destructor : bool;            (* [Stop] runs inside the destructor *)
  caller : caller_pc;
  runner : runner_pc;
  monitor : monitor_pc;
}.

Definition set_state x s := mkService x (should_stop_ s) (g_should_stop_service s) (server_ s)
  (server_thread_ s) (backbon_client_ s) (etcd_registered_ s) (destructor s) (caller s) (runner s) (monitor s).
Definition set_flags x s := mkService (state_ s) x x (server_ s)
  (server_thread_ s) (backbon_client_ s) (etcd_registered_ s) (destructor s) (caller s) (runner s) (monitor s).
Definition set_server x s := mkService (state_ s) (should_stop_ s) (g_should_stop_service s) x
  (server_thread_ s) (backbon_client_ s) (etcd_registered_ s) (destructor s) (caller s) (runner s) (monitor s).
Definition set_thread x s := mkService (state_ s) (should_stop_ s) (g_should_stop_service s) (server_ s)
  x (backbon_client_ s) (etcd_registered_ s) (destructor s) (caller s) (runner s) (monitor s).
Definition set_client x s := mkService (state_ s) (should_stop_ s) (g_should_stop_service s) (server_ s)
  (server_thread_ s) x (etcd_registered_ s) (destructor s) (caller s) (runner s) (monitor s).
Definition set_registered x s := mkService (state_ s) (should_stop_ s) (g_should_stop_service s) (server_ s)
  (server_thread_ s) (backbon_client_ s) x (destructor s) (caller s) (runner s) (monitor s).
Definition set_destructor x s := mkService (state_ s) (should_stop_ s) (g_should_stop_service s) (server_ s)
  (server_thread_ s) (backbon_client_ s) (etcd_registered_ s) x (caller s) (runner s) (monitor s).
Definition set_caller x s := mkService (state_ s) (should_stop_ s) (g_should_stop_service s) (server_ s)
  (server_thread_ s) (backbon_client_ s) (etcd_registered_ s) (destructor s) x (runner s) (monitor s).
Definition set_runner x s := mkService (state_ s) (should_stop_ s) (g_should_stop_service s) (server_ s)
  (server_thread_ s) (backbon_client_ s) (etcd_registered_ s) (destructor s) (caller s) x (monitor s).
Definition set_monitor x s := mkService (state_ s) (should_stop_ s) (g_should_stop_service s) (server_ s)
  (server_thread_ s) (backbon_client_ s) (etcd_registered_ s) (destructor s) (caller s) (runner s) x.

(** The constructor. *)
Definition new_service : Service :=
  mkService kStopped false false NoServer false false false false Idle NoThread NoMonitor.

(** A process that has died: [std::terminate] from assigning over a joinable thread,
    or a call through the null [backbon_client_]. *)
Inductive process := Alive (s : Service) | Terminated | NullClient.

Section service.
(** [backbon_addr_] is set ([EnableEtcdRegistration]). *)
Context (etcd_enabled : bool).

(** ** [Start], [Stop] and the destructor *)

(** The first block of [Start]. *)
Definition call_Start (s : Service) : process :=
  Alive (if decide (state_ s = kStopped) then set_caller StartFlags (set_state kStarting s) else s).

(** Where [Stop] returns to. *)
Definition stopped (s : Service) : Service :=
  set_caller (if destructor s then Destroying else Idle) s.

(** The first block of [Stop]. *)
Definition call_Stop (s : Service) : process :=
  Alive (if decide (state_ s = kRunning) then set_caller StopFlags (set_state kStopping s) else stopped s).

Definition call_destructor (s : Service) : process := call_Stop (set_destructor true s).

(** The thread starts as a whole run of [RunServer]; assigning its handle over one
    that is joinable terminates the process. *)
Definition create_thread (s : Service) : process :=
  if server_thread_ s then Terminated
  else Alive (set_caller Idle (set_thread true (set_runner Build (set_monitor NoMonitor s)))).

Definition join_thread (s : Service) : Service := set_thread false (set_runner NoThread s).

Definition UnregisterFromEtcd (s : Service) : list process :=
  match caller s with
  | StopUnregister =>
      [Alive (set_caller (if backbon_client_ s then StopCall else StopShutdown) s)]
  | StopReset => [Alive (set_caller StopShutdown (set_client false s))]
  | _ => []
  end.

Definition caller_next (s : Service) : list process :=
  match caller s with
  | Idle | Destroyed => []
  | StartFlags => [Alive (set_caller StartThread (set_flags false s))]
  | StartThread =>
      (* the constructor of [std::thread] may throw: [Start] is left by the exception *)
      [create_thread s; Alive (set_caller Idle s)]
  | StopFlags => [Alive (set_caller StopUnregister (set_flags true s))]
  | StopUnregister | StopCall | StopReset => UnregisterFromEtcd s
  | StopShutdown => (λ server, Alive (set_caller StopDrain (set_server server s))) <$> Shutdown (server_ s)
  | StopDrain => if decide (server_ s = Draining) then [] else [Alive (set_caller StopJoin s)]
  | StopJoin =>
      if server_thread_ s then
        if decide (runner s = Returned) then [Alive (set_caller StopDone (join_thread s))] else []
      else [Alive (set_caller StopDone s)]
  | StopDone => [Alive (stopped (set_state kStopped s))]
  | Destroying =>
      if server_thread_ s then
        if decide (runner s = Returned) then [Alive (set_caller Destroyed (join_thread s))] else []
      else [Alive (set_caller Destroyed s)]
  end.

(** ** [RunServer] *)

(** The client may fail to be made. *)
Definition RegisterToEtcd (s : Service) : list process :=
  match runner s with
  | Connect =>
      if etcd_enabled then [Alive (set_runner Register (set_client true s)); Alive (set_runner Monitor s)]
      else [Alive (set_runner Monitor s)]
  | Register => [if backbon_client_ s then Alive (set_runner Registering s) else NullClient]
  | _ => []
  end.

Definition runner_next (s : Service) : list process :=
  match runner s with
  | NoThread | Returned => []
  | Build =>
      [Alive (set_runner Announce (set_server Serving s));
       Alive (set_runner Returned (set_state kStopped (set_server NoServer s)));  (* null *)
       Alive (set_runner Returned (set_state kStopped s))]                        (* an exception *)
  | Announce => [Alive (set_runner Connect (set_state kRunning s))]
  | Connect | Register | Registering => RegisterToEtcd s
  | Monitor =>
      (* the constructor of [std::thread] may throw: caught, the state is set *)
      [Alive (set_runner Wait (set_monitor Polling s)); Alive (set_runner Returned (set_state kStopped s))]
  | Wait => if decide (server_ s = ShutDown) then [Alive (set_runner JoinMonitor s)] else []
  | JoinMonitor => if decide (monitor s = Ended) then [Alive (set_runner Finish s)] else []
  | Finish => [Alive (set_runner Returned (set_state kStopped s))]
  end.

Definition monitor_next (s : Service) : list process :=
  match monitor s with
  | Polling =>
      if should_stop_ s || g_should_stop_service s
      then (λ server, Alive (set_monitor Shutting (set_server server s))) <$> Shutdown (server_ s) else []
  | Shutting => if decide (server_ s = Draining) then [] else [Alive (set_monitor Ended s)]
  | NoMonitor | Ended => []
  end.

(** ** What others do *)

(** [RegisterService] comes back: registered, or an error that is logged. *)
Definition registration_answered (s : Service) : list process :=
  match runner s with
  | Registering =>
      [Alive (set_runner Monitor (set_registered true s)); Alive (set_runner Monitor s)]
  | _ => []
  end.

(** [UnregisterService] comes back, whatever it says. *)
Definition removal_answered (s : Service) : list process :=
  match caller s with StopCall => [Alive (set_caller StopReset s)] | _ => [] end.

(** The last request in progress ends. *)
Definition requests_ended (s : Service) : list process :=
  match server_ s with Draining => [Alive (set_server ShutDown s)] | _ => [] end.

Definition answers (s : Service) : list process :=
  registration_answered s ++ removal_answered s ++ requests_ended s.

(** ** The processes *)

Definition next (s : Service) : list process := caller_next s ++ runner_next s ++ monitor_next s.

(** Another instance of the same service type stops: the flag of the type is set. *)
Definition raise_flag (s : Service) : Service :=
  mkService (state_ s) (should_stop_ s) true (server_ s) (server_thread_ s) (backbon_client_ s)
    (etcd_registered_ s) (destructor s) (caller s) (runner s) (monitor s).

(** The calls the owner of the object makes, under the conditions it keeps to. *)
Context (may_start may_stop : Service → Prop).

Inductive step : process → process → Prop :=
| step_next s p : p ∈ next s → step (Alive s) p
| step_answer s p : p ∈ answers s → step (Alive s) p
| step_start s : caller s = Idle → may_start s → step (Alive s) (call_Start s)
| step_stop s : caller s = Idle → may_stop s → step (Alive s) (call_Stop s)
| step_destructor s : caller s = Idle → may_stop s → step (Alive s) (call_destructor s)
| step_flag s : g_should_stop_service s = false → step (Alive s) (Alive (raise_flag s)).
End service.

(** * Waiting loops *)

(** [WaitForEtcdRegistration]: [registered] is what the flag reads at each poll; the
    result, and the number of 500 ms sleeps. *)
Fixpoint wait_loop (fuel : nat) (registered : nat → bool) (timeout_seconds : Z) (elapsed : nat)
    : option (bool * nat) :=
  match fuel with
  | O => None
  | S fuel =>
      if registered elapsed then Some (true, elapsed)
      else if timeout_seconds * 2 <=? Z.of_nat elapsed then Some (false, elapsed)
      else wait_loop fuel registered timeout_seconds (S elapsed)
  end.

Definition WaitForEtcdRegistration (etcd_enabled : bool) (fuel : nat) (registered : nat → bool)
    (timeout_seconds : Z) : option (bool * nat) :=
  if etcd_enabled then wait_loop fuel registered timeout_seconds 0 else Some (true, 0%nat).

(** [main]'s wait for the backbone: the result, and the seconds slept. *)
Fixpoint wait_backbone (fuel : nat) (running : nat → bool) (counter : nat) (slept : Z)
    : option (bool * Z) :=
  match fuel with
  | O => None
  | S fuel =>
      if running counter then Some (true, slept)
      else
        let slept := slept + Z.shiftl 1 (Z.of_nat counter) in
        if decide (S counter = 3%nat) then Some (false, slept)
        else wait_backbone fuel running (S counter) slept
  end.
