(* ===== verification/LifecycleProofs.v ===== *)
(** The invariant of the three threads of a service, and that every step keeps it. *)
From S2P Require Import Prelude Lifecycle.

(** * The invariant *)

(** The state that goes with the program points. *)
Definition phase (s : Service) : Prop :=
  match caller s with
  | StartFlags | StartThread => state_ s = kStarting ∧ (runner s = NoThread ∨ runner s = Returned)
  | StopFlags | StopUnregister | StopCall | StopReset | StopShutdown | StopDrain | StopJoin =>
      match runner s with
      | NoThread | Build | Announce => False
      | Returned => state_ s = kStopped
      | _ => state_ s = kStopping
      end
  | StopDone => state_ s = kStopped ∧ runner s = NoThread
  | Destroyed => runner s = NoThread
  | Idle | Destroying =>
      match runner s with
      | NoThread | Returned => state_ s = kStopped ∨ state_ s = kStarting
      | Build | Announce => state_ s = kStarting
      | _ => state_ s = kRunning
      end
  end.

(** The server takes requests, or still handles some. *)
Definition up (server : grpc_server) : Prop :=
  match server with Serving | Draining => True | _ => False end.

(** The monitor's thread is running. *)
Definition watching (m : monitor_pc) : Prop :=
  match m with Polling | Shutting => True | _ => False end.

(** The server and the monitor that go with the runner. *)
Definition serving (s : Service) : Prop :=
  match runner s with
  | NoThread => (up (server_ s) → caller s = Destroyed) ∧ ¬ watching (monitor s)
  | Build => ¬ up (server_ s) ∧ monitor s = NoMonitor
  | Announce | Connect | Register | Registering | Monitor => server_ s ≠ NoServer ∧ monitor s = NoMonitor
  | Wait => server_ s ≠ NoServer ∧ monitor s ≠ NoMonitor
      ∧ (monitor s = Shutting → server_ s ≠ Serving) ∧ (monitor s = Ended → server_ s = ShutDown)
  | JoinMonitor => server_ s = ShutDown ∧ monitor s ≠ NoMonitor
  | Finish => server_ s = ShutDown ∧ monitor s = Ended
  | Returned => ¬ watching (monitor s) ∧ (up (server_ s) → monitor s = NoMonitor)
  end.

(** What [Stop] has done so far. *)
Definition stopping (s : Service) : Prop :=
  match caller s with
  | StopUnregister | StopCall | StopReset | StopShutdown => should_stop_ s = true
  | StopDrain => should_stop_ s = true ∧ server_ s ≠ Serving
  | StopJoin | StopDone => should_stop_ s = true ∧ ¬ up (server_ s)
  | _ => True
  end.

Record service_inv (s : Service) : Prop := {
  inv_thread : server_thread_ s = false ↔ runner s = NoThread;
  inv_phase : phase s;
  inv_serving : serving s;
  inv_stopping : stopping s;
  (* somebody waits in [Shutdown] for the last request *)
  inv_draining : server_ s = Draining → caller s = StopDrain ∨ monitor s = Shutting;
}.

Definition process_inv (p : process) : Prop :=
  match p with Alive s => service_inv s | _ => True end.

Lemma inv_new : process_inv (Alive new_service).
Proof. split; unfold phase, serving, stopping, up, watching; simpl; intuition congruence. Qed.

(** The processes listed, one goal each. *)
Ltac threads :=
  repeat match goal with
  | H : _ ∈ [] |- _ => by apply not_elem_of_nil in H
  | H : _ ∈ _ :: _ |- _ => apply elem_of_cons in H as [->|H]
  | H : _ ∈ _ <$> Shutdown ?sv |- _ => destruct sv; simpl in H
  | H : context [if decide ?P then _ else _] |- _ => destruct (decide P)
  | H : context [if ?b then _ else _] |- _ => destruct b eqn:?
  end.

(** The invariant of the next process, by cases on the runner's point, the server and
    the monitor. *)
Ltac settle r sv m :=
  unfold phase, serving, stopping, up, watching in *; simpl in *; destruct r; simpl in *;
  try (exfalso; intuition congruence);
  split; unfold phase, serving, stopping, up, watching; simpl; try done;
  repeat match goal with |- context [if ?b then _ else _] => destruct b end;
  try destruct sv; destruct m; simpl in *; intuition congruence.

Lemma inv_caller s p : service_inv s → p ∈ caller_next s → process_inv p.
Proof.
  intros [Ht Hp Hs Hk Hd]. unfold caller_next, UnregisterFromEtcd. destruct s as [st b g sv th cl rg ds c r m].
  simpl in *. destruct c; intros H; threads; try done; unfold create_thread; simpl; try done.
  all: try (destruct th; [done|]).
  all: settle r sv m.
Qed.

Lemma inv_runner etcd_enabled s p : service_inv s → p ∈ runner_next etcd_enabled s → process_inv p.
Proof.
  intros [Ht Hp Hs Hk Hd]. unfold runner_next, RegisterToEtcd. destruct s as [st b g sv th cl rg ds c r m].
  simpl in *. destruct r; intros H; threads; try (destruct cl; try done); simpl.
  all: settle c sv m.
Qed.

Lemma inv_monitor s p : service_inv s → p ∈ monitor_next s → process_inv p.
Proof.
  intros [Ht Hp Hs Hk Hd]. unfold monitor_next. destruct s as [st b g sv th cl rg ds c r m].
  simpl in *. destruct m; intros H; threads; try done; simpl;
    split; unfold phase, serving, stopping, up, watching in *; simpl in *; try done;
    try destruct sv; destruct r; simpl in *; try tauto; destruct c; simpl in *; intuition congruence.
Qed.

Lemma inv_answers s p : service_inv s → p ∈ answers s → process_inv p.
Proof.
  intros [Ht Hp Hs Hk Hd]. unfold answers, registration_answered, removal_answered, requests_ended.
  rewrite !elem_of_app. destruct s as [st b g sv th cl rg ds c r m]. simpl in *.
  intros [H|[H|H]]; [destruct r; threads; try done; settle c sv m|destruct c; threads; try done; settle r sv m|].
  destruct sv; threads; try done. simpl.
  split; unfold phase, serving, stopping, up, watching in *; simpl in *; try done.
  - destruct r; simpl in *; intuition congruence.
  - destruct c; simpl in *; intuition congruence.
Qed.

Lemma inv_step etcd_enabled may_start may_stop p q :
  step etcd_enabled may_start may_stop p q → process_inv p → process_inv q.
Proof.
  intros [s q' H|s q' H|s Hc _|s Hc _|s Hc _|s _] Hi; simpl in Hi.
  - apply elem_of_app in H as [H|[H|H]%elem_of_app]; eauto using inv_caller, inv_runner, inv_monitor.
  - eauto using inv_answers.
  - destruct Hi as [Ht Hp Hs Hk Hd]. unfold call_Start. destruct s as [st b g sv th cl rg ds c r m].
    simpl in *. subst c. destruct (decide (st = kStopped)); [|done]. settle r sv m.
  - destruct Hi as [Ht Hp Hs Hk Hd]. unfold call_Stop, stopped. destruct s as [st b g sv th cl rg ds c r m].
    simpl in *. subst c. destruct (decide (st = kRunning)); settle r sv m.
  - destruct Hi as [Ht Hp Hs Hk Hd]. unfold call_destructor, call_Stop, stopped.
    destruct s as [st b g sv th cl rg ds c r m].
    simpl in *. subst c. destruct (decide (st = kRunning)); settle r sv m.
  - by destruct Hi.
Qed.
