(* ===== verification/LifecycleTheorems.v ===== *)
(** The life of a service: its state tells the truth between two calls, [Stop] returns
    and leaves nothing running, the discipline under which the process survives, and
    runs outside that discipline. *)
From S2P Require Import Prelude Lifecycle LifecycleProofs.

Section runs.
Context (etcd_enabled : bool) (may_start may_stop : Service → Prop).
#[local] Abbreviation steps := (step etcd_enabled may_start may_stop).
#[local] Abbreviation moves := (next etcd_enabled).

Definition reachable (p : process) : Prop := rtc steps (Alive new_service) p.

Lemma inv_reachable p : reachable p → process_inv p.
Proof.
  unfold reachable. cut (process_inv (Alive new_service)); [|apply inv_new].
  intros Hi H. revert Hi. induction H; eauto using inv_step.
Qed.

(** Between two calls the state tells the truth, on every schedule and whatever
    calls fail: a running service has its server and its thread; a service that says
    it is stopped serves nothing, unless the monitor thread could not be created; and
    kStopping is never left behind. *)
Theorem state_is_truthful s (Hs : reachable (Alive s)) (Hidle : caller s = Idle) :
  (state_ s = kRunning → server_ s ≠ NoServer ∧ server_thread_ s = true)
  ∧ (state_ s = kStopped → up (server_ s) → runner s = Returned ∧ monitor s = NoMonitor)
  ∧ state_ s ≠ kStopping.
Proof.
  apply inv_reachable in Hs as [Ht Hp Hv _ _]. unfold phase, serving in *. rewrite Hidle in *.
  destruct (runner s), (server_thread_ s); intuition congruence.
Qed.

(** ** Stop returns *)

Definition in_Stop (c : caller_pc) : Prop :=
  match c with
  | StopFlags | StopUnregister | StopCall | StopReset | StopShutdown | StopDrain | StopJoin | StopDone => True
  | _ => False
  end.

(** A move of one of the three threads, or one of the answers they wait for. *)
Definition moves_or_answers (p q : process) : Prop :=
  ∃ s, p = Alive s ∧ (q ∈ moves s ∨ q ∈ answers s).

(** How far the threads are from their ends. *)
Definition caller_rank (c : caller_pc) : nat :=
  match c with
  | StartFlags => 40 | StartThread => 30 | StopFlags => 10 | StopUnregister => 9 | StopCall => 8
  | StopReset => 7 | StopShutdown => 6 | StopDrain => 4 | StopJoin => 3 | StopDone => 2
  | Destroying => 1 | Idle | Destroyed => 0
  end.
Definition runner_rank (r : runner_pc) : nat :=
  match r with
  | Build => 12 | Announce => 11 | Connect => 10 | Register => 9 | Registering => 8 | Monitor => 7
  | Wait => 3 | JoinMonitor => 2 | Finish => 1 | Returned | NoThread => 0
  end.
Definition monitor_rank (m : monitor_pc) : nat := match m with Polling => 3 | Shutting => 1 | _ => 0 end.
Definition server_rank (server : grpc_server) : nat := match server with Draining => 1 | _ => 0 end.
Definition rank (s : Service) : nat :=
  caller_rank (caller s) + runner_rank (runner s) + monitor_rank (monitor s) + server_rank (server_ s)
  + if g_should_stop_service s then 0 else 1.

(** Every step of a thread, every answer, and the flag, brings the ends nearer. *)
Lemma next_rank s p :
  p ∈ moves s ∨ p ∈ answers s → match p with Alive s' => (rank s' < rank s)%nat | _ => True end.
Proof.
  unfold next, answers, registration_answered, removal_answered, requests_ended. rewrite !elem_of_app.
  destruct s as [st b g sv th cl rg ds c r m]. unfold caller_next, UnregisterFromEtcd, runner_next, RegisterToEtcd, monitor_next. simpl.
  intros [[H|[H|H]]|[H|[H|H]]]; [destruct c|destruct r|destruct m|destruct r|destruct c|destruct sv];
    threads; try done; unfold create_thread, stopped;
    repeat match goal with |- context [if ?b then _ else _] => destruct b; try done end;
    unfold rank; simpl;
    repeat match goal with |- context [if ?b then _ else _] => destruct b end; simpl; lia.
Qed.

(** What holds along [Stop]: it is running, or it has returned, or the process has
    died of a null client. *)
Definition stop_returned (p : process) : Prop :=
  match p with
  | Alive s => (caller s = Idle ∨ caller s = Destroying) ∧ state_ s = kStopped
      ∧ ¬ up (server_ s) ∧ server_thread_ s = false
  | Terminated => False
  | NullClient => True
  end.

(** What [Stop] may be waiting for when none of the three threads can move. *)
Definition waits_for_others (s : Service) : Prop :=
  runner s = Registering ∨ caller s = StopCall ∨ server_ s = Draining.

Lemma stop_moves s : service_inv s → in_Stop (caller s) → moves s = [] → waits_for_others s.
Proof.
  intros [Ht Hp Hv Hk Hd] Hc. unfold next, caller_next, UnregisterFromEtcd, waits_for_others.
  destruct (caller s) eqn:Ec; try done; simpl; try (by auto).
  { by destruct (server_ s). }
  { destruct (decide (server_ s = Draining)); [auto|done]. }
  unfold phase, serving, stopping in *. rewrite Ec in *. destruct Hk as [Hstop Hserve].
  destruct (server_thread_ s); [|done]. destruct (runner s) eqn:Er; try done; unfold runner_next, RegisterToEtcd; rewrite Er; try done; try (by auto).
  - by destruct etcd_enabled.
  - by destruct (server_ s), Hv.
  - destruct Hv as [Hsv Hm]. destruct (decide (monitor s = Ended)); [done|].
    unfold monitor_next. destruct (monitor s); [done| | |done].
    + by rewrite Hstop, Hsv.
    + by rewrite Hsv.
Qed.

(** What is waited for has a step. *)
Lemma waits_answers s : waits_for_others s → answers s ≠ [].
Proof.
  unfold answers, registration_answered, removal_answered, requests_ended.
  intros [-> |[-> | ->]]; [done|by destruct (runner s)|].
  by destruct (runner s), (caller s).
Qed.

(** The runner, the monitor and the answers leave [Stop] under way. *)
Lemma others_caller s p :
  p ∈ runner_next etcd_enabled s ++ monitor_next s ++ answers s →
  match p with
  | Alive s' => caller s' = caller s ∨ caller s = StopCall ∧ caller s' = StopReset
  | Terminated => False
  | NullClient => True
  end.
Proof using Type.
  unfold answers, registration_answered, removal_answered, requests_ended. rewrite !elem_of_app.
  destruct s as [st b g sv th cl rg ds c r m].
  unfold runner_next, RegisterToEtcd, monitor_next. simpl.
  intros [H|[H|[H|[H|H]]]]; [destruct r|destruct m|destruct r|destruct c|destruct sv]; threads; try done;
    try (destruct cl); simpl; auto.
Qed.

Lemma caller_moves s p :
  service_inv s → in_Stop (caller s) → p ∈ caller_next s →
  match p with Alive s' => in_Stop (caller s') ∨ stop_returned p | _ => False end.
Proof using Type.
  intros [Ht Hp Hv Hk _] Hc. unfold caller_next, UnregisterFromEtcd. unfold phase, serving, stopping in *.
  destruct (caller s) eqn:Ec; try done; intros H;
    repeat match type of H with context [Shutdown (server_ ?x)] => destruct (server_ x) eqn:? end;
    threads; simpl; auto.
  - destruct (backbon_client_ s); simpl; auto.
  - right. destruct Hp as [Hst Hr]. rewrite Hr in *. destruct Hk as [_ Hserve].
    unfold stopped, set_state, set_caller. simpl. split_and!; try done; [by destruct (destructor s); auto|].
    by apply Ht.
Qed.

Lemma stop_step s p :
  service_inv s → in_Stop (caller s) → steps (Alive s) p →
  stop_returned p ∨ ∃ s', p = Alive s' ∧ in_Stop (caller s') ∧ (rank s' < rank s)%nat.
Proof using Type.
  intros Hi Hc H.
  assert (Hothers : p ∈ runner_next etcd_enabled s ++ monitor_next s ++ answers s →
    match p with Alive s' => (rank s' < rank s)%nat | _ => True end →
    stop_returned p ∨ ∃ s', p = Alive s' ∧ in_Stop (caller s') ∧ (rank s' < rank s)%nat).
  { intros Hq Hrank. pose proof (others_caller _ _ Hq) as Hm. destruct p as [s'| |]; [|done|by left].
    right. exists s'. split; [done|]. split; [|done]. destruct Hm as [-> |[_ ->]]; done. }
  inversion H as [s0 q Hq E1|s0 q Hq E1|s0 Hid|s0 Hid|s0 Hid|s0 Hg]; subst;
    try (rewrite Hid in Hc; done).
  - pose proof (next_rank s p (or_introl Hq)) as Hrank.
    apply elem_of_app in Hq as [Hq|Hq].
    + pose proof (caller_moves _ _ Hi Hc Hq) as Hm. destruct p as [s'| |]; [|done|done].
      destruct Hm; eauto.
    + apply Hothers; [|done]. rewrite app_assoc. apply elem_of_app. by left.
  - apply Hothers; [|by apply next_rank; right]. rewrite !elem_of_app. by right; right.
  - right. eexists. split; [done|]. split; [done|]. unfold rank. simpl. rewrite Hg. lia.
Qed.

(** C12: [Stop] returns if those it waits for answer: once it has found the service
    running, then on every schedule of the three threads it comes to its end, with the
    state kStopped, the gRPC server shut down with no request in progress and the server
    thread joined, provided that the backbone answers the calls that are made to it and
    the requests in progress end (their calls and handlers have no deadline), and unless
    the process dies of a call through the client it has reset.  And these are all it
    waits for: whenever none of the threads can move, a registration or a removal is on
    its way, or a request is in progress. *)
Theorem stop_returns s (Hs : reachable (Alive s)) (Hstop : in_Stop (caller s)) :
  inevitably moves_or_answers steps stop_returned (Alive s)
  ∧ (moves s = [] → waits_for_others s).
Proof using Type.
  apply inv_reachable in Hs. simpl in Hs. split; [|by apply stop_moves].
  apply (inevitably_by_rank _ _ _
    (λ p, match p with Alive s => service_inv s ∧ in_Stop (caller s) | _ => False end)
    (λ p, match p with Alive s => rank s | _ => 0%nat end)); [| |done].
  - intros [t| |] Hi; [|done|done]. destruct Hi as [Hi Hc].
    destruct (moves t) as [|q l] eqn:E.
    + pose proof (waits_answers t (stop_moves t Hi Hc E)) as Hm. destruct (answers t) as [|q l] eqn:E'; [done|].
      exists q, t. split; [done|]. right. rewrite E'. constructor.
    + exists q, t. split; [done|]. left. rewrite E. constructor.
  - intros [t| |] q Hi Hq; [|done|done]. destruct Hi as [Hi Hc].
    destruct (stop_step t q Hi Hc Hq) as [?|(t' & -> & Hc' & Hlt)]; [by left|right].
    split; [|done]. split; [exact (inv_step _ _ _ _ _ Hq Hi)|done].
Qed.

(** ** The discipline *)
End runs.

(** Start once (no thread to assign over, never registered before); stop a running
    service only when it has registered, or need not. *)
Definition start_once (s : Service) : Prop := server_thread_ s = false ∧ etcd_registered_ s = false.
Definition stop_registered (etcd_enabled : bool) (s : Service) : Prop :=
  state_ s = kRunning → etcd_enabled = true → etcd_registered_ s = true.

(** The runner has not come past the registration. *)
Definition before_registered (r : runner_pc) : Prop :=
  match r with Build | Announce | Connect | Register | Registering => True | _ => False end.

Record careful (etcd_enabled : bool) (s : Service) : Prop := {
  care_inv : service_inv s;
  care_start : caller s = StartFlags ∨ caller s = StartThread → start_once s;
  care_stop : in_Stop (caller s) → etcd_enabled = true → etcd_registered_ s = true;
  care_run : etcd_registered_ s = true → before_registered (runner s) → False;
  care_client : runner s = Register → backbon_client_ s = true ∧ etcd_enabled = true;
}.

Definition careful_process (etcd_enabled : bool) (p : process) : Prop :=
  match p with Alive s => careful etcd_enabled s | _ => False end.

Lemma careful_caller etcd_enabled s p :
  careful etcd_enabled s → p ∈ caller_next s → careful_process etcd_enabled p.
Proof.
  intros [Hi Hst Hsp Hrun Hcl] H. pose proof (inv_caller _ _ Hi H) as Hi'. revert H. destruct Hi as [Ht Hp _ _ _].
  unfold caller_next, UnregisterFromEtcd. destruct s as [st b g sv th cl rg ds c r m]. unfold start_once in *. simpl in *.
  destruct c; intros H; threads; try done; unfold create_thread, stopped in *; simpl in *.
  all: try (destruct Hst as [-> ->]; [by auto|]).
  all: split; [done|..]; unfold start_once; simpl in *; try done; try solve [intuition (congruence || done)].
  - intros ->. exfalso. apply Hrun; [|done]. by apply Hsp, Hcl.
  - by destruct ds; intros [|].
Qed.

Lemma careful_others etcd_enabled s p :
  careful etcd_enabled s → p ∈ runner_next etcd_enabled s ++ monitor_next s ++ answers s →
  careful_process etcd_enabled p.
Proof.
  intros [Hi Hst Hsp Hrun Hcl] H.
  assert (Hi' : process_inv p)
    by (apply elem_of_app in H as [H|[H|H]%elem_of_app]; eauto using inv_runner, inv_monitor, inv_answers).
  revert H. unfold answers, registration_answered, removal_answered, requests_ended. rewrite !elem_of_app.
  destruct Hi as [Ht _ _ _ _]. unfold runner_next, RegisterToEtcd, monitor_next.
  destruct s as [st b g sv th cl rg ds c r m]. unfold start_once in *. simpl in *.
  intros [H|[H|[H|[H|H]]]]; [destruct r|destruct m|destruct r|destruct c|destruct sv]; threads; simpl in *; try done.
  all: try (by destruct (Hcl eq_refl)).
  all: split; [done|..]; unfold start_once; simpl in *; try done; try solve [intuition (congruence || done)].
Qed.

Lemma careful_step etcd_enabled p q :
  step etcd_enabled start_once (stop_registered etcd_enabled) p q →
  careful_process etcd_enabled p → careful_process etcd_enabled q.
Proof.
  intros H Hp. assert (Hq : process_inv q).
  { eapply inv_step; [exact H|]. destruct p as [s| |]; [by destruct Hp|done|done]. }
  destruct H as [s p H|s p H|s Hc Hm|s Hc Hm|s Hc Hm|s _]; simpl in Hp.
  - apply elem_of_app in H as [H|H]; [eauto using careful_caller|].
    apply (careful_others _ s); [done|]. rewrite app_assoc. apply elem_of_app. by left.
  - apply (careful_others _ s); [done|]. rewrite !elem_of_app. by right; right.
  - destruct Hp as [Hi Hst Hsp Hrun Hcl]. unfold call_Start in *. destruct (decide _); [|done].
    split; [done|..]; simpl; try done.
  - destruct Hp as [Hi Hst Hsp Hrun Hcl]. unfold call_Stop in *. destruct (decide _) as [Hd|_].
    + split; [done|..]; simpl; try done; try (by intros [|]). intros _ He. by apply Hm.
    + unfold stopped in *. split; [done|..]; simpl; try done; by destruct (destructor s); try intros [|].
  - destruct Hp as [Hi Hst Hsp Hrun Hcl]. unfold call_destructor, call_Stop in *. simpl in *.
    destruct (decide _) as [Hd|_].
    + split; [done|..]; simpl; try done; try (by intros [|]). intros _ He. by apply Hm.
    + unfold stopped in *. split; [done|..]; simpl; try done; by intros [|].
  - by destruct Hp.
Qed.

(** Under the discipline the process survives: a service that is started once and
    stopped only when it has registered (or registers nowhere) never terminates the
    process by assigning over a running thread, and never calls a null client. *)
Theorem disciplined_survives etcd_enabled p
    (Hp : reachable etcd_enabled start_once (stop_registered etcd_enabled) p) :
  ∃ s, p = Alive s.
Proof.
  cut (careful_process etcd_enabled p); [destruct p; eauto; done|].
  unfold reachable in Hp. remember (Alive new_service) as p0 eqn:E.
  assert (H0 : careful_process etcd_enabled p0).
  { subst p0. split; [exact inv_new|..]; simpl; try done. all: by intros [|]. }
  clear E. induction Hp; eauto using careful_step.
Qed.

(** * Waiting *)

(** From the [elapsed]-th poll on, with [left] polls left after it. *)
Lemma wait_loop_spec registered timeout left fuel elapsed :
  timeout * 2 = Z.of_nat (elapsed + left) → (left < fuel)%nat →
  ∃ b n, wait_loop fuel registered timeout elapsed = Some (b, n)
    ∧ (elapsed <= n <= elapsed + left)%nat
    ∧ (∀ k, (elapsed <= k < n)%nat → registered k = false)
    ∧ registered n = b ∧ (b = false → n = (elapsed + left)%nat).
Proof.
  revert fuel elapsed. induction left as [|left IH]; intros [|fuel] elapsed Ht Hf; [lia| |lia|]; simpl;
    destruct (registered elapsed) eqn:Hr.
  1, 3: exists true, elapsed; repeat split; lia || done.
  - rewrite Zle_imp_le_bool by lia. exists false, elapsed. repeat split; lia || done.
  - replace (timeout * 2 <=? Z.of_nat elapsed) with false by lia.
    destruct (IH fuel (S elapsed)) as (b & n & -> & Hn & Hk & Hb & Hlast); [lia..|].
    exists b, n. split_and!; [done|lia|lia| |done|intros ?%Hlast; lia].
    intros k Hle. destruct (decide (k = elapsed)) as [->|]; [done|]. apply Hk. lia.
Qed.

(** [WaitForEtcdRegistration] ends: after at most two polls a second for
    [timeout_seconds] it returns; true as soon as a poll reads the flag set, false
    only when no poll up to the deadline (inclusive) has. *)
Theorem wait_registration_ends registered timeout_seconds fuel
    (Htimeout : 0 <= timeout_seconds) (Hfuel : timeout_seconds * 2 < Z.of_nat fuel) :
  ∃ b n, WaitForEtcdRegistration true fuel registered timeout_seconds = Some (b, n)
    ∧ Z.of_nat n <= timeout_seconds * 2
    ∧ (∀ k, (k < n)%nat → registered k = false)
    ∧ registered n = b
    ∧ (b = false → Z.of_nat n = timeout_seconds * 2).
Proof.
  destruct (wait_loop_spec registered timeout_seconds (Z.to_nat (timeout_seconds * 2)) fuel 0)
    as (b & n & H & Hn & Hk & Hb & Hlast); [lia..|].
  exists b, n. split_and!; [exact H|lia| |done|intros ?%Hlast; lia]. intros k ?. apply Hk. lia.
Qed.

Lemma wait_registration_ends_witness :
  ∃ b n, WaitForEtcdRegistration true 61 (λ k, bool_decide (k = 3%nat)) 30 = Some (b, n)
    ∧ Z.of_nat n <= 60 ∧ b = true.
Proof.
  destruct (wait_registration_ends (λ k, bool_decide (k = 3%nat)) 30 61) as (b & n & H & Hn & _ & Hb & _);
    [discriminate|reflexivity|]. exists b, n. split; [exact H|]. split; [exact Hn|].
  revert H. vm_compute. intros H. injection H as <- _. reflexivity.
Defined.

(** [main] looks three times, sleeps 1, 2 and 4 seconds, and gives up without a look
    after the last sleep. *)
Lemma wait_backbone_spec running :
  wait_backbone 3 running 0 0 = Some (
    if running 0%nat then (true, 0) else if running 1%nat then (true, 1)
    else if running 2%nat then (true, 3) else (false, 7)).
Proof. simpl. by destruct (running 0%nat), (running 1%nat), (running 2%nat). Qed.

(** * Runs outside the discipline *)

(** What happens next in a run: a thread takes one of the steps listed, one of the
    answers comes, or the owner calls. *)
Inductive choice := Pick (i : nat) | Answer (i : nat) | DoStart | DoStop | DoDestroy.

Definition always : Service → Prop := λ _, True.

#[global] Instance always_dec s : Decision (always s).
Proof. unfold always. apply _. Defined.
#[global] Instance start_once_dec s : Decision (start_once s).
Proof. unfold start_once. apply _. Defined.
#[global] Instance stop_registered_dec etcd_enabled s : Decision (stop_registered etcd_enabled s).
Proof. unfold stop_registered. apply _. Defined.

Section play.
Context (etcd_enabled : bool) (may_start may_stop : Service → Prop).
Context `{∀ s, Decision (may_start s)} `{∀ s, Decision (may_stop s)}.

Definition act (c : choice) (p : process) : option process :=
  match p with
  | Alive s =>
      match c with
      | Pick i => next etcd_enabled s !! i
      | Answer i => answers s !! i
      | DoStart => guard (caller s = Idle ∧ may_start s);; Some (call_Start s)
      | DoStop => guard (caller s = Idle ∧ may_stop s);; Some (call_Stop s)
      | DoDestroy => guard (caller s = Idle ∧ may_stop s);; Some (call_destructor s)
      end
  | _ => None
  end.

Definition play (cs : list choice) : option process :=
  foldl (λ p c, p ≫= act c) (Some (Alive new_service)) cs.

Lemma play_reachable cs p : play cs = Some p → reachable etcd_enabled may_start may_stop p.
Proof using Type.
  unfold play. revert p. induction cs as [|c cs IH] using rev_ind; intros p.
  { intros [= <-]. apply rtc_refl. }
  rewrite foldl_app. cbn [foldl]. intros (q & Hq & Ha)%bind_Some.
  eapply rtc_r; [by apply IH|]. destruct q as [s| |]; [|done|done]. unfold act in Ha.
  destruct c; [apply step_next; by eapply list_elem_of_lookup_2|apply step_answer; by eapply list_elem_of_lookup_2|..];
    case_guard as Hg; simplify_eq/=; destruct Hg; by constructor.
Qed.
End play.

(** Destroying a service that is still starting: [Stop] returns at once, nobody sets
    the stop flag, and the destructor waits for a server that goes on serving. *)
Lemma destructor_hangs :
  ∃ s, reachable false always always (Alive s)
    ∧ caller s = Destroying ∧ server_ s = Serving ∧ next false s = [] ∧ answers s = [].
Proof.
  exists (mkService kRunning false false Serving true false false true Destroying Wait Polling).
  split; [|done].
  apply (play_reachable false always always [DoStart; Pick 0; Pick 0; DoDestroy; Pick 0; Pick 0; Pick 0; Pick 0]).
  vm_compute. reflexivity.
Qed.

(** Starting again after [BuildAndStart] has failed: the thread that returned was not
    joined, and the new one is assigned over it. *)
Lemma restart_terminates : reachable false always always Terminated.
Proof.
  apply (play_reachable false always always [DoStart; Pick 0; Pick 0; Pick 1; DoStart; Pick 0; Pick 0]).
  vm_compute. reflexivity.
Qed.

(** Stopping a service while it registers: [Stop] resets the client between its
    creation and its use. *)
Lemma stop_races_registration : reachable true always always NullClient.
Proof.
  apply (play_reachable true always always
    [DoStart; Pick 0; Pick 0; Pick 0; Pick 0; DoStop; Pick 1; Pick 0; Pick 0; Answer 0; Pick 0; Pick 2]).
  vm_compute. reflexivity.
Qed.

(** A service that has come up, registered, and is being stopped. *)
Definition up_and_stopping : list choice :=
  [DoStart; Pick 0; Pick 0; Pick 0; Pick 0; Pick 0; Pick 0; Answer 0; Pick 0; DoStop].

(** Each of the three waits happens, and nothing in the process ends it: the backbone
    does not answer the removal, or a request never ends (a handler that does not finish
    its call), or the backbone does not answer the registration for which the server
    thread waits. *)
Lemma stop_waits :
  (∃ s, reachable true always always (Alive s) ∧ caller s = StopCall ∧ next true s = [])
  ∧ (∃ s, reachable false always always (Alive s) ∧ caller s = StopDrain ∧ server_ s = Draining ∧ next false s = [])
  ∧ (∃ s, reachable true always always (Alive s) ∧ caller s = StopJoin ∧ runner s = Registering ∧ next true s = []).
Proof.
  split_and!.
  - eexists. split.
    { apply (play_reachable true always always (up_and_stopping ++ [Pick 0; Pick 0; Pick 1; Pick 0; Pick 0; Pick 0; Pick 0])).
      vm_compute. reflexivity. }
    done.
  - eexists. split.
    { apply (play_reachable false always always
        [DoStart; Pick 0; Pick 0; Pick 0; Pick 0; Pick 0; Pick 0; DoStop; Pick 0; Pick 0; Pick 0; Pick 0]).
      vm_compute. reflexivity. }
    done.
  - eexists. split.
    { apply (play_reachable true always always
        [DoStart; Pick 0; Pick 0; Pick 0; Pick 0; Pick 0; Pick 0; DoStop; Pick 0; Pick 0; Answer 2; Pick 0; Pick 1; Pick 0]).
      vm_compute. reflexivity. }
    done.
Qed.

(** * Concrete inputs *)

Definition stopping_service : Service :=
  mkService kStopping false false Serving true true true false StopFlags Wait Polling.

Lemma stop_returns_witness :
  inevitably (moves_or_answers true) (step true always always) stop_returned (Alive stopping_service).
Proof.
  apply (stop_returns true always always stopping_service);
    [apply (play_reachable true always always up_and_stopping); vm_compute; reflexivity|exact I].
Defined.

Definition running_service : Service :=
  mkService kRunning false false Serving true true true false Idle Wait Polling.

Lemma state_is_truthful_witness : server_ running_service ≠ NoServer ∧ server_thread_ running_service = true.
Proof.
  destruct (state_is_truthful true always always running_service) as [Hrun _].
  - apply (play_reachable true always always [DoStart; Pick 0; Pick 0; Pick 0; Pick 0; Pick 0; Pick 0; Answer 0; Pick 0]).
    vm_compute. reflexivity.
  - reflexivity.
  - apply Hrun. reflexivity.
Defined.

Lemma disciplined_survives_witness :
  ∃ s, call_Stop running_service = Alive s.
Proof.
  apply (disciplined_survives true).
  apply (play_reachable true start_once (stop_registered true) up_and_stopping).
  vm_compute. reflexivity.
Defined.
