(* ===== verification/KafkaControl.v ===== *)
(** The Kafka consumer from its construction to its end
    ([src/messagequeue/kafkaconsumer.cpp], [PushServer::Start] and [~PushServer] of
    [src/services/push_service/server.cpp]): the settings of the constructor, the
    consume loop [start] in its thread, the partition workers, and the owner that
    destroys the object.  The lanes and their workers are those of [KafkaConsumer]; here
    the threads are added: every step is a step of that system, or none. *)
From S2P Require Import Prelude KafkaConsumer.

(** * Construction *)

Inductive conf_value := Text (s : string) | EventCb | RebalanceCb | TopicConf.

#[global] Instance conf_value_eq_dec : EqDecision conf_value.
Proof. solve_decision. Defined.

Inductive conf_object := Global | Topic.

(** A call of [set]; one of them throws when it is refused, the others log and leave
    the constructor. *)
Record setting := mkSetting {
  st_conf : conf_object; st_key : string; st_value : conf_value; st_throws : bool;
}.

Definition settings (brokerList groupId : string) : list setting :=
  [mkSetting Global "bootstrap.servers" (Text brokerList) false;
   mkSetting Global "group.id" (Text groupId) false;
   mkSetting Global "event_cb" EventCb false;
   mkSetting Global "rebalance_cb" RebalanceCb false;
   mkSetting Global "partition.assignment.strategy" (Text "range") false;
   mkSetting Global "session.timeout.ms" (Text "6000") false;
   mkSetting Global "heartbeat.interval.ms" (Text "2000") false;
   mkSetting Global "enable.auto.commit" (Text "false") false;
   mkSetting Global "enable.auto.offset.store" (Text "false") true;
   mkSetting Topic "auto.offset.reset" (Text "earliest") false;
   mkSetting Global "default_topic_conf" TopicConf false].

Abbreviation conf := (gmap string conf_value).

(** What is left of the constructor: [BuiltWith] the configuration of the instance,
    [NoInstance], or an exception. *)
Inductive construction :=
| BuiltWith (global topic : conf)
| NoInstance
| ConstructorThrows (msg : string).

Section construct.
(** [set] accepts a key or gives the reason; [create] succeeds. *)
Context (refused : string → option string) (created : bool).

Fixpoint apply_settings (ss : list setting) (global topic : conf) : construction :=
  match ss with
  | [] => if created then BuiltWith global topic else NoInstance
  | s :: ss =>
      match refused (st_key s) with
      | Some errorStr =>
          if st_throws s then ConstructorThrows ("Kafka offset configuration failed: " +:+ errorStr)
          else NoInstance
      | None =>
          match st_conf s with
          | Global => apply_settings ss (<[st_key s := st_value s]> global) topic
          | Topic => apply_settings ss global (<[st_key s := st_value s]> topic)
          end
      end
  end.

Definition construct (groupId brokerList : string) : construction :=
  apply_settings (settings brokerList groupId) ∅ ∅.
End construct.

(** * Threads *)

Inductive loop_pc :=
| NotStarted
| Subscribing
| LoopHead
| Consuming (rebalances : nat)   (* inside [consume], which runs so many callbacks yet *)
| LoopExited.

Inductive owner_pc :=
| Outside
| Joining                        (* [shutdown] called, [join] waits for the loop's thread *)
| Getting (keys : list lane_key) (* the destructor's loop over the lanes, in some order *)
| Closed.

#[global] Instance owner_pc_eq_dec : EqDecision owner_pc.
Proof. solve_decision. Defined.

Record Control := mkControl {
  consumerInstance : bool;       (* not null *)
  attached : bool;               (* the handler and the pool are set *)
  loop : loop_pc;
  owner : owner_pc;
  core : KafkaConsumer;
}.

Definition new_control (c : construction) (handler pool : bool) : Control :=
  mkControl (match c with BuiltWith _ _ => true | _ => false end) (handler && pool) NotStarted Outside
    new_consumer.

Definition goto (pc : loop_pc) (core : KafkaConsumer) (g : Control) : Control :=
  mkControl (consumerInstance g) (attached g) pc (owner g) core.
Definition own (pc : owner_pc) (core : KafkaConsumer) (g : Control) : Control :=
  mkControl (consumerInstance g) (attached g) (loop g) pc core.

(** A message without error is given to a lane only if the handler and the pool are set. *)
Definition consume_msg (attached : bool) (msg : KafkaMessage) (c : KafkaConsumer) : KafkaConsumer :=
  if attached then consumeMsg msg c else c.

(** [start], from one point to the next; every [std::exception] in it ends the loop. *)
Inductive start_step (g : Control) : Control → Prop :=
| start_subscribed (ok : bool) :
    loop g = Subscribing → start_step g (goto (if ok then LoopHead else LoopExited) (core g) g)
| start_pass ok rebalances :
    loop g = LoopHead → running_ (core g) = true →
    start_step g (goto (Consuming rebalances) (updateBackpressure ok (core g)) g)
| start_exit : loop g = LoopHead → running_ (core g) = false → start_step g (goto LoopExited (core g) g)
| start_rebalance r n :
    loop g = Consuming (S n) → start_step g (goto (Consuming n) (rebalance_cb r (core g)) g)
| start_consumed msg :
    loop g = Consuming 0 → in_order msg (core g) →
    start_step g (goto LoopHead (consume_msg (attached g) msg (core g)) g)
| start_throws :
    loop g ≠ NotStarted → loop g ≠ LoopExited → start_step g (goto LoopExited (core g) g).

Definition loop_over (g : Control) : Prop := loop g = NotStarted ∨ loop g = LoopExited.

(** The destructor, once [shutdown] is called. *)
Inductive destructor_step (g : Control) : Control → Prop :=
| destructor_join :
    owner g = Joining → loop_over g →
    destructor_step g (own (Getting (map_to_list (lanes_ (core g))).*1) (core g) g)
| destructor_get k ks l :
    owner g = Getting (k :: ks) → lanes_ (core g) !! k = Some l → lane_worker l = Finished →
    destructor_step g (own (Getting ks) (core g) g)
| destructor_close : owner g = Getting [] → destructor_step g (own Closed (core g) g).

Inductive threads (g : Control) : Control → Prop :=
| threads_start g' : start_step g g' → threads g g'
| threads_worker k l ok :
    lanes_ (core g) !! k = Some l → lane_worker l ≠ Finished →
    threads g (mkControl (consumerInstance g) (attached g) (loop g) (owner g)
                 (processPartition k l ok (core g)))
| threads_destructor g' : destructor_step g g' → threads g g'.

(** [PushServer::Start] makes the thread that calls [start], which returns at once
    without an instance. *)
Definition call_start (g : Control) : Control :=
  goto (if consumerInstance g then Subscribing else LoopExited) (core g) g.

(** [~PushServer]. *)
Definition call_destroy (g : Control) : Control := own Joining (shutdown (core g)) g.

Inductive control_step (g : Control) : Control → Prop :=
| control_threads g' : threads g g' → control_step g g'
| control_start : owner g = Outside → loop g = NotStarted → control_step g (call_start g)
| control_destroy : owner g = Outside → control_step g (call_destroy g).

(** * The configuration *)

Lemma apply_settings_built refused created ss : ∀ global topic,
  Forall (λ s, refused (st_key s) = None) ss → created = true →
  apply_settings refused created ss global topic = BuiltWith
    (foldl (λ m s, match st_conf s with Global => <[st_key s := st_value s]> m | Topic => m end) global ss)
    (foldl (λ m s, match st_conf s with Global => m | Topic => <[st_key s := st_value s]> m end) topic ss).
Proof.
  induction ss as [|s ss IH]; intros global topic Hs ->; simpl; [done|].
  inversion Hs as [|? ? H Hss]; subst. rewrite H. destruct (st_conf s); by apply IH.
Qed.

Lemma apply_settings_all refused created ss global topic g t :
  apply_settings refused created ss global topic = BuiltWith g t →
  Forall (λ s, refused (st_key s) = None) ss ∧ created = true.
Proof.
  revert global topic. induction ss as [|s ss IH]; intros global topic; simpl.
  - by destruct created.
  - destruct (refused (st_key s)) eqn:H; [by destruct (st_throws s)|].
    destruct (st_conf s); intros [? ?]%IH; split; [by constructor|done|by constructor|done].
Qed.

(** An instance exists only with its whole configuration: neither commits nor stored
    offsets happen by themselves, a group without offsets starts at the earliest, and the
    callbacks are set. *)
Theorem instance_configured refused created groupId brokerList global topic
    (Hbuilt : construct refused created groupId brokerList = BuiltWith global topic) :
  global !! "enable.auto.commit" = Some (Text "false")
  ∧ global !! "enable.auto.offset.store" = Some (Text "false")
  ∧ global !! "group.id" = Some (Text groupId)
  ∧ global !! "bootstrap.servers" = Some (Text brokerList)
  ∧ global !! "rebalance_cb" = Some RebalanceCb
  ∧ topic = {["auto.offset.reset" := Text "earliest"]}.
Proof.
  unfold construct in Hbuilt. pose proof (apply_settings_all _ _ _ _ _ _ _ Hbuilt) as [Hs Hc].
  rewrite (apply_settings_built _ _ _ _ _ Hs Hc) in Hbuilt. injection Hbuilt as <- <-.
  by split_and!.
Qed.

Example instance_configured_witness : ∃ global topic,
  construct (λ _, None) true "push-service-group" "127.0.0.1:9092" = BuiltWith global topic
  ∧ global !! "enable.auto.commit" = Some (Text "false").
Proof.
  eexists _, _. split; [reflexivity|].
  apply (instance_configured (λ _, None) true "push-service-group" "127.0.0.1:9092" _ _ eq_refl).
Defined.

(** * The threads take the steps of the system *)

Theorem control_refines g g' : control_step g g' → core g' = core g ∨ step (core g) (core g').
Proof.
  intros [? [? Hs|k l ok Hl _|? Hs]|_ _|_]; [destruct Hs|right|destruct Hs| |right]; simpl; auto;
    try (right; constructor; done); try by constructor.
  unfold consume_msg. destruct (attached g); [right; by constructor|by left].
Qed.

Lemma control_core g g' : rtc control_step g g' → rtc step (core g) (core g').
Proof.
  induction 1 as [|g g1 g' Hs _ IH]; [done|].
  destruct (control_refines g g1 Hs) as [<-|H]; [done|]. by eapply rtc_l.
Qed.

(** * The destructor returns *)

(** Steps that a worker may still take before it sees that the consumer stops. *)
Definition worker_rank (w : worker) : nat :=
  match w with
  | Finished => 0 | Outer => 1 | Inner _ => 2 | Sleeping _ => 3 | Committing _ => 4 | Handling _ => 4
  end.

Definition lanes_rank (m : gmap lane_key PartitionLane) : nat :=
  map_fold (λ _ l n, worker_rank (lane_worker l) + n)%nat 0%nat m.

Definition loop_rank (pc : loop_pc) : nat :=
  match pc with NotStarted | LoopExited => 0 | LoopHead => 1 | Subscribing => 2 | Consuming n => n + 4 end.

Definition owner_rank (g : Control) : nat :=
  match owner g with
  | Outside => 0 | Closed => 0 | Getting ks => S (length ks) | Joining => S (S (size (lanes_ (core g))))
  end.

Definition control_rank (g : Control) : nat :=
  lanes_rank (lanes_ (core g)) + loop_rank (loop g) + owner_rank g.

Lemma lanes_rank_insert m k l : lanes_rank (<[k := l]> m) =
  (worker_rank (lane_worker l) + lanes_rank (delete k m))%nat.
Proof.
  unfold lanes_rank. rewrite <- insert_delete_eq, map_fold_insert_L; [done|intros; lia|].
  apply lookup_delete_eq.
Qed.

Lemma lanes_rank_lookup m k l :
  m !! k = Some l → lanes_rank m = (worker_rank (lane_worker l) + lanes_rank (delete k m))%nat.
Proof. intros Hl. rewrite <- (insert_id m k l Hl) at 1. apply lanes_rank_insert. Qed.

Lemma lanes_rank_set m k l l' :
  m !! k = Some l → (worker_rank (lane_worker l') < worker_rank (lane_worker l))%nat →
  (lanes_rank (<[k := l']> m) < lanes_rank m)%nat.
Proof. intros Hl Hr. rewrite lanes_rank_insert, (lanes_rank_lookup m k l Hl). lia. Qed.

(** A worker of a consumer that stops moves towards its end, and changes its lane only. *)
Lemma worker_stops k l ok c :
  running_ c = false → lanes_ c !! k = Some l → lane_worker l ≠ Finished →
  ∃ l', lanes_ (processPartition k l ok c) = <[k := l']> (lanes_ c)
    ∧ (worker_rank (lane_worker l') < worker_rank (lane_worker l))%nat
    ∧ running_ (processPartition k l ok c) = false.
Proof.
  intros Hr Hl Hf. unfold processPartition, current.
  destruct (lane_worker l) as [|j|j|j|j|] eqn:Hw; [| | | | |done];
    rewrite ?Hr; simpl; rewrite ?Hr; simpl; try destruct ok; simpl; rewrite ?Hr;
    eexists; (split; [reflexivity|]); simpl; (split; [lia|done]).
Qed.

Definition stopping (g : Control) : Prop :=
  running_ (core g) = false
  ∧ match owner g with
    | Joining => True
    | Getting ks => loop_over g ∧ (∀ k, k ∈ ks → is_Some (lanes_ (core g) !! k))
        ∧ (∀ k l, lanes_ (core g) !! k = Some l → k ∈ ks ∨ lane_worker l = Finished)
    | _ => False
    end.

(** The object is gone with everything that ran for it. *)
Definition gone (g : Control) : Prop :=
  owner g = Closed ∧ loop_over g ∧ ∀ k l, lanes_ (core g) !! k = Some l → lane_worker l = Finished.

Lemma stopping_moves g : stopping g → ∃ g', threads g g'.
Proof.
  intros [Hr Ho]. destruct (owner g) as [| |[|k ks]|] eqn:Hpc; [done| | | |done].
  - assert (Hloop : loop_over g ∨ ∃ g', start_step g g').
    { unfold loop_over. destruct (loop g) as [| | |[|n]|] eqn:Hl; [by auto| | | | |by auto]; right.
      - eexists. by apply (start_subscribed g true).
      - eexists. by apply start_exit.
      - eexists. by apply (start_consumed g (mkKafkaMessage "" 0 0 None ErrTimedOut)).
      - eexists. by apply (start_rebalance g RebalanceError n). }
    destruct Hloop as [Hl|[g' Hs]]; [|eexists; by apply threads_start].
    eexists. by apply threads_destructor, destructor_join.
  - eexists. by apply threads_destructor, destructor_close.
  - destruct Ho as (_ & Hk & _). destruct (Hk k) as [l Hl]; [by left|].
    destruct (decide (worker_rank (lane_worker l) = 0%nat)) as [H0|Hf].
    + eexists. apply threads_destructor. eapply (destructor_get g k ks l); [done..|].
      by destruct (lane_worker l).
    + eexists. apply (threads_worker g k l true); [done|]. intros Hw. by rewrite Hw in Hf.
Qed.

Lemma consume_msg_lanes attached msg c :
  running_ (consume_msg attached msg c) = running_ c
  ∧ (lanes_rank (lanes_ (consume_msg attached msg c)) + size (lanes_ (consume_msg attached msg c))
     <= lanes_rank (lanes_ c) + size (lanes_ c) + 2)%nat.
Proof.
  unfold consume_msg. destruct attached; [|split; [done|lia]]. unfold consumeMsg.
  destruct (km_err msg); [|split; [done|lia]..]. split; [done|]. cbn [lanes_].
  set (k := (km_topic msg, km_partition msg)). rewrite lanes_rank_insert.
  destruct (lanes_ c !! k) as [l|] eqn:Hl; cbn [default].
  - rewrite (lanes_rank_lookup _ k l Hl), map_size_insert_Some by done. simpl. lia.
  - rewrite map_size_insert_None by done. rewrite delete_id by done. simpl. lia.
Qed.

Lemma stopping_start g g' :
  stopping g → start_step g g' → stopping g' ∧ (control_rank g' < control_rank g)%nat.
Proof.
  intros [Hr Ho] Hs.
  assert (Hj : owner g = Joining ∧ ¬ loop_over g).
  { assert (Hl : ¬ loop_over g) by (unfold loop_over; destruct Hs; intuition congruence).
    destruct (owner g); try done. by destruct Ho as [? _]. }
  destruct Hj as [Hj _]. unfold stopping, control_rank, owner_rank.
  destruct Hs as [ok H|ok n H H'|H H'|r n H|msg H _|H H'];
    cbn [goto owner core loop loop_rank rebalance_cb running_ lanes_]; rewrite ?Hj; try congruence;
    try (rewrite H; simpl; split; [done|]; lia).
  - rewrite H. destruct ok; simpl; (split; [done|]); lia.
  - rewrite H. destruct (consume_msg_lanes (attached g) msg (core g)) as [-> Hs].
    split; [done|]. simpl. lia.
  - destruct (loop g) eqn:Hl; try done; simpl; (split; [done|]); lia.
Qed.

Lemma stopping_worker g k l ok :
  stopping g → lanes_ (core g) !! k = Some l → lane_worker l ≠ Finished →
  let g' := mkControl (consumerInstance g) (attached g) (loop g) (owner g) (processPartition k l ok (core g)) in
  stopping g' ∧ (control_rank g' < control_rank g)%nat.
Proof.
  intros [Hr Ho] Hl Hf g'. destruct (worker_stops k l ok (core g) Hr Hl Hf) as (l' & Hlanes & Hrank & Hrun).
  assert (Hsize : size (lanes_ (core g')) = size (lanes_ (core g))).
  { simpl. by rewrite Hlanes, map_size_insert_Some by (by exists l). }
  split.
  - split; [done|]. simpl. destruct (owner g) as [| |ks|]; [done..| |done].
    destruct Ho as (Hloop & Hin & Hfin). split; [done|]. rewrite Hlanes. split.
    + intros k' Hk'. destruct (decide (k = k')) as [->|Hne].
      * exists l'. apply lookup_insert_eq.
      * rewrite lookup_insert_ne by done. by apply Hin.
    + intros k' l2 [[<- <-]|[Hne Hl2]]%lookup_insert_Some; [|by apply Hfin].
      destruct (Hfin k l Hl); [by left|done].
  - unfold control_rank, owner_rank. rewrite Hsize. simpl. rewrite Hlanes.
    pose proof (lanes_rank_set _ k l l' Hl Hrank). destruct (owner g); lia.
Qed.

Lemma stopping_destructor g g' :
  stopping g → destructor_step g g' → gone g' ∨ (stopping g' ∧ (control_rank g' < control_rank g)%nat).
Proof.
  intros [Hr Ho] Hs. destruct Hs as [Hj Hl|k ks l Hj Hk Hf|Hj]; rewrite Hj in Ho.
  - right. split.
    + split; [done|]. simpl. split; [done|]. split.
      * intros k Hk. apply list_elem_of_fmap in Hk as ([k' l] & -> & Hin%elem_of_map_to_list). by exists l.
      * intros k l Hk. left. apply list_elem_of_fmap. exists (k, l). split; [done|].
        by apply elem_of_map_to_list.
    + unfold control_rank, owner_rank. simpl. rewrite Hj, length_fmap.
      rewrite length_map_to_list. lia.
  - right. destruct Ho as (Hloop & Hin & Hfin). split.
    + split; [done|]. simpl. split; [done|]. split.
      * intros k' Hk'. apply Hin. by right.
      * intros k' l' Hl'. destruct (Hfin k' l' Hl') as [[->|?]%elem_of_cons|?]; [|by left|by right].
        right. congruence.
    + unfold control_rank, owner_rank. simpl. rewrite Hj. simpl. lia.
  - left. destruct Ho as (Hloop & _ & Hfin). split; [done|]. split; [done|].
    intros k l Hl. destruct (Hfin k l Hl) as [?%elem_of_nil|?]; done.
Qed.

Lemma stopping_step g g' :
  stopping g → threads g g' → gone g' ∨ (stopping g' ∧ (control_rank g' < control_rank g)%nat).
Proof.
  intros Hst [g1 Hs|k l ok Hl Hf|g1 Hs].
  - right. by apply stopping_start.
  - right. by eapply stopping_worker.
  - by apply stopping_destructor.
Qed.

(** C30: the consumer stops: when its owner destroys it, whatever the consume
    loop, the rebalance callbacks and the partition workers are doing and however their
    handlers and commits end, the destructor gets through its joins on every schedule,
    and then the loop and every worker have ended, provided that handlers, commits and
    [consume] return.  The steps in between are those of
    the system of [KafkaConsumer], so an offset committed on the way out still covers
    handled messages only. *)
Theorem consumer_stops g (Howner : owner g = Outside) :
  inevitably threads threads gone (call_destroy g)
  ∧ (∀ g', gone g' → ∀ g'', threads g' g'' → False)
  ∧ ∀ g', rtc threads (call_destroy g) g' → rtc step (core g) (core g').
Proof.
  split_and!.
  - apply (inevitably_by_rank _ _ _ stopping control_rank); [apply stopping_moves|apply stopping_step|].
    by split.
  - intros g' (Ho & Hl & Hw) g'' [g1 Hs|k l ok Hk Hf|g1 Hs].
    + unfold loop_over in Hl. destruct Hs; intuition congruence.
    + by apply Hf, (Hw k).
    + destruct Hs; congruence.
  - intros g' Hrun. apply (control_core g). eapply rtc_l; [by apply control_destroy|].
    eapply rtc_subrel; [|exact Hrun]. intros x y. apply control_threads.
Qed.

(** One message handled and another waiting when the object is destroyed. *)
Definition sample_control : Control :=
  mkControl true true (Consuming 1) Outside (sample_run [true; true; false]).

Example consumer_stops_witness :
  inevitably threads threads gone (call_destroy sample_control)
  ∧ held <$> (lane_worker <$> (lanes_ (core sample_control) !! sample_key)) = Some [sample_job 7].
Proof.
  split; [apply (consumer_stops sample_control); reflexivity|vm_compute; reflexivity].
Defined.
