(* ===== verification/Startup.v ===== *)
(** The process ([src/main.cpp]): which objects [main] makes, in which order it starts
    them, what it waits for, and how they go, whichever statement throws; and where the
    gateway looks for its services ([WebServer::init_and_listen]).

    A statement of [main] is a constructor of [stmt], [main_program] the body of its
    [try] block.  What matters of the objects is their life time: the local variables
    alive, newest first (C++ destroys them in that order on every way out), and who
    holds a pointer to, or calls, whom. *)
From S2P Require Import Prelude Lifecycle.

(** The local variables of the block. *)
Inductive object :=
| backbon_server | auth_server | producer | msg_server | group_server | friend_server
| conversation_server | gateway_push_server | kafka_ioc_pool | push_server | consumer
| backbon_client_for_web | server.

#[global] Instance object_eq_dec : EqDecision object.
Proof. solve_decision. Defined.

(** Name and listening address of the services, as their constructors get them. *)
Definition service_of (o : object) : option (string * string) :=
  match o with
  | backbon_server => Some ("BackbonService", "0.0.0.0:50052")
  | auth_server => Some ("AuthService", "0.0.0.0:50051")
  | msg_server => Some ("MsgService", "0.0.0.0:50053")
  | group_server => Some ("GroupService", "0.0.0.0:50056")
  | friend_server => Some ("FriendService", "0.0.0.0:50057")
  | conversation_server => Some ("ConversationService", "0.0.0.0:50058")
  | gateway_push_server => Some ("GatewayPushService", "0.0.0.0:50055")
  | push_server => Some ("PushService", "0.0.0.0:50054")
  | _ => None
  end.

(** The singletons and tables [main] initialises before any service. *)
Inductive resource :=
| Tracer | Meter | Logger | SnowflakeIds | Redis | MySQL
| ConversationTables | OutboxTables | GroupTables | Mongo.

#[global] Instance resource_eq_dec : EqDecision resource.
Proof. solve_decision. Defined.

Record Process := mkProcess {
  ready : list resource;
  locals : list object;              (* alive, newest first *)
  links : list (object * object);    (* the first uses the second as long as it lives *)
  backbone_addr : list object;       (* [EnableEtcdRegistration] has been called *)
  started : list object;
  awaited : list object;             (* [WaitForEtcdRegistration] has returned *)
  producer_ : bool;                  (* [MsgServiceImpl::producer_] is not null *)
  consumer_ : bool;                  (* [PushServer::consumer_] is not null *)
  ioc_pool_ : bool;                  (* [PushServer::ioc_pool_] is not null *)
  pool_started : bool;
  outbox : bool;                     (* [MsgServiceImpl::m_outbox] is not null *)
  delivery : bool;                   (* the group service's delivery worker runs *)
  consuming : bool;                  (* the push service's consumer thread runs *)
  serving : bool;                    (* [WebServer::start] *)
}.

Definition new_process : Process :=
  mkProcess [] [] [] [] [] [] false false false false false false false false.

(** One field at a time. *)
Definition with_locals x p := mkProcess (ready p) x (links p) (backbone_addr p) (started p) (awaited p)
  (producer_ p) (consumer_ p) (ioc_pool_ p) (pool_started p) (outbox p) (delivery p) (consuming p) (serving p).
Definition with_ready x p := mkProcess x (locals p) (links p) (backbone_addr p) (started p) (awaited p)
  (producer_ p) (consumer_ p) (ioc_pool_ p) (pool_started p) (outbox p) (delivery p) (consuming p) (serving p).
Definition link a b p := mkProcess (ready p) (locals p) ((a, b) :: links p) (backbone_addr p) (started p) (awaited p)
  (producer_ p) (consumer_ p) (ioc_pool_ p) (pool_started p) (outbox p) (delivery p) (consuming p) (serving p).
Definition with_backbone x p := mkProcess (ready p) (locals p) (links p) x (started p) (awaited p)
  (producer_ p) (consumer_ p) (ioc_pool_ p) (pool_started p) (outbox p) (delivery p) (consuming p) (serving p).
Definition with_started x p := mkProcess (ready p) (locals p) (links p) (backbone_addr p) x (awaited p)
  (producer_ p) (consumer_ p) (ioc_pool_ p) (pool_started p) (outbox p) (delivery p) (consuming p) (serving p).
Definition with_awaited x p := mkProcess (ready p) (locals p) (links p) (backbone_addr p) (started p) x
  (producer_ p) (consumer_ p) (ioc_pool_ p) (pool_started p) (outbox p) (delivery p) (consuming p) (serving p).
Definition with_injected prod cons pool p := mkProcess (ready p) (locals p) (links p) (backbone_addr p) (started p) (awaited p)
  prod cons pool (pool_started p) (outbox p) (delivery p) (consuming p) (serving p).
Definition with_pool_started x p := mkProcess (ready p) (locals p) (links p) (backbone_addr p) (started p) (awaited p)
  (producer_ p) (consumer_ p) (ioc_pool_ p) x (outbox p) (delivery p) (consuming p) (serving p).
Definition with_outbox x p := mkProcess (ready p) (locals p) (links p) (backbone_addr p) (started p) (awaited p)
  (producer_ p) (consumer_ p) (ioc_pool_ p) (pool_started p) x (delivery p) (consuming p) (serving p).
Definition with_delivery x p := mkProcess (ready p) (locals p) (links p) (backbone_addr p) (started p) (awaited p)
  (producer_ p) (consumer_ p) (ioc_pool_ p) (pool_started p) (outbox p) x (consuming p) (serving p).
Definition with_consuming x p := mkProcess (ready p) (locals p) (links p) (backbone_addr p) (started p) (awaited p)
  (producer_ p) (consumer_ p) (ioc_pool_ p) (pool_started p) (outbox p) (delivery p) x (serving p).
Definition with_serving x p := mkProcess (ready p) (locals p) (links p) (backbone_addr p) (started p) (awaited p)
  (producer_ p) (consumer_ p) (ioc_pool_ p) (pool_started p) (outbox p) (delivery p) (consuming p) x.

(** * The statements *)

Inductive stmt :=
| Init (r : resource)
| New (o : object)
| EnableEtcdRegistration (o : object) (backbon_service_addr : string) (methods : list string)
| Start (o : object)
| WaitRunning                      (* the loop that waits for [backbon_server] *)
| StartDelivery
| SetProducer
| StartPool                        (* [kafka_ioc_pool.startPool()] *)
| SetConsumer
| SetIOCPool
| StartOutbox
| WaitForEtcdRegistration (o : object)
| Serve                            (* [server.start()] is called *)
| Served                           (* and has returned *)
| StopOutbox
| StopDelivery
| Cleanup (r : resource).

(** What [main] does next. *)
Inductive next := Go (p : Process) | Throw | Return (p : Process).

Definition cleanup (r : resource) (p : Process) : Process :=
  with_ready (filter (λ x, x ≠ r) (ready p)) p.

(** Who pushes frames through the sessions of the gateway's pool: the outbox worker,
    the group service and the push server's frames. *)
Definition session_users : list object := [msg_server; group_server; gateway_push_server].

Definition link_all (ls : list (object * object)) (p : Process) : Process :=
  foldr (λ l, link l.1 l.2) p ls.

Definition without (o : object) (os : list object) : list object := filter (λ x, x ≠ o) os.

(** [PushServer::Start] also starts the consumer, if it has one. *)
Definition start_service (o : object) (p : Process) : Process :=
  let p := with_started (o :: started p) p in
  match o with
  | push_server =>
      let p := link push_server gateway_push_server p in
      if consumer_ p then
        with_consuming true (if ioc_pool_ p then link push_server kafka_ioc_pool p else p)
      else p
  | _ => p
  end.

Section exec.
(** The end of the loop that waits for the backbone. *)
Context (up : bool).

Definition exec (st : stmt) (p : Process) : next :=
  match st with
  | Init r => Go (with_ready (r :: ready p) p)
  | New server =>   (* the client moves into it *)
      Go (with_locals (server :: without backbon_client_for_web (locals p)) p)
  | New o => Go (with_locals (o :: locals p) p)
  | EnableEtcdRegistration o addr _ =>
      Go (link o backbon_server (with_backbone (o :: backbone_addr p) p))
  | Start o => Go (start_service o p)
  | WaitRunning =>
      if up then Go p else Return (cleanup Meter (cleanup Tracer p))
  | StartDelivery => Go (with_delivery true p)
  | SetProducer =>
      let p := if producer_ p then p else with_outbox false p in
      Go (link msg_server producer (with_injected true (consumer_ p) (ioc_pool_ p) p))
  | StartPool => Go (with_pool_started true p)
  | SetConsumer =>   (* the consumer moves into the push server *)
      Go (with_locals (without consumer (locals p)) (with_injected (producer_ p) true (ioc_pool_ p) p))
  | SetIOCPool => Go (with_injected (producer_ p) (consumer_ p) true p)
  | StartOutbox =>
      if outbox p then Go p else if producer_ p then Go (with_outbox true p) else Throw
  | WaitForEtcdRegistration o => Go (with_awaited (o :: awaited p) p)   (* whatever it answers *)
  | Serve =>
      Go (with_serving true
           (link_all ((λ o, (o, server)) <$> session_users)
             (link_all ((λ o, (server, o)) <$>
               [auth_server; msg_server; push_server; group_server; friend_server;
                conversation_server; backbon_server]) p)))
  | Served => Go (with_serving false p)
  | StopOutbox => Go (with_outbox false p)
  | StopDelivery => Go (with_delivery false p)
  | Cleanup r => Go (cleanup r p)
  end.

(** ** The way out *)

(** What a destructor does to the rest: [~MsgServiceImpl] stops the outbox,
    [~GroupServiceImpl] the delivery, [~PushServer] the consumer, [~WebServer] its pool. *)
Definition destroy (o : object) (p : Process) : Process :=
  let p := with_locals (tail (locals p)) p in
  match o with
  | msg_server => with_outbox false p
  | group_server => with_delivery false p
  | push_server => with_consuming false p
  | kafka_ioc_pool => with_pool_started false p
  | server => with_serving false p
  | _ => p
  end.

(** The states gone through, [os] being the locals. *)
Fixpoint unwind (os : list object) (p : Process) : list Process :=
  match os with
  | [] => [p]
  | o :: os => p :: unwind os (destroy o p)
  end.

(** [main]: the states gone through; [fails i] says that statement [i] throws.  The
    handler logs, and 0 is returned on every way. *)
Fixpoint run (fails : nat → bool) (i : nat) (program : list stmt) (p : Process) : list Process :=
  match program with
  | [] => unwind (locals p) p
  | st :: rest =>
      if fails i then unwind (locals p) p
      else
        match exec st p with
        | Go p' => p :: run fails (S i) rest p'
        | Throw => unwind (locals p) p
        | Return p' => p :: unwind (locals p') p'
        end
  end.
End exec.

(** * The program *)

Definition backbon_addr : string := "localhost:50052".

(** A service that registers: made, told where the backbone is, started. *)
Definition launch (o : object) (methods : list string) : list stmt :=
  [New o; EnableEtcdRegistration o backbon_addr methods; Start o].

Definition initialise : list stmt :=
  [Init Tracer; Init Meter; Init Logger; Init SnowflakeIds; Init Redis; Init MySQL;
   Init ConversationTables; Init OutboxTables; Init GroupTables; Init Mongo].

Definition msg_methods : list string :=
  ["GetMaxSeq"; "GetSingleChatHistory"; "GetMsgByConversationIDs"; "GetSeqMessage";
   "SearchMessage"; "SendMessages"; "SendSimpleMsg"; "SetUserConversationsMinSeq";
   "ClearConversationsMsg"; "UserClearAllMsg"; "DeleteMsgs"; "DeleteMsgPhysicalBySeq";
   "DeleteMsgPhysical"; "SetSendMsgStatus"; "GetSendMsgStatus"; "RevokeMsg";
   "MarkMsgsAsRead"; "GetActiveUser"; "GetActiveGroup"; "GetServerTime"; "ClearMsg";
   "DestructMsgs"; "GetLastMessageSeqByTime"; "GetLastMessage"].

Definition start_services : list stmt :=
  [New backbon_server; Start backbon_server; WaitRunning] ++
  launch auth_server ["Register"; "Login"; "ValidateToken"] ++
  [New producer] ++
  launch msg_server msg_methods ++
  launch group_server ["Execute"] ++ [StartDelivery] ++
  launch friend_server ["Execute"] ++
  launch conversation_server
    ["GetAllConversations"; "GetConversation"; "GetSortedConversationList";
     "MarkConversationRead"; "UpdateConversationSettings"; "DeleteConversation"] ++
  launch gateway_push_server ["PushToUser"].

Definition start_messages : list stmt :=
  [SetProducer; New kafka_ioc_pool; StartPool; New push_server;
   EnableEtcdRegistration push_server backbon_addr ["PushMsg"; "DelUserPushToken"];
   New consumer; SetConsumer; SetIOCPool; Start push_server; StartOutbox].

(** The order of the waits. *)
Definition waits : list object :=
  [auth_server; msg_server; gateway_push_server; push_server; group_server; friend_server;
   conversation_server].

Definition serve : list stmt :=
  (WaitForEtcdRegistration <$> waits) ++
  [New backbon_client_for_web; New server; Serve; Served; StopOutbox; StopDelivery;
   Cleanup Tracer; Cleanup Meter].

Definition main_program : list stmt :=
  initialise ++ start_services ++ start_messages ++ serve.

(** [running k] is what [GetState] says at the k-th look. *)
Definition backbone_up (running : nat → bool) : bool :=
  match wait_backbone 3 running 0 0 with Some (up, _) => up | None => false end.

Definition main_ (running fails : nat → bool) : list Process :=
  run (backbone_up running) fails 0 main_program new_process.

(** * Where the gateway dials *)

(** The look-ups of [WebServer::init_and_listen]: names and fallbacks. *)
Definition init_and_listen : list (string * string) :=
  [("AuthService", "localhost:50051"); ("MsgService", "localhost:50053");
   ("PushService", "localhost:50054"); ("GroupService", "localhost:50056");
   ("FriendService", "localhost:50057"); ("ConversationService", "localhost:50058")].

(** The text after the first colon. *)
Fixpoint port_of (addr : string) : string :=
  match addr with
  | EmptyString => ""
  | String c rest => if bool_decide (c = ":"%char) then rest else port_of rest
  end.

(** What the services of a process may register: [RegisterToEtcd] sends the name and
    the listening address of a service that knows the backbone and has been started. *)
Definition registers (p : Process) (service : string) (ipport : list string) : Prop :=
  ∃ o, o ∈ backbone_addr p ∧ o ∈ started p ∧ ∃ addr, service_of o = Some (service, addr) ∧ ipport = [addr].
