(* ===== verification/StartupTheorems.v ===== *)
(** What the order of [main.cpp] gives: whichever statement throws, nothing is
    destroyed while something that uses it lives, with one exception (the gateway's
    pool under its sessions); the gateway serves only when everything behind it runs;
    every way out leaves nothing running; the gateway dials the port its service
    listens on. *)
From S2P Require Import Prelude Table Snowflake Schema Effects Users Stores Conversations Samples Gateway Discovery DiscoveryTheorems Lifecycle LifecycleTheorems Startup.

(** * Every way through a program *)

(** A property of the states that holds along the statements and on the way out of
    each: a computation. *)
Section checked.
Context (P : Process → Prop) `{∀ p, Decision (P p)} (up : bool).

Definition leaves (p : Process) : bool := bool_decide (Forall P (unwind (locals p) p)).

Fixpoint checked (program : list stmt) (p : Process) : bool :=
  leaves p && match program with
  | [] => true
  | st :: rest =>
      match exec up st p with
      | Go p' => checked rest p'
      | Throw => true
      | Return p' => leaves p'
      end
  end.

Lemma unwind_head os p : p ∈ unwind os p.
Proof using Type. destruct os; constructor. Qed.

Lemma run_checked fails program : ∀ i p, checked program p = true → Forall P (run up fails i program p).
Proof using Type.
  induction program as [|st program IH]; intros i p; simpl; intros [Hl Hc]%andb_true_iff;
    apply bool_decide_eq_true in Hl; [done|].
  assert (Hp : P p) by (eapply Forall_forall in Hl; [done|apply unwind_head]).
  destruct (fails i); [done|]. destruct (exec up st p) as [p'| |p']; [|done|].
  - constructor; [done|]. by apply IH.
  - constructor; [done|]. by apply bool_decide_eq_true in Hc.
Qed.
End checked.

Lemma main_checked (P : Process → Prop) (HP : ∀ p, Decision (P p)) running fails p :
  (∀ up, checked P up main_program new_process = true) →
  p ∈ main_ running fails → P p.
Proof.
  intros Hc. revert p. apply Forall_forall. unfold main_. by apply run_checked with (H := HP).
Qed.

(** A state that the process passes, found by running it. *)
Lemma main_passes running fails (Q : Process → Prop) `{∀ p, Decision (Q p)} :
  existsb (λ p, bool_decide (Q p)) (main_ running fails) = true →
  ∃ p, p ∈ main_ running fails ∧ Q p.
Proof.
  intros (p & Hp & HQ)%existsb_exists. exists p. split; [by apply list_elem_of_In|].
  by apply bool_decide_eq_true in HQ.
Qed.

(** Both outcomes of the wait, computed. *)
Ltac check_main := eapply (main_checked _ _); [|eassumption]; intros []; vm_compute; reflexivity.

(** * Life times *)

Definition in_use (p : Process) : Prop :=
  Forall (λ l, l.2 ≠ server → l.1 ∈ locals p → l.2 ∈ locals p) (links p)
  ∧ (outbox p = true → producer_ p = true ∧ msg_server ∈ locals p ∧ producer ∈ locals p)
  ∧ (delivery p = true → group_server ∈ locals p)
  ∧ (consuming p = true →
      push_server ∈ locals p ∧ kafka_ioc_pool ∈ locals p ∧ pool_started p = true)
  ∧ (pool_started p = true → kafka_ioc_pool ∈ locals p).

#[global] Instance in_use_dec p : Decision (in_use p).
Proof. unfold in_use. apply _. Defined.

Lemma main_in_use running fails p : p ∈ main_ running fails → in_use p.
Proof. intros Hp. check_main. Qed.

(** C13: whichever statement of [main] throws and however the wait for the
    backbone ends, in every state the process goes through, on the way up and on the way out,
    whoever is alive finds alive what it uses (the gateway's session pool apart):
    the producer under the message service and its outbox worker, the coroutine pool and
    the gateway's push service under the push service and its consumer, the services
    under the gateway, the backbone under every registered service; and a background
    worker runs only inside its living owner. *)
Theorem teardown_order running fails p (Hp : p ∈ main_ running fails) : in_use p.
Proof. by apply (main_in_use running fails). Qed.

Example teardown_order_witness :
  let states := main_ (λ k, bool_decide (k = 1%nat)) (λ i, bool_decide (i = 18%nat)) in
  ∃ p, p ∈ states ∧ locals p = [producer; auth_server; backbon_server] ∧ in_use p.
Proof.
  destruct (main_passes (λ k, bool_decide (k = 1%nat)) (λ i, bool_decide (i = 18%nat))
    (λ p, locals p = [producer; auth_server; backbon_server])) as (p & Hp & Hl); [vm_compute; reflexivity|].
  exists p. split; [exact Hp|]. split; [exact Hl|]. exact (teardown_order _ _ p Hp).
Defined.

(** The exception: the session map is not a local of [main].  After [server] and its
    pool are gone the consumer still works, the push server's front is up, and a frame
    for a session of the map is posted to an executor of the destroyed pool. *)
Lemma sessions_outlive_pool :
  ∃ p, p ∈ main_ (λ _, true) (λ _, false) ∧ (gateway_push_server, server) ∈ links p
    ∧ gateway_push_server ∈ locals p ∧ consuming p = true ∧ server ∉ locals p.
Proof.
  apply (main_passes _ _ (λ p, (gateway_push_server, server) ∈ links p ∧ gateway_push_server ∈ locals p
    ∧ consuming p = true ∧ server ∉ locals p)).
  vm_compute. reflexivity.
Qed.

(** * The gateway *)

Definition everything : list object :=
  [backbon_server; auth_server; producer; msg_server; group_server; friend_server;
   conversation_server; gateway_push_server; kafka_ioc_pool; push_server; server].

Definition all_up (p : Process) : Prop :=
  ready p = reverse [Tracer; Meter; Logger; SnowflakeIds; Redis; MySQL; ConversationTables;
                 OutboxTables; GroupTables; Mongo]
  ∧ locals p = reverse everything
  ∧ Forall (λ o, service_of o ≠ None → o ∈ started p) everything
  ∧ Forall (λ o, o ∈ awaited p) (backbone_addr p)
  ∧ outbox p = true ∧ delivery p = true ∧ consuming p = true ∧ pool_started p = true.

#[global] Instance all_up_dec p : Decision (all_up p).
Proof. unfold all_up. apply _. Defined.

Lemma main_all_up running fails p : p ∈ main_ running fails → serving p = true → all_up p.
Proof. intros Hp. pattern p. check_main. Qed.

(** The gateway serves only when every singleton and table is
    initialised, every service made and started, the wait for every service that registers
    over, the outbox worker, the group delivery and the Kafka consumer running. *)
Theorem gateway_serves_last running fails p (Hp : p ∈ main_ running fails) (Hs : serving p = true) :
  all_up p.
Proof. revert Hs. by apply (main_all_up running fails). Qed.

(** It does serve unless a statement throws or the backbone is not up at one of the
    three looks; then nothing but the backbone was made. *)
Lemma main_serves running :
  backbone_up running = true → ∃ p, p ∈ main_ running (λ _, false) ∧ serving p = true.
Proof.
  intros Hup.
  destruct (main_passes (λ _, true) (λ _, false) (λ p, serving p = true)) as (p & Hp & Hs);
    [vm_compute; reflexivity|].
  exists p. split; [|done]. revert Hp. unfold main_. by rewrite Hup.
Qed.

Lemma main_gives_up running fails p :
  backbone_up running = false → p ∈ main_ running fails → locals p = [] ∨ locals p = [backbon_server].
Proof.
  unfold main_. intros ->. revert p. apply Forall_forall.
  apply run_checked with (H := λ p, _). vm_compute. reflexivity.
Qed.

Lemma backbone_up_spec running :
  backbone_up running = running 0%nat || running 1%nat || running 2%nat.
Proof. unfold backbone_up. rewrite wait_backbone_spec. by destruct (running 0%nat), (running 1%nat), (running 2%nat). Qed.

Example gateway_serves_last_witness :
  ∃ p, p ∈ main_ (λ k, bool_decide (k = 2%nat)) (λ _, false) ∧ serving p = true ∧ all_up p.
Proof.
  destruct (main_passes (λ k, bool_decide (k = 2%nat)) (λ _, false) (λ p, serving p = true))
    as (p & Hp & Hs); [vm_compute; reflexivity|].
  exists p. split; [exact Hp|]. split; [exact Hs|]. exact (gateway_serves_last _ _ p Hp Hs).
Defined.

(** * The way out *)

Lemma destroy_locals o p : locals (destroy o p) = tail (locals p).
Proof. by destruct o. Qed.

Lemma unwind_ends os : ∀ p, os = locals p → ∃ q, last (unwind os p) = Some q ∧ locals q = [].
Proof.
  induction os as [|o os IH]; intros p Hos; [by exists p|].
  destruct (IH (destroy o p)) as (q & Hq & Hl); [by rewrite destroy_locals, <- Hos|].
  exists q. split; [|done]. simpl. by rewrite last_cons, Hq.
Qed.

Lemma run_ends up fails program :
  ∀ i p, ∃ q, last (run up fails i program p) = Some q ∧ locals q = [].
Proof.
  assert (Hcons : ∀ (p : Process) l q, last l = Some q → last (p :: l) = Some q)
    by (intros p l q H; by rewrite last_cons, H).
  induction program as [|st program IH]; intros i p; simpl; [by apply unwind_ends|].
  destruct (fails i); [by apply unwind_ends|]. destruct (exec up st p) as [p'| |p'].
  - destruct (IH (S i) p') as (q & Hq & Hl). exists q. split; [by apply Hcons|done].
  - by apply unwind_ends.
  - destruct (unwind_ends _ p' eq_refl) as (q & Hq & Hl). exists q. split; [by apply Hcons|done].
Qed.

(** Every way out of [main] leaves nothing behind: no local, no worker, no consumer, no
    gateway. *)
Theorem main_ends running fails :
  ∃ p, last (main_ running fails) = Some p ∧ locals p = [] ∧ outbox p = false ∧ delivery p = false
    ∧ consuming p = false ∧ pool_started p = false ∧ serving p = false.
Proof.
  destruct (run_ends (backbone_up running) fails main_program 0 new_process) as (p & Hp & Hl).
  exists p. split; [done|]. apply last_Some_elem_of in Hp.
  destruct (main_in_use running fails p Hp) as (_ & Ho & Hd & Hc & Hs).
  pose proof (main_all_up running fails p Hp) as Hg. rewrite Hl in *.
  assert (Hno : ∀ (b : bool) (o : object), (b = true → o ∈ []) → b = false)
    by (intros [] o Hb; [by destruct (not_elem_of_nil o (Hb eq_refl))|done]).
  split_and!; [done|..].
  - apply (Hno _ msg_server). intros H. by apply Ho.
  - by apply (Hno _ group_server).
  - apply (Hno _ push_server). intros H. by apply Hc.
  - by apply (Hno _ kafka_ioc_pool).
  - destruct (serving p); [|done]. destruct (Hg eq_refl) as (_ & Hloc & _). by rewrite Hl in Hloc.
Qed.

(** * Where the gateway dials *)

Lemma service_in_everything o service : service_of o = Some service → o ∈ everything.
Proof. by destruct o; intros [=]; vm_compute; repeat constructor. Qed.

Lemma service_address_word o name listen : service_of o = Some (name, listen) → word listen.
Proof. destruct o; intros [= _ <-]; by compute. Qed.

(** The fallbacks agree with the addresses of [main]. *)
Lemma fallback_listens name fallback :
  (name, fallback) ∈ init_and_listen →
  ∃ o listen, service_of o = Some (name, listen) ∧ port_of fallback = port_of listen.
Proof.
  intros H. repeat (apply elem_of_cons in H as [[= -> ->]|H]); [..|by apply elem_of_nil in H].
  - by exists auth_server; eexists.
  - by exists msg_server; eexists.
  - by exists push_server; eexists.
  - by exists group_server; eexists.
  - by exists friend_server; eexists.
  - by exists conversation_server; eexists.
Qed.

(** The gateway dials the right port: in a registry filled only by the
    services of this process, through whatever registrations, removals, expiries and failing
    calls, each look-up of [WebServer::init_and_listen] answers an address with the
    port on which the service of that name listens; and while the gateway serves, that
    service is alive and started. *)
Theorem gateway_dials_services running fails p describe first w0 s name fallback addr s'
    (Hp : p ∈ main_ running fails) (Hs : serving p = true)
    (Hlife : rtc (life describe (registers p) (λ _, True)) (new_etcd first, w0) s)
    (Hname : (name, fallback) ∈ init_and_listen)
    (Hrun : discover_Service name fallback s = (inr addr, s')) :
  ∃ o listen, service_of o = Some (name, listen) ∧ port_of addr = port_of listen
    ∧ o ∈ locals p ∧ o ∈ started p.
Proof.
  destruct (main_all_up _ _ _ Hp Hs) as (_ & Hl & Hst & _).
  assert (Hserved : ∀ o, o ∈ everything → service_of o ≠ None → o ∈ locals p ∧ o ∈ started p).
  { intros o Ho Hn. rewrite Hl, elem_of_reverse. split; [done|].
    eapply Forall_forall in Hst; [by apply Hst|done]. }
  apply discovered_was_registered with (Reg := registers p) (first := first) (w0 := w0) (describe := describe)
    in Hrun as [->|(ipport & x & (o & _ & Ho & listen & Hof & ->) & Hx & Ha)]; [| |done].
  - destruct (fallback_listens _ _ Hname) as (o & listen & Hof & Hport).
    exists o, listen. split; [done|]. split; [done|]. apply Hserved; [by eapply service_in_everything|].
    by rewrite Hof.
  - apply list_elem_of_singleton in Hx as ->.
    rewrite deserialize_word, list_elem_of_singleton in Ha by (by eapply service_address_word).
    subst addr. exists o, listen. split; [done|]. split; [done|].
    apply Hserved; [by eapply service_in_everything|by rewrite Hof].
Qed.

Definition dial_s : Etcd * World :=
  (RegisterService no_text "MsgService" ["0.0.0.0:50053"] msg_methods disc_s0).2.

Example gateway_dials_services_witness :
  (discover_Service "MsgService" "localhost:50053" dial_s).1 = inr "0.0.0.0:50053"
  ∧ ∃ o listen, service_of o = Some ("MsgService", listen) ∧ port_of "0.0.0.0:50053" = port_of listen.
Proof.
  split; [vm_compute; reflexivity|].
  destruct (main_passes (λ _, true) (λ _, false)
    (λ p, serving p = true ∧ msg_server ∈ backbone_addr p ∧ msg_server ∈ started p))
    as (p & Hp & Hs & Hb & Hst); [vm_compute; reflexivity|].
  destruct (gateway_dials_services (λ _, true) (λ _, false) p no_text 7 (sample_world empty_db []) dial_s
    "MsgService" "localhost:50053" "0.0.0.0:50053" (discover_Service "MsgService" "localhost:50053" dial_s).2
    Hp Hs) as (o & listen & Hof & Hport & _).
  - apply rtc_once, life_register. exists msg_server. split; [exact Hb|]. split; [exact Hst|].
    eexists. split; reflexivity.
  - right. left.
  - vm_compute. reflexivity.
  - exists o, listen. split; [exact Hof|exact Hport].
Defined.
