(* ===== verification/Pools.v ===== *)
(** The worker pools: [IOC_Pool] ([include/util/ioc_pool.h]) with its least-loaded
    choice, the counter from which the connectors of MySQL, Redis and MongoDB draw the
    index of a worker, a connection or a client pool ([next_idx] of
    [src/storage/mysqlconnector.cpp], [redisconnector.cpp] and [mongoconnector.cpp]), and
    the turn of the gateway's listener.

    The loop of [spawn] reads the loads as one snapshot (a task of another worker may
    end while it runs; the choice is then the least of the loads it has read).

    [None] is undefined behaviour of the code: a null worker, a division by zero, an
    index that is not one of the container's. *)
From S2P Require Import Prelude.

(** * The least-loaded worker *)

Definition INT_MAX : Z := 2 ^ 31 - 1.

(** The loop of [IOC_Pool::spawn] over the workers from number [i] on: [selected] is
    the best so far, with [min_load]. *)
Fixpoint select_worker (active_tasks : list Z) (i : nat) (min_load : Z) (selected : option nat)
    : option nat :=
  match active_tasks with
  | [] => selected
  | load :: rest =>
      if load <? min_load then select_worker rest (S i) load (Some i)
      else select_worker rest (S i) min_load selected
  end.

(** [spawn]: the worker of the task, and the new loads. *)
Definition spawn (active_tasks : list Z) : option (nat * list Z) :=
  w ← select_worker active_tasks 0 INT_MAX None;
  load ← active_tasks !! w;
  Some (w, <[w := to_int32 (load + 1)]> active_tasks).

(** The completion handler of a task of worker [w]. *)
Definition task_done (w : nat) (active_tasks : list Z) : list Z :=
  match active_tasks !! w with
  | Some load => <[w := to_int32 (load - 1)]> active_tasks
  | None => active_tasks
  end.

(** The pool with the workers of the tasks that have not ended. *)
Record IOC_Pool := mkPool { loads : list Z; tasks : list nat }.

Definition new_pool (pool_size : nat) : IOC_Pool := mkPool (replicate pool_size 0) [].

Inductive pool_step : IOC_Pool → IOC_Pool → Prop :=
| pool_spawn p w l : spawn (loads p) = Some (w, l) → pool_step p (mkPool l (w :: tasks p))
| pool_done p w before after :
    tasks p = before ++ w :: after → pool_step p (mkPool (task_done w (loads p)) (before ++ after)).

(** * Drawing an index *)

(** A connector: [_connections], [_pools] or [_mongoPools] has one element for each
    worker. *)
Record Connector := mkConnector {
  _running : bool; _poolSize : Z; _nextIdx : Z; connections : nat;
}.

Definition new_connector : Connector := mkConnector false 0 0 0.

(** [start] of the Redis and the MySQL connector; [pool_size] is not negative. *)
Definition start (pool_size : Z) (c : Connector) : Connector :=
  if _running c then c else mkConnector true pool_size (_nextIdx c) (Z.to_nat pool_size).

(** [start] of the MongoDB connector: pools are added one by one, and the constructor
    of the [up]-th may throw. *)
Definition mongo_start (pool_size : Z) (up : option nat) (c : Connector) : bool * Connector :=
  if _running c then (true, c)
  else match up with
       | Some k => (false, mkConnector false pool_size (_nextIdx c) (connections c + k))
       | None => (true, mkConnector true pool_size (_nextIdx c) (connections c + Z.to_nat pool_size))
       end.

Definition stop (c : Connector) : Connector :=
  if _running c then mkConnector false 0 (_nextIdx c) 0 else c.

(** [fetch_add] on an [atomic<int>] wraps; [%] takes the sign of its left operand. *)
Definition next_idx (c : Connector) : option (Z * Connector) :=
  if _poolSize c =? 0 then None
  else Some (Z.rem (_nextIdx c) (_poolSize c),
             mkConnector (_running c) (_poolSize c) (to_int32 (_nextIdx c + 1)) (connections c)).

(** Every use of a connector draws an index: [get_executor] for a worker of the pool (as
    many as [_poolSize]), where handlers are started and MongoDB's blocking calls run; a
    command of Redis or [async_execute] of MySQL for a worker and its connection;
    [acquire_client] for one of the MongoDB client pools. *)
Definition get_executor (c : Connector) : option (nat * Connector) :=
  '(idx, c) ← next_idx c;
  if (0 <=? idx) && (idx <? _poolSize c) then Some (Z.to_nat idx, c) else None.

Definition acquire_client (c : Connector) : option (nat * Connector) :=
  '(idx, c) ← next_idx c;
  if (0 <=? idx) && (idx <? Z.of_nat (connections c)) then Some (Z.to_nat idx, c) else None.

Definition command (c : Connector) : option (nat * Connector) :=
  '(idx, c) ← next_idx c;
  if (0 <=? idx) && (idx <? _poolSize c) && (idx <? Z.of_nat (connections c))
  then Some (Z.to_nat idx, c) else None.

Inductive draw := GetExecutor | AcquireClient | Command.

Definition take_draw (d : draw) : Connector → option (nat * Connector) :=
  match d with GetExecutor => get_executor | AcquireClient => acquire_client | Command => command end.

(** The draws in the order of their [fetch_add], whoever makes them. *)
Fixpoint take_draws (ds : list draw) (c : Connector) : option (list nat * Connector) :=
  match ds with
  | [] => Some ([], c)
  | d :: ds =>
      '(i, c) ← take_draw d c;
      '(indices, c) ← take_draws ds c;
      Some (i :: indices, c)
  end.

(** [get_pool] and [get_pool_executor] of MySQL, where transactions run: the index is the
    caller's (0 or 1), and no draw is made. *)
Definition get_pool (idx : Z) (c : Connector) : option nat :=
  if _poolSize c =? 0 then None
  else let i := Z.rem idx (_poolSize c) in
       if (0 <=? i) && (i <? Z.of_nat (connections c)) then Some (Z.to_nat i) else None.

(** The shares of the connection limits in [MySQLConnector::start]. *)
Definition per_pool_initial (pool_size : Z) : Z := Z.max 1 (Z.quot 2 pool_size).
Definition per_pool_max (pool_size : Z) : Z := Z.max 2 (Z.quot 20 pool_size).

(** What each connection pool of [MySQLConnector::start] is made with; [settings] are
    the caller's, if any: they replace where to connect and as whom, not the limits. *)
Record pool_params := mkParams {
  server_address : string * Z; username : string; password : string; database : string;
  ssl : bool; initial_size : Z; max_size : Z;
}.

Definition mysql_params (pool_size : Z) (settings : option pool_params) : pool_params :=
  let s := default (mkParams ("127.0.0.1", 3306) "ape_user" "ape_password" "ape_auth" false 0 0) settings in
  mkParams (server_address s) (username s) (password s) (database s) (ssl s)
    (per_pool_initial pool_size) (per_pool_max pool_size).

(** [MySQLConnector::start]: the connector, and the pools it has made. *)
Definition mysql_start (pool_size : Z) (settings : option pool_params) (c : Connector)
    : Connector * list pool_params :=
  if _running c then (c, [])
  else (start pool_size c, replicate (Z.to_nat pool_size) (mysql_params pool_size settings)).

(** Where a coroutine runs. *)
Inductive executor := CallerExecutor | WorkerExecutor (worker : nat).

(** A handler's blocking call: a client from [acquire_client], and what is done with it. *)
Definition with_client {A} (call : nat → string + A) (c : Connector) : option ((string + A) * Connector) :=
  '(pool, c) ← acquire_client c;
  Some (call pool, c).

(** [MongoConnector::async_run]: [get_executor] takes the next worker, [func] runs there
    (its own draws come after that one), and its result is brought back; the executor is
    the one on which the caller goes on. *)
Definition async_run {A} (func : Connector → option ((string + A) * Connector)) (c : Connector)
    : option ((string + A) * executor * Connector) :=
  '(worker, c) ← get_executor c;
  '(result, c) ← func c;
  Some (result, match result with inr _ => CallerExecutor | inl _ => WorkerExecutor worker end, c).

(** [n] calls of a handler through [async_run], one after the other: the client pools
    that they use. *)
Fixpoint mongo_calls (n : nat) (c : Connector) : option (list nat * Connector) :=
  match n with
  | O => Some ([], c)
  | S n =>
      '(result, _, c) ← async_run (with_client inr) c;
      '(pools, c) ← mongo_calls n c;
      Some (match result with inr pool => pool :: pools | inl _ => pools end, c)
  end.

(** [WebServer::listener]: the worker of a connection, and the next one's. *)
Definition accept_worker (pool_size nextWorker : Z) : Z * Z :=
  (nextWorker, Z.rem (nextWorker + 1) pool_size).

(** * The least-loaded worker: lemmas *)

Lemma select_worker_spec l i min sel :
  match select_worker l i min sel with
  | Some w =>
      (sel = Some w ∧ Forall (λ x, min <= x) l)
      ∨ ∃ k load, (w = i + k)%nat ∧ l !! k = Some load ∧ load < min
          ∧ Forall (λ x, load <= x) l ∧ Forall (λ x, load < x) (take k l)
  | None => sel = None ∧ Forall (λ x, min <= x) l
  end.
Proof.
  revert i min sel. induction l as [|x l IH]; intros i min sel; simpl.
  { destruct sel; [left|]; auto. }
  destruct (Z.ltb_spec x min) as [Hlt|Hge].
  - specialize (IH (S i) x (Some i)). destruct (select_worker l (S i) x (Some i)) as [w|].
    + right. destruct IH as [[[= <-] Hall]|(k & load & -> & Hk & Hload & Hall & Htake)].
      * exists 0%nat, x. split_and!; [lia|done|done|by constructor|constructor].
      * exists (S k), load. simpl. split_and!; [lia|done|lia|constructor; [lia|done]|].
        constructor; [lia|done].
    + by destruct IH.
  - specialize (IH (S i) min sel). destruct (select_worker l (S i) min sel) as [w|].
    + destruct IH as [[-> Hall]|(k & load & -> & Hk & Hload & Hall & Htake)].
      * left. split; [done|]. by constructor.
      * right. exists (S k), load. simpl. split_and!; [lia|done|done|constructor; [lia|done]|].
        constructor; [lia|done].
    + destruct IH as [-> ?]. split; [done|]. by constructor.
Qed.

(** The pool's invariant: each load is the number of the worker's tasks, an [int]. *)
Definition pool_inv (p : IOC_Pool) : Prop :=
  ∀ w load, loads p !! w = Some load →
    load = Z.of_nat (length (filter (λ v, v = w) (tasks p))) ∧ load <= INT_MAX.

Lemma spawn_ok l w l' :
  spawn l = Some (w, l') →
  ∃ load, l !! w = Some load ∧ load < INT_MAX ∧ l' = <[w := to_int32 (load + 1)]> l
    ∧ Forall (λ x, load <= x) l ∧ Forall (λ x, load < x) (take w l).
Proof.
  unfold spawn. pose proof (select_worker_spec l 0 INT_MAX None) as Hs.
  destruct (select_worker l 0 INT_MAX None) as [v|]; [|done]. simpl.
  destruct Hs as [[? _]|(k & load & -> & Hk & Hlt & Hall & Htake)]; [done|]. simpl in *.
  rewrite Hk. simpl. intros [= <- <-]. eauto 8.
Qed.

Lemma pool_inv_step p q : pool_inv p → pool_step p q → pool_inv q.
Proof.
  intros Hp Hs. destruct Hs as [p w l Hsp|p w before after Ht].
  - apply spawn_ok in Hsp as (load & Hw & Hlt & -> & _ & _). intros v x Hv. simpl in *.
    destruct (Hp _ _ Hw) as [Hc _].
    apply list_lookup_insert_Some in Hv as [(-> & <- & _)|[Hne Hv]].
    + rewrite to_int32_id by (unfold is_int32, INT_MAX in *; lia).
      rewrite filter_cons_True by done. simpl. split; [lia|unfold INT_MAX in *; lia].
    + rewrite filter_cons_False by congruence. by apply Hp.
  - intros v x Hv. simpl in *. unfold task_done in Hv.
    assert (Hcount : ∀ u, length (filter (λ v, v = u) (tasks p))
      = (length (filter (λ v, v = u) (before ++ after)) + if decide (w = u) then 1 else 0)%nat).
    { intros u. rewrite Ht, !filter_app, !length_app. rewrite filter_cons. destruct (decide (w = u)); simpl; lia. }
    destruct (loads p !! w) as [load|] eqn:Hw.
    + destruct (Hp _ _ Hw) as [Hc Hm]. rewrite Hcount, decide_True in Hc by done.
      apply list_lookup_insert_Some in Hv as [(-> & <- & _)|[Hne Hv]].
      * rewrite to_int32_id by (unfold is_int32, INT_MAX in *; lia). split; lia.
      * destruct (Hp _ _ Hv) as [Hc' Hm']. rewrite Hcount, decide_False in Hc' by done. split; lia.
    + destruct (Hp _ _ Hv) as [Hc' Hm']. rewrite Hcount in Hc'.
      destruct (decide (w = v)) as [->|]; [congruence|]. split; lia.
Qed.

(** The load of a worker is the number of its tasks that have not ended, whatever
    the order in which tasks are given out and end, and never leaves the range of an
    [int]; a new task goes to a worker with the least load, the first of them. *)
Theorem least_loaded pool_size p (Hp : rtc pool_step (new_pool pool_size) p) :
  pool_inv p
  ∧ ∀ w l, spawn (loads p) = Some (w, l) →
      ∃ load, loads p !! w = Some load ∧ l = <[w := load + 1]> (loads p)
        ∧ Forall (λ x, load <= x) (loads p) ∧ Forall (λ x, load < x) (take w (loads p)).
Proof.
  assert (Hi : pool_inv p).
  { cut (pool_inv (new_pool pool_size)); [induction Hp; eauto using pool_inv_step|].
    intros w load [-> _]%lookup_replicate. done. }
  split; [done|]. intros w l (load & Hw & Hlt & -> & Hall & Htake)%spawn_ok. exists load.
  split_and!; [done| |done|done]. destruct (Hi _ _ Hw) as [-> _].
  rewrite to_int32_id; [done|]. unfold is_int32, INT_MAX in *. lia.
Qed.

Lemma least_loaded_witness :
  pool_inv (mkPool [1; 1; 0] [1%nat; 0%nat]) ∧ spawn [1; 1; 0] = Some (2%nat, [1; 1; 1]).
Proof.
  split; [|reflexivity]. apply (least_loaded 3).
  eapply rtc_l; [exact (pool_spawn (new_pool 3) 0 [1; 0; 0] eq_refl)|].
  eapply rtc_l; [exact (pool_spawn (mkPool [1; 0; 0] [0%nat]) 1 [1; 1; 0] eq_refl)|].
  apply rtc_refl.
Defined.

(** * Drawing an index: lemmas *)

(** A connector after [k] draws since the process began. *)
Definition spun (size : Z) (k : Z) (n : nat) : Connector := mkConnector true size k n.

Lemma next_spun size k n :
  0 < size → 0 <= k → next_idx (spun size k n) = Some (k mod size, spun size (to_int32 (k + 1)) n).
Proof.
  intros Hs Hk. unfold next_idx, spun. cbn [_poolSize _nextIdx _running connections].
  replace (size =? 0) with false by lia. by rewrite Z.rem_mod_nonneg by lia.
Qed.

(** Whatever it is for, a draw gives its index when that is within all containers, and
    none when it is negative. *)
Lemma take_draw_in d c i c' :
  next_idx c = Some (i, c') → 0 <= i < _poolSize c' → i < Z.of_nat (connections c') →
  take_draw d c = Some (Z.to_nat i, c').
Proof.
  intros Hn Hi Hc. assert (H0 : (0 <=? i) = true) by lia. assert (H1 : (i <? _poolSize c') = true) by lia.
  assert (H2 : (i <? Z.of_nat (connections c')) = true) by lia.
  destruct d; unfold take_draw, get_executor, acquire_client, command; rewrite Hn; cbn [mbind option_bind];
    by rewrite H0, ?H1, ?H2.
Qed.

Lemma take_draw_out d c i c' : next_idx c = Some (i, c') → i < 0 → take_draw d c = None.
Proof.
  intros Hn Hi. assert (H0 : (0 <=? i) = false) by lia.
  destruct d; unfold take_draw, get_executor, acquire_client, command; rewrite Hn; cbn [mbind option_bind];
    by rewrite H0.
Qed.

Lemma take_draw_spun d size k n :
  0 < size → 0 <= k → size <= Z.of_nat n →
  take_draw d (spun size k n) = Some (Z.to_nat (k mod size), spun size (to_int32 (k + 1)) n).
Proof.
  intros Hs Hk Hn. pose proof (Z.mod_pos_bound k size Hs).
  apply take_draw_in; [by apply next_spun|simpl; lia..].
Qed.

(** A negative counter gives an index only when the size divides it. *)
Lemma take_draw_negative d size k n :
  0 < size <= Z.of_nat n → k < 0 → take_draw d (spun size k n) = None ↔ ¬ (size | k).
Proof.
  intros Hs Hk. pose proof (Z.mod_pos_bound (- k) size ltac:(lia)) as Hb.
  assert (Hnext : next_idx (spun size k n) = Some (- ((- k) mod size), spun size (to_int32 (k + 1)) n)).
  { unfold next_idx, spun. cbn [_poolSize _nextIdx _running connections].
    replace (size =? 0) with false by lia. rewrite <- (Z.opp_involutive k) at 1.
    by rewrite Z.rem_opp_l, Z.rem_mod_nonneg by lia. }
  rewrite <- Z.divide_opp_r, <- Z.mod_divide by lia.
  destruct (decide ((- k) mod size = 0)) as [E|E].
  - rewrite (take_draw_in _ _ _ _ Hnext) by (simpl; lia). by split.
  - rewrite (take_draw_out _ _ _ _ Hnext) by lia. by split.
Qed.

(** The indices that the draws from the [k]-th on give. *)
Definition indices (size k : Z) (n : nat) : list nat :=
  (λ i, Z.to_nat ((k + Z.of_nat i) mod size)) <$> seq 0 n.

Lemma indices_S size k n : indices size k (S n) = Z.to_nat (k mod size) :: indices size (k + 1) n.
Proof.
  unfold indices. cbn [seq fmap list_fmap]. rewrite Z.add_0_r. f_equal.
  rewrite <- seq_shift, <- list_fmap_compose. apply list_fmap_ext. intros _ i _. simpl. do 2 f_equal. lia.
Qed.

Lemma indices_range size k n : 0 < size → Forall (λ i, Z.of_nat i < size) (indices size k n).
Proof.
  intros Hs. apply Forall_fmap, Forall_true. intros i. simpl.
  pose proof (Z.mod_pos_bound (k + Z.of_nat i) size Hs). lia.
Qed.

Lemma take_draws_spun ds size k n :
  0 < size → size <= Z.of_nat n → 0 <= k < 2 ^ 31 → k + Z.of_nat (length ds) <= 2 ^ 31 →
  take_draws ds (spun size k n) =
    Some (indices size k (length ds), spun size (to_int32 (k + Z.of_nat (length ds))) n).
Proof.
  intros Hs Hn. revert k. induction ds as [|d ds IH]; intros k Hk Hlen.
  { cbn [length take_draws]. rewrite Z.add_0_r, to_int32_id; [done|]. unfold is_int32. lia. }
  cbn [length take_draws] in *. rewrite take_draw_spun, indices_S by lia. simpl.
  destruct ds as [|d' ds']; [done|].
  rewrite to_int32_id by (unfold is_int32; simpl in Hlen; lia).
  remember (d' :: ds') as rest eqn:Er. assert (1 <= Z.of_nat (length rest)) by (subst rest; simpl; lia).
  rewrite IH by lia. cbn [mbind option_bind]. do 4 f_equal. lia.
Qed.

(** C21: a connector (of MySQL, Redis or MongoDB, with a counter of its own) that has
    been started with a positive size stays within its bounds for its first 2^31 draws,
    and not after them.  However the starts of handlers, the commands and the client
    acquisitions follow one another, the k-th draw since the start gives index k modulo the pool's
    size, and its worker, connection or client pool exists; the next draw, on the wrapped
    counter, has none, whatever it is for, unless the size divides 2^31. *)
Theorem draws_in_bounds size ds (Hsize : 0 < size) (Hds : Z.of_nat (length ds) <= 2 ^ 31) :
  let c := start size new_connector in
  ∃ c', take_draws ds c = Some (indices size 0 (length ds), c')
    ∧ Forall (λ i, (i < connections c)%nat ∧ Z.of_nat i < _poolSize c) (indices size 0 (length ds))
    ∧ (Z.of_nat (length ds) = 2 ^ 31 → ∀ d, take_draw d c' = None ↔ ¬ (size | 2 ^ 31)).
Proof.
  intros c. assert (Hc : c = spun size 0 (Z.to_nat size)) by done. rewrite Hc. eexists.
  split; [apply take_draws_spun; lia|]. split.
  - eapply Forall_impl; [by apply indices_range|]. intros i Hi. simpl in *. lia.
  - intros -> d. change (to_int32 (0 + 2 ^ 31)) with (- 2 ^ 31).
    rewrite take_draw_negative by lia. by rewrite Z.divide_opp_r.
Qed.

Lemma draws_in_bounds_witness :
  ∃ c', take_draws [GetExecutor; AcquireClient; Command; Command; GetExecutor; AcquireClient]
    (start 4 new_connector) = Some ([0; 1; 2; 3; 0; 1]%nat, c').
Proof.
  destruct (draws_in_bounds 4 [GetExecutor; AcquireClient; Command; Command; GetExecutor; AcquireClient]
    eq_refl) as (c' & H & _); [discriminate|]. exists c'. exact H.
Defined.

(** A pool of three has no connection then; one of four has, and not on the draw after. *)
Lemma draws_wrap :
  command (spun 3 (to_int32 (2 ^ 31)) 3) = None
  ∧ command (spun 4 (to_int32 (2 ^ 31)) 4) = Some (0%nat, spun 4 (- 2 ^ 31 + 1) 4)
  ∧ command (spun 4 (- 2 ^ 31 + 1) 4) = None.
Proof. repeat split. Qed.

(** A call through [async_run] draws twice, once for its worker and once for its client. *)
Lemma mongo_calls_spun size n k calls :
  0 < size → size <= Z.of_nat n → 0 <= k < 2 ^ 31 → k + 2 * Z.of_nat calls < 2 ^ 31 →
  mongo_calls calls (spun size k n) =
    Some ((λ i, Z.to_nat ((k + 2 * Z.of_nat i + 1) mod size)) <$> seq 0 calls,
          spun size (k + 2 * Z.of_nat calls) n).
Proof.
  intros Hs Hn. revert k. induction calls as [|calls IH]; intros k Hk Hlen.
  { cbn. by rewrite Z.add_0_r. }
  cbn [mongo_calls]. unfold async_run, with_client.
  change (get_executor ?c) with (take_draw GetExecutor c).
  change acquire_client with (take_draw AcquireClient).
  rewrite take_draw_spun by lia. simpl. rewrite to_int32_id by (unfold is_int32; lia).
  change (acquire_client ?c) with (take_draw AcquireClient c).
  rewrite take_draw_spun by lia. simpl. rewrite to_int32_id by (unfold is_int32; lia).
  rewrite IH by lia. simpl. rewrite Z.add_0_r. f_equal. f_equal.
  - f_equal. rewrite <- seq_shift, <- list_fmap_compose. apply list_fmap_ext. intros _ i _. simpl. do 2 f_equal. lia.
  - f_equal. lia.
Qed.

(** So a service that only makes such calls uses every other client pool, if their number
    is even: half of them are never used. *)
Lemma mongo_calls_skip half calls :
  0 < half → 2 * Z.of_nat calls < 2 ^ 31 →
  ∃ pools c, mongo_calls calls (start (2 * half) new_connector) = Some (pools, c)
    ∧ Forall (λ i, Z.odd (Z.of_nat i) = true) pools.
Proof.
  intros Hh Hc. change (start (2 * half) new_connector) with (spun (2 * half) 0 (Z.to_nat (2 * half))).
  rewrite mongo_calls_spun by lia. eexists _, _. split; [done|].
  apply Forall_fmap, Forall_true. intros i. simpl.
  pose proof (Z.mod_pos_bound (2 * Z.of_nat i + 1) (2 * half) ltac:(lia)) as Hb.
  rewrite Z.add_0_l, Z2Nat.id, Z.mod_eq by lia.
  replace (2 * Z.of_nat i + 1 - 2 * half * ((2 * Z.of_nat i + 1) / (2 * half)))
    with (1 + 2 * (Z.of_nat i - half * ((2 * Z.of_nat i + 1) / (2 * half)))) by ring.
  by rewrite Z.odd_add_mul_2.
Qed.

(** The shares of the MySQL pools: a pool starts with no more connections than it may
    hold, and together they hold at most twenty or two each. *)
Lemma mysql_shares size :
  0 < size →
  per_pool_initial size <= per_pool_max size
  ∧ size * per_pool_max size <= Z.max 20 (2 * size).
Proof.
  intros Hs. unfold per_pool_initial, per_pool_max.
  rewrite !Z.quot_div_nonneg by lia.
  pose proof (Z.mul_div_le 2 size Hs). pose proof (Z.mul_div_le 20 size Hs).
  pose proof (Z.div_le_mono 2 20 size Hs). nia.
Qed.

Lemma accept_worker_range pool_size w :
  0 < pool_size < 2 ^ 31 → 0 <= w < pool_size → 0 <= (accept_worker pool_size w).2 < pool_size.
Proof.
  intros Hp Hw. simpl. rewrite Z.rem_mod_nonneg by lia. apply Z.mod_pos_bound. lia.
Qed.

(** However the caller configures them, the MySQL pools together never hold more than
    twenty connections, or two each. *)
Lemma mysql_connections size settings c :
  0 < size → _running c = false →
  foldr (λ p n, max_size p + n) 0 (mysql_start size settings c).2 <= Z.max 20 (2 * size)
  ∧ Forall (λ p, initial_size p <= max_size p) (mysql_start size settings c).2.
Proof.
  intros Hs Hr. unfold mysql_start. rewrite Hr. cbn [snd].
  destruct (mysql_shares size Hs) as [Hi Hm]. split.
  - assert (Hsum : ∀ n p, foldr (λ p n, max_size p + n) 0 (replicate n p) = Z.of_nat n * max_size p).
    { intros n p. induction n as [|n IH]; [done|]. rewrite replicate_S. cbn [foldr]. lia. }
    rewrite Hsum, Z2Nat.id by lia. exact Hm.
  - by apply Forall_replicate.
Qed.

(** A call that throws leaves the coroutine on the MongoDB worker: what the caller runs
    up to its next suspension runs there, not on its own executor. *)
Lemma async_run_strays {A} (func : Connector → option ((string + A) * Connector)) c res ex c' :
  async_run func c = Some (res, ex, c') → (ex = CallerExecutor ↔ ∃ a, res = inr a).
Proof.
  unfold async_run. destruct (get_executor c) as [[w c1]|]; [|done]. simpl.
  destruct (func c1) as [[[e|a] c2]|]; [| |done]; simpl; intros [= <- <- <-];
    (split; [try done; by exists a|]); [by intros [? ?]|done].
Qed.
