(* ===== verification/RedisCommands.v ===== *)
(** The commands of the Redis connector: [src/storage/redisconnector.cpp].  An operation
    sends one command, a list of words, on the connection that [Pools.command] draws, and
    decodes the one reply into the type of its [response]; an error reply, or one of
    another type, is an exception.

    Redis and its client library are a parameter: what a command answers in a given
    decoding, and what it does.  [RedisOk] is the documentation of the commands that
    the handlers use, on the strings and sorted sets of [RedisStore]. *)
From S2P Require Import Prelude Schema Effects Stores.

(** [boost::redis::response<T>] *)
Inductive response := ROptional | RText | RInteger | RTexts | ROptionals | RMap.

Definition decoded (r : response) : Type :=
  match r with
  | ROptional => option string
  | RText => string
  | RInteger => Z
  | RTexts => list string
  | ROptionals => list (option string)
  | RMap => gmap string string
  end.

Class Redis := exec : ∀ r : response, list string → RedisStore → E (decoded r) * RedisStore.

Section commands.
Context `{Redis}.

(** [async_exec] and [std::get<0>(resp).value()] *)
Definition command (r : response) (args : list string) : M (decoded r) :=
  remote StoreError (λ w,
    match exec r args (w_redis w) with
    | (inl e, _) => inl e
    | (inr a, s) => inr (a, with_redis s w)
    end).

(** ** Strings *)

Definition get (key : string) : M (option string) := command ROptional ["GET"; key].
Definition set (key val : string) : M unit := command RText ["SET"; key; val];; mret tt.
Definition setex (key : string) (sec : Z) (val : string) : M unit :=
  command RText ["SETEX"; key; show_int sec; val];; mret tt.
Definition del (key : string) : M Z := command RInteger ["DEL"; key].
Definition exists_ (key : string) : M bool := n ← command RInteger ["EXISTS"; key]; mret (0 <? n).
Definition expire (key : string) (sec : Z) : M unit :=
  command RInteger ["EXPIRE"; key; show_int sec];; mret tt.
Definition setnxex (key val : string) (sec : Z) : M bool :=
  o ← command ROptional ["SET"; key; val; "NX"; "EX"; show_int sec];
  mret (bool_decide (is_Some o)).
Definition ttl (key : string) : M Z := command RInteger ["TTL"; key].
Definition mget (keys : list string) : M (list (option string)) := command ROptionals ("MGET" :: keys).

(** ** Hashes *)

Definition hset (key field val : string) : M Z := command RInteger ["HSET"; key; field; val].
Definition hget (key field : string) : M (option string) := command ROptional ["HGET"; key; field].
Definition hdel (key field : string) : M Z := command RInteger ["HDEL"; key; field].
Definition hdel_range (key : string) (fields : list string) : M Z := command RInteger ("HDEL" :: key :: fields).
Definition hgetall (key : string) : M (gmap string string) := command RMap ["HGETALL"; key].

(** ** Sets and lists *)

Definition sadd (key member : string) : M Z := command RInteger ["SADD"; key; member].
Definition srem (key member : string) : M Z := command RInteger ["SREM"; key; member].
Definition scard (key : string) : M Z := command RInteger ["SCARD"; key].
Definition smembers (key : string) : M (list string) := command RTexts ["SMEMBERS"; key].
Definition rpush (key val : string) : M Z := command RInteger ["RPUSH"; key; val].
Definition lrange (key : string) (start stop : Z) : M (list string) :=
  command RTexts ["LRANGE"; key; show_int start; show_int stop].
Definition ltrim (key : string) (start stop : Z) : M Z :=
  command RText ["LTRIM"; key; show_int start; show_int stop];; mret 0.

(** ** Sorted sets *)

Definition zadd (key : string) (score : Z) (member : string) : M Z :=
  command RInteger ["ZADD"; key; show_int score; member].
Definition zrangebyscore (key : string) (min max offset count : Z) : M (list string) :=
  command RTexts (
    if 0 <? count then
      ["ZRANGEBYSCORE"; key; show_int min; show_int max; "LIMIT";
       show_int offset; show_int count]
    else ["ZRANGEBYSCORE"; key; show_int min; show_int max]).
Definition zrem (key member : string) : M Z := command RInteger ["ZREM"; key; member].
Definition zrem_range (key : string) (members : list string) : M Z := command RInteger ("ZREM" :: key :: members).

(** ** Channels and scripts *)

Definition publish (channel msg : string) : M Z := command RInteger ["PUBLISH"; channel; msg].

Definition MakeEvalRequest (script : string) (keys args : list string) : list string :=
  "EVAL" :: [script; to_string (Z.of_nat (length keys))] ++ keys ++ args.

Definition eval (script : string) (keys args : list string) : M Z :=
  command RInteger (MakeEvalRequest script keys args).

(** * What the handlers rely on *)

(** DEL and ZREM count what they remove; a TTL that is set is not kept by
    [RedisStore]. *)
Class RedisOk : Prop := {
  exec_get k s : exec ROptional ["GET"; k] s = (inr (r_strings s !! k), s);
  exec_setex k n v s :
    ∃ ok, exec RText ["SETEX"; k; n; v] s = (inr ok, set_strings <[k := v]> s);
  exec_del k s :
    ∃ n, exec RInteger ["DEL"; k] s = (inr n, set_strings (delete k) s);
  exec_zrem k x s :
    ∃ n, exec RInteger ["ZREM"; k; x] s
      = (inr n, mkRedisStore (r_strings s)
          (match r_zsets s !! k with Some z => <[k := z ∖ {[ x ]}]> (r_zsets s) | None => r_zsets s end));
  exec_set_nx k v n s :
    exec ROptional ["SET"; k; v; "NX"; "EX"; n] s
    = match r_strings s !! k with
      | Some _ => (inr None, s)
      | None => (inr (Some "OK"), set_strings <[k := v]> s)
      end;
}.

(** An operation whose result is not looked at. *)
Definition done_ {A} (m : M A) : M unit := m;; mret tt.

Lemma remote_map {A B} (f : A → B) mk (op : World → exn + (A * World)) w :
  (a ← remote mk op; mret (f a)) w
  = remote mk (λ w, match op w with inl e => inl e | inr (a, w') => inr (f a, w') end) w.
Proof using Type.
  unfold mbind, M_bind, remote. destruct (w_faults w) as [|[|c|c] fs]; simpl; try done;
    by destruct (op _) as [e|[a w']].
Qed.

Lemma remote_ext {A} mk (op op' : World → exn + (A * World)) w :
  (∀ w, op w = op' w) → remote mk op w = remote mk op' w.
Proof using Type. intros Heq. unfold remote. destruct (w_faults w) as [|[|c|c] fs]; by rewrite ?Heq. Qed.

(** The operations of [Stores] are these, under every failure schedule. *)
Lemma store_operations `{!RedisOk} w :
  (∀ key, get key w = redis_get key w)
  ∧ (∀ key sec val, setex key sec val w = redis_setex key val w)
  ∧ (∀ key, done_ (del key) w = redis_del key w)
  ∧ (∀ key member, done_ (zrem key member) w = redis_zrem key member w).
Proof using Type.
  split_and!; intros.
  - apply remote_ext. intros w0. by rewrite exec_get.
  - unfold setex, command. rewrite (remote_map (λ _, tt)). apply remote_ext. intros w0.
    by destruct (exec_setex key (show_int sec) val (w_redis w0)) as [ok ->].
  - unfold done_, del, command. rewrite (remote_map (λ _, tt)). apply remote_ext. intros w0.
    by destruct (exec_del key (w_redis w0)) as [ok ->].
  - unfold done_, zrem, command. rewrite (remote_map (λ _, tt)). apply remote_ext. intros w0.
    by destruct (exec_zrem key member (w_redis w0)) as [ok ->].
Qed.

(** [setnxex] does not take a key that is held. *)
Lemma setnxex_held `{!RedisOk} key val sec w b w' holder :
  r_strings (w_redis w) !! key = Some holder → setnxex key val sec w = (inr b, w') →
  b = false ∧ r_strings (w_redis w') !! key = Some holder.
Proof using Type.
  intros Hk Hrun. unfold setnxex in Hrun. apply bind_ok in Hrun as (o & w1 & Hc & [<- <-]%ret_ok).
  apply remote_ok in Hc as (fs & Hc). cbn in Hc. rewrite exec_set_nx, Hk in Hc. by injection Hc as <- <-.
Qed.
End commands.

(** * Scripts *)

(** EVAL's own reading of its words: script, number of keys, keys, arguments. *)
Definition read_eval (words : list string) : option (string * list string * list string) :=
  match words with
  | name :: script :: numkeys :: rest =>
      let n := Z.to_nat (dec_value 0 numkeys) in
      if bool_decide (name = "EVAL") && (n <=? length rest)%nat
      then Some (script, take n rest, drop n rest) else None
  | _ => None
  end.

(** The words of a script call are read back as its script, keys and arguments. *)
Lemma eval_roundtrip script keys args :
  Z.of_nat (length keys) < 2 ^ 64 →
  read_eval (MakeEvalRequest script keys args) = Some (script, keys, args).
Proof.
  intros Hn. unfold MakeEvalRequest, read_eval. cbn [app].
  rewrite to_string_value by (unfold is_uint64, uint64_max; lia). rewrite Nat2Z.id, length_app.
  rewrite (proj2 (Nat.leb_le _ _)) by lia. by rewrite take_app_length, drop_app_length.
Qed.
