(* ===== verification/MongoIndex.v ===== *)
(** The unique index of the message collection: what [MongoConnector::start]
    ([src/storage/mongoconnector.cpp] 12-32 and 89-120) makes sure of before the
    program stores a message.  [SaveMsgToMongo] relies on it: one document for each
    server message id.

    The server's [createIndexes] is a parameter; [create_ok] is what its documentation
    says of a call that succeeds. *)
From S2P Require Import Prelude Schema Effects Stores.

(** An index as [listIndexes] describes it. *)
Inductive element := Value (v : bson) | Document (d : document).
Definition index : Type := list (string * element).

(** [index["name"]]: the first element of that name. *)
Fixpoint elem (ix : index) (name : string) : option element :=
  match ix with
  | [] => None
  | (n, v) :: ix => if decide (n = name) then Some v else elem ix name
  end.

Definition isMessageIdKey (ix : index) : bool :=
  match elem ix "key" with
  | Some (Document view) =>
      if decide (length view = 1%nat) then
        match field view "serverMsgID" with
        | Some (BInt32 z) | Some (BInt64 z) => z =? 1
        | Some (BDouble o) => bool_decide (o = Some 1)
        | _ => false
        end
      else false
  | _ => false
  end.

Definition IsFullUniqueMessageIdIndex (ix : index) : bool :=
  isMessageIdKey ix
  && match elem ix "unique" with Some (Value (BBool b)) => b | _ => false end
  && match elem ix "partialFilterExpression" with Some _ => false | None => true end
  && match elem ix "sparse" with
     | None => true
     | Some (Value (BBool b)) => negb b
     | Some _ => false
     end.

(** [index["name"].get_string()] throws when it is missing or no string. *)
Definition index_name (ix : index) : E string :=
  match elem ix "name" with Some (Value v) => get_string v | _ => inl (StoreError 0) end.

(** The loop over [list_indexes()]: a full unique index was found, and the name of the
    last one that was not. *)
Fixpoint scan_indexes (indexes : list index) (incompatibleIndex : string) : E (bool * string) :=
  match indexes with
  | [] => mret (false, incompatibleIndex)
  | ix :: indexes =>
      if isMessageIdKey ix then
        name ← index_name ix;
        if IsFullUniqueMessageIdIndex ix then mret (true, incompatibleIndex)
        else scan_indexes indexes name
      else scan_indexes indexes incompatibleIndex
  end.

(** The argument of [create_index]. *)
Record index_model := mkModel { model_keys : document; model_unique : bool; model_name : option string }.

Definition by_conversation : index_model := mkModel [("convID", BInt32 1); ("seq", BInt32 1)] false None.
Definition by_receiver : index_model := mkModel [("recvID", BInt32 1); ("seq", BInt32 1)] false None.
Definition unique_id : index_model := mkModel [("serverMsgID", BInt32 1)] true (Some "message_server_id_unique").

Section ensure.
Context (create_index : index_model → list index → E (list index)).

(** The index block of [start]: the outcome, and the indexes it leaves. *)
Definition ensure_indexes (indexes : list index) : E unit * list index :=
  match create_index by_conversation indexes with
  | inl e => (inl e, indexes)
  | inr indexes =>
      match create_index by_receiver indexes with
      | inl e => (inl e, indexes)
      | inr indexes =>
          match scan_indexes indexes "" with
          | inl e => (inl e, indexes)
          | inr (existingUniqueIndex, incompatibleIndex) =>
              if existingUniqueIndex : bool then (inr tt, indexes)
              else if negb (str_empty incompatibleIndex) then
                (inl (RuntimeError ("Existing serverMsgID index '" +:+ incompatibleIndex
                   +:+ "' is not a full unique index. An explicit index migration is required.")), indexes)
              else
                match create_index unique_id indexes with
                | inl e => (inl e, indexes)
                | inr indexes => (inr tt, indexes)
                end
          end
      end
  end.

(** A call that succeeds keeps every index and leaves one with the keys and options
    asked for; the only index it may add is that one. *)
Definition create_ok : Prop := ∀ m l l', create_index m l = inr l' →
  ∃ ix, elem ix "key" = Some (Document (model_keys m))
    ∧ (model_unique m = true → elem ix "unique" = Some (Value (BBool true)))
    ∧ elem ix "partialFilterExpression" = None ∧ elem ix "sparse" = None
    ∧ ((l' = l ∧ ix ∈ l) ∨ l' = l ++ [ix]).

(** * Lemmas *)

Lemma scan_indexes_found l inc name : scan_indexes l inc = inr (true, name) →
  ∃ ix, ix ∈ l ∧ IsFullUniqueMessageIdIndex ix = true.
Proof using Type.
  revert inc. induction l as [|ix l IH]; intros inc; simpl; [done|].
  destruct (isMessageIdKey ix).
  - intros (nm & _ & H)%ebind_ok. destruct (IsFullUniqueMessageIdIndex ix) eqn:E.
    + exists ix. split; [constructor|done].
    + destruct (IH _ H) as (x & ? & ?). exists x. split; [by constructor|done].
  - intros H. destruct (IH _ H) as (x & ? & ?). exists x. split; [by constructor|done].
Qed.

Lemma scan_indexes_none l inc name : scan_indexes l inc = inr (false, name) →
  (∀ ix, ix ∈ l → IsFullUniqueMessageIdIndex ix = false)
  ∧ ((name = inc ∧ ∀ ix, ix ∈ l → isMessageIdKey ix = false)
     ∨ ∃ ix, ix ∈ l ∧ isMessageIdKey ix = true ∧ index_name ix = inr name).
Proof using Type.
  revert inc. induction l as [|ix l IH]; intros inc; simpl.
  { intros [= <-]. split; [by intros ? ?%not_elem_of_nil|]. left. split; [done|].
    by intros ? ?%not_elem_of_nil. }
  destruct (isMessageIdKey ix) eqn:Hk.
  - intros (nm & Hn & H)%ebind_ok. destruct (IsFullUniqueMessageIdIndex ix) eqn:Hf; [done|].
    apply IH in H as [Hall H]. split.
    { intros x [->|Hx]%elem_of_cons; [done|by apply Hall]. }
    right. destruct H as [[-> _]|(x & Hx & ? & ?)]; [exists ix|exists x];
      repeat split; try done; by constructor.
  - intros H. apply IH in H as [Hall H]. split.
    { intros x [->|Hx]%elem_of_cons; [|by apply Hall]. unfold IsFullUniqueMessageIdIndex. by rewrite Hk. }
    destruct H as [[-> Hno]|(x & Hx & ? & ?)].
    + left. split; [done|]. intros x [->|Hx]%elem_of_cons; [done|by apply Hno].
    + right. exists x. repeat split; try done. by constructor.
Qed.

Lemma create_keeps (Hok : create_ok) m l l' ix :
  create_index m l = inr l' → ix ∈ l → ix ∈ l'.
Proof using Type.
  intros (x & _ & _ & _ & _ & [[-> _]| ->])%Hok ?; [done|]. apply elem_of_app. by left.
Qed.

(** The two ordinary indexes are not keyed by the message id. *)
Lemma create_other (Hok : create_ok) m l l' ix :
  create_index m l = inr l' → length (model_keys m) = 2%nat → ix ∈ l' →
  isMessageIdKey ix = true → ix ∈ l.
Proof using Type.
  intros (x & Hx & _ & _ & _ & [[-> _]| ->])%Hok Hm Hin Hk; [done|].
  apply elem_of_app in Hin as [?| ->%list_elem_of_singleton]; [done|].
  unfold isMessageIdKey in Hk. rewrite Hx in Hk. by rewrite decide_False in Hk by lia.
Qed.

Lemma created_is_full (Hok : create_ok) l l' :
  create_index unique_id l = inr l' → ∃ ix, ix ∈ l' ∧ IsFullUniqueMessageIdIndex ix = true.
Proof using Type.
  intros (x & Hk & Hu & Hp & Hs & Hl)%Hok. exists x. split.
  - destruct Hl as [[-> ?]| ->]; [done|]. apply elem_of_app. right. by constructor.
  - unfold IsFullUniqueMessageIdIndex, isMessageIdKey. by rewrite Hk, Hp, Hs, Hu.
Qed.

(** Before the program stores a message, the message collection has a full unique
    index on the server message id, or the start fails; no index is ever removed; and
    when the start is refused, no index on the message id has been added: an
    incompatible one is left to an explicit migration. *)
Theorem indexes_ensured l r l' (Hok : create_ok) (Hrun : ensure_indexes l = (r, l')) :
  (∀ ix, ix ∈ l → ix ∈ l')
  ∧ match r with
    | inr _ => ∃ ix, ix ∈ l' ∧ IsFullUniqueMessageIdIndex ix = true
    | inl _ => ∀ ix, ix ∈ l' → isMessageIdKey ix = true → ix ∈ l
    end.
Proof using Type.
  revert Hrun. unfold ensure_indexes.
  destruct (create_index by_conversation l) as [e|l1] eqn:H1; [intros [= <- <-]; auto|].
  destruct (create_index by_receiver l1) as [e|l2] eqn:H2.
  { intros [= <- <-]. split; eauto using create_keeps, create_other. }
  assert (Hkeep : ∀ ix, ix ∈ l → ix ∈ l2) by eauto using create_keeps.
  assert (Hadd : ∀ ix, ix ∈ l2 → isMessageIdKey ix = true → ix ∈ l) by eauto using create_other.
  destruct (scan_indexes l2 "") as [e|[[] inc]] eqn:Hs; [by intros [= <- <-]| |].
  { intros [= <- <-]. split; [done|]. by apply scan_indexes_found in Hs. }
  destruct (negb (str_empty inc)); [by intros [= <- <-]|].
  destruct (create_index unique_id l2) as [e|l3] eqn:H3; intros [= <- <-]; [done|].
  split; [|by eapply created_is_full]. eauto using create_keeps.
Qed.

(** An index on the message id that is not a full unique one, with a name, is refused. *)
Lemma incompatible_refused l l' :
  ensure_indexes l = (inr tt, l') → create_ok →
  (∃ ix, ix ∈ l ∧ IsFullUniqueMessageIdIndex ix = true)
  ∨ ∀ ix, ix ∈ l → isMessageIdKey ix = true → ∃ jx, jx ∈ l ∧ isMessageIdKey jx = true ∧ index_name jx = inr "".
Proof using Type.
  intros Hrun Hok. revert Hrun. unfold ensure_indexes.
  destruct (create_index by_conversation l) as [e|l1] eqn:H1; [done|].
  destruct (create_index by_receiver l1) as [e|l2] eqn:H2; [done|].
  assert (Hkeep : ∀ ix, ix ∈ l → ix ∈ l2) by eauto using create_keeps.
  assert (Hadd : ∀ ix, ix ∈ l2 → isMessageIdKey ix = true → ix ∈ l) by eauto using create_other.
  destruct (scan_indexes l2 "") as [e|[[] inc]] eqn:Hs; [done| |].
  - intros _. left. apply scan_indexes_found in Hs as (ix & Hin & Hf). exists ix. split; [|done].
    apply Hadd; [done|]. unfold IsFullUniqueMessageIdIndex in Hf. by destruct (isMessageIdKey ix).
  - destruct inc; [|done]. intros _. right. apply scan_indexes_none in Hs as [_ [[_ Hno]|(x & Hx & Hk & Hn)]].
    + intros ix Hin Hk. rewrite Hno in Hk; [done|by apply Hkeep].
    + intros _ _ _. exists x. split; [by apply Hadd|done].
Qed.
End ensure.

(** * Concrete inputs *)

(** A server that adds the index, unless it has it. *)
Definition index_of (m : index_model) : index :=
  [("key", Document (model_keys m)); ("name", Value (BString (default "auto" (model_name m))))]
  ++ (if model_unique m then [("unique", Value (BBool true))] else []).
Definition sample_create (m : index_model) (l : list index) : E (list index) := inr (l ++ [index_of m]).

Lemma sample_create_ok : create_ok sample_create.
Proof.
  intros m l l' [= <-]. exists (index_of m). unfold index_of.
  destruct m as [keys [] name]; simpl; (split_and!; [done..|by right]).
Qed.

Definition legacy_index : index :=
  [("key", Document [("serverMsgID", BInt32 1)]); ("name", Value (BString "serverMsgID_1"))].

Lemma indexes_ensured_witness :
  (∃ l', ensure_indexes sample_create [] = (inr tt, l') ∧ ∃ ix, ix ∈ l' ∧ IsFullUniqueMessageIdIndex ix = true)
  ∧ ∃ e l', ensure_indexes sample_create [legacy_index] = (inl e, l') ∧ legacy_index ∈ l'.
Proof.
  split.
  - eexists. split; [reflexivity|]. apply (indexes_ensured sample_create [] (inr tt)); [apply sample_create_ok|reflexivity].
  - eexists _, _. split; [reflexivity|].
    apply (indexes_ensured sample_create [legacy_index] (inl (RuntimeError
      "Existing serverMsgID index 'serverMsgID_1' is not a full unique index. An explicit index migration is required.")));
      [apply sample_create_ok|reflexivity|constructor].
Defined.
