(* ===== verification/TraceContext.v ===== *)
(** Trace contexts that travel as text: [src/om/otel_trace_propagation.cpp].

    The OpenTelemetry library is a parameter: identifiers and flags with their
    hexadecimal texts, validity, and what [HttpTraceContext::Inject] hands to its
    carrier. *)
From S2P Require Import Prelude.

(** [std::string::find(c, pos)]; a result of [npos] is [None]. *)
Definition find_from (c : ascii) (s : string) (pos : nat) : option nat :=
  Nat.add pos <$> find_char c (drop_str pos s).

(** The bytes of [string_view(s.data() + off, len)], all of them read: [data()] has a
    byte of value 0 after the string's, and [None] is a read beyond it. *)
Definition view (s : string) (off len : nat) : option string :=
  if (off + len <=? S (String.length s))%nat
  then Some (take_str len (drop_str off (s +:+ String "000" ""))) else None.

(** [ch == '-'] *)
Definition dash : ascii := "-".

Class OpenTelemetry := {
  TraceId : Type; SpanId : Type; TraceFlags : Type;
  TraceIdFromHex : string → TraceId;
  SpanIdFromHex : string → SpanId;
  TraceFlagsFromHex : string → TraceFlags;
  trace_valid : TraceId → bool;
  span_valid : SpanId → bool;
  trace_hex : TraceId → string;
  span_hex : SpanId → string;
  flags_hex : TraceFlags → string;
  (* the calls of [Set] that [Inject] makes for a valid context *)
  inject : TraceId → SpanId → TraceFlags → list (string * string);
}.

Section trace.
Context `{OpenTelemetry}.

(** A span context that is valid: its identifiers and flags, and whether it came from
    another process. *)
Record SpanContext := mkSpanContext {
  trace_id : TraceId; span_id : SpanId; trace_flags : TraceFlags; is_remote : bool;
}.

Definition IsValid (c : SpanContext) : bool := trace_valid (trace_id c) && span_valid (span_id c).

(** [StringCarrier::Set] *)
Definition carrier_set (value_ : string) (kv : string * string) : string :=
  if decide (kv.1 = "traceparent") then kv.2 else value_.

(** [EncodeCurrentTraceParent]; [None] is no active span. *)
Definition EncodeCurrentTraceParent (span : option SpanContext) : string :=
  match span with
  | None => ""
  | Some c =>
      if IsValid c then foldl carrier_set "" (inject (trace_id c) (span_id c) (trace_flags c))
      else ""
  end.

(** [InjectTraceContextToGrpcMetadata]: the pairs added to the call's metadata. *)
Definition InjectTraceContextToGrpcMetadata (span : option SpanContext) : list (string * string) :=
  match span with
  | None => []
  | Some c => if IsValid c then inject (trace_id c) (span_id c) (trace_flags c) else []
  end.

(** [ParseTraceParent]: [None] is undefined behaviour, [Some None] the invalid context. *)
Definition ParseTraceParent (tp : string) : option (option SpanContext) :=
  if (String.length tp <? 55)%nat || negb (bool_decide (String.get 2 tp = Some dash)) then Some None
  else
    let dash1 := find_from dash tp 3 in
    let dash2 := find_from dash tp (match dash1 with Some d => S d | None => 0 end) in
    match dash1, dash2 with
    | Some dash1, Some dash2 =>
        trace_id_hex ← view tp 3 32;
        span_id_hex ← view tp (dash1 + 1) 16;
        flags ← view tp (dash2 + 1) 2;
        let c := mkSpanContext (TraceIdFromHex trace_id_hex) (SpanIdFromHex span_id_hex)
                   (TraceFlagsFromHex flags) true in
        Some (if IsValid c then Some c else None)
    | _, _ => Some None
    end.

(** The documented text of a context (W3C Trace Context, version 00). *)
Definition w3c (t : TraceId) (s : SpanId) (f : TraceFlags) : string :=
  "00-" +:+ trace_hex t +:+ "-" +:+ span_hex s +:+ "-" +:+ flags_hex f.

(** The library's laws: texts of fixed length in hexadecimal digits, readers that
    undo them, and one [traceparent] among what [Inject] sets. *)
Definition hex_text (len : nat) (s : string) : Prop :=
  String.length s = len ∧ all_of (λ c, negb (bool_decide (c = dash))) s = true.

Class OpenTelemetryOk : Prop := {
  trace_hex_text t : hex_text 32 (trace_hex t);
  span_hex_text s : hex_text 16 (span_hex s);
  flags_hex_text f : hex_text 2 (flags_hex f);
  trace_from_hex t : TraceIdFromHex (trace_hex t) = t;
  span_from_hex s : SpanIdFromHex (span_hex s) = s;
  flags_from_hex f : TraceFlagsFromHex (flags_hex f) = f;
  inject_traceparent t s f : filter (λ kv, kv.1 = "traceparent") (inject t s f) = [("traceparent", w3c t s f)];
}.

(** * Lemmas *)

Lemma find_from_after p s t :
  all_of (λ c, negb (bool_decide (c = dash))) s = true →
  find_from dash (p +:+ s +:+ String dash t) (String.length p) = Some (String.length p + String.length s)%nat.
Proof using Type.
  intros Hs. unfold find_from. rewrite <- (Nat.add_0_r (String.length p)), drop_str_app. simpl.
  by rewrite find_char_app, Nat.add_0_r.
Qed.

(** A piece of a text. *)
Lemma view_middle p s t :
  view (p +:+ s +:+ t) (String.length p) (String.length s) = Some s.
Proof using Type.
  unfold view. rewrite !str_length_app, (proj2 (Nat.leb_le _ _)) by lia.
  rewrite !str_app_assoc. rewrite <- (Nat.add_0_r (String.length p)), drop_str_app. simpl.
  by rewrite take_str_app.
Qed.

Lemma carrier_fold l v kv :
  filter (λ kv, kv.1 = "traceparent") l = [kv] → foldl carrier_set v l = kv.2.
Proof using Type.
  revert v. induction l as [|[k x] l IH]; intros v; [done|].
  rewrite filter_cons. simpl. destruct (decide (k = "traceparent")) as [Hk|Hk].
  - intros [= <- Hl]. unfold carrier_set at 2. simpl. rewrite decide_True by done. simpl.
    clear IH. revert x Hl. induction l as [|[k' y] l IH]; intros x Hl; [done|].
    rewrite filter_cons in Hl. simpl in *. destruct (decide (k' = "traceparent")); [done|].
    unfold carrier_set at 2. simpl. rewrite decide_False by done. by apply IH.
  - intros Hl. apply IH. done.
Qed.

(** The text in the order in which it is parsed: the positions of its dashes, and its
    pieces. *)
Lemma parse_pieces p t s f :
  String.length p = 3%nat → String.get 2 p = Some dash →
  hex_text 32 t → hex_text 16 s → hex_text 2 f →
  ParseTraceParent (p +:+ t +:+ String dash (s +:+ String dash f))
  = let c := mkSpanContext (TraceIdFromHex t) (SpanIdFromHex s) (TraceFlagsFromHex f) true in
    Some (if IsValid c then Some c else None).
Proof using Type.
  intros Hp Hdash [Ht Htd] [Hs Hsd] [Hf _]. unfold ParseTraceParent.
  set (tp := p +:+ _).
  assert (Hlen : String.length tp = 55%nat).
  { unfold tp. rewrite !str_length_app. simpl. rewrite !str_length_app. simpl. lia. }
  assert (Hget : String.get 2 tp = Some dash).
  { unfold tp. destruct p as [|a [|b [|d [|]]]]; try done. }
  rewrite Hlen, Hget. change (55 <? 55)%nat with false. rewrite bool_decide_true by done.
  cbn [negb orb].
  assert (H1 : find_from dash tp 3 = Some 35%nat).
  { rewrite <- Hp. unfold tp. rewrite find_from_after by done. by rewrite Hp, Ht. }
  assert (H2 : find_from dash tp 36 = Some 52%nat).
  { replace tp with ((p +:+ t +:+ String dash "") +:+ s +:+ String dash f)
      by (unfold tp; rewrite !str_app_assoc; simpl; done).
    replace 36%nat with (String.length (p +:+ t +:+ String dash ""))
      by (rewrite !str_length_app; simpl; lia).
    rewrite find_from_after by done. rewrite !str_length_app. simpl. f_equal. lia. }
  rewrite H1. cbn [Nat.add]. rewrite H2.
  assert (V1 : view tp 3 32 = Some t).
  { transitivity (view tp (String.length p) (String.length t)); [by rewrite Hp, Ht|]. apply view_middle. }
  assert (V2 : view tp 36 16 = Some s).
  { replace tp with ((p +:+ t +:+ String dash "") +:+ s +:+ String dash f)
      by (unfold tp; rewrite !str_app_assoc; simpl; done).
    replace 36%nat with (String.length (p +:+ t +:+ String dash ""))
      by (rewrite !str_length_app; simpl; lia).
    rewrite <- Hs. by rewrite view_middle. }
  assert (V3 : view tp 53 2 = Some f).
  { replace tp with ((p +:+ t +:+ String dash (s +:+ String dash "")) +:+ f +:+ "")
      by (unfold tp; rewrite !str_app_assoc; simpl; rewrite !str_app_assoc; simpl; by rewrite str_app_nil_r).
    replace 53%nat with (String.length (p +:+ t +:+ String dash (s +:+ String dash "")))
      by (rewrite !str_length_app; simpl; rewrite !str_length_app; simpl; lia).
    rewrite <- Hf. by rewrite view_middle. }
  rewrite V1. cbn [Nat.add mbind option_bind]. rewrite V2. cbn [mbind option_bind]. by rewrite V3.
Qed.

(** A trace context survives its text: parsing what [EncodeCurrentTraceParent]
    writes for a valid span context gives that context, marked as remote, without a
    read outside the text. *)
Theorem traceparent_roundtrip `{!OpenTelemetryOk} c (Hvalid : IsValid c = true) :
  ParseTraceParent (EncodeCurrentTraceParent (Some c))
  = Some (Some (mkSpanContext (trace_id c) (span_id c) (trace_flags c) true)).
Proof using Type.
  unfold EncodeCurrentTraceParent. rewrite Hvalid.
  destruct c as [t s f rem]. cbn [trace_id span_id trace_flags].
  rewrite (carrier_fold _ _ _ (inject_traceparent t s f)). cbn [snd]. unfold w3c.
  change ("-" +:+ flags_hex f) with (String dash (flags_hex f)).
  change ("-" +:+ span_hex s +:+ String dash (flags_hex f))
    with (String dash (span_hex s +:+ String dash (flags_hex f))).
  rewrite (parse_pieces "00-") by (done || apply trace_hex_text || apply span_hex_text || apply flags_hex_text).
  rewrite trace_from_hex, span_from_hex, flags_from_hex. unfold IsValid in *. simpl in *.
  by rewrite Hvalid.
Qed.

(** A text of the right length whose first dash stands near its end is read past its
    end. *)
Lemma parse_overread :
  ParseTraceParent ("00-" +:+ "aaaaaaaaaaaaaaaaaaaaaaaaaaaaaaaaaaaaaaaaaaaaaaaaaa" +:+ "--") = None.
Proof using Type. reflexivity. Qed.
End trace.

(** * A concrete instance *)

Definition hex32 (b : bool) : string :=
  if b then "4bf92f3577b34da6a3ce929d0e0e4736" else "00000000000000000000000000000000".
Definition hex16 (b : bool) : string := if b then "00f067aa0ba902b7" else "0000000000000000".
Definition hex2 (b : bool) : string := if b then "01" else "00".

(** A library that knows two identifiers of each kind, the invalid and another. *)
#[export] Instance sample_otel : OpenTelemetry := {|
  TraceId := bool; SpanId := bool; TraceFlags := bool;
  TraceIdFromHex s := bool_decide (s = hex32 true);
  SpanIdFromHex s := bool_decide (s = hex16 true);
  TraceFlagsFromHex s := bool_decide (s = hex2 true);
  trace_valid b := b; span_valid b := b;
  trace_hex := hex32; span_hex := hex16; flags_hex := hex2;
  inject t s f := [("traceparent", "00-" +:+ hex32 t +:+ "-" +:+ hex16 s +:+ "-" +:+ hex2 f); ("tracestate", "")];
|}.

#[export] Instance sample_otel_ok : OpenTelemetryOk.
Proof. split; intros []; try split; try reflexivity; by intros [] []. Qed.

Definition sample_span : SpanContext := mkSpanContext (H:=sample_otel) true true true false.

Lemma traceparent_roundtrip_witness :
  EncodeCurrentTraceParent (Some sample_span) = "00-4bf92f3577b34da6a3ce929d0e0e4736-00f067aa0ba902b7-01"
  ∧ ParseTraceParent (EncodeCurrentTraceParent (Some sample_span))
    = Some (Some (mkSpanContext (H:=sample_otel) true true true true)).
Proof. split; [reflexivity|]. apply (traceparent_roundtrip sample_span). reflexivity. Defined.
