(* ===== verification/Interceptor.v ===== *)
(** The span and the metrics of a request: the server interceptor
    ([src/om/otel_grpc_interceptor.cpp]).

    OpenTelemetry is a parameter: the extraction of a context from a carrier, and the
    current context of each thread. *)
From S2P Require Import Prelude TraceContext.

(** The active span of a thread, [Scope]'s constructor and destructor as seen by the
    thread that runs them. *)
Class RuntimeContext := {
  Runtime : Type;
  GetCurrent : Z → Runtime → option nat;
  Attach : Z → nat → Runtime → Runtime;
  Detach : Z → nat → Runtime → Runtime;
}.

(** The contexts are thread-local, and a scope left on its own thread gives back what
    was there before. *)
Class RuntimeContextOk `{RuntimeContext} : Prop := {
  current_attach t s r : GetCurrent t (Attach t s r) = Some s;
  attach_elsewhere t t' s r : t ≠ t' → GetCurrent t (Attach t' s r) = GetCurrent t r;
  detach_attach t t' s r : GetCurrent t' (Detach t s (Attach t s r)) = GetCurrent t' r;
  detach_elsewhere t t' s r : t ≠ t' → GetCurrent t (Detach t' s r) = GetCurrent t r;
}.

Section interceptor.
Context `{OpenTelemetry, RuntimeContext}.
(** [HttpTraceContext::Extract] and [GetSpan]: the context that a carrier holds. *)
Context (Extract : (string → string) → SpanContext).

Record Span := mkSpan {
  sp_name : string; sp_service : string; sp_parent : option SpanContext;
  sp_status : option (bool * string); sp_code : option Z; sp_ended : bool;
}.

(** [spans] in the order of their starts; [requests] and [durations] are the calls of
    the counter (service, method, status code) and of the histogram. *)
Record Telemetry := mkTelemetry {
  g_tracer : bool;
  spans : list Span;
  requests : list (string * string * string);
  durations : list (string * string);
  runtime : Runtime;
}.

Record OtelServerInterceptor := mkInterceptor {
  method_ : string; service_name_ : string; span_ : option nat; scope_ : option nat;
}.

(** The factory's [CreateServerInterceptor]: one for each RPC. *)
Definition CreateServerInterceptor (service_name method : string) : OtelServerInterceptor :=
  mkInterceptor method service_name None None.

(** [CreateOtelServerInterceptorFactory]; [tracer] is whether [GetTracer] gives one. *)
Definition CreateOtelServerInterceptorFactory (tracer : bool) (t : Telemetry) : Telemetry :=
  mkTelemetry (g_tracer t || tracer) (spans t) (requests t) (durations t) (runtime t).

(** [GrpcMetadataCarrier::Get] *)
Definition carrier_get (metadata : list (string * string)) (key : string) : string :=
  match filter (λ kv, kv.1 = key) metadata with kv :: _ => kv.2 | [] => "" end.

(** A call of [Intercept]: the hook points it is asked for, with the metadata pointer
    and the status. *)
Record hook := mkHook {
  POST_RECV_INITIAL_METADATA : bool;
  recv_initial_metadata : option (list (string * string));
  PRE_SEND_STATUS : option (Z * string);
}.

(** First part: a span for the request. *)
Definition open_span (thread : Z) (h : hook) (i : OtelServerInterceptor) (t : Telemetry)
    : OtelServerInterceptor * Telemetry :=
  match recv_initial_metadata h with
  | Some metadata =>
      if g_tracer t && POST_RECV_INITIAL_METADATA h then
        let span_ctx := Extract (carrier_get metadata) in
        let span := mkSpan (method_ i) (service_name_ i) (if IsValid span_ctx then Some span_ctx else None)
                      None None false in
        let id := length (spans t) in
        (mkInterceptor (method_ i) (service_name_ i) (Some id) (Some id),
         mkTelemetry (g_tracer t) (spans t ++ [span]) (requests t) (durations t)
           (Attach thread id (runtime t)))
      else (i, t)
  | None => (i, t)
  end.

Definition finished (status : Z * string) (s : Span) : Span :=
  let ok := status.1 =? 0 in
  mkSpan (sp_name s) (sp_service s) (sp_parent s)
    (Some (if ok then (true, "") else (false, status.2))) (Some status.1) true.

Definition status_str (status : Z * string) : string :=
  if status.1 =? 0 then "OK" else to_string status.1.

(** Second part: the status is on its way. *)
Definition close_span (thread : Z) (h : hook) (i : OtelServerInterceptor) (t : Telemetry)
    : OtelServerInterceptor * Telemetry :=
  match span_ i, PRE_SEND_STATUS h with
  | Some id, Some status =>
      (mkInterceptor (method_ i) (service_name_ i) None None,
       mkTelemetry (g_tracer t) (alter (finished status) id (spans t))
         (requests t ++ [(service_name_ i, method_ i, status_str status)])
         (durations t ++ [(service_name_ i, method_ i)])
         (match scope_ i with Some id => Detach thread id (runtime t) | None => runtime t end))
  | _, _ => (i, t)
  end.

Definition Intercept (thread : Z) (h : hook) (it : OtelServerInterceptor * Telemetry)
    : OtelServerInterceptor * Telemetry :=
  let '(i, t) := open_span thread h it.1 it.2 in close_span thread h i t.

(** * One request *)

Definition on_metadata (metadata : list (string * string)) : hook := mkHook true (Some metadata) None.
Definition on_status (status : Z * string) : hook := mkHook false None (Some status).

(** A request, received on one thread and answered on another or the same. *)
Definition request (t1 t2 : Z) (metadata : list (string * string)) (status : Z * string)
    (service method : string) (t : Telemetry) : OtelServerInterceptor * Telemetry :=
  Intercept t2 (on_status status)
    (Intercept t1 (on_metadata metadata) (CreateServerInterceptor service method, t)).

(** A request is traced once: one span, named as the method, under the caller's
    context if the metadata hold a valid one, ended with the status; one count labelled
    with the code, one duration; the interceptor holds nothing any more.  Answered on the
    thread that received it, it leaves the contexts as they were. *)
Theorem request_traced `{!RuntimeContextOk} t1 t2 metadata status service method t
    (Htracer : g_tracer t = true) :
  let ctx := Extract (carrier_get metadata) in
  let '(i, t') := request t1 t2 metadata status service method t in
  span_ i = None ∧ scope_ i = None
  ∧ spans t' = spans t ++ [mkSpan method service (if IsValid ctx then Some ctx else None)
      (Some (if status.1 =? 0 then (true, "") else (false, status.2))) (Some status.1) true]
  ∧ requests t' = requests t ++ [(service, method, status_str status)]
  ∧ durations t' = durations t ++ [(service, method)]
  ∧ (t1 = t2 → ∀ thread, GetCurrent thread (runtime t') = GetCurrent thread (runtime t)).
Proof.
  cbv zeta. unfold request, Intercept, on_metadata, open_span. cbn. rewrite Htracer. cbn.
  split_and!; try done.
  - rewrite alter_app_r_alt by done. by rewrite Nat.sub_diag.
  - intros -> thread. apply detach_attach.
Qed.

(** Answered on another thread, as the services do (they finish on a pool's thread), it
    leaves its ended span active on the thread that received it: what that thread sends
    next carries the context of a request that is over. *)
Theorem scope_stays `{!RuntimeContextOk} t1 t2 metadata status service method t
    (Htracer : g_tracer t = true) (Hother : t1 ≠ t2) :
  let '(_, t') := request t1 t2 metadata status service method t in
  ∃ id s, GetCurrent t1 (runtime t') = Some id ∧ spans t' !! id = Some s ∧ sp_ended s = true.
Proof.
  pose proof (request_traced t1 t2 metadata status service method t Htracer) as Hr.
  destruct (request _ _ _ _ _ _ _) as [i t'] eqn:E. destruct Hr as (_ & _ & Hs & _).
  eexists (length (spans t)), _. split; [|split; [rewrite Hs; by apply list_lookup_middle|done]].
  revert E. unfold request, Intercept, on_metadata, open_span. cbn. rewrite Htracer. cbn.
  intros [= _ <-]. cbn. by rewrite detach_elsewhere, current_attach.
Qed.

(** Without a tracer nothing is recorded. *)
Theorem untraced t1 t2 metadata status service method t :
  g_tracer t = false →
  request t1 t2 metadata status service method t = (CreateServerInterceptor service method, t).
Proof. intros Ht. unfold request, Intercept, on_metadata, open_span. cbn. by rewrite Ht. Qed.
End interceptor.

(** * Concrete inputs *)

(** Contexts as a stack for each thread. *)
#[local] Instance stacks : RuntimeContext := {|
  Runtime := gmap Z (list nat);
  GetCurrent t r := r !! t ≫= head;
  Attach t s r := <[t := s :: default [] (r !! t)]> r;
  Detach t s r := match r !! t with
                  | Some (s' :: rest) => if decide (s = s') then <[t := rest]> r else r
                  | _ => r
                  end;
|}.

#[local] Instance stacks_ok : RuntimeContextOk.
Proof.
  split; unfold Attach, Detach, GetCurrent; cbn.
  - intros t s r. by rewrite lookup_insert_eq.
  - intros t t' s r Hne. by rewrite lookup_insert_ne.
  - intros t t' s r. rewrite lookup_insert_eq, decide_True by done. rewrite insert_insert_eq.
    destruct (decide (t = t')) as [->|Hne]; [|by rewrite lookup_insert_ne].
    rewrite lookup_insert_eq. by destruct (r !! t') as [[]|].
  - intros t t' s r Hne. destruct (r !! t') as [[|s' rest]|]; [done| |done].
    destruct (decide (s = s')); [|done]. by rewrite lookup_insert_ne.
Qed.

(** An extraction that knows one text. *)
Definition sample_extract (get : string → string) : SpanContext :=
  if decide (get "traceparent" = EncodeCurrentTraceParent (Some sample_span)) then sample_span
  else mkSpanContext (H:=sample_otel) false false false false.

Definition no_telemetry : Telemetry := mkTelemetry true [] [] [] (∅ : gmap Z (list nat)).
Definition sample_metadata : list (string * string) :=
  [("user-agent", "grpc"); ("traceparent", EncodeCurrentTraceParent (Some sample_span))].

Example request_traced_witness :
  let '(i, t') := request sample_extract 1 1 sample_metadata (14, "gone") "MsgService" "SendMessages" no_telemetry in
  span_ i = None ∧ requests t' = [("MsgService", "SendMessages", "14")].
Proof.
  destruct (request_traced sample_extract 1 1 sample_metadata (14, "gone") "MsgService" "SendMessages"
    no_telemetry eq_refl) as (H1 & _ & _ & H2 & _).
  split; [exact H1|exact H2].
Defined.

Example scope_stays_witness :
  let '(_, t') := request sample_extract 1 2 sample_metadata (0, "") "MsgService" "SendMessages" no_telemetry in
  ∃ id s, GetCurrent 1 (runtime t') = Some id ∧ spans t' !! id = Some s ∧ sp_ended s = true.
Proof. apply (scope_stays sample_extract); [reflexivity|discriminate]. Defined.
