(* ===== verification/KafkaProducer.v ===== *)
(** Handing messages to Kafka: [src/messagequeue/kafkaproducer.cpp].

    A confirmed delivery is shared by the coroutine that waits for it and by the
    delivery report, which librdkafka runs in whatever thread polls the producer,
    possibly after the coroutine has given up.  librdkafka is a parameter: [produce]
    may refuse a message, and every message it takes gets one report. *)
From S2P Require Import Prelude.

(** * The producer *)

(** The outcomes of the constructor's calls, in their order. *)
Record Setup := mkSetup {
  global_conf : bool; topic_conf : bool;            (* Conf::create is not null *)
  set_brokers : bool; set_idempotence : bool; set_timeout : bool;
  set_dr_cb : bool; set_event_cb : bool; set_partitioner : bool;
  create_producer : bool; create_topic : bool;
}.

(** [producerInstance] and [topic] are not null, or the constructor has thrown. *)
Inductive constructed := Threw | Made (producerInstance topic : bool).

Definition KafkaProducer (o : Setup) : constructed :=
  if negb (global_conf o) then Made false false
  else if negb (topic_conf o) then Made false false
  else if negb (set_brokers o) then Made false false
  else if negb (set_idempotence o) || negb (set_timeout o) then Threw
  else if negb (set_dr_cb o) then Made false false
  else if negb (set_event_cb o) then Made false false
  else if negb (set_partitioner o) then Made false false
  else if negb (create_producer o) then Made false false
  else if negb (create_topic o) then Made true false
  else Made true true.

Definition usable (p : constructed) : bool :=
  match p with Made producer topic => producer && topic | Threw => false end.

(** ** What the producer owns *)

Inductive object := DrCb | EventCb | PartitionerCb | GlobalConfig | TopicConfig | ProducerInstance | TopicObject.

#[global] Instance object_eq_dec : EqDecision object.
Proof. solve_decision. Defined.

(** The objects the constructor makes, in order; an early return or an exception makes
    no more. *)
Definition acquired (o : Setup) : list object :=
  [DrCb; EventCb; PartitionerCb] ++
  if negb (global_conf o) then []
  else GlobalConfig ::
    if negb (topic_conf o) then []
    else TopicConfig ::
      match KafkaProducer o with
      | Threw => []
      | Made producerInstance topic =>
          (if producerInstance then [ProducerInstance] else []) ++ (if topic then [TopicObject] else [])
      end.

(** The destructor: each pointer that is not null, in this order. *)
Definition destroyed (o : Setup) : list object :=
  filter (λ x, x ∈ acquired o)
    [ProducerInstance; TopicObject; TopicConfig; GlobalConfig; DrCb; EventCb; PartitionerCb].

(** It runs only for an object whose constructor returned. *)
Definition destructor_run (o : Setup) : list object :=
  match KafkaProducer o with Threw => [] | Made _ _ => destroyed o end.

(** [deliver]: [accepted] is [produce] without an error; [true] only says that the
    message is queued. *)
Definition deliver (p : constructed) (accepted : bool) : bool := usable p && accepted.

(** [partitioner_cb]: [size_t] arithmetic, the count being positive. *)
Definition partitioner_cb (hash : string → Z) (key : string) (partition_cnt : Z) : Z :=
  to_int32 (hash key mod partition_cnt).

(** * A confirmed delivery *)

Inductive pointer := Unallocated | Live | Freed.

#[global] Instance pointer_eq_dec : EqDecision pointer.
Proof. solve_decision. Defined.

Inductive delivery_pc :=
| Begin | Produce                 (* before [produce], with the report's reference made *)
| Await                           (* the loop's condition comes next *)
| Returned (confirmed : bool).

(** [status] is 0, 1 or 2; [opaque] is the heap cell with the report's reference to
    it; [report] is what librdkafka has to tell. *)
Record Delivery := mkDelivery {
  pc : delivery_pc;
  status : Z;
  opaque : pointer;
  queued : bool;
  report : option bool;
  served : nat;                   (* runs of the report for this message *)
}.

Definition new_delivery : Delivery := mkDelivery Begin 0 Unallocated false None 0.

(** The shared state is alive while the coroutine or the report refers to it. *)
Definition state_alive (d : Delivery) : bool :=
  match pc d with
  | Returned _ => bool_decide (opaque d = Live)
  | _ => true
  end.

(** [dr_cb]: [None] is an access to a cell or a state that has been freed. *)
Definition dr_cb (ok : bool) (d : Delivery) : option Delivery :=
  match opaque d with
  | Live =>
      if state_alive d
      then Some (mkDelivery (pc d) (if ok then 1 else 2) Freed (queued d) None (S (served d)))
      else None
  | _ => None
  end.

Inductive delivery_step (p : constructed) : Delivery → option Delivery → Prop :=
| delivery_unusable d :
    pc d = Begin → usable p = false →
    delivery_step p d (Some (mkDelivery (Returned false) (status d) (opaque d) (queued d) (report d) (served d)))
| delivery_allocate d :
    pc d = Begin → usable p = true →
    delivery_step p d (Some (mkDelivery Produce (status d) Live (queued d) (report d) (served d)))
| delivery_refused d :
    pc d = Produce →
    delivery_step p d (Some (mkDelivery (Returned false) (status d) Freed (queued d) (report d) (served d)))
| delivery_queued d :
    pc d = Produce →
    delivery_step p d (Some (mkDelivery Await (status d) (opaque d) true (report d) (served d)))
(* librdkafka has the broker's answer, or has given the message up; once *)
| delivery_report d ok :
    queued d = true → report d = None → served d = 0%nat →
    delivery_step p d (Some (mkDelivery (pc d) (status d) (opaque d) (queued d) (Some ok) (served d)))
(* some thread polls the producer (this coroutine, another delivery, [flush]) *)
| delivery_poll d ok :
    report d = Some ok → delivery_step p d (dr_cb ok d)
(* the loop's condition: a status, or the deadline *)
| delivery_leave d :
    pc d = Await →
    delivery_step p d (Some (mkDelivery (Returned (status d =? 1)) (status d) (opaque d) (queued d) (report d) (served d))).

Definition delivery_step' (p : constructed) (x y : option Delivery) : Prop :=
  ∃ d, x = Some d ∧ delivery_step p d y.

(** The waiting loop of [deliverConfirmed]: what the loads of [status] and the clock
    read at each turn ([loaded] at the condition, [polled] after the turn's own poll,
    [final] when the loop is left in that turn); the result, and the number of 50 ms
    waits. *)
Fixpoint confirm_loop (fuel : nat) (loaded polled final clock : nat → Z) (deadline : Z) (k : nat)
    : option (bool * nat) :=
  match fuel with
  | O => None
  | S fuel =>
      if (loaded k =? 0) && (clock k <? deadline) then
        if negb (polled k =? 0) then Some (final k =? 1, k)
        else confirm_loop fuel loaded polled final clock deadline (S k)
      else Some (final k =? 1, k)
  end.

(** * Lemmas *)

Lemma usable_all o :
  usable (KafkaProducer o)
  = forallb id [global_conf o; topic_conf o; set_brokers o; set_idempotence o; set_timeout o;
      set_dr_cb o; set_event_cb o; set_partitioner o; create_producer o; create_topic o].
Proof.
  destruct o as [a b c d e f g h i j]. unfold KafkaProducer. simpl.
  destruct a; [|done]. destruct b; [|done]. destruct c; [|done]. destruct d; [|done].
  destruct e; [|done]. destruct f; [|done]. destruct g; [|done]. destruct h; [|done].
  by destruct i, j.
Qed.

(** Whichever call of the constructor fails without throwing, the destructor frees what
    was made, everything once, the callbacks after the producer that calls them. *)
Lemma destructor_frees_all o :
  KafkaProducer o ≠ Threw → destructor_run o ≡ₚ acquired o ∧ NoDup (acquired o).
Proof.
  intros Hn. unfold destructor_run, destroyed, acquired.
  destruct (KafkaProducer o) as [|producer topic]; [done|].
  destruct (global_conf o), (topic_conf o), producer, topic;
    (split; [apply NoDup_Permutation|]); try (intros []);
    apply (bool_decide_unpack _); vm_compute; done.
Qed.

(** A constructor that throws leaves the five objects it has made: nobody frees them. *)
Lemma throwing_constructor_leaks o :
  KafkaProducer o = Threw →
  acquired o = [DrCb; EventCb; PartitionerCb; GlobalConfig; TopicConfig] ∧ destructor_run o = [].
Proof.
  intros Ht. unfold destructor_run. rewrite Ht. split; [|done]. unfold acquired. rewrite Ht.
  unfold KafkaProducer in Ht. destruct (global_conf o), (topic_conf o); done.
Qed.

(** The topic is deleted after the producer it belongs to. *)
Lemma topic_outlives_producer o :
  KafkaProducer o = Made true true → ∃ l, destructor_run o = ProducerInstance :: TopicObject :: l.
Proof.
  intros Hm. unfold destructor_run, destroyed, acquired. rewrite Hm.
  unfold KafkaProducer in Hm. destruct (global_conf o), (topic_conf o); try done. by eexists.
Qed.

(** Who refers to what, and what has been said. *)
Definition waiting (d : Delivery) : Prop :=
  queued d = false ∧ report d = None ∧ served d = 0%nat ∧ status d = 0.

Definition reported (d : Delivery) : Prop :=
  (opaque d = Live ∧ served d = 0%nat ∧ status d = 0)
  ∨ (opaque d = Freed ∧ served d = 1%nat ∧ report d = None ∧ (status d = 1 ∨ status d = 2)).

(** Returned without a queued message: the cell is what the producer's state left. *)
Definition turned_away (p : constructed) (d : Delivery) : Prop :=
  opaque d = (if usable p then Freed else Unallocated) ∧ waiting d.

Definition delivery_inv (p : constructed) (d : Delivery) : Prop :=
  match pc d with
  | Begin => opaque d = Unallocated ∧ waiting d
  | Produce => usable p = true ∧ opaque d = Live ∧ waiting d
  | Await => queued d = true ∧ reported d
  | Returned b => (queued d = true ∧ reported d ∨ turned_away p d) ∧ (b = true → status d = 1)
  end.

Lemma inv_queued p d : delivery_inv p d → queued d = true → reported d.
Proof.
  unfold delivery_inv, turned_away, waiting. destruct (pc d).
  - by intros (_ & -> & _).
  - by intros (_ & _ & -> & _).
  - by intros [_ ?].
  - intros [[[_ ?]|(_ & -> & _)] _]; done.
Qed.

(** What has not been queued has no report. *)
Lemma inv_not_queued p d : delivery_inv p d → queued d = false → waiting d.
Proof.
  unfold delivery_inv, turned_away. destruct (pc d).
  - by intros [_ ?].
  - by intros (_ & _ & ?).
  - by intros [-> _].
  - by intros [[[-> _]|[_ ?]] _].
Qed.

Lemma inv_report p d ok : delivery_inv p d → report d = Some ok →
  opaque d = Live ∧ served d = 0%nat ∧ status d = 0 ∧ queued d = true.
Proof.
  intros Hi Hr. destruct (queued d) eqn:Hq.
  - destruct (inv_queued p d Hi Hq) as [(? & ? & ?)|(_ & _ & Hn & _)]; [done|]. by rewrite Hr in Hn.
  - destruct (inv_not_queued p d Hi Hq) as (_ & Hn & _). by rewrite Hr in Hn.
Qed.

(** The report changes what it changes only of a delivery that waits or has returned. *)
Lemma inv_reported p d st c r n :
  delivery_inv p d → queued d = true → reported (mkDelivery (pc d) st c true r n) →
  (status d = 1 → st = 1) → delivery_inv p (mkDelivery (pc d) st c true r n).
Proof.
  unfold delivery_inv, turned_away, waiting. cbn. intros Hi Hq Hr Hst. destruct (pc d).
  - by destruct Hi as (_ & Hn & _); rewrite Hq in Hn.
  - by destruct Hi as (_ & _ & Hn & _); rewrite Hq in Hn.
  - done.
  - destruct Hi as [_ Hb]. split; [by left|auto].
Qed.

Lemma delivery_inv_step p d y :
  delivery_inv p d → delivery_step p d y → ∃ d', y = Some d' ∧ delivery_inv p d'.
Proof.
  intros Hi Hs. destruct Hs as [d Hpc Hu|d Hpc Hu|d Hpc|d Hpc|d ok Hq Hr Hse|d ok Hr|d Hpc].
  - eexists. split; [done|]. unfold delivery_inv, turned_away in *. rewrite Hpc in Hi. cbn.
    rewrite Hu. split; [by right|done].
  - eexists. split; [done|]. unfold delivery_inv in *. rewrite Hpc in Hi. by destruct Hi.
  - eexists. split; [done|]. unfold delivery_inv, turned_away in *. rewrite Hpc in Hi. cbn.
    destruct Hi as (-> & _ & Hw). split; [by right|done].
  - eexists. split; [done|]. unfold delivery_inv in *. rewrite Hpc in Hi.
    destruct Hi as (_ & Ho & _ & _ & ? & ?). split; [done|by left].
  - eexists. split; [done|]. rewrite Hq. apply (inv_reported p d); [done|done| |done].
    left. destruct (inv_queued p d Hi Hq) as [?|(_ & ? & _)]; [done|lia].
  - destruct (inv_report p d ok Hi Hr) as (Hl & Hse & Hst & Hq). unfold dr_cb. rewrite Hl.
    replace (state_alive d) with true
      by (unfold state_alive; destruct (pc d); [done..|]; by rewrite bool_decide_true).
    eexists. split; [done|]. rewrite Hq. apply (inv_reported p d); [done|done| |lia].
    right. cbn. rewrite Hse. split_and!; [done..|]. destruct ok; auto.
  - eexists. split; [done|]. unfold delivery_inv in *. rewrite Hpc in Hi. cbn. split; [by left|].
    intros H%Z.eqb_eq. done.
Qed.

Lemma delivery_reachable p y :
  rtc (delivery_step' p) (Some new_delivery) y → ∃ d, y = Some d ∧ delivery_inv p d.
Proof.
  intros H. assert (H0 : ∃ d, Some new_delivery = Some d ∧ delivery_inv p d) by (by eexists).
  revert H0. induction H as [|x y z (d & -> & Hs) _ IH]; [done|]. intros (d' & [= <-] & Hi).
  apply IH. by eapply delivery_inv_step.
Qed.

(** C31: a confirmed delivery is memory-safe and honest, however the report, other
    threads' polls and the coroutine's deadline interleave: the report never touches
    what has been freed and runs at most once, and only for a queued message; its cell
    is freed exactly when the report has run, or the message was refused and the
    coroutine has returned, and is kept alive only before [produce] has answered and
    while a queued message's report is due; and the coroutine answers [true] only when
    a report of success has run. *)
Theorem delivery_safe p y (Hrun : rtc (delivery_step' p) (Some new_delivery) y) :
  ∃ d, y = Some d
    ∧ (served d <= 1)%nat
    ∧ (served d = 1%nat ↔ queued d = true ∧ opaque d = Freed)
    ∧ (opaque d = Freed ↔
        served d = 1%nat ∨ (usable p = true ∧ queued d = false ∧ pc d = Returned false))
    ∧ (opaque d = Live ↔
        pc d = Produce ∨ (queued d = true ∧ served d = 0%nat))
    ∧ (pc d = Returned true → status d = 1 ∧ served d = 1%nat).
Proof.
  apply delivery_reachable in Hrun as (d & -> & Hi). exists d. split; [done|].
  unfold delivery_inv, turned_away, waiting, reported in Hi. destruct (pc d) as [| | |b].
  - destruct Hi as (Ho & Hq & _ & Hs & _). rewrite Ho, Hq, Hs. intuition (congruence || lia).
  - destruct Hi as (_ & Ho & Hq & _ & Hs & _). rewrite Ho, Hq, Hs. intuition (congruence || lia).
  - destruct Hi as [Hq [(Ho & Hs & _)|(Ho & Hs & _)]]; rewrite Ho, Hq, Hs; intuition (congruence || lia).
  - destruct Hi as [[[Hq [(Ho & Hs & Hst)|(Ho & Hs & _ & Hst)]]|(Ho & Hq & _ & Hs & Hst)] Hb].
    + rewrite Ho, Hq, Hs. split_and!; try (intuition (congruence || lia)).
      intros [= ->]. specialize (Hb eq_refl). lia.
    + rewrite Ho, Hq, Hs. split_and!; try (intuition (congruence || lia)).
      intros [= ->]. by specialize (Hb eq_refl).
    + assert (Hbf : b = false) by (destruct b; [specialize (Hb eq_refl); lia|done]).
      rewrite Ho, Hq, Hs, Hbf. destruct (usable p); intuition (congruence || lia).
Qed.

(** A message whose report comes after the coroutine has left. *)
Lemma delivery_safe_witness :
  ∃ d, Some (mkDelivery (Returned false) 1 Freed true None 1) = Some d
    ∧ (served d <= 1)%nat ∧ (served d = 1%nat ↔ queued d = true ∧ opaque d = Freed)
    ∧ (opaque d = Freed ↔
        served d = 1%nat ∨ (usable (Made true true) = true ∧ queued d = false ∧ pc d = Returned false))
    ∧ (opaque d = Live ↔ pc d = Produce ∨ (queued d = true ∧ served d = 0%nat))
    ∧ (pc d = Returned true → status d = 1 ∧ served d = 1%nat).
Proof.
  apply (delivery_safe (Made true true)).
  apply (rtc_l _ _ (Some (mkDelivery Produce 0 Live false None 0)));
    [eexists; split; [reflexivity|]; by apply delivery_allocate|].
  apply (rtc_l _ _ (Some (mkDelivery Await 0 Live true None 0)));
    [eexists; split; [reflexivity|]; by apply (delivery_queued _ (mkDelivery Produce 0 Live false None 0))|].
  apply (rtc_l _ _ (Some (mkDelivery (Returned false) 0 Live true None 0)));
    [eexists; split; [reflexivity|]; by apply (delivery_leave _ (mkDelivery Await 0 Live true None 0))|].
  apply (rtc_l _ _ (Some (mkDelivery (Returned false) 0 Live true (Some true) 0)));
    [eexists; split; [reflexivity|];
     by apply (delivery_report _ (mkDelivery (Returned false) 0 Live true None 0) true)|].
  apply (rtc_l _ _ (Some (mkDelivery (Returned false) 1 Freed true None 1)));
    [eexists; split; [reflexivity|];
     by apply (delivery_poll _ (mkDelivery (Returned false) 0 Live true (Some true) 0) true)|].
  apply rtc_refl.
Defined.

(** ** The wait *)

Lemma confirm_loop_spec loaded polled final clock deadline left k fuel :
  (∀ i, clock (S i) >= clock i + 50) →
  deadline <= clock k + 50 * Z.of_nat left → (left < fuel)%nat →
  ∃ n, confirm_loop fuel loaded polled final clock deadline k = Some (final n =? 1, n)
    ∧ (k <= n <= k + left)%nat
    ∧ (∀ i, (k <= i < n)%nat → loaded i = 0 ∧ polled i = 0)
    ∧ (loaded n ≠ 0 ∨ polled n ≠ 0 ∨ deadline <= clock n).
Proof.
  intros Hclock. revert k fuel. induction left as [|left IH]; intros k [|fuel] Hd Hf; [lia| |lia|]; simpl.
  - replace (clock k <? deadline) with false by lia. rewrite andb_false_r.
    exists k. split_and!; [done|lia..|right; right; lia].
  - destruct (Z.eqb_spec (loaded k) 0) as [Hl|Hl]; simpl.
    2:{ exists k. split_and!; [done|lia..|by left]. }
    destruct (Z.ltb_spec (clock k) deadline) as [Ht|Ht].
    2:{ exists k. split_and!; [done|lia..|auto]. }
    destruct (Z.eqb_spec (polled k) 0) as [Hp|Hp]; simpl.
    2:{ exists k. split_and!; [done|lia..|auto]. }
    destruct (IH (S k) fuel) as (n & H & Hn & Hi & Hex); [specialize (Hclock k); lia|lia|].
    exists n. split_and!; [done|lia|lia| |done].
    intros i Hle. destruct (decide (i = k)) as [->|]; [done|]. apply Hi. lia.
Qed.

(** The wait of a confirmed delivery ends: with a clock that advances by at least
    the timer's 50 ms between two turns, the loop leaves after at most 240 waits (12
    seconds), not before a status or the deadline was seen, and the answer is [true]
    exactly when the status it reads at the end is 1. *)
Theorem confirm_loop_ends loaded polled final clock fuel
    (Hclock : ∀ i, clock (S i) >= clock i + 50) (Hfuel : (240 < fuel)%nat) :
  ∃ n, confirm_loop fuel loaded polled final clock (clock 0%nat + 12000) 0 = Some (final n =? 1, n)
    ∧ (n <= 240)%nat
    ∧ (∀ i, (i < n)%nat → loaded i = 0 ∧ polled i = 0)
    ∧ (loaded n ≠ 0 ∨ polled n ≠ 0 ∨ clock 0%nat + 12000 <= clock n).
Proof.
  destruct (confirm_loop_spec loaded polled final clock (clock 0%nat + 12000) 240 0 fuel)
    as (n & H & Hn & Hi & Hex); [done|lia|done|].
  exists n. split_and!; [done|lia| |done]. intros i Hlt. apply Hi. lia.
Qed.

Definition third_turn (k : nat) : Z := if (3 <=? k)%nat then 1 else 0.

Lemma confirm_loop_ends_witness :
  ∃ n, confirm_loop 241 third_turn (λ _, 0) third_turn (λ k, 50 * Z.of_nat k) 12000 0 = Some (third_turn n =? 1, n)
    ∧ (n <= 240)%nat ∧ n = 3%nat.
Proof.
  destruct (confirm_loop_ends third_turn (λ _, 0) third_turn (λ k, 50 * Z.of_nat k) 241)
    as (n & H & Hn & _); [intros i; lia|lia|].
  exists n. split; [exact H|]. split; [exact Hn|]. revert H. vm_compute. intros H. injection H as _ <-. reflexivity.
Defined.

(** Messages of one key go to one partition, and it exists. *)
Lemma partitioner_range hash key partition_cnt :
  0 < partition_cnt < 2 ^ 31 → 0 <= partitioner_cb hash key partition_cnt < partition_cnt.
Proof.
  intros Hc. unfold partitioner_cb. pose proof (Z.mod_pos_bound (hash key) partition_cnt ltac:(lia)).
  rewrite to_int32_id; [lia|]. unfold is_int32. lia.
Qed.
