(* ===== verification/Workers.v ===== *)
(** Background workers with an owner that starts and stops them: the outbox worker's
    two coroutines ([src/services/msg_service/outbox_worker.cpp], [Start], [Stop],
    [Run]) and the group service's one ([StartDelivery], [StopDelivery], [Deliver] of
    [src/services/group_service/server.cpp]).

    A coroutine looks at the stop flag, makes a pass over the shared state (the world of
    [OutboxWorker.worker_pass], or of a delivery turn) in some number of pieces between
    suspension points, may sleep, and looks again.  [work] is what a piece may do to the
    shared state; the theorems hold for any. *)
From S2P Require Import Prelude.

Inductive worker_pc :=
| Check                     (* the loop's condition comes next *)
| Pass (pieces : nat)       (* pieces of the pass still to run *)
| Asleep
| Exited.                   (* the future is ready *)

#[global] Instance worker_pc_eq_dec : EqDecision worker_pc.
Proof. solve_decision. Defined.

(** The owner is outside the object, or in [Stop] before the [i]-th [get]. *)
Inductive owner_pc := Outside | Getting (i : nat).

Section workers.
Context {S : Type} (work : S → S → Prop).
(** The number of coroutines that [Start] spawns. *)
Context (count : nat).

(** [m_workers] holds the futures of some of the coroutines there have been. *)
Record Group := mkGroup {
  m_stopping : bool;
  m_workers : list nat;
  coroutines : list worker_pc;
  owner : owner_pc;
  shared : S;
}.

Definition new_group (s : S) : Group := mkGroup false [] [] Outside s.

(** [Start]: nothing if there are workers. *)
Definition Start (g : Group) : Group :=
  match m_workers g with
  | [] => mkGroup false (seq (length (coroutines g)) count) (coroutines g ++ replicate count Check)
            (owner g) (shared g)
  | _ => g
  end.

(** [Stop], up to its first [get]. *)
Definition Stop (g : Group) : Group := mkGroup true (m_workers g) (coroutines g) (Getting 0) (shared g).

(** A coroutine's step. *)
Definition at_ (i : nat) (pc : worker_pc) (g : Group) : Group :=
  mkGroup (m_stopping g) (m_workers g) (<[i := pc]> (coroutines g)) (owner g) (shared g).

(** What the threads do: the coroutines, and [Stop] once it is called. *)
Inductive runs : Group → Group → Prop :=
| runs_begin g i pieces :
    coroutines g !! i = Some Check → m_stopping g = false → runs g (at_ i (Pass pieces) g)
| runs_exit g i :
    coroutines g !! i = Some Check → m_stopping g = true → runs g (at_ i Exited g)
| runs_work g i pieces s :
    coroutines g !! i = Some (Pass (Datatypes.S pieces)) → work (shared g) s →
    runs g (mkGroup (m_stopping g) (m_workers g) (<[i := Pass pieces]> (coroutines g)) (owner g) s)
| runs_end g i (sleep : bool) :
    coroutines g !! i = Some (Pass 0) → runs g (at_ i (if sleep then Asleep else Check) g)
| runs_wake g i : coroutines g !! i = Some Asleep → runs g (at_ i Check g)
(* the timer's exception leaves the coroutine; [get] rethrows it, and [Stop] logs it *)
| runs_throw g i : coroutines g !! i = Some Asleep → runs g (at_ i Exited g)
| runs_get g k i :
    owner g = Getting k → m_workers g !! k = Some i → coroutines g !! i = Some Exited →
    runs g (mkGroup (m_stopping g) (m_workers g) (coroutines g) (Getting (Datatypes.S k)) (shared g))
| runs_clear g k :
    owner g = Getting k → m_workers g !! k = None →
    runs g (mkGroup (m_stopping g) [] (coroutines g) Outside (shared g)).

(** With the calls of the owner, and what others do to the shared state. *)
Inductive group_step : Group → Group → Prop :=
| group_runs g g' : runs g g' → group_step g g'
| group_start g : owner g = Outside → group_step g (Start g)
| group_stop g : owner g = Outside → group_step g (Stop g)
| group_other g s :
    group_step g (mkGroup (m_stopping g) (m_workers g) (coroutines g) (owner g) s).

(** * The invariant *)

(** Every coroutine that has not exited is in [m_workers], at or after the place where
    [Stop] is, which then has set the flag. *)
Record group_inv (g : Group) : Prop := {
  inv_live i pc : coroutines g !! i = Some pc → pc ≠ Exited → i ∈ m_workers g;
  inv_range i : i ∈ m_workers g → (i < length (coroutines g))%nat;
  inv_got k j i : owner g = Getting k → (j < k)%nat → m_workers g !! j = Some i →
    coroutines g !! i = Some Exited;
  inv_flag k : owner g = Getting k → m_stopping g = true;
}.

Lemma group_inv_new s : group_inv (new_group s).
Proof using Type.
  split; simpl; [|by intros ? ?%not_elem_of_nil|done|done]. intros i pc. by rewrite lookup_nil.
Qed.

(** A coroutine that moves keeps the invariant, if it had not exited. *)
Lemma group_inv_move g i old pc s :
  group_inv g → coroutines g !! i = Some old → old ≠ Exited →
  group_inv (mkGroup (m_stopping g) (m_workers g) (<[i := pc]> (coroutines g)) (owner g) s).
Proof using Type.
  intros [Hl Hr Hg Hf] Hi Hne. split; simpl.
  - intros j pc' Hj Hpc. apply list_lookup_insert_Some in Hj as [(-> & _ & _)|[_ Hj]]; by eapply Hl.
  - intros j Hj. rewrite length_insert. by apply Hr.
  - intros k j i' Ho Hlt Hj. specialize (Hg k j i' Ho Hlt Hj).
    rewrite list_lookup_insert_ne; [done|]. intros ->. congruence.
  - done.
Qed.

Lemma group_inv_step g g' : group_inv g → group_step g g' → group_inv g'.
Proof using Type.
  intros Hi Hs. destruct Hs as [g g' Hr|g Ho|g Ho|g s].
  - destruct Hr as [g i n H _|g i H _|g i n s H _|g i b H|g i H|g i H|g k i Ho Hk Hc|g k Ho Hk];
      try (by eapply group_inv_move; [done|exact H|]); destruct Hi as [Hl Hr Hg Hf].
    + split; simpl; [done|done| |by intros ? [= <-]; eapply Hf].
      intros k' j i' [= <-] Hlt Hj. destruct (decide (j = k)) as [->|]; [congruence|].
      eapply Hg; [done| |done]. lia.
    + split; simpl; [|by intros ? ?%not_elem_of_nil|done|done].
      intros i pc Hpc Hne. exfalso. destruct (list_elem_of_lookup_1 _ _ (Hl i pc Hpc Hne)) as [j Hj].
      rewrite (Hg k j i Ho) in Hpc; [congruence| |done].
      apply lookup_lt_Some in Hj. apply lookup_ge_None in Hk. lia.
  - unfold Start. destruct (m_workers g) as [|w ws] eqn:Hw; [|done]. destruct Hi as [Hl Hr Hg Hf].
    split; simpl.
    + intros i pc Hpc Hne. apply lookup_app_Some in Hpc as [Hpc|[Hge Hpc]].
      * apply Hl in Hpc; [|done]. rewrite Hw in Hpc. by apply not_elem_of_nil in Hpc.
      * apply lookup_replicate in Hpc as [_ Hlt]. apply elem_of_seq. lia.
    + intros i Hin%elem_of_seq. rewrite length_app, length_replicate. lia.
    + intros k j i Hk. congruence.
    + intros k Hk. congruence.
  - destruct Hi as [Hl Hr Hg Hf]. split; simpl; [done|done| |done]. intros k j i [= <-] Hlt. lia.
  - by destruct Hi.
Qed.

Definition reached (s : S) (g : Group) : Prop := rtc group_step (new_group s) g.

Lemma group_inv_reached s g : reached s g → group_inv g.
Proof using Type.
  unfold reached. cut (group_inv (new_group s)); [|apply group_inv_new].
  intros H0 H. induction H; eauto using group_inv_step.
Qed.

(** [Stop] leaves nothing behind: whenever the owner is outside the object and no
    worker is listed (before the first [Start], after every [Stop]), each coroutine
    there has ever been has left its loop; so until the next [Start] only others
    change the shared state. *)
Theorem stopped_workers_exited s g (Hg : reached s g) (Howner : owner g = Outside)
    (Hnone : m_workers g = []) :
  Forall (λ pc, pc = Exited) (coroutines g)
  ∧ ∀ g', runs g g' → False.
Proof using Type.
  pose proof (group_inv_reached s g Hg) as [Hl _ _ _].
  assert (Hall : ∀ i pc, coroutines g !! i = Some pc → pc = Exited).
  { intros i pc Hi. destruct (decide (pc = Exited)) as [|Hne]; [done|].
    specialize (Hl i pc Hi Hne). rewrite Hnone in Hl. by apply not_elem_of_nil in Hl. }
  split.
  - apply Forall_lookup. intros i pc Hi. by apply (Hall i).
  - intros g' Hr. destruct Hr; try congruence;
      match goal with H : coroutines _ !! _ = Some _ |- _ => apply Hall in H end; congruence.
Qed.

(** ** Stop returns *)

Definition pc_rank (pc : worker_pc) : nat :=
  match pc with Check => 1 | Pass n => n + 4 | Asleep => 2 | Exited => 0 end.

(** Pieces of work still to do, and [get]s still to come. *)
Definition stop_rank (g : Group) : nat :=
  sum_list_with pc_rank (coroutines g)
  + match owner g with Outside => 0 | Getting k => 1 + (length (m_workers g) - k) end.

Lemma sum_insert (l : list worker_pc) i old pc :
  l !! i = Some old →
  (sum_list_with pc_rank (<[i := pc]> l) + pc_rank old = sum_list_with pc_rank l + pc_rank pc)%nat.
Proof using Type.
  revert i. induction l as [|x l IH]; intros [|i] Hi; simpl in *; [done..| |].
  - injection Hi as ->. lia.
  - specialize (IH i Hi). lia.
Qed.

(** The owner waits, and every worker it waits for can move, or has exited. *)
Definition stop_inv (g : Group) : Prop := group_inv g ∧ ∃ k, owner g = Getting k.

Lemma stop_workers_moves (work_total : ∀ s, ∃ s', work s s') g : stop_inv g → ∃ g', runs g g'.
Proof using Type.
  intros [[Hl Hr Hg Hf] (k & Hk)].
  destruct (m_workers g !! k) as [i|] eqn:Hi; [|eexists; by eapply runs_clear].
  destruct (lookup_lt_is_Some_2 (coroutines g) i) as [pc Hpc]; [by eapply Hr, list_elem_of_lookup_2|].
  destruct pc as [|[|n]| |].
  - eexists. apply (runs_exit _ i); [done|by eapply Hf].
  - eexists. by apply (runs_end _ i true).
  - destruct (work_total (shared g)) as [s' Hs]. eexists. by eapply runs_work.
  - eexists. by apply (runs_wake _ i).
  - eexists. by eapply runs_get.
Qed.

Lemma stop_workers_step g g' :
  stop_inv g → runs g g' →
  (owner g' = Outside ∧ m_workers g' = []) ∨ (stop_inv g' ∧ (stop_rank g' < stop_rank g)%nat).
Proof using count.
  intros [Hi (k & Hk)] Hr.
  assert (Hi' : group_inv g') by (eapply group_inv_step; [done|by apply group_runs]).
  pose proof (inv_flag g Hi k Hk) as Hflag.
  destruct Hr as [g i n H Hgo|g i H _|g i n s H _|g i b H|g i H|g i H|g k' i Ho Hw Hc|g k' Ho Hw];
    [congruence| | | | | |right|by left].
  1-5: right; split; [split; [done|by exists k]|]; unfold stop_rank; simpl;
    match goal with |- context [<[_ := ?pc]> _] => pose proof (sum_insert (coroutines g) i _ pc H) as Hsum end;
    try destruct b; simpl in *; lia.
  split; [split; [done|by eexists]|]. unfold stop_rank. simpl. rewrite Ho.
  apply lookup_lt_Some in Hw. lia.
Qed.

(** [Stop] returns: once it is called it gets through its list on every schedule of
    the coroutines, whatever passes they are in and whichever of them fail, provided a
    piece of a pass always comes to its end. *)
Theorem stop_workers_returns s g (work_total : ∀ s, ∃ s', work s s')
    (Hg : reached s g) (Howner : owner g = Outside) :
  inevitably runs runs (λ g, owner g = Outside ∧ m_workers g = []) (Stop g).
Proof using Type.
  apply (inevitably_by_rank _ _ _ stop_inv stop_rank).
  - intros x Hx. by apply stop_workers_moves.
  - intros x y. apply stop_workers_step.
  - split; [|by exists 0%nat]. eapply group_inv_step; [by eapply group_inv_reached|].
    by apply group_stop.
Qed.
End workers.

(** * Concrete inputs *)

(** Two workers that count, started, one of them in a pass. *)
Definition counting : nat → nat → Prop := λ s s', s' = S s.
Definition started : Group := Start 2 (new_group 0%nat).
Definition busy : Group := at_ 1 (Pass 3) started.

Lemma busy_reached : reached counting 2 0%nat busy.
Proof.
  eapply rtc_l; [by apply group_start|]. eapply rtc_l; [|apply rtc_refl].
  apply group_runs. by apply (runs_begin counting started 1 3).
Qed.

Lemma stop_workers_returns_witness :
  inevitably (runs counting) (runs counting) (λ g, owner g = Outside ∧ m_workers g = []) (Stop busy).
Proof.
  apply (stop_workers_returns counting 2 0%nat busy).
  - intros s. exists (S s). reflexivity.
  - apply busy_reached.
  - reflexivity.
Defined.

(** Started and stopped again. *)
Definition over : Group := mkGroup true [] [Exited; Exited] Outside 0%nat.

Lemma over_reached : reached counting 2 0%nat over.
Proof.
  eapply rtc_l; [by apply group_start|]. eapply rtc_l; [by apply group_stop|].
  eapply rtc_l; [by apply group_runs, (runs_exit _ _ 0)|].
  eapply rtc_l; [by apply group_runs, (runs_exit _ _ 1)|].
  eapply rtc_l; [by apply group_runs, (runs_get _ _ 0 0)|].
  eapply rtc_l; [by apply group_runs, (runs_get _ _ 1 1)|].
  eapply rtc_l; [by apply group_runs, (runs_clear _ _ 2)|]. apply rtc_refl.
Qed.

Lemma stopped_workers_exited_witness : Forall (λ pc, pc = Exited) (coroutines over).
Proof.
  apply (stopped_workers_exited counting 2 0%nat over); [apply over_reached|reflexivity|reflexivity].
Defined.
