(* ===== verification/ThreadPool.v ===== *)
(** The thread pool ([src/util/threadpool.cpp], [include/util/threadpool.h]): a queue of
    tasks, worker threads that wait on a condition variable, [put_task], which starts
    the pool, and [stop], which drains it.

    Every access to the queue is inside a section under [mtx], so a section is one step;
    a waiting worker has left the mutex, and may wake without a notification.  [stop]
    has four pieces: its section, the notification, the joins, and the clearing.  Tasks
    are numbered as they are put; a task is a [packaged_task], so it never throws. *)
From S2P Require Import Prelude.

Inductive worker_pc :=
| AtLock                     (* the mutex and the condition come next *)
| Waiting                    (* in [cv.wait] *)
| Executing (task : nat)
| Returned.

#[global] Instance worker_pc_eq_dec : EqDecision worker_pc.
Proof. solve_decision. Defined.

Inductive owner_pc :=
| Outside
| Notifying                  (* [is_running] is false, [notify_all] comes next *)
| Joining (k : nat)          (* before the k-th [join] *)
| Clearing.

#[global] Instance owner_pc_eq_dec : EqDecision owner_pc.
Proof. solve_decision. Defined.

(** [workers] are the threads there have ever been, [threads] the numbers of those in
    the vector; [taken] and [finished] are the tasks that workers took and ran to their
    end, oldest first.  [deadlocked]: the mutex is held for ever. *)
Record ThreadPool := mkPool {
  is_running : bool;
  tasks_queue : list nat;
  workers : list worker_pc;
  threads : list nat;
  owner : owner_pc;
  deadlocked : bool;
  put : nat;
  taken : list nat;
  finished : list nat;
}.

Definition thread_num : nat := 4.

Definition new_pool : ThreadPool := mkPool false [] [] [] Outside false 0 [] [].

(** * [start] and [put_task] *)

(** Threads are made one by one; the failure of one sets [is_running] back and calls
    [stop], which locks the mutex that [put_task] holds. *)
Definition start (fails : option nat) (p : ThreadPool) : ThreadPool :=
  let made := match fails with Some i => Nat.min i thread_num | None => thread_num end in
  let n := length (workers p) in
  mkPool (match fails with Some _ => false | None => true end) (tasks_queue p)
    (workers p ++ replicate made AtLock) (threads p ++ seq n made) (owner p)
    (match fails with Some _ => true | None => deadlocked p end) (put p) (taken p) (finished p).

(** The worker that [notify_one] wakes. *)
Definition notify (wakes : option nat) (ws : list worker_pc) : list worker_pc :=
  match wakes with Some i => <[i := AtLock]> ws | None => ws end.

Definition push (wakes : option nat) (p : ThreadPool) : ThreadPool :=
  mkPool (is_running p) (tasks_queue p ++ [put p]) (notify wakes (workers p)) (threads p) (owner p)
    (deadlocked p) (S (put p)) (taken p) (finished p).

Definition put_task (fails wakes : option nat) (p : ThreadPool) : ThreadPool :=
  let p := if is_running p then p else start fails p in
  if is_running p then push wakes p else p.

(** * [thread_worker] *)

Definition set_worker (i : nat) (pc : worker_pc) (p : ThreadPool) : ThreadPool :=
  mkPool (is_running p) (tasks_queue p) (<[i := pc]> (workers p)) (threads p) (owner p)
    (deadlocked p) (put p) (taken p) (finished p).

(** The section under the mutex. *)
Definition take_task (i : nat) (p : ThreadPool) : ThreadPool :=
  match tasks_queue p with
  | task :: rest =>
      mkPool (is_running p) rest (<[i := Executing task]> (workers p)) (threads p) (owner p)
        (deadlocked p) (put p) (taken p ++ [task]) (finished p)
  | [] => set_worker i (if is_running p then Waiting else Returned) p
  end.

Definition finish_task (i task : nat) (p : ThreadPool) : ThreadPool :=
  mkPool (is_running p) (tasks_queue p) (<[i := AtLock]> (workers p)) (threads p) (owner p)
    (deadlocked p) (put p) (taken p) (finished p ++ [task]).

(** * [stop] *)

Definition set_owner (pc : owner_pc) (p : ThreadPool) : ThreadPool :=
  mkPool (is_running p) (tasks_queue p) (workers p) (threads p) pc
    (deadlocked p) (put p) (taken p) (finished p).

Definition call_stop (p : ThreadPool) : ThreadPool :=
  mkPool false (tasks_queue p) (workers p) (threads p) Notifying
    (deadlocked p) (put p) (taken p) (finished p).

Definition notify_all (p : ThreadPool) : ThreadPool :=
  mkPool (is_running p) (tasks_queue p)
    ((λ pc, match pc with Waiting => AtLock | _ => pc end) <$> workers p) (threads p) (Joining 0)
    (deadlocked p) (put p) (taken p) (finished p).

(** The vector is emptied, and the queue. *)
Definition clear (p : ThreadPool) : ThreadPool :=
  mkPool (is_running p) [] (workers p) [] Outside (deadlocked p) (put p) (taken p) (finished p).

(** [~ThreadPool] *)
Definition destroy (p : ThreadPool) : ThreadPool := if is_running p then call_stop p else p.

(** * The threads *)

(** The workers, and [stop] once it is called. *)
Inductive runs (p : ThreadPool) : ThreadPool → Prop :=
| runs_take i : workers p !! i = Some AtLock → deadlocked p = false → runs p (take_task i p)
| runs_finish i task : workers p !! i = Some (Executing task) → runs p (finish_task i task p)
| runs_notify : owner p = Notifying → runs p (notify_all p)
| runs_join k i :
    owner p = Joining k → threads p !! k = Some i → workers p !! i = Some Returned →
    runs p (set_owner (Joining (S k)) p)
| runs_joined k : owner p = Joining k → threads p !! k = None → runs p (set_owner Clearing p)
| runs_clear : owner p = Clearing → runs p (clear p).

(** Wake-ups without a notification. *)
Inductive wakes (p : ThreadPool) : ThreadPool → Prop :=
| wakes_spurious i : workers p !! i = Some Waiting → wakes p (set_worker i AtLock p).

(** [notify_one] wakes one of those that wait, if there is any. *)
Definition notifies (p : ThreadPool) (choice : option nat) : Prop :=
  match choice with
  | Some i => workers p !! i = Some Waiting
  | None => ∀ i, workers p !! i ≠ Some Waiting
  end.

(** The calls: [allowed] says when [put_task] may be called. *)
Inductive pool_step (allowed : ThreadPool → Prop) (p : ThreadPool) : ThreadPool → Prop :=
| step_runs p' : runs p p' → pool_step allowed p p'
| step_wakes p' : wakes p p' → pool_step allowed p p'
| step_put choice :
    allowed p → deadlocked p = false → notifies (if is_running p then p else start None p) choice →
    pool_step allowed p (put_task None choice p)
| step_start_fails i choice :
    allowed p → deadlocked p = false → is_running p = false → (i < thread_num)%nat →
    pool_step allowed p (put_task (Some i) choice p)
| step_stop : owner p = Outside → deadlocked p = false → pool_step allowed p (call_stop p)
| step_destroy : owner p = Outside → deadlocked p = false → pool_step allowed p (destroy p).

(** No [put_task] while a [stop] is under way. *)
Definition not_stopping (p : ThreadPool) : Prop := owner p = Outside.

Lemma thread_num_S : ∃ n, thread_num = S n.
Proof. by eexists. Qed.
#[local] Opaque thread_num.

(** * The invariant *)

(** The task of a worker. *)
Definition task_of (pc : worker_pc) : list nat :=
  match pc with Executing task => [task] | _ => [] end.
Definition executing (p : ThreadPool) : list nat := workers p ≫= task_of.

Definition at_work (pc : worker_pc) : Prop := pc ≠ Waiting ∧ pc ≠ Returned.

Record pool_inv (p : ThreadPool) : Prop := {
  pi_live i pc : workers p !! i = Some pc → pc ≠ Returned → i ∈ threads p;
  pi_range i : i ∈ threads p → (i < length (workers p))%nat;
  (* tasks are taken in the order in which they were put *)
  pi_order : taken p ++ tasks_queue p = seq 0 (put p);
  pi_tasks : taken p ≡ₚ finished p ++ executing p;
  pi_stopping : owner p ≠ Outside → is_running p = false;
  pi_idle : owner p = Outside → is_running p = false → deadlocked p = false →
    tasks_queue p = [] ∧ threads p = [];
  pi_started : threads p = [] → tasks_queue p = [] ∧ is_running p = false;
  pi_drained i : i ∈ threads p → workers p !! i = Some Returned → tasks_queue p = [] ∧ is_running p = false;
  pi_awake i : workers p !! i = Some Waiting → owner p = Outside ∨ owner p = Notifying;
  pi_joined k j i : owner p = Joining k → (j < k)%nat → threads p !! j = Some i →
    workers p !! i = Some Returned;
  pi_clearing i : owner p = Clearing → i ∈ threads p → workers p !! i = Some Returned;
  (* no wake-up is lost: while a task waits some worker will look at the queue *)
  pi_wakeup : tasks_queue p ≠ [] → ∃ i pc, workers p !! i = Some pc ∧ at_work pc;
}.

Lemma pool_inv_new : pool_inv new_pool.
Proof. split; simpl; try done; intros; by set_solver. Qed.

Lemma tasks_insert ws i old pc :
  ws !! i = Some old → task_of old ++ (<[i := pc]> ws ≫= task_of) ≡ₚ task_of pc ++ (ws ≫= task_of).
Proof.
  intros Hi. rewrite <- (take_drop_middle ws i old Hi) at 2.
  rewrite insert_take_drop by (by eapply lookup_lt_Some). rewrite !bind_app, !bind_cons.
  solve_Permutation.
Qed.

Lemma tasks_insert_idle ws i old pc :
  ws !! i = Some old → task_of old = [] → task_of pc = [] →
  <[i := pc]> ws ≫= task_of ≡ₚ ws ≫= task_of.
Proof. intros Hi Ho Hp. pose proof (tasks_insert ws i old pc Hi) as H. by rewrite Ho, Hp in H. Qed.

Lemma tasks_fresh n : replicate n AtLock ≫= task_of = [].
Proof. by induction n. Qed.

(** A worker that changes its place, and holds no task before and after. *)
Lemma pool_inv_worker p i old pc :
  pool_inv p → workers p !! i = Some old → old ≠ Returned → task_of old = [] → task_of pc = [] →
  (pc = Returned → tasks_queue p = [] ∧ is_running p = false) →
  (pc = Waiting → owner p = Outside ∨ owner p = Notifying) →
  (tasks_queue p ≠ [] → at_work pc) →
  pool_inv (set_worker i pc p).
Proof.
  intros [] Hi Hne Ht Ht' Hr Hw Ha. split; simpl; try done.
  - intros j x [(-> & <- & _)|[_ Hj]]%list_lookup_insert_Some Hx; [by eapply pi_live0|by eapply pi_live0].
  - intros j Hj. rewrite length_insert. by apply pi_range0.
  - unfold executing. simpl. by rewrite (tasks_insert_idle _ _ _ _ Hi).
  - intros j Hj [(-> & -> & _)|[_ Hx]]%list_lookup_insert_Some; [by apply Hr|by eapply pi_drained0].
  - intros j [(-> & -> & _)|[_ Hx]]%list_lookup_insert_Some; [by apply Hw|by eapply pi_awake0].
  - intros k j x Hk Hlt Hx. rewrite list_lookup_insert_ne; [by eapply pi_joined0|].
    intros ->. by rewrite (pi_joined0 k j x Hk Hlt Hx) in Hi; simplify_eq.
  - intros x Hc Hx. rewrite list_lookup_insert_ne; [by eapply pi_clearing0|].
    intros ->. by rewrite (pi_clearing0 x Hc Hx) in Hi; simplify_eq.
  - intros Hq. exists i, pc. split; [|by apply Ha]. apply list_lookup_insert_eq. by eapply lookup_lt_Some.
Qed.

(** The facts about workers that have returned, when one that has not moves. *)
Lemma returned_insert p i old pc j :
  workers p !! i = Some old → old ≠ Returned → workers p !! j = Some Returned →
  <[i := pc]> (workers p) !! j = Some Returned.
Proof. intros Hi Hne Hj. rewrite list_lookup_insert_ne; [done|]. intros ->. by simplify_eq. Qed.

Lemma pool_inv_take p i :
  pool_inv p → workers p !! i = Some AtLock → pool_inv (take_task i p).
Proof.
  intros Hp Hi. unfold take_task. destruct (tasks_queue p) as [|task rest] eqn:Hq.
  - apply (pool_inv_worker _ _ AtLock); try done; [by destruct (is_running p)|by destruct (is_running p)|].
    destruct (is_running p) eqn:Hr; [|done]. intros _. left.
    destruct (decide (owner p = Outside)) as [|Ho]; [done|]. by rewrite (pi_stopping _ Hp Ho) in Hr.
  - destruct Hp. split; simpl.
    + intros j x [(-> & <- & _)|[_ Hj]]%list_lookup_insert_Some Hx; by eapply pi_live0.
    + intros j Hj. rewrite length_insert. by apply pi_range0.
    + rewrite <- pi_order0, Hq, <- app_assoc. done.
    + unfold executing. simpl. rewrite pi_tasks0. unfold executing.
      pose proof (tasks_insert _ _ _ (Executing task) Hi) as H. simpl in H. rewrite H. solve_Permutation.
    + done.
    + intros Ho Hr Hd. destruct (pi_idle0 Ho Hr Hd). congruence.
    + intros Ht. destruct (pi_started0 Ht). congruence.
    + intros j Hj [(-> & ? & _)|[_ Hx]]%list_lookup_insert_Some; [done|].
      destruct (pi_drained0 j Hj Hx). congruence.
    + intros j [(-> & ? & _)|[_ Hx]]%list_lookup_insert_Some; [done|by eapply pi_awake0].
    + intros k j x Hk Hlt Hx. eapply returned_insert; [done|done|]. by eapply pi_joined0.
    + intros x Hc Hx. eapply returned_insert; [done|done|]. by eapply pi_clearing0.
    + intros _. exists i, (Executing task). split; [|by split].
      apply list_lookup_insert_eq. by eapply lookup_lt_Some.
Qed.

Lemma pool_inv_finish p i task :
  pool_inv p → workers p !! i = Some (Executing task) → pool_inv (finish_task i task p).
Proof.
  intros [] Hi. split; simpl; try done.
  - intros j x [(-> & <- & _)|[_ Hj]]%list_lookup_insert_Some Hx; by eapply pi_live0.
  - intros j Hj. rewrite length_insert. by apply pi_range0.
  - unfold executing. simpl. rewrite pi_tasks0. unfold executing.
    pose proof (tasks_insert _ _ _ AtLock Hi) as H. simpl in H. rewrite <- H. solve_Permutation.
  - intros j Hj [(-> & ? & _)|[_ Hx]]%list_lookup_insert_Some; [done|by eapply pi_drained0].
  - intros j [(-> & ? & _)|[_ Hx]]%list_lookup_insert_Some; [done|by eapply pi_awake0].
  - intros k j x Hk Hlt Hx. eapply returned_insert; [done|done|]. by eapply pi_joined0.
  - intros x Hc Hx. eapply returned_insert; [done|done|]. by eapply pi_clearing0.
  - intros _. exists i, AtLock. split; [|by split]. apply list_lookup_insert_eq. by eapply lookup_lt_Some.
Qed.

Lemma tasks_awake ws :
  ((λ pc, match pc with Waiting => AtLock | _ => pc end) <$> ws) ≫= task_of = ws ≫= task_of.
Proof. induction ws as [|pc ws IH]; [done|]. csimpl. rewrite IH. by destruct pc. Qed.

Lemma pool_inv_notify_all p : pool_inv p → owner p = Notifying → pool_inv (notify_all p).
Proof.
  intros [] Ho. split; simpl; try done.
  - intros i x [pc [-> Hi]]%list_lookup_fmap_Some Hx. apply (pi_live0 i pc Hi). by destruct pc.
  - intros i Hi. rewrite length_fmap. by apply pi_range0.
  - unfold executing. simpl. by rewrite tasks_awake.
  - intros _. apply pi_stopping0. by rewrite Ho.
  - intros i Hi [pc [Hpc Hl]]%list_lookup_fmap_Some. apply (pi_drained0 i Hi). by destruct pc.
  - intros i [pc [Hpc _]]%list_lookup_fmap_Some. by destruct pc.
  - intros k j i [= <-]. lia.
  - intros Hq. destruct (pi_wakeup0 Hq) as (i & pc & Hi & Hw & Hr). exists i, pc.
    split; [|done]. rewrite list_lookup_fmap, Hi. simpl. by destruct pc.
Qed.

Lemma pool_inv_join p k i :
  pool_inv p → owner p = Joining k → threads p !! k = Some i → workers p !! i = Some Returned →
  pool_inv (set_owner (Joining (S k)) p).
Proof.
  intros [] Ho Hk Hi. split; simpl; try done.
  - intros _. apply pi_stopping0. by rewrite Ho.
  - intros j Hj. destruct (pi_awake0 j Hj); congruence.
  - intros k' j x [= <-] Hlt Hj. destruct (decide (j = k)) as [->|]; [congruence|].
    eapply (pi_joined0 k j); [done|lia|done].
Qed.

Lemma pool_inv_joined p k :
  pool_inv p → owner p = Joining k → threads p !! k = None → pool_inv (set_owner Clearing p).
Proof.
  intros [] Ho Hk. split; simpl; try done.
  - intros _. apply pi_stopping0. by rewrite Ho.
  - intros j Hj. destruct (pi_awake0 j Hj); congruence.
  - intros i _ [j Hj]%list_elem_of_lookup. eapply (pi_joined0 k j); [done| |done].
    apply lookup_lt_Some in Hj. apply lookup_ge_None in Hk. lia.
Qed.

(** When all threads are joined, nothing is left in the queue. *)
Lemma clearing_drained p : pool_inv p → owner p = Clearing → tasks_queue p = [].
Proof.
  intros [] Ho. destruct (threads p) as [|i l] eqn:Ht; [by apply pi_started0|].
  apply (pi_drained0 i); [by left|]. apply pi_clearing0; [done|by left].
Qed.

Lemma clearing_returned p i pc : pool_inv p → owner p = Clearing → workers p !! i = Some pc → pc = Returned.
Proof.
  intros [] Ho Hi. destruct (decide (pc = Returned)) as [|Hne]; [done|].
  specialize (pi_clearing0 i Ho (pi_live0 i pc Hi Hne)). congruence.
Qed.

Lemma pool_inv_clear p : pool_inv p → owner p = Clearing → pool_inv (clear p).
Proof.
  intros Hp Ho. pose proof (clearing_drained p Hp Ho) as Hq.
  pose proof (λ i pc, clearing_returned p i pc Hp Ho) as Hr. destruct Hp. split; simpl; try done.
  - intros i pc Hi Hne. by apply Hr in Hi.
  - by intros i ?%not_elem_of_nil.
  - by rewrite <- pi_order0, Hq.
  - intros _. split; [done|]. apply pi_stopping0. by rewrite Ho.
  - intros i ?%not_elem_of_nil. done.
  - intros i Hi. by apply Hr in Hi.
Qed.

Lemma pool_inv_stop p : pool_inv p → owner p = Outside → pool_inv (call_stop p).
Proof.
  intros [] Ho. split; simpl; try done.
  - intros Ht. by destruct (pi_started0 Ht).
  - intros i Hi Hx. by destruct (pi_drained0 i Hi Hx).
  - intros i _. by right.
Qed.

(** A pool that starts: its old threads have returned. *)
Lemma pool_inv_start p :
  pool_inv p → owner p = Outside → is_running p = false → deadlocked p = false →
  tasks_queue p = [] ∧ pool_inv (start None p).
Proof.
  intros [] Ho Hr Hd. destruct (pi_idle0 Ho Hr Hd) as [Hq Ht]. split; [done|].
  assert (Hret : ∀ i pc, workers p !! i = Some pc → pc = Returned).
  { intros i pc Hi. destruct (decide (pc = Returned)) as [|Hne]; [done|].
    specialize (pi_live0 i pc Hi Hne). rewrite Ht in pi_live0. by apply not_elem_of_nil in pi_live0. }
  set (n := length (workers p)).
  assert (Hnew : ∀ i, i ∈ seq n thread_num → (workers p ++ replicate thread_num AtLock) !! i = Some AtLock).
  { intros i Hi%elem_of_seq. rewrite lookup_app_r by (subst n; lia). apply lookup_replicate.
    subst n. split; [done|lia]. }
  unfold start. rewrite Ht. simpl app. split; simpl; try done.
  - intros i pc [Hi|[Hge Hi]]%lookup_app_Some Hne; [by rewrite (Hret i pc Hi) in Hne|].
    apply lookup_replicate in Hi as [_ Hi]. apply elem_of_seq. subst n. lia.
  - intros i Hi. rewrite length_app, length_replicate. apply elem_of_seq in Hi. subst n. lia.
  - unfold executing. simpl. rewrite bind_app, pi_tasks0. unfold executing. by rewrite tasks_fresh, app_nil_r.
  - intros i Hi Hx. rewrite Hnew in Hx by done. done.
  - by left.
  - intros k j i Hk. congruence.
  - intros i Hc. congruence.
Qed.

(** A task is put into a pool that runs. *)
Lemma pool_inv_push p choice :
  pool_inv p → is_running p = true → notifies p choice → pool_inv (push choice p).
Proof.
  intros [] Hr Hch.
  assert (Hout : owner p = Outside) by (destruct (decide (owner p = Outside)) as [|Ho]; [done|]; by rewrite pi_stopping0 in Hr).
  assert (Hn : ∀ i pc, notify choice (workers p) !! i = Some pc →
    workers p !! i = Some pc ∨ (pc = AtLock ∧ workers p !! i = Some Waiting)).
  { intros i pc Hi. destruct choice as [c|]; [|by left]. simpl in *.
    apply list_lookup_insert_Some in Hi as [(-> & <- & _)|[_ ?]]; [by right|by left]. }
  assert (Hl : length (notify choice (workers p)) = length (workers p))
    by (destruct choice; simpl; [apply length_insert|done]).
  split; simpl; try done.
  - intros i pc Hi Hne. destruct (Hn i pc Hi) as [Hi'|[-> Hi']]; by eapply pi_live0.
  - intros i Hi. rewrite Hl. by apply pi_range0.
  - change (taken p ++ tasks_queue p ++ [put p] = seq 0 (S (put p))).
    by rewrite seq_S, app_assoc, pi_order0.
  - rewrite pi_tasks0. unfold executing. simpl. destruct choice as [c|]; [|done]. simpl in *.
    by rewrite (tasks_insert_idle _ _ _ AtLock Hch).
  - intros _ Hf. congruence.
  - intros Ht. destruct (pi_started0 Ht). congruence.
  - intros i Hi Hx. destruct (Hn i _ Hx) as [Hx'|[? _]]; [|done]. destruct (pi_drained0 i Hi Hx'). congruence.
  - by left.
  - intros k j i Hk. congruence.
  - intros i Hc. congruence.
  - intros _. destruct choice as [c|]; simpl in *.
    + exists c, AtLock. split; [|by split]. apply list_lookup_insert_eq. by eapply lookup_lt_Some.
    + destruct (threads p) as [|i l] eqn:Ht; [by destruct (pi_started0 eq_refl); congruence|].
      destruct (lookup_lt_is_Some_2 (workers p) i) as [pc Hi]; [apply pi_range0; by left|].
      exists i, pc. split; [done|]. split; [by intros ->; apply (Hch i)|].
      intros ->. destruct (pi_drained0 i ltac:(by left) Hi). congruence.
Qed.

(** A start that fails leaves the mutex locked for ever. *)
Lemma pool_inv_fail p i choice :
  pool_inv p → owner p = Outside → is_running p = false → deadlocked p = false →
  pool_inv (put_task (Some i) choice p).
Proof.
  intros Hp Ho Hr Hd. unfold put_task. rewrite Hr. simpl.
  destruct (pi_idle _ Hp Ho Hr Hd) as [Hq Ht].
  set (m := Nat.min i thread_num). set (n := length (workers p)).
  assert (Hret : ∀ j pc, workers p !! j = Some pc → pc = Returned).
  { intros j pc Hj. destruct (decide (pc = Returned)) as [|Hne]; [done|].
    pose proof (pi_live _ Hp j pc Hj Hne) as Hin. rewrite Ht in Hin. by apply not_elem_of_nil in Hin. }
  destruct Hp. unfold start. rewrite Ht. fold m. split; simpl; try done.
  - intros j pc [Hj|[Hge Hj]]%lookup_app_Some Hne; [by rewrite (Hret j pc Hj) in Hne|].
    apply lookup_replicate in Hj as [_ Hj]. apply elem_of_seq. subst n. lia.
  - intros j Hj. rewrite length_app, length_replicate. apply elem_of_seq in Hj. subst n. lia.
  - unfold executing. simpl. rewrite bind_app, pi_tasks0. unfold executing.
    by rewrite tasks_fresh, app_nil_r.
  - by left.
  - intros k j x Hk. congruence.
  - intros j Hc. congruence.
Qed.

Lemma thread_pool_inv_step p p' : pool_inv p → pool_step not_stopping p p' → pool_inv p'.
Proof.
  intros Hp Hs. destruct Hs as [? Hs|? [i Hi]|choice Ho Hd Hch|i choice Ho Hd Hr _|Ho _|Ho _].
  - destruct Hs as [i Hi _|i task Hi|Ho|k i Ho Hk Hi|k Ho Hk|Ho].
    + by apply pool_inv_take.
    + by apply pool_inv_finish.
    + by apply pool_inv_notify_all.
    + by eapply pool_inv_join.
    + by eapply pool_inv_joined.
    + by apply pool_inv_clear.
  - by eapply pool_inv_worker.
  - unfold put_task. destruct (is_running p) eqn:Hr.
    + rewrite Hr. by apply pool_inv_push.
    + destruct (pool_inv_start p Hp Ho Hr Hd) as [_ Hstart]. by apply pool_inv_push.
  - by apply pool_inv_fail.
  - by apply pool_inv_stop.
  - unfold destroy. destruct (is_running p); [by apply pool_inv_stop|done].
Qed.

Definition reached (p : ThreadPool) : Prop := rtc (pool_step not_stopping) new_pool p.

Lemma pool_inv_reached p : reached p → pool_inv p.
Proof.
  unfold reached. intros H. cut (pool_inv new_pool); [|apply pool_inv_new].
  induction H; eauto using thread_pool_inv_step.
Qed.

(** * What the pool promises *)

(** A pool with one task put, and with that task in execution. *)
Definition put_one : ThreadPool := put_task None None new_pool.

Lemma put_one_reached : reached put_one.
Proof.
  apply rtc_once. apply (step_put _ _ None); [done|done|]. by intros j [? _]%lookup_replicate.
Qed.

Lemma one_executing_reached : reached (take_task 0 put_one).
Proof.
  eapply rtc_r; [apply put_one_reached|]. apply step_runs, runs_take; [|done].
  destruct thread_num_S as [n Hn]. unfold put_one, put_task, start. simpl. by rewrite Hn.
Qed.

(** Every task is run once, and they are taken in the order in which they
    were put: whatever the workers, the callers of [put_task] and of [stop] do, one after
    another or at once (but for a [put_task] during a [stop]), the tasks put so far are
    those finished, those in execution and those waiting, without repetition, and the
    ones taken are the first ones put. *)
Theorem tasks_once p (Hp : reached p) :
  finished p ++ executing p ++ tasks_queue p ≡ₚ seq 0 (put p)
  ∧ NoDup (finished p ++ executing p)
  ∧ taken p `prefix_of` seq 0 (put p).
Proof.
  destruct (pool_inv_reached p Hp) as [_ _ Ho Ht _ _ _ _ _ _ _ _].
  split_and!.
  - by rewrite app_assoc, <- Ht, Ho.
  - rewrite <- Ht. apply (NoDup_app (taken p) (tasks_queue p)). rewrite Ho. apply NoDup_seq.
  - exists (tasks_queue p). by rewrite Ho.
Qed.

Lemma tasks_once_witness :
  executing (take_task 0 put_one) = [0%nat]
  ∧ finished (take_task 0 put_one) ++ executing (take_task 0 put_one) ++ tasks_queue (take_task 0 put_one)
    ≡ₚ seq 0 (put (take_task 0 put_one)).
Proof.
  split; [by vm_compute|].
  exact (proj1 (tasks_once (take_task 0 put_one) one_executing_reached)).
Defined.

(** ** Stop returns *)

Definition pc_rank (pc : worker_pc) : nat :=
  match pc with Returned => 0 | AtLock => 1 | Executing _ => 2 | Waiting => 2 end.

Definition owner_rank (p : ThreadPool) : nat :=
  match owner p with
  | Outside => 0 | Clearing => 1
  | Joining k => 2 + (length (threads p) - k)
  | Notifying => 3 + length (threads p)
  end.

Definition stop_rank (p : ThreadPool) : nat :=
  sum_list_with pc_rank (workers p) + 2 * length (tasks_queue p) + owner_rank p.

Lemma rank_insert (f : worker_pc → nat) ws i old pc :
  ws !! i = Some old →
  (sum_list_with f (<[i := pc]> ws) + f old = sum_list_with f ws + f pc)%nat.
Proof.
  revert i. induction ws as [|x ws IH]; intros [|i] Hi; simpl in *; [done..| |].
  - injection Hi as ->. lia.
  - specialize (IH i Hi). lia.
Qed.

Lemma rank_awake ws :
  (sum_list_with pc_rank ((λ pc, match pc with Waiting => AtLock | _ => pc end) <$> ws)
   <= sum_list_with pc_rank ws)%nat.
Proof. induction ws as [|pc ws IH]; csimpl; [done|]. destruct pc; simpl; lia. Qed.

(** [stop] is under way. *)
Definition stop_inv (p : ThreadPool) : Prop := pool_inv p ∧ owner p ≠ Outside ∧ deadlocked p = false.

(** What a finished [stop] leaves. *)
Definition stopped (p : ThreadPool) : Prop :=
  owner p = Outside ∧ is_running p = false ∧ threads p = []
  ∧ Forall (λ pc, pc = Returned) (workers p) ∧ finished p ≡ₚ seq 0 (put p).

Definition within_stop (p p' : ThreadPool) : Prop := runs p p' ∨ wakes p p'.

Lemma stop_pool_moves p : stop_inv p → ∃ p', runs p p'.
Proof.
  intros (Hp & Ho & Hd). destruct (owner p) as [| |k|] eqn:Hpc; [done| | |].
  - eexists. by apply runs_notify.
  - destruct (threads p !! k) as [i|] eqn:Hk; [|eexists; by eapply runs_joined].
    assert (Hi : i ∈ threads p) by by eapply list_elem_of_lookup_2.
    destruct (lookup_lt_is_Some_2 (workers p) i) as [pc Hw]; [by apply (pi_range _ Hp)|].
    destruct pc as [| |task|].
    + eexists. by eapply runs_take.
    + pose proof (pi_awake _ Hp i Hw) as [E|E]; rewrite Hpc in E; discriminate.
    + eexists. by eapply runs_finish.
    + eexists. by eapply runs_join.
  - eexists. by apply runs_clear.
Qed.

Lemma executing_returned ws : Forall (λ pc, pc = Returned) ws → ws ≫= task_of = [].
Proof. induction 1 as [|pc ws -> _ IH]; [done|]. csimpl. by rewrite IH. Qed.

Lemma clear_stopped p : pool_inv p → owner p = Clearing → stopped (clear p).
Proof.
  intros Hp Ho. pose proof (pool_inv_clear p Hp Ho) as Hc.
  assert (Hall : Forall (λ pc, pc = Returned) (workers p)).
  { apply Forall_lookup. intros i pc Hi. by apply (clearing_returned p i). }
  split_and!; try done; [apply (pi_stopping _ Hp); by rewrite Ho|].
  pose proof (pi_tasks _ Hc) as Ht. pose proof (pi_order _ Hc) as Hord. simpl in *.
  unfold executing in Ht. simpl in Ht. rewrite executing_returned, app_nil_r in Ht by done.
  rewrite app_nil_r in Hord. by rewrite <- Ht, Hord.
Qed.

(** A step of a worker: closer to the end. *)
Lemma take_rank p i :
  is_running p = false → workers p !! i = Some AtLock → (stop_rank (take_task i p) < stop_rank p)%nat.
Proof.
  intros Hr Hi. unfold take_task, stop_rank. destruct (tasks_queue p) as [|task rest] eqn:Hq.
  - rewrite Hr. pose proof (rank_insert pc_rank _ _ _ Returned Hi). unfold owner_rank. simpl in *. rewrite ?Hq. simpl. lia.
  - pose proof (rank_insert pc_rank _ _ _ (Executing task) Hi). unfold owner_rank. simpl in *. lia.
Qed.

Lemma owner_take i p : owner (take_task i p) = owner p ∧ deadlocked (take_task i p) = deadlocked p.
Proof. unfold take_task. by destruct (tasks_queue p). Qed.

Lemma stop_pool_step p p' :
  stop_inv p → within_stop p p' → stopped p' ∨ (stop_inv p' ∧ (stop_rank p' < stop_rank p)%nat).
Proof.
  intros (Hp & Ho & Hd) Hs.
  assert (Hp' : pool_inv p').
  { eapply thread_pool_inv_step; [done|]. destruct Hs; [by apply step_runs|by apply step_wakes]. }
  pose proof (pi_stopping _ Hp Ho) as Hr. revert Hp'.
  destruct Hs as [[i Hi _|i task Hi|Hn|k i Hk Hth Hi|k Hk Hth|Hc]|[i Hi]]; intros Hp'; [right..|left|right].
  - destruct (owner_take i p) as [Ho' Hd']. split; [|by apply take_rank]. split; [done|]. by rewrite Ho', Hd'.
  - split; [done|]. pose proof (rank_insert pc_rank _ _ _ AtLock Hi). unfold stop_rank, owner_rank. simpl in *. lia.
  - split; [done|]. pose proof (rank_awake (workers p)). unfold stop_rank, owner_rank. rewrite Hn. simpl in *. lia.
  - split; [done|]. unfold stop_rank, owner_rank. rewrite Hk. simpl. apply lookup_lt_Some in Hth. lia.
  - split; [done|]. unfold stop_rank, owner_rank. rewrite Hk. simpl. lia.
  - by apply clear_stopped.
  - split; [done|]. pose proof (rank_insert pc_rank _ _ _ AtLock Hi). unfold stop_rank, owner_rank. simpl in *. lia.
Qed.

(** C20: [stop] returns and drains, when the pool has one owner at a time: called on a pool
    that was reached without a [put_task] during an earlier [stop] and without a failed
    [start] (both hang it for good, [put_during_stop_hangs] and [start_failure_deadlocks]),
    and with no [put_task] and no second [stop] until it returns, it comes to its end on
    every schedule of the workers and with any wake-ups, provided that every task does;
    then every worker has returned, every task that was ever put has been run, and the
    pool is as before its first start. *)
Theorem stop_drains p (Hp : reached p) (Howner : owner p = Outside) (Halive : deadlocked p = false) :
  inevitably runs within_stop stopped (call_stop p).
Proof.
  apply (inevitably_by_rank _ _ _ stop_inv stop_rank); [apply stop_pool_moves|apply stop_pool_step|].
  split; [|done]. apply pool_inv_stop; [by apply pool_inv_reached|done].
Qed.

Lemma stop_drains_witness :
  owner (take_task 0 put_one) = Outside
  ∧ inevitably runs within_stop stopped (call_stop (take_task 0 put_one)).
Proof.
  split; [done|]. apply (stop_drains (take_task 0 put_one)); [apply one_executing_reached|done|done].
Defined.

(** ** Tasks are run *)

(** The rank while the pool runs: a worker that waits has nothing left to do. *)
Definition run_rank_pc (pc : worker_pc) : nat :=
  match pc with Returned | Waiting => 0 | AtLock => 1 | Executing _ => 2 end.

Definition run_rank (p : ThreadPool) : nat :=
  sum_list_with run_rank_pc (workers p) + 2 * length (tasks_queue p).

(** Every task put is finished. *)
Definition all_finished (p : ThreadPool) : Prop := finished p ≡ₚ seq 0 (put p).

Definition serving (p : ThreadPool) : Prop :=
  pool_inv p ∧ owner p = Outside ∧ deadlocked p = false.

Lemma serving_runs p p' : serving p → runs p p' → serving p' ∧ (run_rank p' < run_rank p)%nat.
Proof.
  intros (Hp & Ho & Hd) Hs.
  assert (Hp' : pool_inv p') by (eapply thread_pool_inv_step; [done|by apply step_runs]).
  revert Hp'. destruct Hs as [i Hi _|i task Hi|Hn|k i Hk Hth Hi|k Hk Hth|Hc]; intros Hp'; try congruence.
  - destruct (owner_take i p) as [Ho' Hd']. split; [split; [done|]; by rewrite Ho', Hd'|].
    unfold take_task, run_rank. destruct (tasks_queue p) as [|task rest] eqn:Hq; simpl.
    + pose proof (rank_insert run_rank_pc _ _ _ (if is_running p then Waiting else Returned) Hi).
      rewrite Hq. destruct (is_running p); simpl in *; lia.
    + pose proof (rank_insert run_rank_pc _ _ _ (Executing task) Hi). simpl in *. lia.
  - split; [done|]. pose proof (rank_insert run_rank_pc _ _ _ AtLock Hi). unfold run_rank. simpl in *. lia.
Qed.

Lemma not_at_work ws : (∀ i pc, ws !! i = Some pc → ¬ at_work pc) → ws ≫= task_of = [].
Proof.
  induction ws as [|pc ws IH]; intros H; [done|]. rewrite bind_cons, IH by (intros i; apply (H (S i))).
  pose proof (H 0%nat pc eq_refl) as Hpc. destruct pc; try done. destruct Hpc. by split.
Qed.

(** While a task is not finished, some worker can move. *)
Lemma serving_moves p : serving p → all_finished p ∨ ∃ p', runs p p'.
Proof.
  intros (Hp & Ho & Hd).
  destruct (decide (Exists (λ pc, pc ≠ Waiting ∧ pc ≠ Returned) (workers p))) as [Hex|Hno].
  - right. apply Exists_exists in Hex as (pc & [i Hi]%list_elem_of_lookup_1 & Hw & Hr).
    destruct pc as [| |task|]; [eexists; by eapply runs_take|done|eexists; by eapply runs_finish|done].
  - left. apply not_Exists_Forall in Hno; [|apply _]. rewrite Forall_lookup in Hno.
    assert (Hq : tasks_queue p = []).
    { destruct (tasks_queue p) eqn:Hq; [done|]. destruct (pi_wakeup _ Hp) as (i & pc & Hi & Hw); [by rewrite Hq|].
      by destruct (Hno i pc Hi). }
    pose proof (pi_tasks _ Hp) as Ht. pose proof (pi_order _ Hp) as Hord.
    unfold executing in Ht. rewrite not_at_work, app_nil_r in Ht by done. rewrite Hq, app_nil_r in Hord.
    unfold all_finished. by rewrite <- Ht, Hord.
Qed.

(** No wake-up is lost: a pool that is not being stopped, and whose start has not failed,
    runs every task put so far, on every schedule of its workers. *)
Lemma tasks_run p (Hp : reached p) (Howner : owner p = Outside) (Halive : deadlocked p = false) :
  inevitably runs runs all_finished p.
Proof.
  assert (Hs : serving p) by (split; [by apply pool_inv_reached|done]). clear Hp Howner Halive.
  induction p as [p IH] using (induction_ltof1 _ run_rank). unfold ltof in IH.
  destruct (serving_moves p Hs) as [?|Hmove]; [by apply inevitably_now|].
  apply inevitably_later; [done|]. intros p' Hr.
  destruct (serving_runs p p' Hs Hr) as [? ?]. by apply IH.
Qed.

(** * Where the pool does not keep it *)

(** A thread that cannot be made: [start] runs under the mutex and calls [stop], which
    locks it again; neither that thread nor any worker, nor any later call, moves again. *)
Lemma start_failure_deadlocks p i choice allowed :
  reached p → owner p = Outside → is_running p = false → deadlocked p = false →
  let stuck := put_task (Some i) choice p in
  deadlocked stuck = true ∧ ∀ p', ¬ pool_step allowed stuck p'.
Proof.
  intros Hreach Ho Hr Hd stuck. pose proof (pool_inv_reached p Hreach) as Hp.
  assert (Hpcs : ∀ j pc, workers stuck !! j = Some pc → pc = Returned ∨ pc = AtLock).
  { intros j pc. subst stuck. unfold put_task. rewrite Hr. simpl.
    intros [Hj|[_ [-> _]%lookup_replicate]]%lookup_app_Some; [left|by right].
    destruct (decide (pc = Returned)) as [|Hne]; [done|]. pose proof (pi_live _ Hp j pc Hj Hne) as Hin.
    destruct (pi_idle _ Hp Ho Hr Hd) as [_ Ht]. rewrite Ht in Hin. by apply not_elem_of_nil in Hin. }
  assert (Hdead : deadlocked stuck = true) by (subst stuck; unfold put_task; by rewrite Hr).
  assert (Hout : owner stuck = Outside) by (subst stuck; unfold put_task; by rewrite Hr).
  split; [done|]. intros p' Hs.
  destruct Hs as [? Hs|? [j Hj]|? _ Hx _|? ? _ Hx _ _|_ Hx|_ Hx]; try congruence.
  - destruct Hs as [j _ Hx|j task Hj| | | |]; try congruence. by destruct (Hpcs _ _ Hj).
  - by destruct (Hpcs _ _ Hj).
Qed.

(** [stop] waits for a worker that is told to go on. *)
Definition hanging (p : ThreadPool) : Prop :=
  is_running p = true ∧ ∃ k i pc, owner p = Joining k ∧ threads p !! k = Some i
    ∧ workers p !! i = Some pc ∧ pc ≠ Returned.

Lemma hanging_worker p j pc' ws :
  hanging p → pc' ≠ Returned → ws = <[j := pc']> (workers p) →
  ∃ k i pc, owner p = Joining k ∧ threads p !! k = Some i ∧ ws !! i = Some pc ∧ pc ≠ Returned.
Proof.
  intros (_ & k & i & pc & Ho & Hk & Hi & Hr) Hne ->. exists k, i.
  destruct (decide (j = i)) as [->|]; [exists pc'|exists pc]; split_and!; try done.
  - apply list_lookup_insert_eq. by eapply lookup_lt_Some.
  - by rewrite list_lookup_insert_ne.
Qed.

Lemma hanging_stays allowed p p' : hanging p → pool_step allowed p p' → hanging p'.
Proof.
  intros Hh Hs. pose proof Hh as (Hr & k & i & pc & Ho & Hk & Hi & Hne).
  destruct Hs as [? Hs|? [j Hj]|choice _ _ Hch|? ? _ _ Hx _|Hx _|Hx _]; try congruence.
  - destruct Hs as [j Hj _|j task Hj|Hn|k' i' Hk' Hth Hi'|k' Hk' Hth|Hc]; try congruence.
    + unfold take_task. destruct (tasks_queue p); split; simpl; try done.
      * rewrite Hr. by eapply (hanging_worker p j Waiting).
      * by eapply (hanging_worker p j (Executing _)).
    + split; [done|]. by eapply (hanging_worker p j AtLock).
  - split; [done|]. by eapply (hanging_worker p j AtLock).
  - unfold put_task. rewrite Hr, Hr in *. split; [done|]. destruct choice as [c|]; simpl.
    + by eapply (hanging_worker p c AtLock).
    + by exists k, i, pc.
Qed.

(** A [put_task] during a [stop]: it finds the pool not running and starts it again, and
    then [stop] never comes to its end, whatever happens. *)
Lemma put_during_stop_hangs :
  ∃ p, rtc (pool_step (λ _, True)) new_pool p
    ∧ ∀ p', rtc (pool_step (λ _, True)) p p' → owner p' ≠ Outside ∧ is_running p' = true.
Proof.
  set (p1 := put_task None None new_pool). set (p2 := call_stop p1).
  set (p3 := notify_all p2). set (p4 := put_task None None p3).
  assert (Hnone : ∀ n j, replicate n AtLock !! j ≠ Some Waiting)
    by by intros n j [? _]%lookup_replicate.
  exists p4. split.
  - eapply rtc_l; [apply (step_put _ _ None); [done|done|]; intros j; apply Hnone|].
    eapply rtc_l; [by apply step_stop|].
    eapply rtc_l; [by apply step_runs, runs_notify|].
    apply rtc_once. apply (step_put _ _ None); [done|done|]. intros j. simpl.
    intros [(pc & Hpc & [-> _]%lookup_replicate)%list_lookup_fmap_Some|[_ Hj]]%lookup_app_Some;
      [done|by apply Hnone in Hj].
  - assert (Hh : hanging p4).
    { split; [done|]. destruct thread_num_S as [n Hn]. exists 0%nat, 0%nat, AtLock.
      unfold p4, p3, p2, p1. unfold put_task, start. simpl. by rewrite Hn. }
    intros p' Hrun. cut (hanging p').
    { intros (Hr & k & i & pc & Ho & _). by rewrite Ho. }
    induction Hrun; eauto using hanging_stays.
Qed.
